(** * A segregated-free-list allocator (mm.c): shallow embedding and properties

    The allocator of [mm.c] is embedded as executable functions over an
    explicit machine state: a byte-addressed store, the break of the arena,
    and the array of fourteen list heads.  Values of type [size_t] and
    pointers are integers in [0, 2^64); every arithmetic operation of the C
    text that can wrap has its wrap-around written out.  A load or a store
    outside the arena is a fault, which ends the computation ([None]).

    After the embedding come the notions that the properties are stated
    with: the placement search in the words of the specification,
    scenarios (runs from mm_init on a small arena), the well-formed heap
    (blocks that tile the arena, boundary tags, the doubly linked lists of
    the fourteen classes) and sessions (the states that a caller reaches).
    The properties follow: the codec and the size classes, the placement
    search, the preservation of the well-formed heap by every operation,
    the runs in which the allocator departs from its specification, and
    what holds in every session.  Further properties close the file: the
    rounding, the outcomes of mm_init, what each call of a session leaves
    alone, the structure of the free lists and the operations on them,
    and the reuse of released memory. *)

From Stdlib Require Import ZArith List Lia Bool.
Import ListNotations.
Open Scope Z_scope.

(** ** Machine words *)

Definition wB : Z := 18446744073709551616.   (* 2^64 *)
Definition wrap (x : Z) : Z := x mod wB.

Definition NULL : Z := 0.
Definition MINUS_ONE : Z := wB - 1.          (* (void * )-1 *)

(** ** Constants of mm.c *)

Definition ALIGNMENT : Z := 16.
Definition HEADER_SIZE : Z := 8.
Definition FOOTER_SIZE : Z := 8.
Definition MIN_BLOCK_SIZE : Z := 32.
Definition EXTEND_SIZE : Z := 4096.
Definition SEG_LIST_SIZE : Z := 14.

Definition seg_size_class1 : Z := 32.
Definition seg_size_class2 : Z := 64.
Definition seg_size_class3 : Z := 128.
Definition seg_size_class4 : Z := 256.
Definition seg_size_class5 : Z := 512.
Definition seg_size_class6 : Z := 1024.
Definition seg_size_class7 : Z := 2048.
Definition seg_size_class8 : Z := 4096.
Definition seg_size_class9 : Z := 8192.
Definition seg_size_class10 : Z := 16384.
Definition seg_size_class11 : Z := 32768.
Definition seg_size_class12 : Z := 65536.
Definition seg_size_class13 : Z := 131072.

(** ** Pure helpers *)

(* rounds up to the nearest multiple of ALIGNMENT, in size_t arithmetic *)
Definition align (x : Z) : Z :=
  wrap (ALIGNMENT * (wrap (x + ALIGNMENT - 1) / ALIGNMENT)).

Definition max (x y : Z) : Z := if x >? y then x else y.
Definition min (x y : Z) : Z := if x <? y then x else y.

(* pack the size and the allocated bit into a word *)
Definition pack (size alloc : Z) : Z := Z.lor size alloc.

(* the two decoders applied by get_size and get_alloc to the word read:
   [w & ~0xf] and [w & 0x1] *)
Definition size_bits (w : Z) : Z := Z.land w (wB - 16).
Definition alloc_bit (w : Z) : Z := Z.land w 1.

(* function that search the segregated list to find the appropriate size
   class and return the size class index of the segregated list *)
Definition search_seg_list (size : Z) : Z :=
  if size <? seg_size_class1 then 0
  else if (size >=? seg_size_class1) && (size <? seg_size_class2) then 1
  else if (size >=? seg_size_class2) && (size <? seg_size_class3) then 2
  else if (size >=? seg_size_class3) && (size <? seg_size_class4) then 3
  else if (size >=? seg_size_class4) && (size <? seg_size_class5) then 4
  else if (size >=? seg_size_class5) && (size <? seg_size_class6) then 5
  else if (size >=? seg_size_class6) && (size <? seg_size_class7) then 6
  else if (size >=? seg_size_class7) && (size <? seg_size_class8) then 7
  else if (size >=? seg_size_class8) && (size <? seg_size_class9) then 8
  else if (size >=? seg_size_class9) && (size <? seg_size_class10) then 9
  else if (size >=? seg_size_class10) && (size <? seg_size_class11) then 10
  else if (size >=? seg_size_class11) && (size <? seg_size_class12) then 11
  else if (size >=? seg_size_class12) && (size <? seg_size_class13) then 12
  else 13.

(** ** The byte store *)

Definition store := Z -> Z.

(* an aligned or unaligned 8-byte little-endian load *)
Definition byte_at (m : store) (a : Z) : Z := m a mod 256.

Definition load8 (m : store) (a : Z) : Z :=
  byte_at m a
  + 256 * (byte_at m (a + 1)
  + 256 * (byte_at m (a + 2)
  + 256 * (byte_at m (a + 3)
  + 256 * (byte_at m (a + 4)
  + 256 * (byte_at m (a + 5)
  + 256 * (byte_at m (a + 6)
  + 256 * (byte_at m (a + 7)))))))).

Definition store8 (m : store) (a v : Z) : store :=
  fun x => if (a <=? x) && (x <? a + 8)
           then (v / 2 ^ (8 * (x - a))) mod 256
           else m x.

(* memmove: the source bytes are taken from the store before the copy *)
Definition copy_bytes (m : store) (dst src n : Z) : store :=
  fun x => if (dst <=? x) && (x <? dst + n) then m (src + (x - dst)) else m x.

(* memset *)
Definition fill_bytes (m : store) (dst c n : Z) : store :=
  fun x => if (dst <=? x) && (x <? dst + n) then c mod 256 else m x.

(** ** The machine state *)

Record heap : Type := mkHeap {
  mem_start_brk : Z;      (* mem_heap_lo(): first byte of the arena *)
  mem_max : Z;            (* bytes the growth provider can grant in all *)
  mem_brk : Z;            (* bytes granted so far *)
  bytes : store;
  seg_list : list Z;      (* blk_ptr seg_list[SEG_LIST_SIZE] *)
  heap_list_ptr : Z
}.

Definition set_bytes (s : heap) (m : store) : heap :=
  mkHeap (mem_start_brk s) (mem_max s) (mem_brk s) m (seg_list s) (heap_list_ptr s).
Definition set_brk (s : heap) (b : Z) : heap :=
  mkHeap (mem_start_brk s) (mem_max s) b (bytes s) (seg_list s) (heap_list_ptr s).
Definition set_seg_list (s : heap) (l : list Z) : heap :=
  mkHeap (mem_start_brk s) (mem_max s) (mem_brk s) (bytes s) l (heap_list_ptr s).
Definition set_heap_list_ptr (s : heap) (p : Z) : heap :=
  mkHeap (mem_start_brk s) (mem_max s) (mem_brk s) (bytes s) (seg_list s) p.

Definition mem_heap_lo (s : heap) : Z := mem_start_brk s.
Definition mem_heap_hi (s : heap) : Z := mem_start_brk s + mem_brk s - 1.

(** ** A state-and-fault monad *)

Definition M (A : Type) : Type := heap -> option (A * heap).

Definition ret {A : Type} (a : A) : M A := fun s => Some (a, s).
Definition bind {A B : Type} (c : M A) (k : A -> M B) : M B :=
  fun s => match c s with
           | Some (a, s') => k a s'
           | None => None
           end.
Definition fault {A : Type} : M A := fun _ => None.

Declare Scope mm_scope.
Delimit Scope mm_scope with mm.
Notation "x <- c ;; k" := (bind c (fun x => k))
  (at level 61, c at next level, right associativity) : mm_scope.
Notation "c ;; k" := (bind c (fun _ => k))
  (at level 61, right associativity) : mm_scope.
Open Scope mm_scope.

(** ** Loads and stores *)

Definition in_arena (s : heap) (a n : Z) : bool :=
  (mem_start_brk s <=? a) && (a + n <=? mem_start_brk s + mem_brk s).

(* read and write at the address of bp *)
Definition get (bp : Z) : M Z :=
  fun s => if in_arena s bp 8 then Some (load8 (bytes s) bp, s) else None.
Definition put (bp val : Z) : M unit :=
  fun s => if in_arena s bp 8
           then Some (tt, set_bytes s (store8 (bytes s) bp val))
           else None.

(* the address of bp points to ptr *)
Definition putptr (bp ptr : Z) : M unit := put bp ptr.

Definition memmove (dst src n : Z) : M unit :=
  fun s => if (n =? 0) || (in_arena s dst n && in_arena s src n)
           then Some (tt, set_bytes s (copy_bytes (bytes s) dst src n))
           else None.
Definition memset (dst c n : Z) : M unit :=
  fun s => if (n =? 0) || in_arena s dst n
           then Some (tt, set_bytes s (fill_bytes (bytes s) dst c n))
           else None.

(* seg_list[i] and seg_list[i] = v; an index outside the array is a fault *)
Fixpoint list_set (l : list Z) (n : nat) (v : Z) : list Z :=
  match l, n with
  | [], _ => []
  | _ :: t, O => v :: t
  | h :: t, S n' => h :: list_set t n' v
  end.

Definition seg_get (i : Z) : M Z :=
  fun s => if (0 <=? i) && (i <? SEG_LIST_SIZE)
           then match nth_error (seg_list s) (Z.to_nat i) with
                | Some v => Some (v, s)
                | None => None
                end
           else None.
Definition seg_set (i v : Z) : M unit :=
  fun s => if (0 <=? i) && (i <? SEG_LIST_SIZE) && (Z.to_nat i <? length (seg_list s))%nat
           then Some (tt, set_seg_list s (list_set (seg_list s) (Z.to_nat i) v))
           else None.

(** Modelled from the spec: [mem_sbrk], the arena-growth provider of
    memlib, which is not among the sources.  Given a byte count it extends
    the arena and returns the address immediately following the previous
    end of the arena, or reports exhaustion (the value [(void * )-1] that
    [extend_heap] tests for) and leaves the arena as it is. *)
Definition mem_sbrk (incr : Z) : M Z :=
  fun s => if (0 <=? incr) && (mem_brk s + incr <=? mem_max s)
           then Some (mem_start_brk s + mem_brk s, set_brk s (mem_brk s + incr))
           else Some (MINUS_ONE, s).

(** ** Block navigation *)

(* return the size of block given bp *)
Definition get_size (bp : Z) : M Z := w <- get bp ;; ret (size_bits w).
(* return the allocated bit given bp *)
Definition get_alloc (bp : Z) : M Z := w <- get bp ;; ret (alloc_bit w).

(* compute the address of header and footer given bp *)
Definition p_to_header (bp : Z) : Z := wrap (bp - 8).
Definition p_to_footer (bp : Z) : M Z :=
  sz <- get_size (p_to_header bp) ;; ret (wrap (bp + sz - 16)).

(* compute the address of previous and next block given bp *)
Definition prev_bp (bp : Z) : M Z :=
  sz <- get_size (wrap (bp - 16)) ;; ret (wrap (bp - sz)).
Definition next_bp (bp : Z) : M Z :=
  sz <- get_size (p_to_header bp) ;; ret (wrap (bp + sz)).

(* compute the address of previous and next free block given bp *)
Definition prev_freebp (bp : Z) : Z := bp.
Definition next_freebp (bp : Z) : Z := wrap (bp + 8).

(* compute the address of previous and next block in the list given bp *)
Definition prev_listbp (bp : Z) : M Z := get bp.
Definition next_listbp (bp : Z) : M Z := get (next_freebp bp).

(** ** The free-list index *)

(* function that remove the block from the segregated list given pointer
   and fix the the pointers *)
Definition delete_list_blcok (bp : Z) : M unit :=
  size <- get_size (p_to_header bp) ;;
  let seg_index := search_seg_list size in
  pl <- prev_listbp bp ;;
  if pl =? NULL then
    nl <- next_listbp bp ;;
    if negb (nl =? NULL) then
      nl1 <- next_listbp bp ;;
      putptr (prev_freebp nl1) NULL ;;
      nl2 <- next_listbp bp ;;
      seg_set seg_index nl2
    else
      seg_set seg_index NULL
  else
    nl <- next_listbp bp ;;
    if negb (nl =? NULL) then
      nl1 <- next_listbp bp ;;
      pl1 <- prev_listbp bp ;;
      putptr (prev_freebp nl1) pl1 ;;
      pl2 <- prev_listbp bp ;;
      nl2 <- next_listbp bp ;;
      putptr (next_freebp pl2) nl2
    else
      pl1 <- prev_listbp bp ;;
      putptr (next_freebp pl1) NULL.

(* function that insert the free block into segregated list *)
Definition add_list_block (bp size : Z) : M unit :=
  let seg_index := search_seg_list size in
  curr_head_ptr <- seg_get seg_index ;;
  if negb (curr_head_ptr =? NULL) then
    seg_set seg_index bp ;;
    putptr (prev_freebp bp) NULL ;;
    putptr (next_freebp bp) curr_head_ptr ;;
    putptr (prev_freebp curr_head_ptr) bp
  else
    seg_set seg_index bp ;;
    putptr (prev_freebp bp) NULL ;;
    putptr (next_freebp bp) NULL.

(** ** Coalescing *)

(* function that combines adjacent free blocks into one larger free block
   and remove the appropriate free blocks from the list *)
Definition coalesce (bp : Z) : M Z :=
  pb <- prev_bp bp ;;
  prev_alloc <- get_alloc (p_to_header pb) ;;
  nb <- next_bp bp ;;
  next_alloc <- get_alloc (p_to_header nb) ;;
  size <- get_size (p_to_header bp) ;;
  if negb (prev_alloc =? 0) && negb (next_alloc =? 0) then
    ret bp
  else
    r <- (if (prev_alloc =? 0) && negb (next_alloc =? 0) then
            (* previous block is free *)
            pb1 <- prev_bp bp ;;
            psz <- get_size (p_to_header pb1) ;;
            let size := wrap (size + psz) in
            delete_list_blcok bp ;;
            pb2 <- prev_bp bp ;;
            delete_list_blcok pb2 ;;
            ft <- p_to_footer bp ;;
            put ft (pack size 0) ;;
            pb3 <- prev_bp bp ;;
            put (p_to_header pb3) (pack size 0) ;;
            pb4 <- prev_bp bp ;;
            ret (pb4, size)
          else if negb (prev_alloc =? 0) && (next_alloc =? 0) then
            (* next block is free *)
            nb1 <- next_bp bp ;;
            nsz <- get_size (p_to_header nb1) ;;
            let size := wrap (size + nsz) in
            delete_list_blcok bp ;;
            nb2 <- next_bp bp ;;
            delete_list_blcok nb2 ;;
            put (p_to_header bp) (pack size 0) ;;
            ft <- p_to_footer bp ;;
            put ft (pack size 0) ;;
            ret (bp, size)
          else
            (* both of previous and next blocks are free *)
            nb1 <- next_bp bp ;;
            nft <- p_to_footer nb1 ;;
            nsz <- get_size nft ;;
            pb1 <- prev_bp bp ;;
            psz <- get_size (p_to_header pb1) ;;
            let size := wrap (size + wrap (nsz + psz)) in
            delete_list_blcok bp ;;
            nb2 <- next_bp bp ;;
            delete_list_blcok nb2 ;;
            pb2 <- prev_bp bp ;;
            delete_list_blcok pb2 ;;
            nb3 <- next_bp bp ;;
            nft1 <- p_to_footer nb3 ;;
            put nft1 (pack size 0) ;;
            pb3 <- prev_bp bp ;;
            put (p_to_header pb3) (pack size 0) ;;
            pb4 <- prev_bp bp ;;
            ret (pb4, size)) ;;
    (* add new free block to seg list *)
    add_list_block (fst r) (snd r) ;;
    ret (fst r).

(* function that extends the heap and create free blocks *)
Definition extend_heap (wsize : Z) : M Z :=
  let asize := align wsize in
  bp <- mem_sbrk asize ;;
  if bp =? MINUS_ONE then
    ret NULL
  else
    (* add to segregated list *)
    add_list_block bp asize ;;
    (* set free block header and footer and epilogue header *)
    put (p_to_header bp) (pack asize 0) ;;
    ft <- p_to_footer bp ;;
    put ft (pack asize 0) ;;
    nb <- next_bp bp ;;
    put (p_to_header nb) (pack 0 1) ;;
    coalesce bp.

(** ** Placement *)

(* function that place the requested block into free block.  The local
   [next_block] of the C text is assigned only in the splitting branch and
   read only in the other one, where it is therefore indeterminate: the
   value it happens to hold there is the parameter [next_block]. *)
Definition place (next_block : Z) (bp asize : Z) : M Z :=
  delete_list_blcok bp ;;
  csize <- get_size (p_to_header bp) ;;
  if wrap (csize - asize) >=? MIN_BLOCK_SIZE then
    put (p_to_header bp) (pack asize 1) ;;
    ft <- p_to_footer bp ;;
    put ft (pack asize 1) ;;
    _ <- next_bp bp ;;
    nb1 <- next_bp bp ;;
    put (p_to_header nb1) (pack (wrap (csize - asize)) 0) ;;
    nb2 <- next_bp bp ;;
    nft <- p_to_footer nb2 ;;
    put nft (pack (wrap (csize - asize)) 0) ;;
    nb3 <- next_bp bp ;;
    add_list_block nb3 (wrap (csize - asize)) ;;
    ret bp
  else
    put (p_to_header bp) (pack csize 1) ;;
    ft <- p_to_footer bp ;;
    put ft (pack csize 1) ;;
    a <- get_alloc (p_to_header next_block) ;;
    (if a =? 0 then
       nft <- p_to_footer next_block ;;
       w <- get (p_to_header next_block) ;;
       put nft w
     else ret tt) ;;
    ret bp.

(** ** The allocator interface *)

(* Initialize: return false on error, true on success. *)
Fixpoint clear_seg_list (n : nat) (i : Z) : M unit :=
  match n with
  | O => ret tt
  | S n' => seg_set i NULL ;; clear_seg_list n' (i + 1)
  end.

Definition mm_init : M bool :=
  clear_seg_list (Z.to_nat SEG_LIST_SIZE) 0 ;;
  hp <- mem_sbrk MIN_BLOCK_SIZE ;;
  (fun s => Some (tt, set_heap_list_ptr s hp)) ;;
  if hp =? NULL then ret false
  else
    put hp 0 ;;
    put (wrap (hp + HEADER_SIZE)) (pack (2 * HEADER_SIZE) 1) ;;
    put (wrap (hp + 2 * FOOTER_SIZE)) (pack (2 * FOOTER_SIZE) 1) ;;
    r <- extend_heap EXTEND_SIZE ;;
    if r =? NULL then ret false else ret true.

(* the bounded scan of one size-class list in malloc:
   for(int i = 0; i < MIN_BLOCK_SIZE; i++) ... ; [Some bp] is the early
   return of the function, [None] the exit of the loop *)
Fixpoint malloc_scan (next_block : Z) (n : nat) (bp asize : Z) : M (option Z) :=
  match n with
  | O => ret None
  | S n' =>
      if bp =? NULL then ret None
      else
        sz <- get_size (p_to_header bp) ;;
        if asize <=? sz then
          place next_block bp asize ;;
          ret (Some bp)
        else
          nl <- next_listbp bp ;;
          malloc_scan next_block n' nl asize
  end.

(* while((seg_index < SEG_LIST_SIZE) && (bp == NULL)); the loop leaves
   after at most SEG_LIST_SIZE rounds, which [n] counts *)
Fixpoint malloc_escalate (n : nat) (seg_index bp : Z) : M (Z * Z) :=
  match n with
  | O => ret (seg_index, bp)
  | S n' =>
      if (seg_index <? SEG_LIST_SIZE) && (bp =? NULL) then
        bp' <- seg_get seg_index ;;
        malloc_escalate n' (seg_index + 1) bp'
      else ret (seg_index, bp)
  end.

Definition malloc (next_block : Z) (size : Z) : M Z :=
  if size =? 0 then ret NULL
  else
    let asize := if size <=? HEADER_SIZE * 2 then MIN_BLOCK_SIZE
                 else align (wrap (size + HEADER_SIZE * 2)) in
    let seg_index := search_seg_list asize in
    let extendsize := max asize EXTEND_SIZE in
    found <- (if negb (seg_index =? SEG_LIST_SIZE) then
                bp <- seg_get seg_index ;;
                if negb (bp =? NULL)
                then malloc_scan next_block (Z.to_nat MIN_BLOCK_SIZE) bp asize
                else ret None
              else ret None) ;;
    match found with
    | Some bp => ret bp
    | None =>
        r <- malloc_escalate (Z.to_nat SEG_LIST_SIZE) (seg_index + 1) NULL ;;
        bp <- (if snd r =? NULL then extend_heap extendsize else ret (snd r)) ;;
        place next_block bp asize
    end.

(* free: free the block and add to the list *)
Definition free (ptr : Z) : M unit :=
  if ptr =? NULL then ret tt
  else
    size <- get (p_to_header ptr) ;;
    (* set header and footer of the block to unallocated *)
    put (p_to_header ptr) (pack size 0) ;;
    ft <- p_to_footer ptr ;;
    put ft (pack size 0) ;;
    (* add to the list *)
    add_list_block ptr size ;;
    _ <- coalesce ptr ;;
    ret tt.

(* realloc *)
Definition realloc (next_block : Z) (oldptr size : Z) : M Z :=
  if oldptr =? NULL then malloc next_block size
  else if size =? 0 then free oldptr ;; ret NULL
  else
    newptr <- malloc next_block size ;;
    osz <- get_size (p_to_header oldptr) ;;
    let copysize := min size (wrap (osz - HEADER_SIZE)) in
    memmove newptr oldptr copysize ;;
    free oldptr ;;
    ret newptr.

(* calloc *)
Definition calloc (next_block : Z) (nmemb size : Z) : M Z :=
  let size := wrap (size * nmemb) in
  r <- malloc next_block size ;;
  if negb (r =? NULL) then memset r 0 size ;; ret r
  else ret r.

(* Return whether the pointer is in the heap. *)
Definition in_heap (p : Z) (s : heap) : bool :=
  (p <=? mem_heap_hi s) && (p >=? mem_heap_lo s).

(* Return whether the pointer is aligned. *)
Definition aligned (p : Z) : bool := align p =? p.

(* checks both the heap and the free list.  The walk over the blocks is
   compiled under DEBUG only, which the source leaves undefined: what is
   left of the function returns true *)
Definition mm_checkheap (lineno : Z) : M bool := ret true.


(** ** The placement search, as the specification words it *)

(* the rounded block size of a request: header and footer included, a
   multiple of 16, at least the minimum block size *)
Definition adjusted_size (size : Z) : Z :=
  if size <=? HEADER_SIZE * 2 then MIN_BLOCK_SIZE
  else align (wrap (size + HEADER_SIZE * 2)).

(* the size that the header of the block at bp encodes *)
Definition block_size (s : heap) (bp : Z) : Z :=
  size_bits (load8 (bytes s) (p_to_header bp)).

(* the blocks met when following the next links from bp: at most n *)
Fixpoint candidates (s : heap) (n : nat) (bp : Z) : list Z :=
  match n with
  | O => []
  | S n' => if bp =? NULL then []
            else bp :: candidates s n' (load8 (bytes s) (next_freebp bp))
  end.

Inductive decision : Type :=
| Fit (bp : Z)          (* first fit among the scanned blocks of the class *)
| Escalate (bp : Z)     (* head of the first non-empty larger class *)
| Grow (nbytes : Z).    (* arena growth *)

Definition placement_search (s : heap) (asize : Z) : decision :=
  let k := Z.to_nat (search_seg_list asize) in
  match find (fun bp => asize <=? block_size s bp)
             (candidates s 32 (nth k (seg_list s) NULL)) with
  | Some bp => Fit bp
  | None =>
      match find (fun h => negb (h =? NULL)) (skipn (S k) (seg_list s)) with
      | Some h => Escalate h
      | None => Grow (max asize EXTEND_SIZE)
      end
  end.

(* the header and the next link of a scanned block can be read *)
Definition scannable (s : heap) (bp : Z) : Prop :=
  in_arena s (p_to_header bp) 8 = true /\ in_arena s (next_freebp bp) 8 = true.

(** ** A block between two neighbours marked allocated *)

(* the size that the footer before the block at bp encodes, and the
   address of the footer of the block at bp *)
Definition prev_size (s : heap) (bp : Z) : Z :=
  size_bits (load8 (bytes s) (wrap (bp - 16))).
Definition footer_addr (s : heap) (bp : Z) : Z :=
  wrap (bp + block_size s bp - 16).

(* The block at [bp] has room for the two links, lies inside the arena
   with the footer of its predecessor and the header of its successor,
   both neighbours are marked allocated, and the head of the list of its
   size class, if there is one, lies before the predecessor or after the
   block. *)
Record lone_block (s : heap) (bp : Z) : Prop := mkLone {
  lone_arena : 0 <= mem_start_brk s /\ mem_start_brk s + mem_brk s < wB;
  lone_heads : length (seg_list s) = 14%nat;
  lone_size : 32 <= block_size s bp;
  lone_prev : 16 <= prev_size s bp /\ mem_start_brk s <= bp - prev_size s bp - 8;
  lone_end : bp + block_size s bp <= mem_start_brk s + mem_brk s;
  lone_prev_alloc : alloc_bit (load8 (bytes s) (bp - prev_size s bp - 8)) = 1;
  lone_next_alloc : alloc_bit (load8 (bytes s) (bp + block_size s bp - 8)) = 1;
  lone_head :
    let h := nth (Z.to_nat (search_seg_list (load8 (bytes s) (p_to_header bp))))
                 (seg_list s) NULL in
    h = NULL \/
    (mem_start_brk s <= h /\ h + 8 <= mem_start_brk s + mem_brk s /\
     (h + 8 <= bp - prev_size s bp - 8 \/ bp + block_size s bp <= h))
}.

(** ** The block that a release leaves *)

(* the physical neighbours of the block at bp, as prev_bp and next_bp
   find them, and whether the header of a block has the allocated flag 0 *)
Definition before_bp (s : heap) (bp : Z) : Z := wrap (bp - prev_size s bp).
Definition after_bp (s : heap) (bp : Z) : Z := wrap (bp + block_size s bp).
Definition marked_free (s : heap) (bp : Z) : bool :=
  alloc_bit (load8 (bytes s) (p_to_header bp)) =? 0.

(* the block that the coalescer makes of the block at bp: it starts at the
   previous block when that one is marked free, and its size adds the
   sizes of the neighbours marked free *)
Definition merged_bp (s : heap) (bp : Z) : Z :=
  if marked_free s (before_bp s bp) then before_bp s bp else bp.
Definition merged_size (s : heap) (bp : Z) : Z :=
  (if marked_free s (before_bp s bp) then prev_size s bp else 0)
  + block_size s bp
  + (if marked_free s (after_bp s bp) then block_size s (after_bp s bp) else 0).

(** ** Scenarios *)

(* the state before mm_init: an arena at address [lo] able to grant [cap]
   bytes, every byte zero, the list heads zero as C globals are *)
Definition boot (lo cap : Z) : heap :=
  mkHeap lo cap 0 (fun _ => 0) (repeat 0 14) NULL.

Definition arena0 : heap := boot 65536 8192.

(* the outcome of a computation: its value, and observations of the state
   it leaves *)
Definition result {A : Type} (c : M A) (s : heap) : option A :=
  match c s with Some (a, _) => Some a | None => None end.
Definition state_after {A : Type} (c : M A) (s : heap) : heap :=
  match c s with Some (_, s') => s' | None => s end.
Definition after {A : Type} (c : M A) (s : heap) (P : A -> heap -> Prop) : Prop :=
  match c s with Some (a, s') => P a s' | None => False end.
Definition peek (a : Z) (s : heap) : Z := load8 (bytes s) a.

Definition SIZE_MAX : Z := wB - 1.

(* the start of a session on [arena0]: mm_init, then a request of 16
   bytes, the local next_block of place holding the payload address of the
   prologue *)
Definition started : heap := state_after mm_init arena0.
Definition served : heap := state_after (malloc 65552 16) started.

(* and a second request of 16 bytes *)
Definition served_twice : heap := state_after (malloc 65552 16) served.

(* In every scenario [nb] stands for what the local next_block of place
   holds when the placement does not split. *)
Module Scenario.

(* one allocation, released at once: the block is the first of the arena
   and the rest of the arena, after it, is free.  The value is the block,
   the size its header gives before the release and after it. *)
Definition free_first (nb : Z) : M (Z * Z * Z) :=
  _ <- mm_init ;;
  a <- malloc nb 16 ;;
  before <- get_size (p_to_header a) ;;
  free a ;;
  now <- get_size (p_to_header a) ;;
  ret (a, before, now).

(* three blocks in a row, all allocated *)
Definition three_blocks (nb : Z) : M (Z * Z * Z) :=
  _ <- mm_init ;;
  a <- malloc nb 16 ;;
  b <- malloc nb 16 ;;
  c <- malloc nb 16 ;;
  ret (a, b, c).

(* two neighbours released one after the other *)
Definition free_neighbours (nb : Z) : M (Z * Z) :=
  _ <- mm_init ;;
  a <- malloc nb 16 ;;
  b <- malloc nb 16 ;;
  _ <- malloc nb 16 ;;
  free a ;;
  free b ;;
  ret (a, b).

(* a released block is split by a later request and its remainder lands
   next to a free block; a release ends the scenario *)
Definition free_split_free (nb : Z) : M (Z * Z) :=
  _ <- mm_init ;;
  a <- malloc nb 100 ;;
  b <- malloc nb 16 ;;
  free a ;;
  free b ;;
  c <- malloc nb 16 ;;
  free c ;;
  ret (a, b).

(* a request that no free block and no growth can serve *)
Definition exhaust (nb : Z) : M Z :=
  _ <- mm_init ;;
  malloc nb 5000.

(* a request whose size wraps when header and footer are added *)
Definition huge_request (nb : Z) : M (Z * Z * Z) :=
  _ <- mm_init ;;
  a <- malloc nb 16 ;;
  b <- malloc nb 16 ;;
  free a ;;
  x <- malloc nb (SIZE_MAX - 19) ;;
  ret (a, b, x).

(* the caller stores a word in its block, then resizes the block to
   SIZE_MAX bytes.  The value is the new block, the word stored, and the
   word found at the same offset of the new block. *)
Definition huge_realloc (nb : Z) : M (Z * Z * Z) :=
  _ <- mm_init ;;
  p <- malloc nb 32 ;;
  q <- malloc nb 32 ;;
  _ <- malloc nb 16 ;;
  free q ;;
  put (p + 16) 12345 ;;
  old <- get (p + 16) ;;
  r <- realloc nb p SIZE_MAX ;;
  new <- get (r + 16) ;;
  ret (r, old, new).

(* as above, the word stored being an address inside another block of
   the caller; one more request follows *)
Definition forged_link (nb : Z) : M (Z * Z) :=
  _ <- mm_init ;;
  p <- malloc nb 48 ;;
  q <- malloc nb 32 ;;
  u <- malloc nb 128 ;;
  free q ;;
  put (p + 24) (u + 8) ;;
  _ <- realloc nb p SIZE_MAX ;;
  v <- malloc nb 16 ;;
  ret (u, v).

(* an exact fit: the placement of 4064 bytes in the free block of 4064
   bytes that follows the allocated block a does not split.  The value is
   a and the header word of a before and after the placement. *)
Definition exact_fit (nb : Z) : M (Z * Z * Z) :=
  _ <- mm_init ;;
  a <- malloc 0 16 ;;
  before <- get (p_to_header a) ;;
  _ <- place nb (a + 32) 4064 ;;
  now <- get (p_to_header a) ;;
  ret (a, before, now).

End Scenario.

(** ** The layout of a well-formed arena *)

(* a block of the arena: the address of its payload, its size (header and
   footer included) and the allocated flag of its boundary tags *)
Record blk : Type := mkBlk { b_ptr : Z; b_size : Z; b_flag : bool }.

(* the word that header and footer of a block hold *)
Definition tagw (b : blk) : Z := b_size b + Z.b2z (b_flag b).

(* the blocks [bs] tile the arena from the payload address [a] to [e] *)
Fixpoint chain (a : Z) (bs : list blk) (e : Z) : Prop :=
  match bs with
  | [] => a = e
  | b :: r => b_ptr b = a /\ 32 <= b_size b /\ b_size b mod 16 = 0 /\
              chain (a + b_size b) r e
  end.

(* header and footer of the block hold its word *)
Definition tagged (m : store) (b : blk) : Prop :=
  load8 m (b_ptr b - 8) = tagw b /\ load8 m (b_ptr b + b_size b - 16) = tagw b.

(* a doubly linked list segment in the store: the blocks of [l] in order,
   the first with previous link [prev], the last with next link [nxt] *)
Fixpoint dll (m : store) (prev : Z) (l : list Z) (nxt : Z) : Prop :=
  match l with
  | [] => True
  | x :: r => load8 m x = prev /\ load8 m (x + 8) = hd nxt r /\ dll m x r nxt
  end.

(* the free lists, one per class index *)
Definition lists : Type := Z -> list Z.
Definition upd (fl : lists) (k : Z) (l : list Z) : lists :=
  fun i => if i =? k then l else fl i.

(* the store [m'] differs from [m] at most on the 8-byte slots that start
   at the addresses of [slots] *)
Definition differ_on (m m' : store) (slots : list Z) : Prop :=
  forall y, (forall w, In w slots -> y < w \/ w + 8 <= y) -> m' y = m y.

(* the stores of add_list_block and of delete_list_blcok *)
Definition link_head_store (m : store) (bp h : Z) : store :=
  let m1 := store8 (store8 m bp NULL) (bp + 8) h in
  if h =? NULL then m1 else store8 m1 h bp.
Definition unlink_store (m : store) (pl nl : Z) : store :=
  let m1 := if nl =? NULL then m else store8 m nl pl in
  if pl =? NULL then m1 else store8 m1 (pl + 8) nl.

(* The heap: prologue, blocks from the first payload address to the break,
   boundary tags, list heads and links; every member of a list is a block
   of the class of the list. *)
Record hp (s : heap) (bs : list blk) (fl : lists) : Prop := mkHp {
  hp_lo : 0 < mem_start_brk s /\ mem_start_brk s mod 16 = 0;
  hp_hi : mem_brk s <= mem_max s /\ mem_start_brk s + mem_max s < wB;
  hp_len : length (seg_list s) = 14%nat;
  hp_prologue : load8 (bytes s) (mem_start_brk s + 8) = 17 /\
                load8 (bytes s) (mem_start_brk s + 16) = 17;
  hp_chain : chain (mem_start_brk s + 32) bs (mem_start_brk s + mem_brk s);
  hp_epilogue : load8 (bytes s) (mem_start_brk s + mem_brk s - 8) = 1;
  hp_tags : Forall (tagged (bytes s)) bs;
  hp_heads : forall k, 0 <= k < 14 ->
             nth (Z.to_nat k) (seg_list s) NULL = hd NULL (fl k);
  hp_links : forall k, 0 <= k < 14 -> dll (bytes s) NULL (fl k) NULL;
  hp_listed : forall k x, 0 <= k < 14 -> In x (fl k) ->
              exists b, In b bs /\ b_ptr b = x /\ search_seg_list (b_size b) = k;
  hp_nodup : forall k, 0 <= k < 14 -> NoDup (fl k)
}.

(* a block is in the list of its class *)
Definition listed (fl : lists) (b : blk) : Prop :=
  In (b_ptr b) (fl (search_seg_list (b_size b))).

(* well-formed: a heap in which every block whose flag is 0 is listed *)
Definition wf (s : heap) (bs : list blk) (fl : lists) : Prop :=
  hp s bs fl /\ forall b, In b bs -> b_flag b = false -> listed fl b.

(* a live block: a block of the arena in no list *)
Definition live (bs : list blk) (fl : lists) (b : blk) : Prop :=
  In b bs /\ ~ listed fl b.

(* free-list members lie 16 bytes apart at least *)
Definition apart (x y : Z) : Prop := x + 16 <= y \/ y + 16 <= x.

(* the members of a list are distinct non-null addresses, pairwise 16
   bytes apart *)
Definition spaced (l : list Z) : Prop :=
  NoDup l /\ forall x, In x l -> 0 < x < wB /\ forall y, In y l -> x = y \/ apart x y.


(* the bytes of a block, header and footer included; the bytes of the
   blocks that are in a list *)
Definition in_block (b : blk) (y : Z) : Prop :=
  b_ptr b - 8 <= y < b_ptr b + b_size b - 8.
Definition free_region (bs : list blk) (fl : lists) (y : Z) : Prop :=
  exists b, In b bs /\ listed fl b /\ in_block b y.

(* the store [m'] differs from [m] inside the region [R] only *)
Definition changes_within (R : Z -> Prop) (m m' : store) : Prop :=
  forall y, ~ R y -> m' y = m y.

(* the arena itself is as it was *)
Definition same_arena (s s' : heap) : Prop :=
  mem_start_brk s' = mem_start_brk s /\ mem_max s' = mem_max s /\
  mem_brk s' = mem_brk s.

(* prologue and epilogue, as the blocks before the first block and after
   the last one *)
Definition prologue (s : heap) : blk := mkBlk (mem_start_brk s + 16) 16 true.
Definition epilogue (s : heap) : blk := mkBlk (mem_start_brk s + mem_brk s) 0 true.

(* the heap but for its epilogue word, as it is before a growth of the
   arena writes a header there *)
Definition stamp_epilogue (s : heap) : heap :=
  set_bytes s (store8 (bytes s) (mem_start_brk s + mem_brk s - 8) 1).
Definition hp_open (s : heap) (bs : list blk) (fl : lists) : Prop :=
  hp (stamp_epilogue s) bs fl.

(* a value of the local [next_block] of place with which the branch that
   reads it writes nothing: the payload address of the prologue or of a
   block whose flag is 1 *)
Definition settled (s : heap) (bs : list blk) (nb : Z) : Prop :=
  nb = mem_start_brk s + 16 \/
  exists c, In c bs /\ b_flag c = true /\ b_ptr c = nb.

(* the bytes of the live blocks, boundary tags included, are in [m'] what
   they are in [m] *)
Definition keeps (bs : list blk) (fl : lists) (m m' : store) : Prop :=
  forall c a, live bs fl c -> in_block c a -> m' a = m a.

(* what an allocation of [size] bytes that returns [p] in the state [s']
   has done to the well-formed heap [s]: [p] is the payload address of a
   new live block [b1], large enough, in a well-formed heap whose other
   live blocks are the former ones, untouched *)
Definition malloc_post (s : heap) (bs : list blk) (fl : lists) (size p : Z)
    (s' : heap) : Prop :=
  exists bs' fl' b1,
    p = b_ptr b1 /\
    wf s' bs' fl' /\
    mem_start_brk s' = mem_start_brk s /\ mem_max s' = mem_max s /\
    mem_brk s <= mem_brk s' /\
    keeps bs fl (bytes s) (bytes s') /\
    In b1 bs' /\ b_flag b1 = true /\ size + 16 <= b_size b1 /\
    (forall c, live bs' fl' c <-> live bs fl c \/ c = b1) /\
    (forall c, live bs fl c -> c <> b1) /\
    (forall c, In c bs -> b_flag c = true -> b_ptr c <> b_ptr b1 -> In c bs').

(** ** Sessions *)

(* what the uninitialised local [next_block] of place may hold in a
   session: the payload address of the prologue or a pointer that the
   caller owns *)
Definition calm (s : heap) (L : list Z) (nb : Z) : Prop :=
  nb = mem_start_brk s + 16 \/ In nb L.

(* The states that a caller reaches, with the pointers it owns: mm_init on
   an arena that has granted nothing, then calls that return, each
   request small enough for its rounding not to wrap, frees and
   reallocations of owned pointers, and writes into owned payloads.
   (malloc(0), free(NULL) and realloc(p, 0), realloc(NULL, n) are the
   no-op, free and malloc.) *)
Inductive session : heap -> list Z -> Prop :=
| session_init (s0 s : heap) :
    mem_brk s0 = 0 -> 0 < mem_start_brk s0 -> mem_start_brk s0 mod 16 = 0 ->
    mem_start_brk s0 + mem_max s0 < wB -> 32 + 4096 <= mem_max s0 ->
    length (seg_list s0) = 14%nat ->
    mm_init s0 = Some (true, s) ->
    session s []
| session_malloc (s : heap) (L : list Z) (nb n p : Z) (s' : heap) :
    session s L -> calm s L nb -> 0 < n -> n + 31 < wB ->
    malloc nb n s = Some (p, s') ->
    session s' (p :: L)
| session_calloc (s : heap) (L : list Z) (nb k n p : Z) (s' : heap) :
    session s L -> calm s L nb -> 0 < n * k -> n * k + 31 < wB ->
    calloc nb k n s = Some (p, s') ->
    session s' (p :: L)
| session_realloc (s : heap) (L : list Z) (nb p n q : Z) (s' : heap) :
    session s L -> In p L -> calm s L nb -> 0 < n -> n + 31 < wB ->
    realloc nb p n s = Some (q, s') ->
    session s' (q :: remove Z.eq_dec p L)
| session_free (s : heap) (L : list Z) (p : Z) (s' : heap) :
    session s L -> In p L ->
    free p s = Some (tt, s') ->
    session s' (remove Z.eq_dec p L)
| session_write (s : heap) (L : list Z) (p : Z) (m' : store) :
    session s L -> In p L ->
    changes_within (fun a => p <= a < p + block_size s p - 16) (bytes s) m' ->
    session (set_bytes s m') L.

(* the pointers owned are the payload addresses of the live blocks of a
   well-formed heap *)
Definition owns (s : heap) (L : list Z) : Prop :=
  exists bs fl, wf s bs fl /\
    forall p, In p L <-> exists c, live bs fl c /\ b_ptr c = p.

(** ** What a call leaves alone *)

(* the payload of the block at [p]: the bytes between its header and its
   footer *)
Definition payload (s : heap) (p a : Z) : Prop :=
  p <= a < p + block_size s p - 16.

(* the block at [q] has in [s'] the size and the payload bytes that it has
   in [s] *)
Definition untouched (s s' : heap) (q : Z) : Prop :=
  block_size s' q = block_size s q /\
  forall a, payload s q a -> bytes s' a = bytes s a.
(** * Properties *)

(** ** Words and the boundary-tag codec *)

Lemma wrap_small (x : Z) : 0 <= x < wB -> wrap x = x.
Proof. intros H. unfold wrap. apply Z.mod_small. exact H. Qed.

Lemma wrap_range (x : Z) : 0 <= wrap x < wB.
Proof. unfold wrap. apply Z.mod_pos_bound. reflexivity. Qed.

Lemma mask_testbit (n : Z) :
  0 <= n -> Z.testbit (wB - 16) n = (4 <=? n) && (n <? 64).
Proof.
  intros Hn.
  change (wB - 16) with (Z.shiftl (Z.ones 60) 4).
  rewrite Z.shiftl_spec by exact Hn.
  destruct (Z.leb_spec 4 n) as [H4|H4]; simpl.
  - destruct (Z.ltb_spec n 64) as [H64|H64].
    + apply Z.ones_spec_low. lia.
    + apply Z.ones_spec_high. lia.
  - apply Z.testbit_neg_r. lia.
Qed.

Lemma size_bits_eq (w : Z) : 0 <= w < wB -> size_bits w = 16 * (w / 16).
Proof.
  intros Hw. unfold size_bits.
  apply Z.bits_inj'. intros n Hn.
  rewrite Z.land_spec, mask_testbit by exact Hn.
  replace (16 * (w / 16)) with (Z.shiftl (Z.shiftr w 4) 4).
  2:{ rewrite Z.shiftl_mul_pow2, Z.shiftr_div_pow2 by lia.
      change (2 ^ 4) with 16. lia. }
  rewrite Z.shiftl_spec by exact Hn.
  destruct (Z.leb_spec 4 n) as [H4|H4]; simpl.
  - rewrite Z.shiftr_spec by lia. replace (n - 4 + 4) with n by lia.
    destruct (Z.ltb_spec n 64) as [H64|H64].
    + apply andb_true_r.
    + rewrite andb_false_r. symmetry.
      destruct (Z.eq_dec w 0) as [->|Hne]; [apply Z.testbit_0_l|].
      apply Z.bits_above_log2; [lia|].
      apply Z.lt_le_trans with 64; [|exact H64].
      apply Z.log2_lt_pow2; [lia|]. exact (proj2 Hw).
  - rewrite andb_false_r. symmetry. apply Z.testbit_neg_r. lia.
Qed.

Lemma alloc_bit_eq (w : Z) : alloc_bit w = w mod 2.
Proof. unfold alloc_bit. change 1 with (Z.ones 1). now rewrite Z.land_ones. Qed.

Lemma pack_add (size alloc : Z) :
  0 <= size -> size mod 16 = 0 -> 0 <= alloc < 16 -> pack size alloc = size + alloc.
Proof.
  intros Hs Hm Ha. unfold pack.
  assert (Hsize : size = Z.shiftl (size / 16) 4).
  { rewrite Z.shiftl_mul_pow2 by lia. change (2 ^ 4) with 16.
    pose proof (Z.div_mod size 16). lia. }
  assert (Hl : Z.land size alloc = 0).
  { rewrite Hsize. apply Z.bits_inj'. intros n Hn.
    rewrite Z.land_spec, Z.bits_0, Z.shiftl_spec by exact Hn.
    destruct (Z.ltb_spec n 4) as [H4|H4].
    - rewrite (Z.testbit_neg_r _ (n - 4)) by lia. reflexivity.
    - rewrite andb_comm. replace (Z.testbit alloc n) with false; [reflexivity|].
      symmetry. destruct (Z.eq_dec alloc 0) as [->|Hne]; [apply Z.testbit_0_l|].
      apply Z.bits_above_log2; [lia|].
      apply Z.lt_le_trans with 4; [|exact H4].
      apply Z.log2_lt_pow2; [lia|]. change (2 ^ 4) with 16. lia. }
  rewrite <- (Z.lxor_lor _ _ Hl). symmetry. apply Z.add_nocarry_lxor. exact Hl.
Qed.

Lemma size_bits_tag (sz b : Z) :
  0 <= sz < wB -> sz mod 16 = 0 -> 0 <= b < 16 -> size_bits (sz + b) = sz.
Proof.
  intros Hs Hm Hb.
  assert (Hq : sz = 16 * (sz / 16)) by (pose proof (Z.div_mod sz 16); lia).
  assert (Hlt : sz + b < wB).
  { unfold wB in *. lia. }
  rewrite size_bits_eq by lia.
  replace ((sz + b) / 16) with (sz / 16); [lia|].
  apply Z.div_unique with b; lia.
Qed.

Lemma alloc_bit_tag (sz b : Z) :
  sz mod 16 = 0 -> 0 <= b < 2 -> alloc_bit (sz + b) = b.
Proof.
  intros Hm Hb. rewrite alloc_bit_eq.
  assert (Hq : sz = 2 * (8 * (sz / 16))) by (pose proof (Z.div_mod sz 16); lia).
  symmetry. apply Z.mod_unique with (8 * (sz / 16)); lia.
Qed.

(** ** The byte store: loads after stores *)

Lemma byte_at_range (m : store) (a : Z) : 0 <= byte_at m a < 256.
Proof. unfold byte_at. apply Z.mod_pos_bound. reflexivity. Qed.

Lemma load8_range (m : store) (a : Z) : 0 <= load8 m a < wB.
Proof.
  unfold load8, wB.
  pose proof (byte_at_range m a). pose proof (byte_at_range m (a + 1)).
  pose proof (byte_at_range m (a + 2)). pose proof (byte_at_range m (a + 3)).
  pose proof (byte_at_range m (a + 4)). pose proof (byte_at_range m (a + 5)).
  pose proof (byte_at_range m (a + 6)). pose proof (byte_at_range m (a + 7)).
  lia.
Qed.

Lemma load8_ext (m m' : store) (a : Z) :
  (forall x, a <= x < a + 8 -> m' x = m x) -> load8 m' a = load8 m a.
Proof.
  intros H. unfold load8, byte_at.
  rewrite (H a), (H (a + 1)), (H (a + 2)), (H (a + 3)), (H (a + 4)),
    (H (a + 5)), (H (a + 6)), (H (a + 7)) by lia.
  reflexivity.
Qed.

Lemma store8_outside (m : store) (a v x : Z) :
  x < a \/ a + 8 <= x -> store8 m a v x = m x.
Proof.
  intros H. unfold store8.
  destruct (Z.leb_spec a x); destruct (Z.ltb_spec x (a + 8)); simpl; try reflexivity; lia.
Qed.

Lemma store8_inside (m : store) (a v i : Z) :
  0 <= i < 8 -> byte_at (store8 m a v) (a + i) = (v / 2 ^ (8 * i)) mod 256.
Proof.
  intros H. unfold byte_at, store8.
  destruct (Z.leb_spec a (a + i)); destruct (Z.ltb_spec (a + i) (a + 8)); simpl; try lia.
  replace (a + i - a) with i by lia.
  apply Z.mod_mod. lia.
Qed.

Lemma load8_store8_other (m : store) (a v b : Z) :
  b + 8 <= a \/ a + 8 <= b -> load8 (store8 m a v) b = load8 m b.
Proof.
  intros H. apply load8_ext. intros x Hx. apply store8_outside. lia.
Qed.

Lemma load8_store8_same (m : store) (a v : Z) :
  0 <= v < wB -> load8 (store8 m a v) a = v.
Proof.
  intros Hv. unfold load8.
  replace (byte_at (store8 m a v) a) with (byte_at (store8 m a v) (a + 0))
    by (f_equal; lia).
  rewrite !store8_inside by lia.
  change (8 * 0) with 0. change (2 ^ 0) with 1. rewrite Z.div_1_r.
  assert (Hstep : forall k k', 0 <= k -> k' = k + 1 ->
            v / 2 ^ (8 * k) = (v / 2 ^ (8 * k)) mod 256 + 256 * (v / 2 ^ (8 * k'))).
  { intros k k' Hk ->. replace (8 * (k + 1)) with (8 * k + 8) by lia.
    rewrite Z.pow_add_r by lia. rewrite <- Z.div_div by lia.
    change (2 ^ 8) with 256.
    pose proof (Z.div_mod (v / 2 ^ (8 * k)) 256). lia. }
  assert (Htop : v / 2 ^ (8 * 8) = 0).
  { apply Z.div_small. change (2 ^ (8 * 8)) with wB. exact Hv. }
  pose proof (Hstep 0 1 ltac:(lia) eq_refl) as H0.
  pose proof (Hstep 1 2 ltac:(lia) eq_refl) as H1.
  pose proof (Hstep 2 3 ltac:(lia) eq_refl) as H2.
  pose proof (Hstep 3 4 ltac:(lia) eq_refl) as H3.
  pose proof (Hstep 4 5 ltac:(lia) eq_refl) as H4.
  pose proof (Hstep 5 6 ltac:(lia) eq_refl) as H5.
  pose proof (Hstep 6 7 ltac:(lia) eq_refl) as H6.
  pose proof (Hstep 7 8 ltac:(lia) eq_refl) as H7.
  change (8 * 0) with 0 in H0. change (2 ^ 0) with 1 in H0.
  rewrite Z.div_1_r in H0.
  generalize dependent (v / 2 ^ (8 * 1)). generalize dependent (v / 2 ^ (8 * 2)).
  generalize dependent (v / 2 ^ (8 * 3)). generalize dependent (v / 2 ^ (8 * 4)).
  generalize dependent (v / 2 ^ (8 * 5)). generalize dependent (v / 2 ^ (8 * 6)).
  generalize dependent (v / 2 ^ (8 * 7)). generalize dependent (v / 2 ^ (8 * 8)).
  intros. lia.
Qed.

(** ** Running the monad *)

Lemma bind_some {A B : Type} (c : M A) (k : A -> M B) (s s' : heap) (a : A) :
  c s = Some (a, s') -> bind c k s = k a s'.
Proof. intros H. unfold bind. now rewrite H. Qed.

Lemma bind_none {A B : Type} (c : M A) (k : A -> M B) (s : heap) :
  c s = None -> bind c k s = None.
Proof. intros H. unfold bind. now rewrite H. Qed.

Lemma bind_inv {A B : Type} (c : M A) (k : A -> M B) (s s2 : heap) (b : B) :
  bind c k s = Some (b, s2) ->
  exists a s1, c s = Some (a, s1) /\ k a s1 = Some (b, s2).
Proof.
  unfold bind. destruct (c s) as [[a s1]|]; [|discriminate].
  intros H. exists a, s1. split; [reflexivity|exact H].
Qed.

Lemma get_ok (a : Z) (s : heap) :
  in_arena s a 8 = true -> get a s = Some (load8 (bytes s) a, s).
Proof. intros H. unfold get. now rewrite H. Qed.

Lemma put_ok (a v : Z) (s : heap) :
  in_arena s a 8 = true -> put a v s = Some (tt, set_bytes s (store8 (bytes s) a v)).
Proof. intros H. unfold put. now rewrite H. Qed.

Lemma in_arena_iff (s : heap) (a n : Z) :
  in_arena s a n = true <->
  mem_start_brk s <= a /\ a + n <= mem_start_brk s + mem_brk s.
Proof. unfold in_arena. rewrite andb_true_iff, Z.leb_le, Z.leb_le. tauto. Qed.

(** ** The codec round trip *)

(** C10.  Boundary-tag codec round trip: for every size that is a
    non-negative multiple of 16 representable in 64 bits and every flag in
    {0,1}, the word [pack size flag] decodes to both components; and once
    that word is stored at an address of the arena, [get_size] and
    [get_alloc] at that address return [size] and [flag]. *)
Theorem pack_roundtrip (size flag : Z) (bp : Z) (s : heap) :
  0 <= size < wB -> size mod 16 = 0 -> flag = 0 \/ flag = 1 ->
  in_arena s bp 8 = true ->
  size_bits (pack size flag) = size /\
  alloc_bit (pack size flag) = flag /\
  exists s', put bp (pack size flag) s = Some (tt, s') /\
             get_size bp s' = Some (size, s') /\
             get_alloc bp s' = Some (flag, s').
Proof.
  intros Hs Hm Hf Hin.
  assert (Hp : pack size flag = size + flag) by (apply pack_add; lia).
  assert (Hsz : size_bits (pack size flag) = size)
    by (rewrite Hp; apply size_bits_tag; lia).
  assert (Hal : alloc_bit (pack size flag) = flag)
    by (rewrite Hp; apply alloc_bit_tag; lia).
  split; [exact Hsz|]. split; [exact Hal|].
  eexists. split; [apply put_ok; exact Hin|].
  assert (Hin' : in_arena (set_bytes s (store8 (bytes s) bp (pack size flag))) bp 8 = true)
    by exact Hin.
  assert (Hld : load8 (store8 (bytes s) bp (pack size flag)) bp = pack size flag).
  { apply load8_store8_same. rewrite Hp. unfold wB in *.
    assert (size <= 18446744073709551616 - 16).
    { pose proof (Z.div_mod size 16). lia. }
    lia. }
  unfold get_size, get_alloc.
  split.
  - rewrite (bind_some _ _ _ _ _ (get_ok _ _ Hin')). simpl bytes.
    rewrite Hld, Hsz. reflexivity.
  - rewrite (bind_some _ _ _ _ _ (get_ok _ _ Hin')). simpl bytes.
    rewrite Hld, Hal. reflexivity.
Qed.

Lemma pack_roundtrip_witness :
  size_bits (pack 4096 1) = 4096 /\
  alloc_bit (pack 4096 1) = 1 /\
  exists s', put 65544 (pack 4096 1) (set_brk (boot 65536 8192) 64) = Some (tt, s') /\
             get_size 65544 s' = Some (4096, s') /\
             get_alloc 65544 s' = Some (1, s').
Proof.
  apply (pack_roundtrip 4096 1 65544 (set_brk (boot 65536 8192) 64)).
  - unfold wB. lia.
  - reflexivity.
  - right. reflexivity.
  - reflexivity.
Defined.

(** ** Size classes *)

(** C3 as stated fails: 32 lies in [32*2^0, 32*2^1) and its class is 1. *)
Lemma search_seg_list_class0_counterexample :
  ~ (forall i size, 0 <= i <= 12 -> 32 * 2 ^ i <= size < 32 * 2 ^ (i + 1) ->
                    search_seg_list size = i).
Proof.
  intros H. specialize (H 0 32).
  assert (H1 : search_seg_list 32 = 0) by (apply H; simpl; lia).
  vm_compute in H1. discriminate H1.
Qed.

(** C3, amended.  For every i in 1..12 and every size in
    [16*2^i, 32*2^i) the size-class function returns i; every size below
    32 is in class 0; every size >= 131072 is in class 13. *)
Theorem search_seg_list_classes (i size small large : Z) :
  1 <= i <= 12 -> 16 * 2 ^ i <= size < 32 * 2 ^ i ->
  small < 32 -> 131072 <= large ->
  search_seg_list size = i /\
  search_seg_list small = 0 /\
  search_seg_list large = 13.
Proof.
  intros Hi Hs Hsmall Hlarge.
  unfold search_seg_list, seg_size_class1, seg_size_class2, seg_size_class3,
    seg_size_class4, seg_size_class5, seg_size_class6, seg_size_class7,
    seg_size_class8, seg_size_class9, seg_size_class10, seg_size_class11,
    seg_size_class12, seg_size_class13.
  split; [|split].
  - assert (Hcases : i = 1 \/ i = 2 \/ i = 3 \/ i = 4 \/ i = 5 \/ i = 6 \/ i = 7 \/
                     i = 8 \/ i = 9 \/ i = 10 \/ i = 11 \/ i = 12) by lia.
    repeat (destruct Hcases as [->|Hcases]); try subst i;
      simpl in Hs;
      repeat match goal with
             | |- context [?a <? ?b] => destruct (Z.ltb_spec a b); try lia
             | |- context [?a >=? ?b] =>
                 destruct (Z.geb_spec a b); try lia
             end; simpl; try reflexivity; try lia.
  - destruct (Z.ltb_spec small 32); [reflexivity|lia].
  - repeat match goal with
           | |- context [?a <? ?b] => destruct (Z.ltb_spec a b); try lia
           | |- context [?a >=? ?b] => destruct (Z.geb_spec a b); try lia
           end; simpl; try reflexivity; try lia.
Qed.

Lemma search_seg_list_classes_witness :
  search_seg_list 48 = 1 /\
  search_seg_list 31 = 0 /\
  search_seg_list 131072 = 13.
Proof. apply (search_seg_list_classes 1 48 31 131072); simpl; lia. Defined.

(** ** Stepping through a run *)

Lemma search_seg_list_range (n : Z) : 0 <= search_seg_list n <= 13.
Proof.
  unfold search_seg_list.
  repeat match goal with
         | |- context [if ?c then _ else _] => destruct c
         end; lia.
Qed.

Lemma seg_get_ok (i : Z) (s : heap) :
  0 <= i < 14 -> length (seg_list s) = 14%nat ->
  seg_get i s = Some (nth (Z.to_nat i) (seg_list s) NULL, s).
Proof.
  intros Hi Hlen. unfold seg_get, SEG_LIST_SIZE.
  destruct (Z.leb_spec 0 i); [|lia]. destruct (Z.ltb_spec i 14); [|lia]. simpl.
  destruct (nth_error (seg_list s) (Z.to_nat i)) as [v|] eqn:E.
  - now rewrite (nth_error_nth _ _ _ E).
  - apply nth_error_None in E. lia.
Qed.

Lemma seg_set_ok (i v : Z) (s : heap) :
  0 <= i < 14 -> length (seg_list s) = 14%nat ->
  seg_set i v s = Some (tt, set_seg_list s (list_set (seg_list s) (Z.to_nat i) v)).
Proof.
  intros Hi Hlen. unfold seg_set, SEG_LIST_SIZE.
  destruct (Z.leb_spec 0 i); [|lia]. destruct (Z.ltb_spec i 14); [|lia]. simpl.
  destruct (Nat.ltb_spec (Z.to_nat i) (length (seg_list s))); [reflexivity|lia].
Qed.

Lemma in_arena_intro (s : heap) (a n : Z) :
  mem_start_brk s <= a -> a + n <= mem_start_brk s + mem_brk s ->
  in_arena s a n = true.
Proof. intros. apply in_arena_iff. lia. Qed.

Lemma size_bits_le (w : Z) :
  0 <= w < wB -> 0 <= size_bits w <= w /\ size_bits w mod 16 = 0.
Proof.
  intros Hw. rewrite size_bits_eq by exact Hw.
  pose proof (Z.div_mod w 16 ltac:(lia)). pose proof (Z.mod_pos_bound w 16 ltac:(lia)).
  split; [lia|]. rewrite Z.mul_comm. apply Z.mod_mul. lia.
Qed.

Lemma size_bits_load (m : store) (a : Z) :
  0 <= size_bits (load8 m a) < wB /\ size_bits (load8 m a) mod 16 = 0.
Proof.
  pose proof (load8_range m a) as Hr.
  destruct (size_bits_le _ Hr) as [H1 H2]. split; [lia|exact H2].
Qed.

Lemma get_size_ok (a : Z) (s : heap) :
  in_arena s a 8 = true -> get_size a s = Some (size_bits (load8 (bytes s) a), s).
Proof. intros H. unfold get_size. now rewrite (bind_some _ _ _ _ _ (get_ok _ _ H)). Qed.

Lemma get_alloc_ok (a : Z) (s : heap) :
  in_arena s a 8 = true -> get_alloc a s = Some (alloc_bit (load8 (bytes s) a), s).
Proof. intros H. unfold get_alloc. now rewrite (bind_some _ _ _ _ _ (get_ok _ _ H)). Qed.

Lemma p_to_footer_ok (bp : Z) (s : heap) :
  in_arena s (p_to_header bp) 8 = true ->
  p_to_footer bp s =
  Some (wrap (bp + size_bits (load8 (bytes s) (p_to_header bp)) - 16), s).
Proof.
  intros H. unfold p_to_footer. now rewrite (bind_some _ _ _ _ _ (get_size_ok _ _ H)).
Qed.

Lemma prev_bp_ok (bp : Z) (s : heap) :
  in_arena s (wrap (bp - 16)) 8 = true ->
  prev_bp bp s = Some (wrap (bp - size_bits (load8 (bytes s) (wrap (bp - 16)))), s).
Proof.
  intros H. unfold prev_bp. now rewrite (bind_some _ _ _ _ _ (get_size_ok _ _ H)).
Qed.

Lemma next_bp_ok (bp : Z) (s : heap) :
  in_arena s (p_to_header bp) 8 = true ->
  next_bp bp s = Some (wrap (bp + size_bits (load8 (bytes s) (p_to_header bp))), s).
Proof.
  intros H. unfold next_bp. now rewrite (bind_some _ _ _ _ _ (get_size_ok _ _ H)).
Qed.

(* one step of a run: the first computation of a sequence is run by [tac] *)
Ltac step_by tac := erewrite bind_some; [ | tac ].


(** ** The placement search of malloc *)

Lemma malloc_scan_spec (nb asize : Z) (s : heap) (n : nat) (bp : Z) :
  Forall (scannable s) (candidates s n bp) ->
  malloc_scan nb n bp asize s =
  match find (fun b => asize <=? block_size s b) (candidates s n bp) with
  | Some b => (place nb b asize ;; ret (Some b)) s
  | None => Some (None, s)
  end.
Proof.
  revert bp. induction n as [|n IH]; intros bp Hsc; simpl.
  - reflexivity.
  - destruct (bp =? NULL) eqn:Enull; [reflexivity|].
    simpl in Hsc. rewrite Enull in Hsc.
    inversion Hsc as [|x l [Hh Hn] Hrest]; subst.
    unfold get_size at 1.
    unfold bind at 1. unfold bind at 1. rewrite (get_ok _ _ Hh).
    unfold ret at 1.
    simpl find. fold (block_size s bp).
    destruct (asize <=? block_size s bp) eqn:Efit; [reflexivity|].
    unfold next_listbp. rewrite (bind_some _ _ _ _ _ (get_ok _ _ Hn)).
    apply IH. exact Hrest.
Qed.

Lemma skipn_nth_cons (l : list Z) (i : nat) :
  (i < length l)%nat -> skipn i l = nth i l NULL :: skipn (S i) l.
Proof.
  revert i. induction l as [|x l IH]; intros i Hi; simpl in Hi.
  - lia.
  - destruct i as [|i]; [reflexivity|].
    simpl. apply IH. lia.
Qed.

Lemma malloc_escalate_spec (s : heap) (n : nat) (i : Z) :
  length (seg_list s) = 14%nat -> 0 <= i -> (14 <= Z.to_nat i + n)%nat ->
  exists j,
    malloc_escalate n i NULL s =
    Some ((j, match find (fun h => negb (h =? NULL)) (skipn (Z.to_nat i) (seg_list s)) with
              | Some h => h
              | None => NULL
              end), s).
Proof.
  intros Hlen. revert i. induction n as [|n IH]; intros i Hi Hn; simpl.
  - exists i. rewrite skipn_all2 by lia. reflexivity.
  - unfold SEG_LIST_SIZE. destruct (Z.ltb_spec i 14) as [Hlt|Hge]; simpl.
    + rewrite (bind_some _ _ _ _ _ (seg_get_ok i s ltac:(lia) Hlen)).
      rewrite (skipn_nth_cons (seg_list s) (Z.to_nat i)) by lia.
      simpl find.
      destruct (nth (Z.to_nat i) (seg_list s) NULL =? NULL) eqn:E; simpl.
      * apply Z.eqb_eq in E. rewrite E.
        destruct (IH (i + 1) ltac:(lia) ltac:(lia)) as [j Hj].
        exists j. rewrite Hj. replace (Z.to_nat (i + 1)) with (S (Z.to_nat i)) by lia.
        reflexivity.
      * exists (i + 1). destruct n; simpl.
        -- reflexivity.
        -- rewrite E. rewrite andb_false_r. reflexivity.
    + exists i. rewrite skipn_all2 by lia. reflexivity.
Qed.

Lemma malloc_search_eq (nb size : Z) (s : heap) :
  size <> 0 ->
  length (seg_list s) = 14%nat ->
  Forall (scannable s)
    (candidates s 32 (nth (Z.to_nat (search_seg_list (adjusted_size size))) (seg_list s) NULL)) ->
  malloc nb size s =
  match placement_search s (adjusted_size size) with
  | Fit bp => (place nb bp (adjusted_size size) ;; ret bp) s
  | Escalate bp => place nb bp (adjusted_size size) s
  | Grow nbytes => (bp <- extend_heap nbytes ;; place nb bp (adjusted_size size)) s
  end.
Proof.
  intros Hsize Hlen Hsc.
  unfold malloc. fold (adjusted_size size).
  destruct (size =? 0) eqn:E0; [apply Z.eqb_eq in E0; contradiction|].
  set (asize := adjusted_size size) in *.
  pose proof (search_seg_list_range asize) as Hk.
  set (k := search_seg_list asize) in *.
  unfold SEG_LIST_SIZE at 1.
  destruct (Z.eqb_spec k 14) as [Hk14|_]; [lia|]. simpl negb. cbv iota.
  unfold placement_search. fold k.
  unfold bind at 1. unfold bind at 1.
  rewrite (seg_get_ok k s ltac:(lia) Hlen).
  set (hd := nth (Z.to_nat k) (seg_list s) NULL) in *.
  assert (Hscan :
    (if negb (hd =? NULL) then malloc_scan nb (Z.to_nat MIN_BLOCK_SIZE) hd asize
     else ret None) s =
    match find (fun b => asize <=? block_size s b) (candidates s 32 hd) with
    | Some b => (place nb b asize ;; ret (Some b)) s
    | None => Some (None, s)
    end).
  { destruct (hd =? NULL) eqn:Ehd; simpl negb; cbv iota.
    - cbn [candidates]. rewrite Ehd. reflexivity.
    - change (Z.to_nat MIN_BLOCK_SIZE) with 32%nat.
      apply malloc_scan_spec. exact Hsc. }
  rewrite Hscan. clear Hscan.
  destruct (find (fun b => asize <=? block_size s b) (candidates s 32 hd)) as [b|].
  - unfold bind. destruct (place nb b asize s) as [[r s2]|]; reflexivity.
  - destruct (malloc_escalate_spec s (Z.to_nat SEG_LIST_SIZE) (k + 1) Hlen ltac:(lia))
      as [j Hj].
    { change (Z.to_nat SEG_LIST_SIZE) with 14%nat. lia. }
    rewrite (bind_some _ _ _ _ _ Hj). simpl snd.
    replace (Z.to_nat (k + 1)) with (S (Z.to_nat k)) by lia.
    destruct (find (fun h => negb (h =? NULL)) (skipn (S (Z.to_nat k)) (seg_list s)))
      as [h|] eqn:Ef.
    + apply find_some in Ef. destruct Ef as [_ Hnz].
      destruct (h =? NULL); [discriminate|]. reflexivity.
    + reflexivity.
Qed.

(** C8.  For every allocation request, with asize its rounded block size,
    malloc proceeds as the placement search says: it scans at most 32
    blocks from the head of the list of class search_seg_list(asize) and
    places the request in the first whose size is at least asize; if there
    is none it places it in the head of the first non-empty class of
    greater index; only if all those classes are empty does it ask
    extend_heap for max(asize, 4096) bytes and place the request in the
    block that returns. *)
Theorem malloc_placement_search (nb size : Z) (s : heap) :
  size <> 0 ->
  length (seg_list s) = 14%nat ->
  Forall (scannable s)
    (candidates s 32 (nth (Z.to_nat (search_seg_list (adjusted_size size))) (seg_list s) NULL)) ->
  malloc nb size s =
  match placement_search s (adjusted_size size) with
  | Fit bp => (place nb bp (adjusted_size size) ;; ret bp) s
  | Escalate bp => place nb bp (adjusted_size size) s
  | Grow nbytes => (bp <- extend_heap nbytes ;; place nb bp (adjusted_size size)) s
  end.
Proof. exact (malloc_search_eq nb size s). Qed.

Lemma malloc_placement_search_witness :
  let s := state_after (Scenario.free_neighbours 0) arena0 in
  malloc 0 16 s =
  match placement_search s (adjusted_size 16) with
  | Fit bp => (place 0 bp (adjusted_size 16) ;; ret bp) s
  | Escalate bp => place 0 bp (adjusted_size 16) s
  | Grow nbytes => (bp <- extend_heap nbytes ;; place 0 bp (adjusted_size 16)) s
  end.
Proof.
  intros s.
  apply (malloc_placement_search 0 16 s).
  - discriminate.
  - vm_compute. reflexivity.
  - assert (E : candidates s 32
                  (nth (Z.to_nat (search_seg_list (adjusted_size 16))) (seg_list s) NULL)
                = [65600; 65568]) by (vm_compute; reflexivity).
    rewrite E.
    repeat constructor; vm_compute; reflexivity.
Defined.

(* the three outcomes of the search, on three states *)
Example placement_search_fit :
  placement_search (state_after (Scenario.free_neighbours 0) arena0) 32 = Fit 65600.
Proof. vm_compute. reflexivity. Qed.

Example placement_search_escalate :
  placement_search (state_after mm_init arena0) 32 = Escalate 65568.
Proof. vm_compute. reflexivity. Qed.

Example placement_search_grow :
  placement_search (state_after mm_init arena0) 5024 = Grow 5024.
Proof. vm_compute. reflexivity. Qed.

(** ** A growth that the provider refuses *)

Lemma place_null_faults (nb asize : Z) (s : heap) :
  mem_start_brk s + mem_brk s < wB -> place nb NULL asize s = None.
Proof.
  intros H. unfold place. apply bind_none.
  unfold delete_list_blcok. apply bind_none.
  unfold get_size. apply bind_none.
  unfold get. change (p_to_header NULL) with (wB - 8).
  unfold in_arena.
  destruct (Z.leb_spec (wB - 8 + 8) (mem_start_brk s + mem_brk s)) as [Hle|_].
  - lia.
  - now rewrite andb_false_r.
Qed.

Lemma extend_heap_exhausted (nbytes : Z) (s : heap) :
  mem_max s < mem_brk s + align nbytes -> extend_heap nbytes s = Some (NULL, s).
Proof.
  intros H. unfold extend_heap.
  assert (Hs : mem_sbrk (align nbytes) s = Some (MINUS_ONE, s)).
  { unfold mem_sbrk.
    destruct (Z.leb_spec (mem_brk s + align nbytes) (mem_max s)) as [Hle|_]; [lia|].
    now rewrite andb_false_r. }
  rewrite (bind_some _ _ _ _ _ Hs). reflexivity.
Qed.


(** ** Stores that leave the rest of the store alone *)

Lemma differ_on_refl (m : store) (S : list Z) : differ_on m m S.
Proof. intros y _. reflexivity. Qed.

Lemma differ_on_store8 (m : store) (a v : Z) : differ_on m (store8 m a v) [a].
Proof.
  intros y H. apply store8_outside.
  destruct (H a (or_introl eq_refl)); lia.
Qed.

Lemma differ_on_trans (m1 m2 m3 : store) (S1 S2 : list Z) :
  differ_on m1 m2 S1 -> differ_on m2 m3 S2 -> differ_on m1 m3 (S1 ++ S2).
Proof.
  intros H12 H23 y Hy.
  rewrite H23, H12; [reflexivity| |]; intros w Hw; apply Hy; apply in_or_app; auto.
Qed.

Lemma differ_on_incl (m m' : store) (S S' : list Z) :
  differ_on m m' S -> incl S S' -> differ_on m m' S'.
Proof. intros H Hi y Hy. apply H. intros w Hw. apply Hy, Hi, Hw. Qed.

Lemma load8_differ (m m' : store) (S : list Z) (a : Z) :
  differ_on m m' S ->
  (forall w, In w S -> a + 8 <= w \/ w + 8 <= a) ->
  load8 m' a = load8 m a.
Proof.
  intros Hd Ha. apply load8_ext. intros x Hx. apply Hd.
  intros w Hw. destruct (Ha w Hw); lia.
Qed.

Lemma link_head_store_differ (m : store) (bp h : Z) :
  differ_on m (link_head_store m bp h)
    (bp :: bp + 8 :: if h =? NULL then [] else [h]).
Proof.
  unfold link_head_store. destruct (h =? NULL).
  - apply (differ_on_trans m (store8 m bp NULL) _ [bp] [bp + 8]); apply differ_on_store8.
  - apply (differ_on_trans m (store8 (store8 m bp NULL) (bp + 8) h) _ [bp; bp + 8] [h]).
    + apply (differ_on_trans m (store8 m bp NULL) _ [bp] [bp + 8]); apply differ_on_store8.
    + apply differ_on_store8.
Qed.

Lemma unlink_store_differ (m : store) (pl nl : Z) :
  differ_on m (unlink_store m pl nl)
    ((if nl =? NULL then [] else [nl]) ++ (if pl =? NULL then [] else [pl + 8])).
Proof.
  unfold unlink_store.
  apply (differ_on_trans m (if nl =? NULL then m else store8 m nl pl)).
  - destruct (nl =? NULL); [apply differ_on_refl|apply differ_on_store8].
  - destruct (pl =? NULL); [apply differ_on_refl|apply differ_on_store8].
Qed.

(** ** Chains of blocks *)

Lemma aligned_apart (x y : Z) :
  x mod 16 = 0 -> y mod 16 = 0 -> x <> y -> x + 16 <= y \/ y + 16 <= x.
Proof.
  intros Hx Hy Hne.
  pose proof (Z.div_mod x 16 ltac:(lia)). pose proof (Z.div_mod y 16 ltac:(lia)). lia.
Qed.

Lemma chain_app (a e : Z) (l1 l2 : list blk) :
  chain a (l1 ++ l2) e <-> exists mid, chain a l1 mid /\ chain mid l2 e.
Proof.
  revert a. induction l1 as [|b l1 IH]; intros a; simpl.
  - split.
    + intros H. exists a. auto.
    + intros (mid & -> & H). exact H.
  - rewrite IH. split.
    + intros (Hp & Hs & Hm & mid & H1 & H2). exists mid. tauto.
    + intros (mid & (Hp & Hs & Hm & H1) & H2). repeat split; auto. exists mid. auto.
Qed.

Lemma chain_le (a e : Z) (bs : list blk) : chain a bs e -> a <= e.
Proof.
  revert a. induction bs as [|b bs IH]; intros a; simpl.
  - lia.
  - intros (_ & Hs & _ & H). apply IH in H. lia.
Qed.

Lemma chain_end_unique (a e e' : Z) (bs : list blk) :
  chain a bs e -> chain a bs e' -> e = e'.
Proof.
  revert a. induction bs as [|b bs IH]; intros a; simpl.
  - congruence.
  - intros (_ & _ & _ & H) (_ & _ & _ & H'). eapply IH; eauto.
Qed.

Lemma chain_split (a e : Z) (bs : list blk) (b : blk) :
  chain a bs e -> In b bs ->
  exists pre post, bs = pre ++ b :: post /\
                   chain a pre (b_ptr b) /\ chain (b_ptr b + b_size b) post e.
Proof.
  revert a. induction bs as [|c bs IH]; intros a Hc Hin; [contradiction|].
  simpl in Hc. destruct Hc as (Hp & Hs & Hm & Hc).
  destruct Hin as [->|Hin].
  - exists [], bs. simpl. rewrite Hp. repeat split; auto.
  - destruct (IH _ Hc Hin) as (pre & post & -> & H1 & H2).
    exists (c :: pre), post. simpl. repeat split; auto.
Qed.

Lemma chain_in (a e : Z) (bs : list blk) (b : blk) :
  chain a bs e -> In b bs ->
  a <= b_ptr b /\ b_ptr b + b_size b <= e /\ 32 <= b_size b /\
  b_size b mod 16 = 0 /\ (b_ptr b - a) mod 16 = 0.
Proof.
  revert a. induction bs as [|c bs IH]; intros a Hc Hin; [contradiction|].
  simpl in Hc. destruct Hc as (Hp & Hs & Hm & Hc).
  destruct Hin as [->|Hin].
  - apply chain_le in Hc. rewrite Hp. replace (a - a) with 0 by lia.
    repeat split; auto; lia.
  - destruct (IH _ Hc Hin) as (H1 & H2 & H3 & H4 & H5).
    repeat split; auto; try lia.
    replace (b_ptr b - a) with ((b_ptr b - (a + b_size c)) + b_size c) by lia.
    rewrite Z.add_mod, H5, Hm by lia. reflexivity.
Qed.

Lemma chain_sep (a e : Z) (bs : list blk) (b1 b2 : blk) :
  chain a bs e -> In b1 bs -> In b2 bs ->
  b1 = b2 \/ b_ptr b1 + b_size b1 <= b_ptr b2 \/ b_ptr b2 + b_size b2 <= b_ptr b1.
Proof.
  revert a. induction bs as [|c bs IH]; intros a Hc H1 H2; [contradiction|].
  pose proof Hc as Hc0.
  simpl in Hc. destruct Hc as (Hp & Hs & Hm & Hc).
  destruct H1 as [->|H1], H2 as [->|H2].
  - left. reflexivity.
  - pose proof (chain_in _ _ _ _ Hc H2). right. left. lia.
  - pose proof (chain_in _ _ _ _ Hc H1). right. right. lia.
  - eapply IH; eauto.
Qed.

Lemma chain_ptr_inj (a e : Z) (bs : list blk) (b1 b2 : blk) :
  chain a bs e -> In b1 bs -> In b2 bs -> b_ptr b1 = b_ptr b2 -> b1 = b2.
Proof.
  intros Hc H1 H2 Hp.
  pose proof (chain_in _ _ _ _ Hc H1) as I1. pose proof (chain_in _ _ _ _ Hc H2) as I2.
  destruct (chain_sep _ _ _ _ _ Hc H1 H2) as [H|[H|H]]; [exact H|lia|lia].
Qed.

Lemma chain_snoc (a e : Z) (pre : list blk) (y : blk) :
  chain a (pre ++ [y]) e <->
  chain a pre (b_ptr y) /\ 32 <= b_size y /\ b_size y mod 16 = 0 /\
  b_ptr y + b_size y = e.
Proof.
  rewrite chain_app. simpl. split.
  - intros (mid & H1 & Hp & Hs & Hm & He). subst mid. auto.
  - intros (H1 & Hs & Hm & He). exists (b_ptr y). auto.
Qed.

(** ** Doubly linked lists in the store *)

Lemma spaced_apart (l : list Z) (x y : Z) :
  spaced l -> In x l -> In y l -> x <> y -> apart x y.
Proof.
  intros [_ H] Hx Hy Hne. destruct (H x Hx) as [_ H'].
  destruct (H' y Hy); [contradiction|assumption].
Qed.

Lemma spaced_pos (l : list Z) (x : Z) : spaced l -> In x l -> 0 < x < wB.
Proof. intros [_ H] Hx. apply H, Hx. Qed.

Lemma spaced_incl (l l' : list Z) :
  spaced l -> NoDup l' -> incl l' l -> spaced l'.
Proof.
  intros [_ H] Hnd Hi. split; [exact Hnd|].
  intros x Hx. destruct (H x (Hi x Hx)) as [Hp Ha]. split; [exact Hp|].
  intros y Hy. apply Ha, Hi, Hy.
Qed.

Lemma spaced_tail (x : Z) (l : list Z) : spaced (x :: l) -> spaced l.
Proof.
  intros H. apply (spaced_incl (x :: l)); auto.
  - destruct H as [Hnd _]. inversion Hnd; assumption.
  - intros y Hy. right. exact Hy.
Qed.

Lemma spaced_head_apart (x y : Z) (l : list Z) :
  spaced (x :: l) -> In y l -> apart x y.
Proof.
  intros H Hy. apply (spaced_apart (x :: l)); simpl; auto.
  destruct H as [Hnd _]. inversion Hnd; subst. intros ->. contradiction.
Qed.

Lemma last_cons (x d : Z) (l : list Z) : last (x :: l) d = last l x.
Proof.
  revert x d. induction l as [|y l IH]; intros x d; [reflexivity|].
  change (last (x :: y :: l) d) with (last (y :: l) d).
  rewrite (IH y d), (IH y x). reflexivity.
Qed.

Lemma dll_app (m : store) (p n : Z) (l1 l2 : list Z) :
  dll m p (l1 ++ l2) n <-> dll m p l1 (hd n l2) /\ dll m (last l1 p) l2 n.
Proof.
  revert p. induction l1 as [|x l1 IH]; intros p.
  - simpl. tauto.
  - change ((x :: l1) ++ l2) with (x :: (l1 ++ l2)).
    cbn [dll]. rewrite IH.
    replace (hd n (l1 ++ l2)) with (hd (hd n l2) l1) by (destruct l1; reflexivity).
    rewrite last_cons.
    tauto.
Qed.

Lemma dll_frame (m m' : store) (p n : Z) (l : list Z) :
  dll m p l n ->
  (forall x, In x l -> load8 m' x = load8 m x /\ load8 m' (x + 8) = load8 m (x + 8)) ->
  dll m' p l n.
Proof.
  revert p. induction l as [|x l IH]; intros p Hd Hf; simpl; [exact I|].
  destruct Hd as (H1 & H2 & H3).
  destruct (Hf x (or_introl eq_refl)) as [F1 F2].
  rewrite F1, F2. repeat split; auto.
  apply IH; auto. intros y Hy. apply Hf. right. exact Hy.
Qed.

Lemma dll_differ (m m' : store) (S : list Z) (p n : Z) (l : list Z) :
  dll m p l n -> differ_on m m' S ->
  (forall x w, In x l -> In w S -> w + 8 <= x \/ x + 16 <= w) ->
  dll m' p l n.
Proof.
  intros Hd Hdiff Hs. apply (dll_frame m); [exact Hd|].
  intros x Hx. split; apply (load8_differ m m' S); auto;
    intros w Hw; destruct (Hs x w Hx Hw); lia.
Qed.

(* the previous link of the first member is replaced *)
Lemma dll_set_prev (m m' : store) (p p' n x : Z) (r : list Z) :
  dll m p (x :: r) n ->
  load8 m' x = p' ->
  load8 m' (x + 8) = load8 m (x + 8) ->
  (forall y, In y r -> load8 m' y = load8 m y /\ load8 m' (y + 8) = load8 m (y + 8)) ->
  dll m' p' (x :: r) n.
Proof.
  intros (H1 & H2 & H3) Hx Hx8 Hr. simpl. rewrite Hx8. repeat split; auto.
  apply (dll_frame m); auto.
Qed.

(* the next link of the last member is replaced *)
Lemma dll_set_next (m m' : store) (p n n' : Z) (l : list Z) (z : Z) :
  dll m p (l ++ [z]) n ->
  load8 m' z = load8 m z ->
  load8 m' (z + 8) = n' ->
  (forall y, In y l -> load8 m' y = load8 m y /\ load8 m' (y + 8) = load8 m (y + 8)) ->
  dll m' p (l ++ [z]) n'.
Proof.
  intros Hd Hz Hz8 Hl.
  apply dll_app in Hd. destruct Hd as [Hd1 (Hz1 & _ & _)].
  apply dll_app. split.
  - simpl in *. apply (dll_frame m); auto.
  - simpl. rewrite Hz. auto.
Qed.

Lemma last_in (l : list Z) (x d : Z) : In (last (l ++ [x]) d) (l ++ [x]).
Proof. rewrite last_last. apply in_or_app. right. left. reflexivity. Qed.

(* a block is linked in front of a list *)
Lemma dll_link_head (m : store) (bp : Z) (l : list Z) :
  dll m NULL l NULL ->
  0 <= bp < wB ->
  spaced (bp :: l) ->
  dll (link_head_store m bp (hd NULL l)) NULL (bp :: l) NULL.
Proof.
  intros Hd Hbp Hsp.
  assert (Hap : forall x, In x l -> apart bp x)
    by (intros x Hx; apply (spaced_head_apart bp x l); auto).
  unfold link_head_store.
  destruct l as [|h r].
  - simpl hd. change (NULL =? NULL) with true. cbv iota zeta. simpl.
    repeat split.
    + rewrite load8_store8_other by lia. apply load8_store8_same. unfold NULL, wB. lia.
    + apply load8_store8_same. unfold NULL, wB. lia.
  - simpl hd.
    assert (Hh : 0 < h < wB) by (apply (spaced_pos (bp :: h :: r)); simpl; auto).
    destruct (Z.eqb_spec h NULL) as [E|_]; [unfold NULL in E; lia|].
    cbv zeta.
    pose proof (Hap h (or_introl eq_refl)) as Hah. unfold apart in Hah.
    destruct Hd as (Hd1 & Hd2 & Hd3).
    pose proof (load8_range m h) as Hrh.
    simpl. repeat split.
    + rewrite !load8_store8_other by lia. apply load8_store8_same. unfold NULL, wB. lia.
    + rewrite load8_store8_other by lia. apply load8_store8_same. lia.
    + apply load8_store8_same. exact Hbp.
    + rewrite !load8_store8_other by lia. exact Hd2.
    + apply (dll_frame m); [exact Hd3|].
      intros y Hy.
      pose proof (Hap y (or_intror Hy)) as Hay. unfold apart in Hay.
      pose proof (spaced_head_apart h y r (spaced_tail _ _ Hsp) Hy) as Hhy.
      unfold apart in Hhy.
      rewrite !load8_store8_other by lia. auto.
Qed.

Lemma last_default_or_in (l : list Z) (d : Z) :
  (l = [] /\ last l d = d) \/ (l <> [] /\ In (last l d) l).
Proof.
  destruct l as [|x l]; [left; auto|right].
  split; [discriminate|].
  destruct (exists_last (l := x :: l) ltac:(discriminate)) as (l' & z & E).
  rewrite E, last_last. apply in_or_app. right. left. reflexivity.
Qed.

Lemma nodup_app_disjoint (l1 l2 : list Z) (x : Z) :
  NoDup (l1 ++ l2) -> In x l1 -> In x l2 -> False.
Proof.
  induction l1 as [|a l1 IH]; intros Hnd H1 H2; [contradiction|].
  simpl in Hnd. inversion Hnd as [|? ? Hni Hnd']; subst.
  destruct H1 as [->|H1].
  - apply Hni. apply in_or_app. auto.
  - apply IH; auto.
Qed.

(* a member is unlinked from its list *)
Lemma dll_unlink (m : store) (l1 l2 : list Z) (bp : Z) :
  dll m NULL (l1 ++ bp :: l2) NULL ->
  spaced (l1 ++ bp :: l2) ->
  load8 m bp = last l1 NULL /\
  load8 m (bp + 8) = hd NULL l2 /\
  dll (unlink_store m (last l1 NULL) (hd NULL l2)) NULL (l1 ++ l2) NULL.
Proof.
  intros Hd Hsp.
  apply dll_app in Hd. destruct Hd as [H1 (Hb & Hb8 & H3)]. simpl hd in H1.
  split; [exact Hb|]. split; [exact Hb8|].
  set (pl := last l1 NULL) in *. set (nl := hd NULL l2) in *.
  pose proof (load8_range m bp) as Rpl. rewrite Hb in Rpl.
  pose proof (load8_range m (bp + 8)) as Rnl. rewrite Hb8 in Rnl.
  (* where pl and nl are *)
  assert (Hpl : (l1 = [] /\ pl = NULL) \/ (l1 <> [] /\ In pl l1))
    by apply last_default_or_in.
  assert (Hnl : (l2 = [] /\ nl = NULL) \/ (exists r, l2 = nl :: r)).
  { unfold nl. destruct l2 as [|x r]; [left; auto|right]. exists r. reflexivity. }
  assert (Hin1 : forall y, In y l1 -> In y (l1 ++ bp :: l2))
    by (intros y Hy; apply in_or_app; auto).
  assert (Hin2 : forall y, In y l2 -> In y (l1 ++ bp :: l2))
    by (intros y Hy; apply in_or_app; right; right; auto).
  assert (Hnd : NoDup (l1 ++ bp :: l2)) by apply Hsp.
  assert (H12 : forall x y, In x l1 -> In y l2 -> apart x y).
  { intros x y Hx Hy. apply (spaced_apart _ x y Hsp); auto.
    intros ->. apply (nodup_app_disjoint _ _ y Hnd Hx). right. exact Hy. }
  assert (Hsp1 : spaced l1).
  { apply (spaced_incl _ _ Hsp); [|exact Hin1].
    apply NoDup_remove_1 in Hnd. apply NoDup_app_remove_r in Hnd. exact Hnd. }
  assert (Hsp2 : spaced l2).
  { apply (spaced_incl _ _ Hsp); [|exact Hin2].
    apply NoDup_remove_1 in Hnd. apply NoDup_app_remove_l in Hnd. exact Hnd. }
  assert (Hdiff : differ_on m (unlink_store m pl nl)
            ((if nl =? NULL then [] else [nl]) ++ (if pl =? NULL then [] else [pl + 8])))
    by apply unlink_store_differ.
  apply dll_app. split.
  - (* the part before bp: the next link of its last member is now nl *)
    destruct Hpl as [[-> _]|[Hne Hpin]]; [exact I|].
    destruct (exists_last Hne) as (l1' & z & E).
    assert (Ez : pl = z) by (unfold pl; rewrite E; apply last_last).
    rewrite E in *. clear E. rewrite Ez in *.
    assert (Hz : 0 < z < wB) by (apply (spaced_pos _ z Hsp1); apply in_or_app; simpl; auto).
    assert (Hzn : forall y, In y l2 -> apart z y).
    { intros y Hy. apply H12; auto. }
    replace (hd NULL l2) with nl by reflexivity.
    apply (dll_set_next m _ NULL bp nl l1' z); [exact H1| | |].
    + apply (load8_differ _ _ _ _ Hdiff). intros w Hw.
      apply in_app_or in Hw. destruct Hw as [Hw|Hw].
      * destruct Hnl as [[_ ->]|[r Er]]; [contradiction|].
        destruct (nl =? NULL); [contradiction|]. destruct Hw as [<-|[]].
        assert (A : apart z nl) by (apply Hzn; rewrite Er; simpl; auto).
        unfold apart in A. lia.
      * destruct (z =? NULL); [contradiction|]. destruct Hw as [<-|[]]. lia.
    + unfold unlink_store.
      destruct (Z.eqb_spec z NULL) as [E0|_]; [unfold NULL in E0; lia|].
      apply load8_store8_same. exact Rnl.
    + intros y Hy.
      assert (Ayz : apart y z).
      { apply (spaced_apart _ y z Hsp1); try (apply in_or_app; simpl; auto).
        intros ->. destruct Hsp1 as [Hnd1 _].
        apply NoDup_remove_2 in Hnd1. rewrite app_nil_r in Hnd1. contradiction. }
      unfold apart in Ayz.
      split; apply (load8_differ _ _ _ _ Hdiff); intros w Hw;
        apply in_app_or in Hw; destruct Hw as [Hw|Hw].
      * destruct Hnl as [[_ ->]|[r Er]]; [contradiction|].
        destruct (nl =? NULL); [contradiction|]. destruct Hw as [<-|[]].
        assert (A : apart y nl)
          by (apply H12; [apply in_or_app; auto|rewrite Er; simpl; auto]).
        unfold apart in A. lia.
      * destruct (z =? NULL); [contradiction|]. destruct Hw as [<-|[]]. lia.
      * destruct Hnl as [[_ ->]|[r Er]]; [contradiction|].
        destruct (nl =? NULL); [contradiction|]. destruct Hw as [<-|[]].
        assert (A : apart y nl)
          by (apply H12; [apply in_or_app; auto|rewrite Er; simpl; auto]).
        unfold apart in A. lia.
      * destruct (z =? NULL); [contradiction|]. destruct Hw as [<-|[]]. lia.
  - (* the part after bp: the previous link of its first member is now pl *)
    fold pl.
    destruct Hnl as [[-> _]|[r Er]]; [exact I|].
    rewrite Er in *.
    assert (Hn : 0 < nl < wB) by (apply (spaced_pos _ nl Hsp2); simpl; auto).
    assert (Hpn : pl = NULL \/ apart pl nl).
    { destruct Hpl as [[_ ->]|[_ Hpin]]; [left; reflexivity|right].
      apply H12; simpl; auto. }
    apply (dll_set_prev m _ bp pl NULL nl r); [exact H3| | |].
    + unfold unlink_store.
      destruct (Z.eqb_spec nl NULL) as [E0|_]; [unfold NULL in E0; lia|].
      destruct (Z.eqb_spec pl NULL) as [E0|Hp0].
      * apply load8_store8_same. exact Rpl.
      * destruct Hpn as [|A]; [contradiction|]. unfold apart in A.
        rewrite load8_store8_other by lia. apply load8_store8_same. exact Rpl.
    + apply (load8_differ _ _ _ _ Hdiff). intros w Hw.
      apply in_app_or in Hw. destruct Hw as [Hw|Hw].
      * destruct (nl =? NULL); [contradiction|]. destruct Hw as [<-|[]]. lia.
      * destruct (Z.eqb_spec pl NULL) as [|Hp0]; [contradiction|].
        destruct Hw as [<-|[]].
        destruct Hpn as [|A]; [contradiction|]. unfold apart in A. lia.
    + intros y Hy.
      assert (Any : apart nl y) by (apply (spaced_head_apart nl y r); auto).
      assert (Apy : pl = NULL \/ apart pl y).
      { destruct Hpl as [[_ ->]|[_ Hpin]]; [left; reflexivity|right].
        apply H12; simpl; auto. }
      unfold apart in Any.
      split; apply (load8_differ _ _ _ _ Hdiff); intros w Hw;
        apply in_app_or in Hw; destruct Hw as [Hw|Hw].
      * destruct (nl =? NULL); [contradiction|]. destruct Hw as [<-|[]]. lia.
      * destruct (Z.eqb_spec pl NULL) as [|Hp0]; [contradiction|].
        destruct Hw as [<-|[]].
        destruct Apy as [|A]; [contradiction|]. unfold apart in A. lia.
      * destruct (nl =? NULL); [contradiction|]. destruct Hw as [<-|[]]. lia.
      * destruct (Z.eqb_spec pl NULL) as [|Hp0]; [contradiction|].
        destruct Hw as [<-|[]].
        destruct Apy as [|A]; [contradiction|]. unfold apart in A. lia.
Qed.

(** ** Runs of the two list operations *)

Lemma in_arena_sub (s : heap) (a n b k : Z) :
  in_arena s a n = true -> a <= b -> b + k <= a + n -> in_arena s b k = true.
Proof. rewrite !in_arena_iff. lia. Qed.

Lemma in_arena_set_bytes (s : heap) (m : store) (a n : Z) :
  in_arena (set_bytes s m) a n = in_arena s a n.
Proof. reflexivity. Qed.

Lemma in_arena_set_seg_list (s : heap) (l : list Z) (a n : Z) :
  in_arena (set_seg_list s l) a n = in_arena s a n.
Proof. reflexivity. Qed.

Lemma list_set_length (l : list Z) (n : nat) (v : Z) :
  length (list_set l n v) = length l.
Proof.
  revert n. induction l as [|x l IH]; intros n; [reflexivity|].
  destruct n; simpl; [reflexivity|]. now rewrite IH.
Qed.

Lemma nth_list_set (l : list Z) (n i : nat) (v d : Z) :
  (n < length l)%nat ->
  nth i (list_set l n v) d = if (i =? n)%nat then v else nth i l d.
Proof.
  revert n i. induction l as [|x l IH]; intros n i Hn; simpl in Hn; [lia|].
  destruct n as [|n], i as [|i]; simpl; try reflexivity.
  apply IH. lia.
Qed.

Lemma add_list_block_run (bp size : Z) (s : heap) :
  length (seg_list s) = 14%nat ->
  0 <= bp -> bp + 16 <= wB ->
  in_arena s bp 16 = true ->
  (nth (Z.to_nat (search_seg_list size)) (seg_list s) NULL <> NULL ->
   in_arena s (nth (Z.to_nat (search_seg_list size)) (seg_list s) NULL) 8 = true) ->
  add_list_block bp size s =
  Some (tt, set_bytes
              (set_seg_list s (list_set (seg_list s) (Z.to_nat (search_seg_list size)) bp))
              (link_head_store (bytes s) bp
                 (nth (Z.to_nat (search_seg_list size)) (seg_list s) NULL))).
Proof.
  intros Hlen Hbp0 Hbp1 Hin Hh.
  pose proof (search_seg_list_range size) as Hk.
  set (k := search_seg_list size) in *.
  set (h := nth (Z.to_nat k) (seg_list s) NULL) in *.
  assert (Hnf : next_freebp bp = bp + 8).
  { unfold next_freebp. apply wrap_small. unfold wB in *. lia. }
  unfold add_list_block. fold k.
  step_by ltac:(apply seg_get_ok; [lia|exact Hlen]). fold h.
  unfold prev_freebp, putptr, link_head_store. rewrite Hnf.
  destruct (Z.eqb_spec h NULL) as [Hh0|Hh0]; cbn [negb].
  - step_by ltac:(apply seg_set_ok; [lia|exact Hlen]).
    step_by ltac:(apply put_ok; rewrite in_arena_set_seg_list;
                  apply (in_arena_sub _ _ _ _ _ Hin); lia).
    rewrite put_ok
      by (rewrite in_arena_set_bytes, in_arena_set_seg_list;
          apply (in_arena_sub _ _ _ _ _ Hin); lia).
    rewrite Hh0. reflexivity.
  - specialize (Hh Hh0).
    step_by ltac:(apply seg_set_ok; [lia|exact Hlen]).
    step_by ltac:(apply put_ok; rewrite in_arena_set_seg_list;
                  apply (in_arena_sub _ _ _ _ _ Hin); lia).
    step_by ltac:(apply put_ok; rewrite in_arena_set_bytes, in_arena_set_seg_list;
                  apply (in_arena_sub _ _ _ _ _ Hin); lia).
    rewrite put_ok
      by (rewrite !in_arena_set_bytes, in_arena_set_seg_list; exact Hh).
    reflexivity.
Qed.

Lemma delete_list_blcok_run (bp : Z) (s : heap) :
  length (seg_list s) = 14%nat ->
  8 <= bp -> bp + 16 <= wB ->
  in_arena s (bp - 8) 24 = true ->
  let k := search_seg_list (size_bits (load8 (bytes s) (bp - 8))) in
  let pl := load8 (bytes s) bp in
  let nl := load8 (bytes s) (bp + 8) in
  (nl <> NULL -> in_arena s nl 8 = true /\ (nl + 8 <= bp \/ bp + 16 <= nl)) ->
  (pl <> NULL -> in_arena s (pl + 8) 8 = true /\ pl + 16 <= wB) ->
  delete_list_blcok bp s =
  Some (tt, set_bytes
              (set_seg_list s (if pl =? NULL
                               then list_set (seg_list s) (Z.to_nat k) nl
                               else seg_list s))
              (unlink_store (bytes s) pl nl)).
Proof.
  intros Hlen Hbp0 Hbp1 Hin k pl nl Hnl Hpl.
  pose proof (search_seg_list_range (size_bits (load8 (bytes s) (bp - 8)))) as Hk.
  fold k in Hk.
  assert (Hh : p_to_header bp = bp - 8).
  { unfold p_to_header. apply wrap_small. unfold wB in *. lia. }
  assert (Hnf : next_freebp bp = bp + 8).
  { unfold next_freebp. apply wrap_small. unfold wB in *. lia. }
  pose proof (load8_range (bytes s) bp) as Rpl. fold pl in Rpl.
  pose proof (load8_range (bytes s) (bp + 8)) as Rnl. fold nl in Rnl.
  destruct s as [lo mx brk m segs hlp].
  cbn [mem_start_brk mem_max mem_brk bytes seg_list heap_list_ptr] in *.
  assert (A0 : forall a mm ss, lo <= a -> a + 8 <= lo + brk ->
             in_arena (mkHeap lo mx brk mm ss hlp) a 8 = true).
  { intros. apply in_arena_intro; cbn [mem_start_brk mem_brk]; lia. }
  apply in_arena_iff in Hin. cbn [mem_start_brk mem_brk] in Hin.
  unfold delete_list_blcok, prev_listbp, next_listbp, prev_freebp, putptr, unlink_store.
  rewrite Hh, Hnf.
  step_by ltac:(apply get_size_ok; apply A0; lia). cbn [bytes]. fold k.
  step_by ltac:(apply get_ok; apply A0; lia). cbn [bytes]. fold pl.
  destruct (Z.eqb_spec pl NULL) as [Hp0|Hp0].
  - step_by ltac:(apply get_ok; apply A0; lia). cbn [bytes]. fold nl.
    destruct (Z.eqb_spec nl NULL) as [Hn0|Hn0]; cbn [negb].
    + rewrite seg_set_ok by (cbn [seg_list]; lia || exact Hlen).
      rewrite Hn0. reflexivity.
    + destruct (Hnl Hn0) as [Hna Hnd].
      apply in_arena_iff in Hna. cbn [mem_start_brk mem_brk] in Hna.
      step_by ltac:(apply get_ok; apply A0; lia). cbn [bytes]. fold nl.
      rewrite Hp0.
      step_by ltac:(apply put_ok; apply A0; lia).
      unfold set_bytes; cbn [mem_start_brk mem_max mem_brk bytes seg_list heap_list_ptr].
      step_by ltac:(apply get_ok; apply A0; lia). cbn [bytes].
      rewrite load8_store8_other by lia. fold nl.
      rewrite seg_set_ok by (cbn [seg_list]; lia || exact Hlen).
      reflexivity.
  - destruct (Hpl Hp0) as [Hpa Hpw].
    apply in_arena_iff in Hpa. cbn [mem_start_brk mem_brk] in Hpa.
    assert (Hpn : next_freebp pl = pl + 8).
    { unfold next_freebp. apply wrap_small. unfold wB in *. lia. }
    step_by ltac:(apply get_ok; apply A0; lia). cbn [bytes]. fold nl.
    destruct (Z.eqb_spec nl NULL) as [Hn0|Hn0]; cbn [negb].
    + step_by ltac:(apply get_ok; apply A0; lia). cbn [bytes]. fold pl.
      rewrite Hpn, Hn0.
      rewrite put_ok by (apply A0; lia). reflexivity.
    + destruct (Hnl Hn0) as [Hna Hnd].
      apply in_arena_iff in Hna. cbn [mem_start_brk mem_brk] in Hna.
      step_by ltac:(apply get_ok; apply A0; lia). cbn [bytes]. fold nl.
      step_by ltac:(apply get_ok; apply A0; lia). cbn [bytes]. fold pl.
      step_by ltac:(apply put_ok; apply A0; lia).
      unfold set_bytes; cbn [mem_start_brk mem_max mem_brk bytes seg_list heap_list_ptr].
      step_by ltac:(apply get_ok; apply A0; lia). cbn [bytes].
      rewrite load8_store8_other by lia. fold pl.
      step_by ltac:(apply get_ok; apply A0; lia). cbn [bytes].
      rewrite load8_store8_other by lia. fold nl.
      rewrite Hpn.
      rewrite put_ok by (apply A0; lia). reflexivity.
Qed.

(** ** Facts about a heap *)

Section HeapFacts.
Variables (s : heap) (bs : list blk) (fl : lists).
Hypothesis H : hp s bs fl.

Lemma hp_arena : 0 < mem_start_brk s /\ mem_start_brk s + mem_brk s < wB.
Proof. destruct H as [[? ?] [? ?]]. lia. Qed.

Lemma hp_in (b : blk) :
  In b bs ->
  mem_start_brk s + 32 <= b_ptr b /\
  b_ptr b + b_size b <= mem_start_brk s + mem_brk s /\
  32 <= b_size b /\ b_size b mod 16 = 0 /\ b_ptr b mod 16 = 0.
Proof.
  intros Hin.
  destruct (chain_in _ _ _ _ (hp_chain _ _ _ H) Hin) as (H1 & H2 & H3 & H4 & H5).
  repeat split; auto.
  destruct (hp_lo _ _ _ H) as [_ Hlo].
  replace (b_ptr b) with ((b_ptr b - (mem_start_brk s + 32)) + (mem_start_brk s + 32)) by lia.
  rewrite Z.add_mod, H5 by lia.
  rewrite (Z.add_mod (mem_start_brk s) 32), Hlo by lia. reflexivity.
Qed.

Lemma hp_tagged (b : blk) : In b bs -> tagged (bytes s) b.
Proof. intros Hin. exact (proj1 (Forall_forall _ _) (hp_tags _ _ _ H) b Hin). Qed.

Lemma hp_member (k x : Z) :
  0 <= k < 14 -> In x (fl k) ->
  exists b, In b bs /\ b_ptr b = x /\ search_seg_list (b_size b) = k.
Proof. apply (hp_listed _ _ _ H). Qed.

Lemma hp_apart (b1 b2 : blk) :
  In b1 bs -> In b2 bs -> b_ptr b1 <> b_ptr b2 -> apart (b_ptr b1) (b_ptr b2).
Proof.
  intros H1 H2 Hne.
  pose proof (hp_in _ H1). pose proof (hp_in _ H2).
  destruct (chain_sep _ _ _ _ _ (hp_chain _ _ _ H) H1 H2) as [->|[Hs|Hs]];
    [contradiction| |]; unfold apart; lia.
Qed.

Lemma hp_members_apart (k j x y : Z) :
  0 <= k < 14 -> 0 <= j < 14 -> In x (fl k) -> In y (fl j) -> x <> y -> apart x y.
Proof.
  intros Hk Hj Hx Hy Hne.
  destruct (hp_member _ _ Hk Hx) as (b1 & I1 & P1 & _).
  destruct (hp_member _ _ Hj Hy) as (b2 & I2 & P2 & _).
  subst x y. apply hp_apart; auto.
Qed.

Lemma hp_member_class (k j x : Z) :
  0 <= k < 14 -> 0 <= j < 14 -> In x (fl k) -> In x (fl j) -> k = j.
Proof.
  intros Hk Hj Hx Hy.
  destruct (hp_member _ _ Hk Hx) as (b1 & I1 & P1 & C1).
  destruct (hp_member _ _ Hj Hy) as (b2 & I2 & P2 & C2).
  assert (b1 = b2) by (apply (chain_ptr_inj _ _ _ _ _ (hp_chain _ _ _ H)); auto; congruence).
  subst. reflexivity.
Qed.

Lemma hp_spaced (k : Z) : 0 <= k < 14 -> spaced (fl k).
Proof.
  intros Hk. split; [apply (hp_nodup _ _ _ H _ Hk)|].
  intros x Hx. destruct (hp_member _ _ Hk Hx) as (b & Ib & Pb & _).
  pose proof (hp_in _ Ib). pose proof hp_arena.
  split; [lia|].
  intros y Hy. destruct (Z.eq_dec x y) as [|Hne]; [left; assumption|right].
  apply (hp_members_apart k k); auto.
Qed.

(* a link slot of a block meets no boundary tag, nor prologue or
   epilogue *)
Lemma link_slot_clear (bx b : blk) (w : Z) :
  In bx bs -> In b bs -> w = b_ptr bx \/ w = b_ptr bx + 8 ->
  (w + 8 <= b_ptr b - 8 \/ b_ptr b <= w) /\
  (w + 8 <= b_ptr b + b_size b - 16 \/ b_ptr b + b_size b - 8 <= w).
Proof.
  intros Hx Hb Hw.
  pose proof (hp_in _ Hx). pose proof (hp_in _ Hb).
  destruct (chain_sep _ _ _ _ _ (hp_chain _ _ _ H) Hx Hb) as [->|[Hs|Hs]]; lia.
Qed.

End HeapFacts.

Lemma tagw_size (b : blk) :
  0 <= b_size b < wB -> b_size b mod 16 = 0 -> size_bits (tagw b) = b_size b.
Proof.
  intros Hs Hm. unfold tagw. apply size_bits_tag; auto.
  destruct (b_flag b); simpl; lia.
Qed.

Lemma tagw_alloc (b : blk) :
  b_size b mod 16 = 0 -> alloc_bit (tagw b) = Z.b2z (b_flag b).
Proof.
  intros Hm. unfold tagw. apply alloc_bit_tag; auto.
  destruct (b_flag b); simpl; lia.
Qed.

Lemma search_seg_list_tagw (b : blk) :
  b_size b mod 16 = 0 -> search_seg_list (tagw b) = search_seg_list (b_size b).
Proof.
  intros Hm. unfold tagw.
  pose proof (Z.div_mod (b_size b) 16 ltac:(lia)) as Hq. rewrite Hm in Hq.
  destruct (b_flag b); simpl Z.b2z; [|now rewrite Z.add_0_r].
  unfold search_seg_list, seg_size_class1, seg_size_class2, seg_size_class3,
    seg_size_class4, seg_size_class5, seg_size_class6, seg_size_class7,
    seg_size_class8, seg_size_class9, seg_size_class10, seg_size_class11,
    seg_size_class12, seg_size_class13.
  repeat match goal with
         | |- context [?a <? ?b] => destruct (Z.ltb_spec a b); try lia
         | |- context [?a >=? ?b] => destruct (Z.geb_spec a b); try lia
         end; simpl; try reflexivity; lia.
Qed.

Lemma upd_same (fl : lists) (k : Z) (l : list Z) : upd fl k l k = l.
Proof. unfold upd. now rewrite Z.eqb_refl. Qed.

Lemma upd_other (fl : lists) (k j : Z) (l : list Z) : j <> k -> upd fl k l j = fl j.
Proof. intros Hne. unfold upd. destruct (Z.eqb_spec j k); [contradiction|reflexivity]. Qed.

(** ** Frames *)

Lemma changes_within_refl (R : Z -> Prop) (m : store) : changes_within R m m.
Proof. intros y _. reflexivity. Qed.

Lemma changes_within_trans (R : Z -> Prop) (m1 m2 m3 : store) :
  changes_within R m1 m2 -> changes_within R m2 m3 -> changes_within R m1 m3.
Proof. intros H12 H23 y Hy. rewrite H23, H12; auto. Qed.

Lemma changes_within_weaken (R R' : Z -> Prop) (m m' : store) :
  changes_within R m m' -> (forall y, R y -> R' y) -> changes_within R' m m'.
Proof. intros H Hi y Hy. apply H. intros HR. apply Hy, Hi, HR. Qed.

Lemma differ_on_changes (R : Z -> Prop) (m m' : store) (S : list Z) :
  differ_on m m' S ->
  (forall w y, In w S -> w <= y < w + 8 -> R y) ->
  changes_within R m m'.
Proof.
  intros Hd HS y Hy. apply Hd. intros w Hw.
  destruct (Z_lt_dec y w) as [|H1]; [left; assumption|].
  destruct (Z_le_dec (w + 8) y) as [|H2]; [right; assumption|].
  exfalso. apply Hy. apply (HS w); auto. lia.
Qed.

Lemma store8_changes (R : Z -> Prop) (m : store) (a v : Z) :
  (forall y, a <= y < a + 8 -> R y) -> changes_within R m (store8 m a v).
Proof.
  intros Ha. apply (differ_on_changes R m _ [a]); [apply differ_on_store8|].
  intros w y [<-|[]] Hy. apply Ha, Hy.
Qed.

Lemma same_arena_refl (s : heap) : same_arena s s.
Proof. repeat split. Qed.

Lemma same_arena_trans (s1 s2 s3 : heap) :
  same_arena s1 s2 -> same_arena s2 s3 -> same_arena s1 s3.
Proof. unfold same_arena. intros (?&?&?) (?&?&?). repeat split; congruence. Qed.

Lemma in_arena_same (s s' : heap) (a n : Z) :
  same_arena s s' -> in_arena s' a n = in_arena s a n.
Proof. intros (H1 & _ & H3). unfold in_arena. now rewrite H1, H3. Qed.

(** ** Removal of a block from its list *)

Lemma hp_delete (s : heap) (bs : list blk) (fl : lists) (b : blk) :
  hp s bs fl -> In b bs -> listed fl b ->
  exists l1 l2 s',
    fl (search_seg_list (b_size b)) = l1 ++ b_ptr b :: l2 /\
    delete_list_blcok (b_ptr b) s = Some (tt, s') /\
    hp s' bs (upd fl (search_seg_list (b_size b)) (l1 ++ l2)) /\
    same_arena s s' /\
    changes_within (free_region bs fl) (bytes s) (bytes s').
Proof.
  intros H Hb Hl.
  pose proof (search_seg_list_range (b_size b)) as Hk.
  set (k := search_seg_list (b_size b)) in *.
  assert (Hk14 : 0 <= k < 14) by lia.
  unfold listed in Hl. fold k in Hl.
  destruct (in_split _ _ Hl) as (l1 & l2 & Efl).
  exists l1, l2.
  pose proof (hp_in _ _ _ H _ Hb) as (Bp1 & Bp2 & Bs & Bm & Ba).
  pose proof (hp_arena _ _ _ H) as [Alo Ahi].
  pose proof (hp_spaced _ _ _ H k Hk14) as Hsp. rewrite Efl in Hsp.
  pose proof (hp_links _ _ _ H k Hk14) as Hd. rewrite Efl in Hd.
  destruct (dll_unlink _ _ _ _ Hd Hsp) as (Epl & Enl & Hd').
  destruct (hp_tagged _ _ _ H _ Hb) as [Thd Tft].
  set (bp := b_ptr b) in *.
  set (pl := last l1 NULL) in *. set (nl := hd NULL l2) in *.
  (* where pl and nl are *)
  assert (Hpl : (l1 = [] /\ pl = NULL) \/ (l1 <> [] /\ In pl l1))
    by apply last_default_or_in.
  assert (Hnl : (l2 = [] /\ nl = NULL) \/ (l2 <> [] /\ In nl l2)).
  { unfold nl. destruct l2 as [|x r]; [left; auto|right]. split; [discriminate|]. left. reflexivity. }
  assert (Hin1 : forall y, In y l1 -> In y (fl k))
    by (intros y Hy; rewrite Efl; apply in_or_app; auto).
  assert (Hin2 : forall y, In y l2 -> In y (fl k))
    by (intros y Hy; rewrite Efl; apply in_or_app; right; right; auto).
  assert (Hblk : forall y, In y (fl k) ->
            exists c, In c bs /\ b_ptr c = y /\ search_seg_list (b_size c) = k)
    by (intros y Hy; apply (hp_member _ _ _ H k y Hk14 Hy)).
  assert (Hpl0 : pl <> NULL -> In pl l1).
  { intros Hne. destruct Hpl as [[_ ?]|[_ ?]]; [contradiction|assumption]. }
  assert (Hnl0 : nl <> NULL -> In nl l2).
  { intros Hne. destruct Hnl as [[_ ?]|[_ ?]]; [contradiction|assumption]. }
  assert (Hnd : NoDup (l1 ++ bp :: l2)) by apply Hsp.
  assert (Hbp1 : ~ In bp l1).
  { intros Hi. apply (nodup_app_disjoint _ _ bp Hnd Hi). left. reflexivity. }
  assert (Hbp2 : ~ In bp l2).
  { intros Hi. apply NoDup_remove_2 in Hnd. apply Hnd. apply in_or_app. auto. }
  (* the run *)
  assert (Hrun : delete_list_blcok bp s =
    Some (tt, set_bytes
                (set_seg_list s (if pl =? NULL
                                 then list_set (seg_list s) (Z.to_nat k) nl
                                 else seg_list s))
                (unlink_store (bytes s) pl nl))).
  { pose proof (delete_list_blcok_run bp s (hp_len _ _ _ H)) as R.
    cbv zeta in R. rewrite Thd, Epl, Enl in R.
    rewrite (tagw_size b) in R by (unfold wB in *; lia).
    apply R.
    - lia.
    - lia.
    - apply in_arena_intro; lia.
    - intros Hne. destruct (Hblk nl (Hin2 _ (Hnl0 Hne))) as (c & Ic & Pc & _).
      pose proof (hp_in _ _ _ H _ Ic) as (? & ? & ? & ? & ?).
      split; [apply in_arena_intro; lia|].
      assert (A : apart bp nl).
      { apply (spaced_apart _ bp nl Hsp).
        - apply in_or_app. right. left. reflexivity.
        - apply in_or_app. right. right. auto.
        - intros E. apply Hbp2. rewrite E. auto. }
      unfold apart in A. lia.
    - intros Hne. destruct (Hblk pl (Hin1 _ (Hpl0 Hne))) as (c & Ic & Pc & _).
      pose proof (hp_in _ _ _ H _ Ic) as (? & ? & ? & ? & ?).
      split; [apply in_arena_intro; lia|lia]. }
  eexists. split; [exact Efl|]. split; [exact Hrun|].
  (* the slots written *)
  assert (Hdiff := unlink_store_differ (bytes s) pl nl).
  set (S := (if nl =? NULL then [] else [nl]) ++ (if pl =? NULL then [] else [pl + 8])) in *.
  assert (HS : forall w, In w S ->
            exists c, In c bs /\ In (b_ptr c) (fl k) /\ search_seg_list (b_size c) = k /\
                      b_ptr c <> bp /\ (w = b_ptr c \/ w = b_ptr c + 8)).
  { intros w Hw. unfold S in Hw. apply in_app_or in Hw. destruct Hw as [Hw|Hw].
    - destruct (Z.eqb_spec nl NULL) as [|Hne]; [contradiction|].
      destruct Hw as [<-|[]].
      destruct (Hblk nl (Hin2 _ (Hnl0 Hne))) as (c & Ic & Pc & Cc).
      exists c. rewrite Pc. repeat split; auto.
      intros E. apply Hbp2. rewrite <- E. auto.
    - destruct (Z.eqb_spec pl NULL) as [|Hne]; [contradiction|].
      destruct Hw as [<-|[]].
      destruct (Hblk pl (Hin1 _ (Hpl0 Hne))) as (c & Ic & Pc & Cc).
      exists c. rewrite Pc. repeat split; auto.
      intros E. apply Hbp1. rewrite <- E. auto. }
  assert (Hload : forall a,
            (forall c, In c bs -> a + 8 <= b_ptr c \/ b_ptr c + 16 <= a) ->
            load8 (unlink_store (bytes s) pl nl) a = load8 (bytes s) a).
  { intros a Ha. apply (load8_differ _ _ _ _ Hdiff). intros w Hw.
    destruct (HS w Hw) as (c & Ic & _ & _ & _ & Ew).
    destruct (Ha c Ic); lia. }
  split; [|split].
  - (* the heap after the removal *)
    constructor; cbn [mem_start_brk mem_max mem_brk bytes seg_list set_bytes set_seg_list].
    + apply (hp_lo _ _ _ H).
    + apply (hp_hi _ _ _ H).
    + destruct (pl =? NULL); [rewrite list_set_length|]; apply (hp_len _ _ _ H).
    + destruct (hp_prologue _ _ _ H) as [P1 P2].
      rewrite !Hload; auto;
        intros c Ic; pose proof (hp_in _ _ _ H _ Ic); lia.
    + apply (hp_chain _ _ _ H).
    + rewrite Hload; [apply (hp_epilogue _ _ _ H)|].
      intros c Ic; pose proof (hp_in _ _ _ H _ Ic); lia.
    + apply Forall_forall. intros c Ic.
      destruct (hp_tagged _ _ _ H _ Ic) as [T1 T2].
      split.
      * rewrite <- T1. apply (load8_differ _ _ _ _ Hdiff). intros w Hw.
        destruct (HS w Hw) as (x & Ix & _ & _ & _ & Ew).
        destruct (link_slot_clear _ _ _ H x c w Ix Ic Ew). lia.
      * rewrite <- T2. apply (load8_differ _ _ _ _ Hdiff). intros w Hw.
        destruct (HS w Hw) as (x & Ix & _ & _ & _ & Ew).
        destruct (link_slot_clear _ _ _ H x c w Ix Ic Ew). lia.
    + intros j Hj. destruct (Z.eq_dec j k) as [->|Hjk].
      * rewrite upd_same.
        pose proof (hp_heads _ _ _ H k Hk14) as Hhd. rewrite Efl in Hhd.
        destruct Hpl as [[-> Ep]|[Hne Hpin]].
        -- rewrite Ep. change (NULL =? NULL) with true. cbv iota.
           rewrite nth_list_set by (rewrite (hp_len _ _ _ H); lia).
           rewrite Nat.eqb_refl. reflexivity.
        -- destruct (Z.eqb_spec pl NULL) as [E0|_].
           { pose proof (spaced_pos _ pl Hsp ltac:(apply in_or_app; auto)).
             unfold NULL in E0. lia. }
           rewrite Hhd. destruct l1; [contradiction|reflexivity].
      * rewrite upd_other by exact Hjk.
        rewrite <- (hp_heads _ _ _ H j Hj).
        destruct (pl =? NULL); [|reflexivity].
        rewrite nth_list_set by (rewrite (hp_len _ _ _ H); lia).
        destruct (Nat.eqb_spec (Z.to_nat j) (Z.to_nat k)); [lia|reflexivity].
    + intros j Hj. destruct (Z.eq_dec j k) as [->|Hjk].
      * rewrite upd_same. exact Hd'.
      * rewrite upd_other by exact Hjk.
        apply (dll_differ _ _ S _ _ _ (hp_links _ _ _ H j Hj) Hdiff).
        intros x w Hx Hw.
        destruct (HS w Hw) as (c & Ic & Lc & _ & _ & Ew).
        assert (A : apart x (b_ptr c)).
        { apply (hp_members_apart _ _ _ H j k); auto.
          intros E. rewrite E in Hx. apply Hjk.
          apply (hp_member_class _ _ _ H j k (b_ptr c)); auto. }
        unfold apart in A. lia.
    + intros j x Hj Hx. destruct (Z.eq_dec j k) as [->|Hjk].
      * rewrite upd_same in Hx. apply (hp_member _ _ _ H k x Hk14).
        rewrite Efl. apply in_app_or in Hx. apply in_or_app.
        destruct Hx; [left|right; right]; assumption.
      * rewrite upd_other in Hx by exact Hjk. apply (hp_member _ _ _ H j x Hj Hx).
    + intros j Hj. destruct (Z.eq_dec j k) as [->|Hjk].
      * rewrite upd_same. apply NoDup_remove_1 in Hnd. exact Hnd.
      * rewrite upd_other by exact Hjk. apply (hp_nodup _ _ _ H j Hj).
  - repeat split.
  - cbn [bytes set_bytes].
    apply (differ_on_changes _ _ _ S Hdiff).
    intros w y Hw Hy.
    destruct (HS w Hw) as (c & Ic & Lc & Cc & _ & Ew).
    exists c. split; [exact Ic|]. split.
    + unfold listed. rewrite Cc. exact Lc.
    + pose proof (hp_in _ _ _ H _ Ic). unfold in_block. lia.
Qed.

(** ** Insertion of a block in the list of its class *)

Lemma hp_add (s : heap) (bs : list blk) (fl : lists) (b : blk) (size : Z) :
  hp s bs fl -> In b bs -> ~ listed fl b ->
  search_seg_list size = search_seg_list (b_size b) ->
  let k := search_seg_list (b_size b) in
  let s' := set_bytes
              (set_seg_list s (list_set (seg_list s) (Z.to_nat k) (b_ptr b)))
              (link_head_store (bytes s) (b_ptr b) (hd NULL (fl k))) in
  add_list_block (b_ptr b) size s = Some (tt, s') /\
  hp s' bs (upd fl k (b_ptr b :: fl k)) /\
  changes_within (fun y => in_block b y \/ free_region bs fl y) (bytes s) (bytes s').
Proof.
  intros H Hb Hnl Hsize k s'.
  pose proof (search_seg_list_range (b_size b)) as Hk. fold k in Hk.
  assert (Hk14 : 0 <= k < 14) by lia.
  unfold listed in Hnl. fold k in Hnl.
  pose proof (hp_in _ _ _ H _ Hb) as (Bp1 & Bp2 & Bs & Bm & Ba).
  pose proof (hp_arena _ _ _ H) as [Alo Ahi].
  pose proof (hp_heads _ _ _ H k Hk14) as Hhd.
  set (bp := b_ptr b) in *. set (h := hd NULL (fl k)) in *.
  assert (Hh : h = NULL \/ In h (fl k)).
  { unfold h. destruct (fl k); [left|right; left]; reflexivity. }
  assert (Hblk : forall j y, 0 <= j < 14 -> In y (fl j) ->
            exists c, In c bs /\ b_ptr c = y /\ search_seg_list (b_size c) = j)
    by (intros j y Hj Hy; apply (hp_member _ _ _ H j y Hj Hy)).
  assert (Hbj : forall j, 0 <= j < 14 -> ~ In bp (fl j)).
  { intros j Hj Hi. destruct (Hblk j bp Hj Hi) as (c & Ic & Pc & Cc).
    assert (c = b) by (apply (chain_ptr_inj _ _ _ _ _ (hp_chain _ _ _ H)); auto).
    subst c. fold k in Cc. subst j. contradiction. }
  assert (Hrun : add_list_block bp size s = Some (tt, s')).
  { unfold s'. rewrite <- Hhd. unfold k. rewrite <- Hsize.
    apply add_list_block_run.
    - apply (hp_len _ _ _ H).
    - lia.
    - lia.
    - apply in_arena_intro; lia.
    - rewrite Hsize. fold k. rewrite Hhd. fold h. intros Hne.
      destruct Hh as [|Hh]; [contradiction|].
      destruct (Hblk k h Hk14 Hh) as (c & Ic & Pc & _).
      pose proof (hp_in _ _ _ H _ Ic). apply in_arena_intro; lia. }
  split; [exact Hrun|].
  assert (Hdiff := link_head_store_differ (bytes s) bp h).
  (* every slot written is a link slot of b, a link slot of the old head,
     or lies below the arena *)
  assert (HS : forall w, In w (bp :: bp + 8 :: if h =? NULL then [] else [h]) ->
            exists c, In c bs /\ (c = b \/ In (b_ptr c) (fl k)) /\
                      (w = b_ptr c \/ w = b_ptr c + 8)).
  { intros w [<-|[<-|Hw]].
    - exists b. auto.
    - exists b. auto.
    - destruct (Z.eqb_spec h NULL) as [|Hne]; [contradiction|].
      destruct Hw as [<-|[]].
      destruct Hh as [E|Hh]; [contradiction|].
      destruct (Hblk k h Hk14 Hh) as (c & Ic & Pc & _).
      exists c. rewrite Pc. auto. }
  assert (Hload : forall a,
            (forall c, In c bs -> a + 8 <= b_ptr c \/ b_ptr c + 16 <= a) ->
            load8 (link_head_store (bytes s) bp h) a = load8 (bytes s) a).
  { intros a Ha. apply (load8_differ _ _ _ _ Hdiff). intros w Hw.
    destruct (HS w Hw) as (c & Ic & _ & Ew).
    destruct (Ha c Ic); lia. }
  split.
  - constructor; unfold s'; cbn [mem_start_brk mem_max mem_brk bytes seg_list set_bytes set_seg_list].
    + apply (hp_lo _ _ _ H).
    + apply (hp_hi _ _ _ H).
    + rewrite list_set_length. apply (hp_len _ _ _ H).
    + destruct (hp_prologue _ _ _ H) as [P1 P2].
      rewrite !Hload; auto;
        intros c Ic; pose proof (hp_in _ _ _ H _ Ic); lia.
    + apply (hp_chain _ _ _ H).
    + rewrite Hload; [apply (hp_epilogue _ _ _ H)|].
      intros c Ic; pose proof (hp_in _ _ _ H _ Ic); lia.
    + apply Forall_forall. intros c Ic.
      destruct (hp_tagged _ _ _ H _ Ic) as [T1 T2].
      pose proof (hp_in _ _ _ H _ Ic) as (C1 & C2 & C3 & C4 & C5).
      split.
      * rewrite <- T1. apply (load8_differ _ _ _ _ Hdiff). intros w Hw.
        destruct (HS w Hw) as (x & Ix & _ & Ew).
        destruct (link_slot_clear _ _ _ H x c w Ix Ic Ew). lia.
      * rewrite <- T2. apply (load8_differ _ _ _ _ Hdiff). intros w Hw.
        destruct (HS w Hw) as (x & Ix & _ & Ew).
        destruct (link_slot_clear _ _ _ H x c w Ix Ic Ew). lia.
    + intros j Hj. destruct (Z.eq_dec j k) as [->|Hjk].
      * rewrite upd_same. rewrite nth_list_set by (rewrite (hp_len _ _ _ H); lia).
        rewrite Nat.eqb_refl. reflexivity.
      * rewrite upd_other by exact Hjk.
        rewrite nth_list_set by (rewrite (hp_len _ _ _ H); lia).
        destruct (Nat.eqb_spec (Z.to_nat j) (Z.to_nat k)); [lia|].
        apply (hp_heads _ _ _ H j Hj).
    + intros j Hj. destruct (Z.eq_dec j k) as [->|Hjk].
      * rewrite upd_same. apply dll_link_head.
        -- apply (hp_links _ _ _ H k Hk14).
        -- lia.
        -- pose proof (hp_spaced _ _ _ H k Hk14) as [Hnd Hsp].
           split; [constructor; auto|].
           intros x [<-|Hx].
           ++ split; [lia|]. intros y [<-|Hy]; [left; reflexivity|right].
              destruct (Hblk k y Hk14 Hy) as (c & Ic & Pc & _). subst y.
              apply (hp_apart _ _ _ H); auto.
              intros E. apply Hnl.
              replace bp with (b_ptr c) by (symmetry; exact E). exact Hy.
           ++ destruct (Hsp x Hx) as [Hx0 Hxa]. split; [exact Hx0|].
              intros y [<-|Hy]; [|apply Hxa, Hy]. right.
              destruct (Hblk k x Hk14 Hx) as (c & Ic & Pc & _). subst x.
              apply (hp_apart _ _ _ H); auto.
              intros E. apply Hnl.
              replace bp with (b_ptr c) by exact E. exact Hx.
      * rewrite upd_other by exact Hjk.
        apply (dll_differ _ _ _ _ _ _ (hp_links _ _ _ H j Hj) Hdiff).
        intros x w Hx Hw.
        destruct (Hblk j x Hj Hx) as (cx & Icx & Pcx & _).
        pose proof (hp_in _ _ _ H _ Icx).
        destruct (HS w Hw) as (c & Ic & Hc & Ew).
        assert (A : apart x (b_ptr c)).
        { subst x. apply (hp_apart _ _ _ H); auto.
          intros E. destruct Hc as [->|Hc].
          - apply (Hbj j Hj).
            replace bp with (b_ptr cx) by exact E. exact Hx.
          - apply Hjk. apply (hp_member_class _ _ _ H j k (b_ptr c)); auto.
            rewrite <- E. exact Hx. }
        unfold apart in A. lia.
    + intros j x Hj Hx. destruct (Z.eq_dec j k) as [->|Hjk].
      * rewrite upd_same in Hx. destruct Hx as [<-|Hx].
        -- exists b. auto.
        -- apply (Hblk k x Hk14 Hx).
      * rewrite upd_other in Hx by exact Hjk. apply (Hblk j x Hj Hx).
    + intros j Hj. destruct (Z.eq_dec j k) as [->|Hjk].
      * rewrite upd_same. constructor; [exact Hnl|apply (hp_nodup _ _ _ H k Hk14)].
      * rewrite upd_other by exact Hjk. apply (hp_nodup _ _ _ H j Hj).
  - unfold s'. cbn [bytes set_bytes].
    intros y Hy. apply Hdiff. intros w Hw.
    destruct (Z_lt_dec y w) as [|H1]; [left; assumption|].
    destruct (Z_le_dec (w + 8) y) as [|H2]; [right; assumption|].
    exfalso.
    destruct (HS w Hw) as (c & Ic & Hc & Ew).
    apply Hy. pose proof (hp_in _ _ _ H _ Ic).
    destruct Hc as [->|Hc].
    + left. unfold in_block. fold bp. lia.
    + right. exists c. split; [exact Ic|]. split; [|unfold in_block; lia].
      unfold listed.
      destruct (Hblk k _ Hk14 Hc) as (c' & Ic' & Pc' & Cc').
      assert (c' = c) by (apply (chain_ptr_inj _ _ _ _ _ (hp_chain _ _ _ H)); auto).
      subst c'. rewrite Cc'. exact Hc.
Qed.

(** ** Reading boundary tags *)

Lemma p_to_header_eq (bp : Z) : 8 <= bp < wB -> p_to_header bp = bp - 8.
Proof. intros H. unfold p_to_header. apply wrap_small. unfold wB in *. lia. Qed.

Lemma get_size_val (a w : Z) (s : heap) :
  in_arena s a 8 = true -> load8 (bytes s) a = w ->
  get_size a s = Some (size_bits w, s).
Proof. intros Hin <-. apply get_size_ok, Hin. Qed.

Lemma get_alloc_val (a w : Z) (s : heap) :
  in_arena s a 8 = true -> load8 (bytes s) a = w ->
  get_alloc a s = Some (alloc_bit w, s).
Proof. intros Hin <-. apply get_alloc_ok, Hin. Qed.

(* the header of a block, of the prologue or of the epilogue at [p - 8] *)
Lemma read_header (s : heap) (c : blk) :
  mem_start_brk s + 8 <= b_ptr c ->
  b_ptr c <= mem_start_brk s + mem_brk s -> mem_start_brk s + mem_brk s < wB ->
  0 < mem_start_brk s ->
  0 <= b_size c < wB -> b_size c mod 16 = 0 ->
  load8 (bytes s) (b_ptr c - 8) = tagw c ->
  get_size (p_to_header (b_ptr c)) s = Some (b_size c, s) /\
  get_alloc (p_to_header (b_ptr c)) s = Some (Z.b2z (b_flag c), s) /\
  p_to_footer (b_ptr c) s = Some (wrap (b_ptr c + b_size c - 16), s) /\
  next_bp (b_ptr c) s = Some (wrap (b_ptr c + b_size c), s).
Proof.
  intros Hlo Hhi Hwb Hpos Hs Hm Hld.
  assert (Hh : p_to_header (b_ptr c) = b_ptr c - 8) by (apply p_to_header_eq; lia).
  assert (Hin : in_arena s (b_ptr c - 8) 8 = true) by (apply in_arena_intro; lia).
  assert (G : get_size (p_to_header (b_ptr c)) s = Some (b_size c, s)).
  { rewrite Hh. rewrite (get_size_val _ _ _ Hin Hld). now rewrite tagw_size. }
  split; [exact G|]. split; [|split].
  - rewrite Hh. rewrite (get_alloc_val _ _ _ Hin Hld). now rewrite tagw_alloc.
  - unfold p_to_footer. now rewrite (bind_some _ _ _ _ _ G).
  - unfold next_bp. now rewrite (bind_some _ _ _ _ _ G).
Qed.

Lemma last_default_or_in_blk (l : list blk) (d : blk) :
  (l = [] /\ last l d = d) \/ (l <> [] /\ In (last l d) l).
Proof.
  destruct l as [|x l]; [left; auto|right].
  split; [discriminate|].
  destruct (exists_last (l := x :: l) ltac:(discriminate)) as (l' & z & E).
  rewrite E, last_last. apply in_or_app. right. left. reflexivity.
Qed.

Section Reads.
Variables (s : heap) (bs : list blk) (fl : lists).
Hypothesis H : hp s bs fl.

Lemma rd_block (c : blk) :
  In c bs ->
  get_size (p_to_header (b_ptr c)) s = Some (b_size c, s) /\
  get_alloc (p_to_header (b_ptr c)) s = Some (Z.b2z (b_flag c), s) /\
  p_to_footer (b_ptr c) s = Some (b_ptr c + b_size c - 16, s) /\
  next_bp (b_ptr c) s = Some (b_ptr c + b_size c, s).
Proof.
  intros Hc.
  pose proof (hp_in _ _ _ H _ Hc) as (C1 & C2 & C3 & C4 & C5).
  pose proof (hp_arena _ _ _ H) as [Alo Ahi].
  destruct (hp_tagged _ _ _ H _ Hc) as [T1 _].
  destruct (read_header s c) as (R1 & R2 & R3 & R4); try lia; auto.
  rewrite (wrap_small (b_ptr c + b_size c - 16)) in R3 by lia.
  rewrite (wrap_small (b_ptr c + b_size c)) in R4 by lia.
  auto.
Qed.

(* the block before a block: the last of those before it, or the
   prologue *)
Lemma hp_prev (pre post : list blk) (c : blk) :
  bs = pre ++ c :: post ->
  let y := last pre (prologue s) in
  b_ptr y + b_size y = b_ptr c /\
  16 <= b_size y /\ b_size y mod 16 = 0 /\ mem_start_brk s + 16 <= b_ptr y /\
  load8 (bytes s) (b_ptr c - 16) = tagw y /\
  load8 (bytes s) (b_ptr y - 8) = tagw y /\
  (b_flag y = false -> exists pre', pre = pre' ++ [y]).
Proof.
  intros E y.
  pose proof (hp_chain _ _ _ H) as Hc. rewrite E in Hc.
  apply chain_app in Hc. destruct Hc as (mid & Hc1 & Hc2).
  simpl in Hc2. destruct Hc2 as (Hp & _).
  destruct (last_default_or_in_blk pre (prologue s)) as [[-> Ey]|[Hne Hy]].
  - subst y. simpl in Hc1. simpl last.
    destruct (hp_prologue _ _ _ H) as [P1 P2].
    unfold prologue; cbn [b_ptr b_size b_flag]. unfold tagw; cbn [b_ptr b_size b_flag Z.b2z].
    replace (b_ptr c - 16) with (mem_start_brk s + 16) by lia.
    replace (mem_start_brk s + 16 - 8) with (mem_start_brk s + 8) by lia.
    repeat split; try lia; auto.
  - fold y in Hy.
    destruct (exists_last Hne) as (pre' & y' & E').
    assert (y = y') by (unfold y; rewrite E'; apply last_last). subst y'.
    rewrite E' in Hc1. apply chain_snoc in Hc1. destruct Hc1 as (_ & Hs & Hm & He).
    assert (Iy : In y bs) by (rewrite E; apply in_or_app; left; exact Hy).
    destruct (hp_tagged _ _ _ H _ Iy) as [T1 T2].
    pose proof (hp_in _ _ _ H _ Iy).
    replace (b_ptr c - 16) with (b_ptr y + b_size y - 16) by lia.
    repeat split; try lia; auto. intros _. exists pre'. exact E'.
Qed.

(* the block after a block: the first of those after it, or the
   epilogue *)
Lemma hp_next (pre post : list blk) (c : blk) :
  bs = pre ++ c :: post ->
  let z := hd (epilogue s) post in
  b_ptr z = b_ptr c + b_size c /\
  0 <= b_size z /\ b_size z mod 16 = 0 /\
  load8 (bytes s) (b_ptr z - 8) = tagw z /\
  (b_flag z = false -> exists post', post = z :: post').
Proof.
  intros E z.
  pose proof (hp_chain _ _ _ H) as Hc. rewrite E in Hc.
  apply chain_app in Hc. destruct Hc as (mid & Hc1 & Hc2).
  simpl in Hc2. destruct Hc2 as (Hp & _ & _ & Hc2).
  destruct post as [|z' post'].
  - subst z. simpl in Hc2. simpl hd.
    unfold epilogue, tagw; cbn [b_ptr b_size b_flag Z.b2z].
    pose proof (hp_epilogue _ _ _ H) as Hep.
    repeat split; try lia; try exact Hep; try discriminate.
  - subst z. simpl hd. simpl in Hc2. destruct Hc2 as (Hz & Hs & Hm & _).
    assert (Iz : In z' bs) by (rewrite E; apply in_or_app; right; right; left; reflexivity).
    destruct (hp_tagged _ _ _ H _ Iz) as [T1 _].
    repeat split; try lia; auto. intros _. exists post'. reflexivity.
Qed.

End Reads.

(** ** Rewriting the boundary tags of a stretch of unlisted blocks *)

Lemma load8_changes (R : Z -> Prop) (m m' : store) (a : Z) :
  changes_within R m m' ->
  (forall y, a <= y < a + 8 -> ~ R y) ->
  load8 m' a = load8 m a.
Proof. intros Hc Ha. apply load8_ext. intros x Hx. apply Hc, Ha, Hx. Qed.

Lemma dll_changes (R : Z -> Prop) (m m' : store) (p n : Z) (l : list Z) :
  dll m p l n -> changes_within R m m' ->
  (forall x y, In x l -> x <= y < x + 16 -> ~ R y) ->
  dll m' p l n.
Proof.
  intros Hd Hc Hl. apply (dll_frame m); [exact Hd|].
  intros x Hx. split; apply (load8_changes R); auto;
    intros y Hy; apply (Hl x); auto; lia.
Qed.

Lemma hp_retag (s : heap) (pre mid mid' post : list blk) (fl : lists)
      (m' : store) (p0 p1 : Z) :
  hp s (pre ++ mid ++ post) fl ->
  chain (mem_start_brk s + 32) pre p0 ->
  chain p1 post (mem_start_brk s + mem_brk s) ->
  chain p0 mid' p1 ->
  (forall c, In c mid -> ~ listed fl c) ->
  changes_within (fun y => p0 - 8 <= y < p1 - 8) (bytes s) m' ->
  Forall (tagged m') mid' ->
  hp (set_bytes s m') (pre ++ mid' ++ post) fl.
Proof.
  intros H Hpre Hpost Hmid' Hunl Hch Htag.
  pose proof (chain_le _ _ _ Hpre) as Lpre.
  pose proof (chain_le _ _ _ Hpost) as Lpost.
  assert (Hin_pre : forall c, In c pre -> b_ptr c + b_size c <= p0 /\ 32 <= b_size c).
  { intros c Ic. pose proof (chain_in _ _ _ _ Hpre Ic). lia. }
  assert (Hin_post : forall c, In c post -> p1 <= b_ptr c).
  { intros c Ic. pose proof (chain_in _ _ _ _ Hpost Ic). lia. }
  assert (Hmem : forall k x, 0 <= k < 14 -> In x (fl k) ->
            exists c, (In c pre \/ In c post) /\ b_ptr c = x /\
                      search_seg_list (b_size c) = k).
  { intros k x Hk Hx. destruct (hp_member _ _ _ H k x Hk Hx) as (c & Ic & Pc & Cc).
    exists c. split; [|auto].
    apply in_app_or in Ic. destruct Ic as [Ic|Ic]; [left; exact Ic|].
    apply in_app_or in Ic. destruct Ic as [Ic|Ic]; [|right; exact Ic].
    exfalso. apply (Hunl c Ic). unfold listed. rewrite Cc, Pc. exact Hx. }
  constructor; cbn [mem_start_brk mem_max mem_brk bytes seg_list set_bytes].
  - apply (hp_lo _ _ _ H).
  - apply (hp_hi _ _ _ H).
  - apply (hp_len _ _ _ H).
  - destruct (hp_prologue _ _ _ H) as [P1 P2].
    rewrite !(load8_changes _ _ _ _ Hch); auto; intros y Hy; lia.
  - apply chain_app. exists p0. split; [exact Hpre|].
    apply chain_app. exists p1. auto.
  - rewrite (load8_changes _ _ _ _ Hch); [apply (hp_epilogue _ _ _ H)|].
    intros y Hy; lia.
  - apply Forall_forall. intros c Ic.
    apply in_app_or in Ic. destruct Ic as [Ic|Ic].
    + destruct (hp_tagged _ _ _ H c) as [T1 T2]; [apply in_or_app; auto|].
      destruct (Hin_pre c Ic).
      split; [rewrite <- T1|rewrite <- T2];
        apply (load8_changes _ _ _ _ Hch); intros y Hy; lia.
    + apply in_app_or in Ic. destruct Ic as [Ic|Ic].
      * exact (proj1 (Forall_forall _ _) Htag c Ic).
      * destruct (hp_tagged _ _ _ H c) as [T1 T2];
          [apply in_or_app; right; apply in_or_app; auto|].
        pose proof (Hin_post c Ic). pose proof (chain_in _ _ _ _ Hpost Ic).
        split; [rewrite <- T1|rewrite <- T2];
          apply (load8_changes _ _ _ _ Hch); intros y Hy; lia.
  - apply (hp_heads _ _ _ H).
  - intros k Hk. apply (dll_changes _ _ _ _ _ _ (hp_links _ _ _ H k Hk) Hch).
    intros x y Hx Hy. destruct (Hmem k x Hk Hx) as (c & [Ic|Ic] & Pc & _).
    + destruct (Hin_pre c Ic). lia.
    + pose proof (Hin_post c Ic). lia.
  - intros k x Hk Hx. destruct (Hmem k x Hk Hx) as (c & Ic & Pc & Cc).
    exists c. split; [|auto].
    destruct Ic as [Ic|Ic]; apply in_or_app; [left; exact Ic|right].
    apply in_or_app. right. exact Ic.
  - apply (hp_nodup _ _ _ H).
Qed.

(* the size that the header of a block of the heap gives *)
Lemma block_size_live (s : heap) (bs : list blk) (fl : lists) (c : blk) :
  hp s bs fl -> In c bs -> block_size s (b_ptr c) = b_size c.
Proof.
  intros H Ic. pose proof (hp_in _ _ _ H _ Ic) as (C1 & C2 & C3 & C4 & C5).
  pose proof (hp_arena _ _ _ H) as [Alo Ahi].
  destruct (hp_tagged _ _ _ H _ Ic) as [T1 _].
  unfold block_size. rewrite p_to_header_eq by lia. rewrite T1.
  apply tagw_size; lia.
Qed.


Lemma prologue_same (s s' : heap) : same_arena s s' -> prologue s' = prologue s.
Proof. intros (H1 & _ & _). unfold prologue. now rewrite H1. Qed.

Lemma epilogue_same (s s' : heap) : same_arena s s' -> epilogue s' = epilogue s.
Proof. intros (H1 & _ & H3). unfold epilogue. now rewrite H1, H3. Qed.

Lemma prev_bp_val (bp w : Z) (s : heap) :
  in_arena s (wrap (bp - 16)) 8 = true ->
  load8 (bytes s) (wrap (bp - 16)) = w ->
  prev_bp bp s = Some (wrap (bp - size_bits w), s).
Proof.
  intros Hin Hld. unfold prev_bp.
  now rewrite (bind_some _ _ _ _ _ (get_size_val _ _ _ Hin Hld)).
Qed.

Section NeighbourReads.
Variables (s : heap) (fl : lists) (pre post : list blk) (c : blk).
Hypothesis H : hp s (pre ++ c :: post) fl.

Let y := last pre (prologue s).
Let z := hd (epilogue s) post.

Lemma rd_prev :
  prev_bp (b_ptr c) s = Some (b_ptr y, s) /\
  get_alloc (p_to_header (b_ptr y)) s = Some (Z.b2z (b_flag y), s) /\
  get_size (p_to_header (b_ptr y)) s = Some (b_size y, s).
Proof.
  destruct (hp_prev _ _ _ H pre post c eq_refl) as (Y1 & Y2 & Y3 & Y4 & Y5 & Y6 & _).
  fold y in Y1, Y2, Y3, Y4, Y5, Y6.
  pose proof (hp_arena _ _ _ H) as [Alo Ahi].
  assert (Ic : In c (pre ++ c :: post)) by (apply in_or_app; right; left; reflexivity).
  pose proof (hp_in _ _ _ H _ Ic) as (C1 & C2 & C3 & C4 & C5).
  assert (Hw : wrap (b_ptr c - 16) = b_ptr c - 16) by (apply wrap_small; lia).
  split.
  - rewrite (prev_bp_val (b_ptr c) (tagw y)).
    + rewrite tagw_size by lia.
      rewrite wrap_small by lia. f_equal. f_equal. lia.
    + rewrite Hw. apply in_arena_intro; lia.
    + rewrite Hw. exact Y5.
  - destruct (read_header s y) as (R1 & R2 & _ & _); try lia; auto.
Qed.

Lemma rd_next :
  b_ptr z = b_ptr c + b_size c /\
  get_alloc (p_to_header (b_ptr z)) s = Some (Z.b2z (b_flag z), s) /\
  get_size (p_to_header (b_ptr z)) s = Some (b_size z, s).
Proof.
  destruct (hp_next _ _ _ H pre post c eq_refl) as (Z1 & Z2 & Z3 & Z4 & _).
  fold z in Z1, Z2, Z3, Z4.
  pose proof (hp_arena _ _ _ H) as [Alo Ahi].
  assert (Ic : In c (pre ++ c :: post)) by (apply in_or_app; right; left; reflexivity).
  pose proof (hp_in _ _ _ H _ Ic) as (C1 & C2 & C3 & C4 & C5).
  split; [exact Z1|].
  assert (Hzs : b_size z < wB).
  { unfold z. destruct post as [|z' post']; simpl.
    - unfold wB. lia.
    - assert (Iz : In z' (pre ++ c :: z' :: post'))
        by (apply in_or_app; right; right; left; reflexivity).
      pose proof (hp_in _ _ _ H _ Iz). lia. }
  destruct (read_header s z) as (R1 & R2 & _ & _); try lia; auto.
Qed.

End NeighbourReads.

(** ** The members of the lists after a removal and an insertion *)

Lemma hp_delete_members (s : heap) (bs : list blk) (fl : lists) (b : blk) :
  hp s bs fl -> In b bs -> listed fl b ->
  exists s' fl',
    delete_list_blcok (b_ptr b) s = Some (tt, s') /\
    hp s' bs fl' /\
    same_arena s s' /\
    changes_within (free_region bs fl) (bytes s) (bytes s') /\
    (forall j x, 0 <= j < 14 -> (In x (fl' j) <-> In x (fl j) /\ x <> b_ptr b)).
Proof.
  intros H Hb Hl.
  destruct (hp_delete _ _ _ _ H Hb Hl) as (l1 & l2 & s' & Efl & Hrun & H' & Hsa & Hch).
  exists s', (upd fl (search_seg_list (b_size b)) (l1 ++ l2)).
  split; [exact Hrun|]. split; [exact H'|]. split; [exact Hsa|]. split; [exact Hch|].
  intros j x Hj.
  pose proof (search_seg_list_range (b_size b)) as Hk.
  assert (Hk14 : 0 <= search_seg_list (b_size b) < 14) by lia.
  pose proof (hp_nodup _ _ _ H _ Hk14) as Hnd. rewrite Efl in Hnd.
  apply NoDup_remove_2 in Hnd.
  destruct (Z.eq_dec j (search_seg_list (b_size b))) as [->|Hne].
  - rewrite upd_same, Efl. split.
    + intros H1. split.
      * apply in_app_or in H1. apply in_or_app.
        destruct H1; [left|right; right]; assumption.
      * intros ->. contradiction.
    + intros [Hx Hnx]. apply in_app_or in Hx. apply in_or_app.
      destruct Hx as [Hx|[Hx|Hx]]; auto. congruence.
  - rewrite upd_other by exact Hne. split.
    + intros H1. split; [exact H1|]. intros ->.
      apply Hne. apply (hp_member_class _ _ _ H j _ (b_ptr b)); auto.
    + intros [Hx _]. exact Hx.
Qed.

Lemma hp_add_members (s : heap) (bs : list blk) (fl : lists) (b : blk) (size : Z) :
  hp s bs fl -> In b bs -> ~ listed fl b ->
  search_seg_list size = search_seg_list (b_size b) ->
  exists s' fl',
    add_list_block (b_ptr b) size s = Some (tt, s') /\
    hp s' bs fl' /\
    same_arena s s' /\
    changes_within (fun y => in_block b y \/ free_region bs fl y) (bytes s) (bytes s') /\
    (forall j x, 0 <= j < 14 ->
       (In x (fl' j) <-> In x (fl j) \/ (j = search_seg_list (b_size b) /\ x = b_ptr b))).
Proof.
  intros H Hb Hl Hsize.
  destruct (hp_add _ _ _ _ _ H Hb Hl Hsize) as (Hrun & H' & Hch).
  eexists. eexists. split; [exact Hrun|]. split; [exact H'|].
  split; [repeat split|]. split; [exact Hch|].
  intros j x Hj.
  destruct (Z.eq_dec j (search_seg_list (b_size b))) as [->|Hne].
  - rewrite upd_same. simpl. split.
    + intros [<-|Hx]; auto.
    + intros [Hx|[_ ->]]; auto.
  - rewrite upd_other by exact Hne. split; [auto|].
    intros [Hx|[E _]]; [exact Hx|contradiction].
Qed.

(** ** Coalescing *)

Lemma mod16_add (a b : Z) : a mod 16 = 0 -> b mod 16 = 0 -> (a + b) mod 16 = 0.
Proof. intros Ha Hb. rewrite Z.add_mod, Ha, Hb by lia. reflexivity. Qed.

Lemma pack_free (size : Z) : pack size 0 = size.
Proof. unfold pack. apply Z.lor_0_r. Qed.

Lemma put_run (a v : Z) (s : heap) :
  mem_start_brk s <= a -> a + 8 <= mem_start_brk s + mem_brk s ->
  put a v s = Some (tt, set_bytes s (store8 (bytes s) a v)).
Proof. intros. apply put_ok. apply in_arena_intro; lia. Qed.

(* the block b and the free block y before it become one block *)
Lemma merge_prev (s : heap) (fl : lists) (pre' post : list blk) (y b : blk) :
  hp s (pre' ++ y :: b :: post) fl ->
  listed fl b -> listed fl y ->
  let bs := pre' ++ y :: b :: post in
  let m := mkBlk (b_ptr y) (b_size y + b_size b) false in
  let size := wrap (b_size b + b_size y) in
  exists s4 fl2,
    (delete_list_blcok (b_ptr b) ;;
     pb2 <- prev_bp (b_ptr b) ;;
     delete_list_blcok pb2 ;;
     ft <- p_to_footer (b_ptr b) ;;
     put ft (pack size 0) ;;
     pb3 <- prev_bp (b_ptr b) ;;
     put (p_to_header pb3) (pack size 0) ;;
     pb4 <- prev_bp (b_ptr b) ;;
     ret (pb4, size)) s = Some ((b_ptr m, b_size m), s4) /\
    hp s4 (pre' ++ m :: post) fl2 /\
    same_arena s s4 /\
    changes_within (free_region bs fl) (bytes s) (bytes s4) /\
    (forall j x, 0 <= j < 14 ->
       (In x (fl2 j) <-> In x (fl j) /\ x <> b_ptr b /\ x <> b_ptr y)).
Proof.
  intros H Lb Ly bs m size.
  assert (Ebs : bs = (pre' ++ [y]) ++ b :: post)
    by (unfold bs; rewrite <- app_assoc; reflexivity).
  assert (Ib : In b bs) by (unfold bs; apply in_or_app; right; right; left; reflexivity).
  assert (Iy : In y bs) by (unfold bs; apply in_or_app; right; left; reflexivity).
  fold bs in H.
  pose proof (hp_arena _ _ _ H) as [Alo Ahi].
  pose proof (hp_in _ _ _ H _ Ib) as (B1 & B2 & B3 & B4 & B5).
  pose proof (hp_in _ _ _ H _ Iy) as (Y1 & Y2 & Y3 & Y4 & Y5).
  assert (Hadj : b_ptr y + b_size y = b_ptr b).
  { pose proof (hp_chain _ _ _ H) as Hc. unfold bs in Hc.
    apply chain_app in Hc. destruct Hc as (mid & _ & Hc).
    simpl in Hc. lia. }
  assert (Hsize : size = b_size y + b_size b).
  { unfold size. rewrite wrap_small by lia. lia. }
  (* delete b *)
  destruct (hp_delete_members _ _ _ _ H Ib Lb) as (s1 & fl1 & R1 & H1 & A1 & C1 & M1).
  (* delete y *)
  assert (Ly1 : listed fl1 y).
  { unfold listed. apply M1; [pose proof (search_seg_list_range (b_size y)); lia|].
    split; [exact Ly|lia]. }
  destruct (hp_delete_members _ _ _ _ H1 Iy Ly1) as (s2 & fl2 & R2 & H2 & A2 & C2 & M2).
  assert (A12 : same_arena s s2) by (eapply same_arena_trans; eauto).
  destruct A12 as (E2lo & E2mx & E2brk).
  (* reads *)
  assert (P1 : prev_bp (b_ptr b) s1 = Some (b_ptr y, s1)).
  { rewrite Ebs in H1. destruct (rd_prev _ _ _ _ _ H1) as (P & _).
    rewrite last_last in P. exact P. }
  destruct (rd_block _ _ _ H2 b Ib) as (_ & _ & F2 & _).
  destruct (hp_tagged _ _ _ H2 _ Iy) as [_ Ty2].
  set (m2 := bytes s2) in *.
  set (ft := b_ptr b + b_size b - 16) in *.
  set (v := pack size 0).
  assert (Hv : v = size) by apply pack_free.
  assert (Rv : 0 <= v < wB) by (rewrite Hv, Hsize; lia).
  set (m3 := store8 m2 ft v).
  set (m4 := store8 m3 (b_ptr y - 8) v).
  assert (Hw16 : wrap (b_ptr b - 16) = b_ptr b - 16) by (apply wrap_small; lia).
  assert (P3 : prev_bp (b_ptr b) (set_bytes s2 m3) = Some (b_ptr y, set_bytes s2 m3)).
  { rewrite (prev_bp_val (b_ptr b) (tagw y)).
    - rewrite tagw_size by lia. rewrite wrap_small by lia. f_equal. f_equal. lia.
    - rewrite Hw16. apply in_arena_intro; cbn [set_bytes mem_start_brk mem_brk]; lia.
    - rewrite Hw16. cbn [bytes set_bytes]. unfold m3.
      rewrite load8_store8_other by (unfold ft; lia).
      rewrite <- Ty2. f_equal. lia. }
  assert (P4 : prev_bp (b_ptr b) (set_bytes s2 m4) = Some (b_ptr y, set_bytes s2 m4)).
  { rewrite (prev_bp_val (b_ptr b) (tagw y)).
    - rewrite tagw_size by lia. rewrite wrap_small by lia. f_equal. f_equal. lia.
    - rewrite Hw16. apply in_arena_intro; cbn [set_bytes mem_start_brk mem_brk]; lia.
    - rewrite Hw16. cbn [bytes set_bytes]. unfold m4, m3.
      rewrite !load8_store8_other by (unfold ft; lia).
      rewrite <- Ty2. f_equal. lia. }
  exists (set_bytes s2 m4), fl2.
  split; [|split; [|split; [|split]]].
  - step_by ltac:(exact R1).
    step_by ltac:(exact P1).
    step_by ltac:(exact R2).
    step_by ltac:(exact F2).
    step_by ltac:(apply put_run; unfold ft; lia).
    fold m2 v ft m3.
    step_by ltac:(exact P3).
    rewrite p_to_header_eq by lia.
    step_by ltac:(apply put_run; cbn [set_bytes mem_start_brk mem_brk]; lia).
    cbn [set_bytes mem_start_brk mem_max mem_brk bytes seg_list heap_list_ptr].
    fold m4.
    change (mkHeap (mem_start_brk s2) (mem_max s2) (mem_brk s2) m4 (seg_list s2)
              (heap_list_ptr s2)) with (set_bytes s2 m4).
    step_by ltac:(exact P4).
    unfold ret, m. cbn [b_ptr b_size]. rewrite Hsize. reflexivity.
  - (* the heap with the merged block *)
    assert (H2' : hp s2 (pre' ++ [y; b] ++ post) fl2) by exact H2.
    pose proof (hp_chain _ _ _ H2) as Hc. unfold bs in Hc.
    apply chain_app in Hc. destruct Hc as (p0 & Hc1 & Hc2).
    simpl in Hc2. destruct Hc2 as (Ep0 & _ & _ & _ & _ & _ & Hc3).
    apply (hp_retag s2 pre' [y; b] [m] post fl2 m4 (b_ptr y) (b_ptr b + b_size b) H2').
    + rewrite Ep0. exact Hc1.
    + replace (b_ptr b + b_size b) with (p0 + b_size y + b_size b) by lia. exact Hc3.
    + simpl. unfold m; cbn [b_ptr b_size]. repeat split; try lia.
      apply mod16_add; assumption.
    + intros c [<-|[<-|[]]]; unfold listed; intros Hc;
        apply M2 in Hc; try (pose proof (search_seg_list_range (b_size y));
                             pose proof (search_seg_list_range (b_size b)); lia).
      destruct Hc as [Hc _]. apply M1 in Hc;
        [|pose proof (search_seg_list_range (b_size b)); lia].
      destruct Hc as [_ Hc]. apply Hc; reflexivity.
    + apply (changes_within_trans _ m2 m3 m4).
      * apply store8_changes. intros yy Hyy. unfold ft in Hyy. lia.
      * apply store8_changes. intros yy Hyy. lia.
    + constructor; [|constructor].
      unfold tagged, m, tagw; cbn [b_ptr b_size b_flag Z.b2z]. split.
      * unfold m4. rewrite load8_store8_same by exact Rv. rewrite Hv, Hsize. lia.
      * unfold m4, m3. rewrite load8_store8_other by (unfold ft; lia).
        replace (b_ptr y + (b_size y + b_size b) - 16) with ft by (unfold ft; lia).
        rewrite load8_store8_same by exact Rv. rewrite Hv, Hsize. lia.
  - repeat split; cbn [set_bytes mem_start_brk mem_max mem_brk]; assumption.
  - cbn [set_bytes bytes].
    assert (Fb : forall yy, in_block b yy -> free_region bs fl yy)
      by (intros yy Hyy; exists b; auto).
    assert (Fy : forall yy, in_block y yy -> free_region bs fl yy)
      by (intros yy Hyy; exists y; auto).
    apply (changes_within_trans _ _ (bytes s1)); [exact C1|].
    apply (changes_within_trans _ _ m2).
    { apply (changes_within_weaken _ _ _ _ C2).
      intros yy (c & Ic & Lc & Hc). exists c. split; [exact Ic|]. split; [|exact Hc].
      unfold listed in *. apply M1 in Lc; [tauto|].
      pose proof (search_seg_list_range (b_size c)); lia. }
    apply (changes_within_trans _ m2 m3 m4).
    + apply store8_changes. intros yy Hyy. apply Fb. unfold in_block, ft in *. lia.
    + apply store8_changes. intros yy Hyy. apply Fy. unfold in_block. lia.
  - intros j x Hj. rewrite (M2 j x Hj), (M1 j x Hj). tauto.
Qed.

(* the block b and the free block z after it become one block *)
Lemma merge_next (s : heap) (fl : lists) (pre post : list blk) (b z : blk) :
  hp s (pre ++ b :: z :: post) fl ->
  listed fl b -> listed fl z ->
  let bs := pre ++ b :: z :: post in
  let m := mkBlk (b_ptr b) (b_size b + b_size z) false in
  let size := wrap (b_size b + b_size z) in
  exists s4 fl2,
    (delete_list_blcok (b_ptr b) ;;
     nb2 <- next_bp (b_ptr b) ;;
     delete_list_blcok nb2 ;;
     put (p_to_header (b_ptr b)) (pack size 0) ;;
     ft <- p_to_footer (b_ptr b) ;;
     put ft (pack size 0) ;;
     ret (b_ptr b, size)) s = Some ((b_ptr m, b_size m), s4) /\
    hp s4 (pre ++ m :: post) fl2 /\
    same_arena s s4 /\
    changes_within (free_region bs fl) (bytes s) (bytes s4) /\
    (forall j x, 0 <= j < 14 ->
       (In x (fl2 j) <-> In x (fl j) /\ x <> b_ptr b /\ x <> b_ptr z)).
Proof.
  intros H Lb Lz bs m size.
  assert (Ib : In b bs) by (unfold bs; apply in_or_app; right; left; reflexivity).
  assert (Iz : In z bs) by (unfold bs; apply in_or_app; right; right; left; reflexivity).
  fold bs in H.
  pose proof (hp_arena _ _ _ H) as [Alo Ahi].
  pose proof (hp_in _ _ _ H _ Ib) as (B1 & B2 & B3 & B4 & B5).
  pose proof (hp_in _ _ _ H _ Iz) as (Z1 & Z2 & Z3 & Z4 & Z5).
  assert (Hadj : b_ptr b + b_size b = b_ptr z).
  { pose proof (hp_chain _ _ _ H) as Hc. unfold bs in Hc.
    apply chain_app in Hc. destruct Hc as (mid & _ & Hc).
    simpl in Hc. lia. }
  assert (Hsize : size = b_size b + b_size z).
  { unfold size. apply wrap_small. lia. }
  destruct (hp_delete_members _ _ _ _ H Ib Lb) as (s1 & fl1 & R1 & H1 & A1 & C1 & M1).
  assert (Lz1 : listed fl1 z).
  { unfold listed. apply M1; [pose proof (search_seg_list_range (b_size z)); lia|].
    split; [exact Lz|lia]. }
  destruct (hp_delete_members _ _ _ _ H1 Iz Lz1) as (s2 & fl2 & R2 & H2 & A2 & C2 & M2).
  assert (A12 : same_arena s s2) by (eapply same_arena_trans; eauto).
  destruct A12 as (E2lo & E2mx & E2brk).
  destruct (rd_block _ _ _ H1 b Ib) as (_ & _ & _ & N1).
  rewrite Hadj in N1.
  set (m2 := bytes s2) in *.
  set (v := pack size 0).
  assert (Hv : v = size) by apply pack_free.
  assert (Rv : 0 <= v < wB) by (rewrite Hv, Hsize; lia).
  set (m3 := store8 m2 (b_ptr b - 8) v).
  set (ft := b_ptr z + b_size z - 16).
  set (m4 := store8 m3 ft v).
  assert (Mm : b_size m mod 16 = 0) by (apply mod16_add; assumption).
  assert (F3 : p_to_footer (b_ptr b) (set_bytes s2 m3) = Some (ft, set_bytes s2 m3)).
  { destruct (read_header (set_bytes s2 m3) m) as (_ & _ & F & _);
      cbn [set_bytes mem_start_brk mem_brk bytes m b_ptr b_size]; try lia.
    - exact Mm.
    - unfold m3. rewrite load8_store8_same by exact Rv.
      unfold tagw, m; cbn [b_size b_flag Z.b2z]. rewrite Hv, Hsize. lia.
    - unfold m in F; cbn [b_ptr b_size] in F. rewrite F. f_equal. f_equal.
      rewrite wrap_small by lia. unfold ft. lia. }
  exists (set_bytes s2 m4), fl2.
  split; [|split; [|split; [|split]]].
  - step_by ltac:(exact R1).
    step_by ltac:(exact N1).
    step_by ltac:(exact R2).
    rewrite p_to_header_eq by lia.
    step_by ltac:(apply put_run; lia).
    fold m2 v m3.
    step_by ltac:(exact F3).
    step_by ltac:(apply put_run; cbn [set_bytes mem_start_brk mem_brk]; unfold ft; lia).
    cbn [set_bytes mem_start_brk mem_max mem_brk bytes seg_list heap_list_ptr].
    fold m4.
    unfold ret, m. cbn [b_ptr b_size]. rewrite Hsize. reflexivity.
  - assert (H2' : hp s2 (pre ++ [b; z] ++ post) fl2) by exact H2.
    pose proof (hp_chain _ _ _ H2) as Hc. unfold bs in Hc.
    apply chain_app in Hc. destruct Hc as (p0 & Hc1 & Hc2).
    simpl in Hc2. destruct Hc2 as (Ep0 & _ & _ & _ & _ & _ & Hc3).
    apply (hp_retag s2 pre [b; z] [m] post fl2 m4 (b_ptr b) (b_ptr z + b_size z) H2').
    + rewrite Ep0. exact Hc1.
    + replace (b_ptr z + b_size z) with (p0 + b_size b + b_size z) by lia. exact Hc3.
    + simpl. unfold m; cbn [b_ptr b_size]. repeat split; try lia.
      apply mod16_add; assumption.
    + intros c [<-|[<-|[]]]; unfold listed; intros Hc;
        apply M2 in Hc; try (pose proof (search_seg_list_range (b_size z));
                             pose proof (search_seg_list_range (b_size b)); lia).
      destruct Hc as [Hc _]. apply M1 in Hc;
        [|pose proof (search_seg_list_range (b_size b)); lia].
      destruct Hc as [_ Hc]. apply Hc; reflexivity.
    + apply (changes_within_trans _ m2 m3 m4).
      * apply store8_changes. intros yy Hyy. lia.
      * apply store8_changes. intros yy Hyy. unfold ft in Hyy. lia.
    + constructor; [|constructor].
      unfold tagged, m, tagw; cbn [b_ptr b_size b_flag Z.b2z]. split.
      * unfold m4, m3. rewrite load8_store8_other by (unfold ft; lia).
        rewrite load8_store8_same by exact Rv. rewrite Hv, Hsize. lia.
      * unfold m4.
        replace (b_ptr b + (b_size b + b_size z) - 16) with ft by (unfold ft; lia).
        rewrite load8_store8_same by exact Rv. rewrite Hv, Hsize. lia.
  - repeat split; cbn [set_bytes mem_start_brk mem_max mem_brk]; assumption.
  - cbn [set_bytes bytes].
    assert (Fb : forall yy, in_block b yy -> free_region bs fl yy)
      by (intros yy Hyy; exists b; auto).
    assert (Fz : forall yy, in_block z yy -> free_region bs fl yy)
      by (intros yy Hyy; exists z; auto).
    apply (changes_within_trans _ _ (bytes s1)); [exact C1|].
    apply (changes_within_trans _ _ m2).
    { apply (changes_within_weaken _ _ _ _ C2).
      intros yy (c & Ic & Lc & Hc). exists c. split; [exact Ic|]. split; [|exact Hc].
      unfold listed in *. apply M1 in Lc; [tauto|].
      pose proof (search_seg_list_range (b_size c)); lia. }
    apply (changes_within_trans _ m2 m3 m4).
    + apply store8_changes. intros yy Hyy. apply Fb. unfold in_block in *. lia.
    + apply store8_changes. intros yy Hyy. apply Fz. unfold in_block, ft in *. lia.
  - intros j x Hj. rewrite (M2 j x Hj), (M1 j x Hj). tauto.
Qed.

(* the block b and the free blocks on both sides become one block *)
Lemma merge_both (s : heap) (fl : lists) (pre' post : list blk) (y b z : blk) :
  hp s (pre' ++ y :: b :: z :: post) fl ->
  listed fl b -> listed fl y -> listed fl z ->
  let bs := pre' ++ y :: b :: z :: post in
  let m := mkBlk (b_ptr y) (b_size y + b_size b + b_size z) false in
  let size := wrap (b_size b + wrap (b_size z + b_size y)) in
  exists s5 fl3,
    (delete_list_blcok (b_ptr b) ;;
     nb2 <- next_bp (b_ptr b) ;;
     delete_list_blcok nb2 ;;
     pb2 <- prev_bp (b_ptr b) ;;
     delete_list_blcok pb2 ;;
     nb3 <- next_bp (b_ptr b) ;;
     nft1 <- p_to_footer nb3 ;;
     put nft1 (pack size 0) ;;
     pb3 <- prev_bp (b_ptr b) ;;
     put (p_to_header pb3) (pack size 0) ;;
     pb4 <- prev_bp (b_ptr b) ;;
     ret (pb4, size)) s = Some ((b_ptr m, b_size m), s5) /\
    hp s5 (pre' ++ m :: post) fl3 /\
    same_arena s s5 /\
    changes_within (free_region bs fl) (bytes s) (bytes s5) /\
    (forall j x, 0 <= j < 14 ->
       (In x (fl3 j) <->
        In x (fl j) /\ x <> b_ptr b /\ x <> b_ptr z /\ x <> b_ptr y)).
Proof.
  intros H Lb Ly Lz bs m size.
  assert (Ebs : bs = (pre' ++ [y]) ++ b :: z :: post)
    by (unfold bs; rewrite <- app_assoc; reflexivity).
  assert (Iy : In y bs) by (unfold bs; apply in_or_app; right; left; reflexivity).
  assert (Ib : In b bs) by (unfold bs; apply in_or_app; right; right; left; reflexivity).
  assert (Iz : In z bs)
    by (unfold bs; apply in_or_app; right; right; right; left; reflexivity).
  fold bs in H.
  pose proof (hp_arena _ _ _ H) as [Alo Ahi].
  pose proof (hp_in _ _ _ H _ Ib) as (B1 & B2 & B3 & B4 & B5).
  pose proof (hp_in _ _ _ H _ Iy) as (Y1 & Y2 & Y3 & Y4 & Y5).
  pose proof (hp_in _ _ _ H _ Iz) as (Z1 & Z2 & Z3 & Z4 & Z5).
  assert (Hadj : b_ptr y + b_size y = b_ptr b /\ b_ptr b + b_size b = b_ptr z).
  { pose proof (hp_chain _ _ _ H) as Hc. unfold bs in Hc.
    apply chain_app in Hc. destruct Hc as (mid & _ & Hc).
    simpl in Hc. lia. }
  destruct Hadj as [Hadj1 Hadj2].
  assert (Hsize : size = b_size y + b_size b + b_size z).
  { unfold size. rewrite (wrap_small (b_size z + b_size y)) by lia.
    rewrite wrap_small by lia. lia. }
  destruct (hp_delete_members _ _ _ _ H Ib Lb) as (s1 & fl1 & R1 & H1 & A1 & C1 & M1).
  assert (Lz1 : listed fl1 z).
  { unfold listed. apply M1; [pose proof (search_seg_list_range (b_size z)); lia|].
    split; [exact Lz|lia]. }
  destruct (hp_delete_members _ _ _ _ H1 Iz Lz1) as (s2 & fl2 & R2 & H2 & A2 & C2 & M2).
  assert (Ly2 : listed fl2 y).
  { unfold listed. apply M2; [pose proof (search_seg_list_range (b_size y)); lia|].
    split; [|lia].
    apply M1; [pose proof (search_seg_list_range (b_size y)); lia|].
    split; [exact Ly|lia]. }
  destruct (hp_delete_members _ _ _ _ H2 Iy Ly2) as (s3 & fl3 & R3 & H3 & A3 & C3 & M3).
  assert (A13 : same_arena s s3).
  { eapply same_arena_trans; [exact A1|]. eapply same_arena_trans; eauto. }
  destruct A13 as (E3lo & E3mx & E3brk).
  destruct (rd_block _ _ _ H1 b Ib) as (_ & _ & _ & N1).
  rewrite Hadj2 in N1.
  assert (P2 : prev_bp (b_ptr b) s2 = Some (b_ptr y, s2)).
  { rewrite Ebs in H2. destruct (rd_prev _ _ _ _ _ H2) as (P & _).
    rewrite last_last in P. exact P. }
  destruct (rd_block _ _ _ H3 b Ib) as (_ & _ & _ & N3).
  rewrite Hadj2 in N3.
  destruct (rd_block _ _ _ H3 z Iz) as (_ & _ & F3 & _).
  destruct (hp_tagged _ _ _ H3 _ Iy) as [_ Ty3].
  set (m3 := bytes s3) in *.
  set (ft := b_ptr z + b_size z - 16) in *.
  set (v := pack size 0).
  assert (Hv : v = size) by apply pack_free.
  assert (Rv : 0 <= v < wB) by (rewrite Hv, Hsize; lia).
  set (m4 := store8 m3 ft v).
  set (m5 := store8 m4 (b_ptr y - 8) v).
  assert (Hw16 : wrap (b_ptr b - 16) = b_ptr b - 16) by (apply wrap_small; lia).
  assert (P4 : prev_bp (b_ptr b) (set_bytes s3 m4) = Some (b_ptr y, set_bytes s3 m4)).
  { rewrite (prev_bp_val (b_ptr b) (tagw y)).
    - rewrite tagw_size by lia. rewrite wrap_small by lia. f_equal. f_equal. lia.
    - rewrite Hw16. apply in_arena_intro; cbn [set_bytes mem_start_brk mem_brk]; lia.
    - rewrite Hw16. cbn [bytes set_bytes]. unfold m4.
      rewrite load8_store8_other by (unfold ft; lia).
      rewrite <- Ty3. f_equal. lia. }
  assert (P5 : prev_bp (b_ptr b) (set_bytes s3 m5) = Some (b_ptr y, set_bytes s3 m5)).
  { rewrite (prev_bp_val (b_ptr b) (tagw y)).
    - rewrite tagw_size by lia. rewrite wrap_small by lia. f_equal. f_equal. lia.
    - rewrite Hw16. apply in_arena_intro; cbn [set_bytes mem_start_brk mem_brk]; lia.
    - rewrite Hw16. cbn [bytes set_bytes]. unfold m5, m4.
      rewrite !load8_store8_other by (unfold ft; lia).
      rewrite <- Ty3. f_equal. lia. }
  exists (set_bytes s3 m5), fl3.
  split; [|split; [|split; [|split]]].
  - step_by ltac:(exact R1).
    step_by ltac:(exact N1).
    step_by ltac:(exact R2).
    step_by ltac:(exact P2).
    step_by ltac:(exact R3).
    step_by ltac:(exact N3).
    step_by ltac:(exact F3).
    step_by ltac:(apply put_run; unfold ft; lia).
    fold m3 v ft m4.
    step_by ltac:(exact P4).
    rewrite p_to_header_eq by lia.
    step_by ltac:(apply put_run; cbn [set_bytes mem_start_brk mem_brk]; lia).
    cbn [set_bytes mem_start_brk mem_max mem_brk bytes seg_list heap_list_ptr].
    fold m5.
    change (mkHeap (mem_start_brk s3) (mem_max s3) (mem_brk s3) m5 (seg_list s3)
              (heap_list_ptr s3)) with (set_bytes s3 m5).
    step_by ltac:(exact P5).
    unfold ret, m. cbn [b_ptr b_size]. rewrite Hsize. reflexivity.
  - assert (H3' : hp s3 (pre' ++ [y; b; z] ++ post) fl3) by exact H3.
    pose proof (hp_chain _ _ _ H3) as Hc. unfold bs in Hc.
    apply chain_app in Hc. destruct Hc as (p0 & Hc1 & Hc2).
    simpl in Hc2.
    destruct Hc2 as (Ep0 & _ & _ & _ & _ & _ & _ & _ & _ & Hc3).
    apply (hp_retag s3 pre' [y; b; z] [m] post fl3 m5 (b_ptr y) (b_ptr z + b_size z) H3').
    + rewrite Ep0. exact Hc1.
    + replace (b_ptr z + b_size z) with (p0 + b_size y + b_size b + b_size z) by lia.
      exact Hc3.
    + simpl. unfold m; cbn [b_ptr b_size]. repeat split; try lia.
      apply mod16_add; [apply mod16_add|]; assumption.
    + assert (K : forall c, 0 <= search_seg_list (b_size c) < 14)
        by (intros c; pose proof (search_seg_list_range (b_size c)); lia).
      intros c [<-|[<-|[<-|[]]]]; unfold listed; intros Hc.
      * apply M3 in Hc; [|apply K]. destruct Hc as [_ Hc]. apply Hc; reflexivity.
      * apply M3 in Hc; [|apply K]. destruct Hc as [Hc _].
        apply M2 in Hc; [|apply K]. destruct Hc as [Hc _].
        apply M1 in Hc; [|apply K]. destruct Hc as [_ Hc]. apply Hc; reflexivity.
      * apply M3 in Hc; [|apply K]. destruct Hc as [Hc _].
        apply M2 in Hc; [|apply K]. destruct Hc as [_ Hc]. apply Hc; reflexivity.
    + apply (changes_within_trans _ m3 m4 m5).
      * apply store8_changes. intros yy Hyy. unfold ft in Hyy. lia.
      * apply store8_changes. intros yy Hyy. lia.
    + constructor; [|constructor].
      unfold tagged, m, tagw; cbn [b_ptr b_size b_flag Z.b2z]. split.
      * unfold m5. rewrite load8_store8_same by exact Rv. rewrite Hv, Hsize. lia.
      * unfold m5, m4. rewrite load8_store8_other by (unfold ft; lia).
        replace (b_ptr y + (b_size y + b_size b + b_size z) - 16) with ft
          by (unfold ft; lia).
        rewrite load8_store8_same by exact Rv. rewrite Hv, Hsize. lia.
  - repeat split; cbn [set_bytes mem_start_brk mem_max mem_brk]; assumption.
  - cbn [set_bytes bytes].
    assert (K : forall c, 0 <= search_seg_list (b_size c) < 14)
      by (intros c; pose proof (search_seg_list_range (b_size c)); lia).
    assert (Fy : forall yy, in_block y yy -> free_region bs fl yy)
      by (intros yy Hyy; exists y; auto).
    assert (Fz : forall yy, in_block z yy -> free_region bs fl yy)
      by (intros yy Hyy; exists z; auto).
    apply (changes_within_trans _ _ (bytes s1)); [exact C1|].
    apply (changes_within_trans _ _ (bytes s2)).
    { apply (changes_within_weaken _ _ _ _ C2).
      intros yy (c & Ic & Lc & Hc). exists c. split; [exact Ic|]. split; [|exact Hc].
      unfold listed in *. apply M1 in Lc; [tauto|apply K]. }
    apply (changes_within_trans _ _ m3).
    { apply (changes_within_weaken _ _ _ _ C3).
      intros yy (c & Ic & Lc & Hc). exists c. split; [exact Ic|]. split; [|exact Hc].
      unfold listed in *. apply M2 in Lc; [|apply K]. destruct Lc as [Lc _].
      apply M1 in Lc; [tauto|apply K]. }
    apply (changes_within_trans _ m3 m4 m5).
    + apply store8_changes. intros yy Hyy. apply Fz. unfold in_block, ft in *. lia.
    + apply store8_changes. intros yy Hyy. apply Fy. unfold in_block. lia.
  - intros j x Hj. rewrite (M3 j x Hj), (M2 j x Hj), (M1 j x Hj). tauto.
Qed.

(* the blocks around a stretch of blocks are at other addresses *)
Lemma chain_mid_sep (a e : Z) (pre mid post : list blk) (c d : blk) :
  chain a (pre ++ mid ++ post) e ->
  In c pre \/ In c post -> In d mid -> b_ptr c <> b_ptr d.
Proof.
  intros Hc Hcp Hd.
  apply chain_app in Hc. destruct Hc as (p0 & H0 & Hc).
  apply chain_app in Hc. destruct Hc as (p1 & H1 & H2).
  pose proof (chain_in _ _ _ _ H1 Hd) as D.
  destruct Hcp as [Hp|Hp].
  - pose proof (chain_in _ _ _ _ H0 Hp). lia.
  - pose proof (chain_in _ _ _ _ H2 Hp). lia.
Qed.

(* the merged block is put in the list of its class *)
Lemma merge_finish (s s2 : heap) (fl fl2 : lists) (pre mid post : list blk) (m : blk) :
  let bs := pre ++ mid ++ post in
  let bs' := pre ++ m :: post in
  hp s bs fl ->
  (forall c, In c bs -> b_flag c = false -> listed fl c) ->
  (forall c, In c mid -> listed fl c) ->
  hp s2 bs' fl2 ->
  (forall j x, 0 <= j < 14 ->
     (In x (fl2 j) <-> In x (fl j) /\ ~ In x (map b_ptr mid))) ->
  In (b_ptr m) (map b_ptr mid) ->
  (forall yy, in_block m yy -> exists c, In c mid /\ in_block c yy) ->
  exists s' fl',
    add_list_block (b_ptr m) (b_size m) s2 = Some (tt, s') /\
    wf s' bs' fl' /\ same_arena s2 s' /\
    changes_within (free_region bs fl) (bytes s2) (bytes s') /\
    listed fl' m /\
    (forall c, live bs fl c <-> live bs' fl' c) /\
    nth (Z.to_nat (search_seg_list (b_size m))) (seg_list s') NULL = b_ptr m.
Proof.
  intros bs bs' H Hf Hmid H2 M Hm Hin.
  assert (K : forall c, 0 <= search_seg_list (b_size c) < 14)
    by (intros c; pose proof (search_seg_list_range (b_size c)); lia).
  assert (Imid : forall c, In c mid -> In c bs)
    by (intros c Hc; unfold bs; apply in_or_app; right; apply in_or_app; left; exact Hc).
  assert (Iout : forall c, In c pre \/ In c post -> In c bs).
  { intros c [Hc|Hc]; unfold bs; apply in_or_app; [left; exact Hc|right].
    apply in_or_app. right. exact Hc. }
  assert (Sep : forall c, In c pre \/ In c post -> ~ In (b_ptr c) (map b_ptr mid)).
  { intros c Hc Hx. apply in_map_iff in Hx. destruct Hx as (d & Ed & Hd).
    apply (chain_mid_sep _ _ _ _ _ c d (hp_chain _ _ _ H) Hc Hd). congruence. }
  assert (Im : In m bs') by (unfold bs'; apply in_or_app; right; left; reflexivity).
  assert (Sep' : forall c, In c pre \/ In c post -> b_ptr c <> b_ptr m).
  { intros c Hc E. apply (Sep c Hc). rewrite E. exact Hm. }
  assert (Out' : forall c, In c bs' -> c = m \/ In c pre \/ In c post).
  { intros c Hc. unfold bs' in Hc. apply in_app_or in Hc.
    destruct Hc as [Hc|[Hc|Hc]]; auto. }
  assert (Out : forall c, In c bs -> In c mid \/ In c pre \/ In c post).
  { intros c Hc. unfold bs in Hc. apply in_app_or in Hc.
    destruct Hc as [Hc|Hc]; auto. apply in_app_or in Hc. tauto. }
  assert (In' : forall c, In c pre \/ In c post -> In c bs').
  { intros c [Hc|Hc]; unfold bs'; apply in_or_app; [left|right; right]; exact Hc. }
  assert (Nm : ~ listed fl2 m).
  { unfold listed. intros Hx. apply M in Hx; [|apply K]. tauto. }
  destruct (hp_add_members s2 bs' fl2 m (b_size m) H2 Im Nm eq_refl)
    as (s' & fl' & R & H' & A & C & M').
  exists s', fl'.
  assert (Lm : listed fl' m) by (unfold listed; apply M'; [apply K|right; auto]).
  assert (Hd : nth (Z.to_nat (search_seg_list (b_size m))) (seg_list s') NULL = b_ptr m).
  { destruct (hp_add s2 bs' fl2 m (b_size m) H2 Im Nm eq_refl) as (R0 & H0 & _).
    pose proof (hp_heads _ _ _ H0 _ (K m)) as Hh. rewrite upd_same in Hh.
    rewrite R in R0. injection R0 as E0. rewrite E0. exact Hh. }
  split; [exact R|].
  split; [|split; [exact A|split; [|split; [exact Lm|split; [|exact Hd]]]]].
  - split; [exact H'|].
    intros c Hc Hfl. destruct (Out' c Hc) as [->|Hc']; [exact Lm|].
    unfold listed. apply M'; [apply K|]. left. apply M; [apply K|].
    split; [|apply Sep, Hc']. apply Hf; auto.
  - apply (changes_within_weaken _ _ _ _ C).
    intros yy [Hy|(c & Ic & Lc & Hy)].
    + destruct (Hin yy Hy) as (c & Ic & Hc). exists c. auto.
    + destruct (Out' c Ic) as [->|Hc']; [contradiction|].
      exists c. split; [auto|]. split; [|exact Hy].
      unfold listed in *. apply M in Lc; [tauto|apply K].
  - intros c. unfold live, listed. split.
    + intros [Ic Nc]. destruct (Out c Ic) as [Hc|Hc]; [destruct Nc; apply Hmid, Hc|].
      split; [auto|]. intros Hx. apply M' in Hx; [|apply K].
      destruct Hx as [Hx|[_ Hx]]; [|apply (Sep' c Hc Hx)].
      apply M in Hx; [|apply K]. tauto.
    + intros [Ic Nc]. destruct (Out' c Ic) as [->|Hc]; [contradiction|].
      split; [auto|]. intros Hx. apply Nc. apply M'; [apply K|]. left.
      apply M; [apply K|]. split; [exact Hx|apply Sep, Hc].
Qed.

(** Coalescing a listed block of a well-formed heap: the block is merged
    with the neighbours whose flag is 0, the merged block is listed, the
    heap stays well formed and the live blocks are the same.  When a
    neighbour is merged the merged block is the head of the list of its
    class; when none is, nothing changes. *)
Lemma wf_coalesce_head (s : heap) (fl : lists) (pre post : list blk) (b : blk) :
  let bs := pre ++ b :: post in
  let y := last pre (prologue s) in
  let z := hd (epilogue s) post in
  wf s bs fl -> listed fl b ->
  exists s' bs' fl' b',
    coalesce (b_ptr b) s = Some (b_ptr b', s') /\
    wf s' bs' fl' /\ same_arena s s' /\
    changes_within (free_region bs fl) (bytes s) (bytes s') /\
    In b' bs' /\ listed fl' b' /\
    b_ptr b' = (if b_flag y then b_ptr b else b_ptr y) /\
    b_size b' = (if b_flag y then 0 else b_size y) + b_size b +
                (if b_flag z then 0 else b_size z) /\
    (forall c, live bs fl c <-> live bs' fl' c) /\
    (forall c, In c bs -> b_flag c = true -> c <> b -> In c bs') /\
    (b_flag y = false \/ b_flag z = false -> b_flag b' = false) /\
    ((b_flag y = true /\ b_flag z = true /\ s' = s /\ b' = b) \/
     nth (Z.to_nat (search_seg_list (b_size b'))) (seg_list s') NULL = b_ptr b').
Proof.
  intros bs y z [H Hf] Lb. subst bs.
  assert (Ib : In b (pre ++ b :: post)) by (apply in_or_app; right; left; reflexivity).
  destruct (rd_prev s fl pre post b H) as (P & PA & PS).
  destruct (rd_next s fl pre post b H) as (Nz & NA & NS).
  destruct (rd_block _ _ _ H b Ib) as (GS & GA & F & N).
  destruct (hp_prev _ _ _ H pre post b eq_refl) as (Ay & _ & _ & _ & _ & _ & Dy).
  destruct (hp_next _ _ _ H pre post b eq_refl) as (_ & _ & _ & Tz & Dz).
  fold y in P, PA, PS, Ay, Dy. fold z in Nz, NA, NS, Tz, Dz.
  rewrite <- Nz in N.
  pose proof (hp_arena _ _ _ H) as [Alo Ahi].
  pose proof (hp_in _ _ _ H _ Ib) as (B1 & B2 & B3 & B4 & B5).
  clearbody y z.
  assert (Start :
            coalesce (b_ptr b) s =
            (if negb (Z.b2z (b_flag y) =? 0) && negb (Z.b2z (b_flag z) =? 0)
             then ret (b_ptr b)
             else
               r <- (if (Z.b2z (b_flag y) =? 0) && negb (Z.b2z (b_flag z) =? 0) then
                       pb1 <- prev_bp (b_ptr b) ;;
                       psz <- get_size (p_to_header pb1) ;;
                       let size := wrap (b_size b + psz) in
                       delete_list_blcok (b_ptr b) ;;
                       pb2 <- prev_bp (b_ptr b) ;;
                       delete_list_blcok pb2 ;;
                       ft <- p_to_footer (b_ptr b) ;;
                       put ft (pack size 0) ;;
                       pb3 <- prev_bp (b_ptr b) ;;
                       put (p_to_header pb3) (pack size 0) ;;
                       pb4 <- prev_bp (b_ptr b) ;;
                       ret (pb4, size)
                     else if negb (Z.b2z (b_flag y) =? 0) && (Z.b2z (b_flag z) =? 0) then
                       nb1 <- next_bp (b_ptr b) ;;
                       nsz <- get_size (p_to_header nb1) ;;
                       let size := wrap (b_size b + nsz) in
                       delete_list_blcok (b_ptr b) ;;
                       nb2 <- next_bp (b_ptr b) ;;
                       delete_list_blcok nb2 ;;
                       put (p_to_header (b_ptr b)) (pack size 0) ;;
                       ft <- p_to_footer (b_ptr b) ;;
                       put ft (pack size 0) ;;
                       ret (b_ptr b, size)
                     else
                       nb1 <- next_bp (b_ptr b) ;;
                       nft <- p_to_footer nb1 ;;
                       nsz <- get_size nft ;;
                       pb1 <- prev_bp (b_ptr b) ;;
                       psz <- get_size (p_to_header pb1) ;;
                       let size := wrap (b_size b + wrap (nsz + psz)) in
                       delete_list_blcok (b_ptr b) ;;
                       nb2 <- next_bp (b_ptr b) ;;
                       delete_list_blcok nb2 ;;
                       pb2 <- prev_bp (b_ptr b) ;;
                       delete_list_blcok pb2 ;;
                       nb3 <- next_bp (b_ptr b) ;;
                       nft1 <- p_to_footer nb3 ;;
                       put nft1 (pack size 0) ;;
                       pb3 <- prev_bp (b_ptr b) ;;
                       put (p_to_header pb3) (pack size 0) ;;
                       pb4 <- prev_bp (b_ptr b) ;;
                       ret (pb4, size)) ;;
               add_list_block (fst r) (snd r) ;;
               ret (fst r)) s).
  { unfold coalesce.
    step_by ltac:(exact P). step_by ltac:(exact PA).
    step_by ltac:(exact N). step_by ltac:(exact NA).
    step_by ltac:(exact GS). reflexivity. }
  rewrite Start. clear Start.
  destruct (b_flag y) eqn:Fy, (b_flag z) eqn:Fz; cbn [Z.b2z];
    change (1 =? 0) with false; change (0 =? 0) with true; cbn [negb andb].
  - (* both neighbours are marked allocated *)
    exists s, (pre ++ b :: post), fl, b.
    split; [reflexivity|]. split; [split; assumption|].
    split; [apply same_arena_refl|]. split; [apply changes_within_refl|].
    split; [exact Ib|]. split; [exact Lb|]. split; [reflexivity|].
    split; [lia|]. split; [intros c; reflexivity|].
    split; [intros c Ic _ _; exact Ic|]. split; [intros [E|E]; discriminate|].
    left. repeat split; reflexivity.
  - (* the next block is free *)
    destruct (Dz eq_refl) as (post' & ->).
    assert (Iz : In z (pre ++ b :: z :: post'))
      by (apply in_or_app; right; right; left; reflexivity).
    pose proof (Hf z Iz Fz) as Lz.
    pose proof (hp_in _ _ _ H _ Iz) as (Z1 & Z2 & Z3 & Z4 & Z5).
    destruct (merge_next s fl pre post' b z H Lb Lz) as (s4 & fl2 & R & H4 & A4 & C4 & M4).
    set (m := mkBlk (b_ptr b) (b_size b + b_size z) false) in *.
    destruct (merge_finish s s4 fl fl2 pre [b; z] post' m H Hf) as
      (s' & fl' & Radd & W' & A' & C' & Lm & Live & Hd).
    + intros c [<-|[<-|[]]]; assumption.
    + exact H4.
    + intros j x Hj. rewrite (M4 j x Hj). simpl. intuition congruence.
    + simpl. auto.
    + intros yy Hyy. unfold in_block, m in Hyy; cbn [b_ptr b_size] in Hyy.
      destruct (Z_lt_dec yy (b_ptr z - 8)).
      * exists b. split; [simpl; auto|]. unfold in_block. lia.
      * exists z. split; [simpl; auto|]. unfold in_block. lia.
    + exists s', (pre ++ m :: post'), fl', m.
      split.
      { step_by ltac:(step_by ltac:(exact N); step_by ltac:(exact NS); exact R).
        cbn [fst snd]. step_by ltac:(exact Radd). reflexivity. }
      split; [exact W'|]. split; [eapply same_arena_trans; eauto|].
      split; [eapply changes_within_trans; [exact C4|exact C']|].
      split; [apply in_or_app; right; left; reflexivity|].
      split; [exact Lm|]. split; [reflexivity|].
      split; [unfold m; cbn [b_size]; lia|]. split; [exact Live|].
      split; [|split; [intros _; reflexivity|right; exact Hd]].
      intros c Ic Fc Nc. apply in_app_or in Ic. apply in_or_app.
      destruct Ic as [Ic|Ic]; [left; exact Ic|right; right].
      simpl in Ic. intuition (subst; congruence).
  - (* the previous block is free *)
    destruct (Dy eq_refl) as (pre' & ->).
    assert (Ebs : (pre' ++ [y]) ++ b :: post = pre' ++ y :: b :: post)
      by (rewrite <- app_assoc; reflexivity).
    rewrite Ebs in *.
    assert (Iy : In y (pre' ++ y :: b :: post))
      by (apply in_or_app; right; left; reflexivity).
    pose proof (Hf y Iy Fy) as Ly.
    pose proof (hp_in _ _ _ H _ Iy) as (Y1 & Y2 & Y3 & Y4 & Y5).
    destruct (merge_prev s fl pre' post y b H Lb Ly) as (s4 & fl2 & R & H4 & A4 & C4 & M4).
    set (m := mkBlk (b_ptr y) (b_size y + b_size b) false) in *.
    destruct (merge_finish s s4 fl fl2 pre' [y; b] post m H Hf) as
      (s' & fl' & Radd & W' & A' & C' & Lm & Live & Hd).
    + intros c [<-|[<-|[]]]; assumption.
    + exact H4.
    + intros j x Hj. rewrite (M4 j x Hj). simpl. intuition congruence.
    + simpl. auto.
    + intros yy Hyy. unfold in_block, m in Hyy; cbn [b_ptr b_size] in Hyy.
      destruct (Z_lt_dec yy (b_ptr b - 8)).
      * exists y. split; [simpl; auto|]. unfold in_block. lia.
      * exists b. split; [simpl; auto|]. unfold in_block. lia.
    + exists s', (pre' ++ m :: post), fl', m.
      split.
      { step_by ltac:(step_by ltac:(exact P); step_by ltac:(exact PS); exact R).
        cbn [fst snd]. step_by ltac:(exact Radd). reflexivity. }
      split; [exact W'|]. split; [eapply same_arena_trans; eauto|].
      split; [eapply changes_within_trans; [exact C4|exact C']|].
      split; [apply in_or_app; right; left; reflexivity|].
      split; [exact Lm|]. split; [reflexivity|].
      split; [unfold m; cbn [b_size]; lia|]. split; [exact Live|].
      split; [|split; [intros _; reflexivity|right; exact Hd]].
      intros c Ic Fc Nc. apply in_app_or in Ic. apply in_or_app.
      destruct Ic as [Ic|Ic]; [left; exact Ic|right; right].
      simpl in Ic. intuition (subst; congruence).
  - (* both neighbours are free *)
    destruct (Dy eq_refl) as (pre' & ->).
    destruct (Dz eq_refl) as (post' & ->).
    assert (Ebs : (pre' ++ [y]) ++ b :: z :: post' = pre' ++ y :: b :: z :: post')
      by (rewrite <- app_assoc; reflexivity).
    rewrite Ebs in *.
    assert (Iy : In y (pre' ++ y :: b :: z :: post'))
      by (apply in_or_app; right; left; reflexivity).
    assert (Iz : In z (pre' ++ y :: b :: z :: post'))
      by (apply in_or_app; right; right; right; left; reflexivity).
    pose proof (Hf y Iy Fy) as Ly. pose proof (Hf z Iz Fz) as Lz.
    pose proof (hp_in _ _ _ H _ Iy) as (Y1 & Y2 & Y3 & Y4 & Y5).
    pose proof (hp_in _ _ _ H _ Iz) as (Z1 & Z2 & Z3 & Z4 & Z5).
    destruct (rd_block _ _ _ H z Iz) as (_ & _ & Fz' & _).
    destruct (hp_tagged _ _ _ H _ Iz) as [_ Tz2].
    assert (NS' : get_size (b_ptr z + b_size z - 16) s = Some (b_size z, s)).
    { rewrite (get_size_val _ (tagw z)); [now rewrite tagw_size by lia| |exact Tz2].
      apply in_arena_intro; lia. }
    destruct (merge_both s fl pre' post' y b z H Lb Ly Lz)
      as (s4 & fl2 & R & H4 & A4 & C4 & M4).
    set (m := mkBlk (b_ptr y) (b_size y + b_size b + b_size z) false) in *.
    destruct (merge_finish s s4 fl fl2 pre' [y; b; z] post' m H Hf) as
      (s' & fl' & Radd & W' & A' & C' & Lm & Live & Hd).
    + intros c [<-|[<-|[<-|[]]]]; assumption.
    + exact H4.
    + intros j x Hj. rewrite (M4 j x Hj). simpl. intuition congruence.
    + simpl. auto.
    + intros yy Hyy. unfold in_block, m in Hyy; cbn [b_ptr b_size] in Hyy.
      destruct (Z_lt_dec yy (b_ptr b - 8)).
      * exists y. split; [simpl; auto|]. unfold in_block. lia.
      * destruct (Z_lt_dec yy (b_ptr z - 8)).
        -- exists b. split; [simpl; auto|]. unfold in_block. lia.
        -- exists z. split; [simpl; auto|]. unfold in_block. lia.
    + exists s', (pre' ++ m :: post'), fl', m.
      split.
      { step_by ltac:(step_by ltac:(exact N); step_by ltac:(exact Fz');
                      step_by ltac:(exact NS'); step_by ltac:(exact P);
                      step_by ltac:(exact PS); exact R).
        cbn [fst snd]. step_by ltac:(exact Radd). reflexivity. }
      split; [exact W'|]. split; [eapply same_arena_trans; eauto|].
      split; [eapply changes_within_trans; [exact C4|exact C']|].
      split; [apply in_or_app; right; left; reflexivity|].
      split; [exact Lm|]. split; [reflexivity|].
      split; [unfold m; cbn [b_size]; lia|]. split; [exact Live|].
      split; [|split; [intros _; reflexivity|right; exact Hd]].
      intros c Ic Fc Nc. apply in_app_or in Ic. apply in_or_app.
      destruct Ic as [Ic|Ic]; [left; exact Ic|right; right].
      simpl in Ic. intuition (subst; congruence).
Qed.

(* the same, without the head of the list *)
Lemma wf_coalesce (s : heap) (fl : lists) (pre post : list blk) (b : blk) :
  let bs := pre ++ b :: post in
  let y := last pre (prologue s) in
  let z := hd (epilogue s) post in
  wf s bs fl -> listed fl b ->
  exists s' bs' fl' b',
    coalesce (b_ptr b) s = Some (b_ptr b', s') /\
    wf s' bs' fl' /\ same_arena s s' /\
    changes_within (free_region bs fl) (bytes s) (bytes s') /\
    In b' bs' /\ listed fl' b' /\
    b_ptr b' = (if b_flag y then b_ptr b else b_ptr y) /\
    b_size b' = (if b_flag y then 0 else b_size y) + b_size b +
                (if b_flag z then 0 else b_size z) /\
    (forall c, live bs fl c <-> live bs' fl' c) /\
    (forall c, In c bs -> b_flag c = true -> c <> b -> In c bs') /\
    (b_flag y = false \/ b_flag z = false -> b_flag b' = false).
Proof.
  intros bs y z W Lb.
  destruct (wf_coalesce_head s fl pre post b W Lb)
    as (s' & bs' & fl' & b' & R & W' & A & C & Ib' & Lb' & Pb' & Sb' & Live & Keep
        & Fl' & _).
  exists s', bs', fl', b'.
  repeat (split; [assumption|]). assumption.
Qed.

(** ** Stores that agree at every address *)

Lemma hp_ext (s s' : heap) (bs : list blk) (fl : lists) :
  hp s bs fl ->
  same_arena s s' -> seg_list s' = seg_list s ->
  (forall x, bytes s' x = bytes s x) ->
  hp s' bs fl.
Proof.
  intros H (E1 & E2 & E3) E4 E5.
  assert (L : forall a, load8 (bytes s') a = load8 (bytes s) a)
    by (intros a; apply load8_ext; intros x _; apply E5).
  constructor; rewrite ?E1, ?E2, ?E3, ?E4, ?L.
  - apply (hp_lo _ _ _ H).
  - apply (hp_hi _ _ _ H).
  - apply (hp_len _ _ _ H).
  - apply (hp_prologue _ _ _ H).
  - apply (hp_chain _ _ _ H).
  - apply (hp_epilogue _ _ _ H).
  - apply Forall_forall. intros c Ic. destruct (hp_tagged _ _ _ H _ Ic) as [T1 T2].
    split; rewrite L; assumption.
  - apply (hp_heads _ _ _ H).
  - intros k Hk. apply (dll_frame (bytes s)); [apply (hp_links _ _ _ H k Hk)|].
    intros x _. split; apply L.
  - apply (hp_listed _ _ _ H).
  - apply (hp_nodup _ _ _ H).
Qed.

Lemma store8_ext (m m' : store) (a v : Z) :
  (forall x, m' x = m x) -> forall x, store8 m' a v x = store8 m a v x.
Proof. intros H x. unfold store8. rewrite H. reflexivity. Qed.

Lemma store8_comm (m : store) (a v b w : Z) :
  a + 8 <= b \/ b + 8 <= a ->
  forall x, store8 (store8 m a v) b w x = store8 (store8 m b w) a v x.
Proof.
  intros H x. unfold store8.
  destruct (Z.leb_spec a x), (Z.ltb_spec x (a + 8)),
    (Z.leb_spec b x), (Z.ltb_spec x (b + 8)); cbn [andb]; try reflexivity; lia.
Qed.

Lemma store8_shadow (m : store) (a v w : Z) :
  forall x, store8 (store8 m a v) a w x = store8 m a w x.
Proof.
  intros x. unfold store8.
  destruct (Z.leb_spec a x), (Z.ltb_spec x (a + 8)); cbn [andb]; reflexivity.
Qed.

(* a store below the link slots goes through the linking of a block *)
Lemma link_head_store_comm (m : store) (bp h a v : Z) :
  (a + 8 <= bp \/ bp + 16 <= a) ->
  (h = NULL \/ a + 8 <= h \/ h + 8 <= a) ->
  forall x, store8 (link_head_store m bp h) a v x =
            link_head_store (store8 m a v) bp h x.
Proof.
  intros Hb Hh x. unfold link_head_store.
  assert (C2 : forall x, store8 (store8 (store8 m bp NULL) (bp + 8) h) a v x =
                         store8 (store8 (store8 m a v) bp NULL) (bp + 8) h x).
  { intros y. rewrite store8_comm by lia.
    apply store8_ext. intros y'. apply store8_comm. lia. }
  destruct (Z.eqb_spec h NULL) as [E|E]; [apply C2|].
  rewrite store8_comm by (destruct Hh; [contradiction|lia]).
  apply store8_ext. exact C2.
Qed.

Lemma link_head_store_ext (m m' : store) (bp h : Z) :
  (forall x, m' x = m x) ->
  forall x, link_head_store m' bp h x = link_head_store m bp h x.
Proof.
  intros H x. unfold link_head_store.
  destruct (h =? NULL); repeat (apply store8_ext; intros ?); apply H.
Qed.

(** ** Growth of the arena *)

(* a store that leaves the words of the blocks as they are *)
Lemma hp_low (s : heap) (bs : list blk) (fl : lists) (m' : store) :
  hp s bs fl ->
  (forall a, mem_start_brk s + 8 <= a -> a + 16 <= mem_start_brk s + mem_brk s ->
             load8 m' a = load8 (bytes s) a) ->
  load8 m' (mem_start_brk s + mem_brk s - 8) = 1 ->
  hp (set_bytes s m') bs fl.
Proof.
  intros H L He.
  pose proof (chain_le _ _ _ (hp_chain _ _ _ H)) as Hle.
  constructor; cbn [mem_start_brk mem_max mem_brk bytes seg_list set_bytes].
  - apply (hp_lo _ _ _ H).
  - apply (hp_hi _ _ _ H).
  - apply (hp_len _ _ _ H).
  - destruct (hp_prologue _ _ _ H) as [P1 P2]. rewrite !L by lia. auto.
  - apply (hp_chain _ _ _ H).
  - exact He.
  - apply Forall_forall. intros c Ic. destruct (hp_tagged _ _ _ H _ Ic) as [T1 T2].
    pose proof (hp_in _ _ _ H _ Ic).
    split; rewrite L by lia; assumption.
  - apply (hp_heads _ _ _ H).
  - intros k Hk. apply (dll_frame (bytes s)); [apply (hp_links _ _ _ H k Hk)|].
    intros x Hx. destruct (hp_member _ _ _ H k x Hk Hx) as (c & Ic & <- & _).
    pose proof (hp_in _ _ _ H _ Ic).
    split; apply L; lia.
  - apply (hp_listed _ _ _ H).
  - apply (hp_nodup _ _ _ H).
Qed.

Lemma hp_open_intro (s : heap) (bs : list blk) (fl : lists) :
  hp s bs fl -> hp_open s bs fl.
Proof.
  intros H. unfold hp_open, stamp_epilogue. apply hp_low; [exact H| |].
  - intros a H1 H2. apply load8_store8_other. lia.
  - apply load8_store8_same. unfold wB. lia.
Qed.

(* the arena grown by a block of [wsize] bytes, its tags and the new
   epilogue written *)
Lemma hp_grow (s : heap) (bs : list blk) (fl : lists) (wsize : Z) :
  hp_open s bs fl ->
  32 <= wsize -> wsize mod 16 = 0 -> mem_brk s + wsize <= mem_max s ->
  let bp := mem_start_brk s + mem_brk s in
  let mg := store8 (store8 (store8 (bytes s) (bp - 8) wsize)
                      (bp + wsize - 16) wsize) (bp + wsize - 8) 1 in
  hp (set_bytes (set_brk s (mem_brk s + wsize)) mg)
     (bs ++ [mkBlk bp wsize false]) fl.
Proof.
  intros H Hw Hm Hmax bp mg.
  unfold hp_open, stamp_epilogue in H.
  pose proof (chain_le _ _ _ (hp_chain _ _ _ H)) as Hle.
  pose proof (hp_lo _ _ _ H) as [Lo1 Lo2]. pose proof (hp_hi _ _ _ H) as [Hi1 Hi2].
  cbn [mem_start_brk mem_max mem_brk bytes seg_list set_bytes] in Hle, Lo1, Lo2, Hi1, Hi2.
  fold bp in Hle.
  assert (Rw : 0 <= wsize < wB) by lia.
  assert (L : forall a, a + 16 <= bp ->
            load8 mg a = load8 (store8 (bytes s) (bp - 8) 1) a).
  { intros a Ha. unfold mg. rewrite !load8_store8_other by lia. reflexivity. }
  constructor; cbn [mem_start_brk mem_max mem_brk bytes seg_list set_bytes set_brk].
  - split; assumption.
  - split; lia.
  - apply (hp_len _ _ _ H).
  - destruct (hp_prologue _ _ _ H) as [P1 P2].
    cbn [mem_start_brk mem_max mem_brk bytes seg_list set_bytes] in P1, P2.
    fold bp in P1, P2. rewrite !L by lia. auto.
  - apply chain_snoc. cbn [b_ptr b_size]. split; [|lia].
    exact (hp_chain _ _ _ H).
  - unfold mg. replace (mem_start_brk s + (mem_brk s + wsize) - 8) with (bp + wsize - 8)
      by (unfold bp; lia).
    apply load8_store8_same. unfold wB. lia.
  - apply Forall_forall. intros c Ic. apply in_app_or in Ic. destruct Ic as [Ic|[<-|[]]].
    + destruct (hp_tagged _ _ _ H _ Ic) as [T1 T2].
      pose proof (hp_in _ _ _ H _ Ic) as Hc.
      cbn [mem_start_brk mem_max mem_brk bytes seg_list set_bytes] in T1, T2, Hc.
      fold bp in T1, T2, Hc.
      split; rewrite L by lia; assumption.
    + unfold tagged, tagw; cbn [b_ptr b_size b_flag Z.b2z]. unfold mg. split.
      * rewrite !load8_store8_other by lia. rewrite load8_store8_same by exact Rw. lia.
      * rewrite load8_store8_other by lia. rewrite load8_store8_same by exact Rw. lia.
  - apply (hp_heads _ _ _ H).
  - intros k Hk. apply (dll_frame _ mg _ _ _ (hp_links _ _ _ H k Hk)).
    intros x Hx. destruct (hp_member _ _ _ H k x Hk Hx) as (c & Ic & <- & _).
    pose proof (hp_in _ _ _ H _ Ic) as Hc.
    cbn [mem_start_brk mem_max mem_brk bytes seg_list set_bytes] in Hc |- *.
    fold bp in Hc.
    split; apply L; lia.
  - intros k x Hk Hx. destruct (hp_member _ _ _ H k x Hk Hx) as (c & Ic & Ec).
    exists c. split; [apply in_or_app; left; exact Ic|exact Ec].
  - apply (hp_nodup _ _ _ H).
Qed.

Lemma align_id (x : Z) : 0 <= x -> x + 16 <= wB -> x mod 16 = 0 -> align x = x.
Proof.
  intros H0 H1 Hm. unfold align, ALIGNMENT.
  rewrite (wrap_small (x + 16 - 1)) by lia.
  pose proof (Z.div_mod x 16 ltac:(lia)) as Hq. rewrite Hm in Hq.
  replace ((x + 16 - 1) / 16) with (x / 16)
    by (apply (Z.div_unique _ _ _ 15); lia).
  rewrite wrap_small by lia. lia.
Qed.

Lemma pack_one : pack 0 1 = 1.
Proof. reflexivity. Qed.

(** Growth of the arena of a well-formed heap by [wsize] bytes that the
    provider grants: the new block, merged with the last block when that
    one is marked free, is listed, and the heap is well formed. *)
Lemma wf_extend (s : heap) (bs : list blk) (fl : lists) (wsize : Z) :
  hp_open s bs fl ->
  (forall c, In c bs -> b_flag c = false -> listed fl c) ->
  32 <= wsize -> wsize mod 16 = 0 -> mem_brk s + wsize <= mem_max s ->
  exists s' bs' fl' b',
    extend_heap wsize s = Some (b_ptr b', s') /\
    wf s' bs' fl' /\ In b' bs' /\ listed fl' b' /\ wsize <= b_size b' /\
    mem_start_brk s' = mem_start_brk s /\ mem_max s' = mem_max s /\
    mem_brk s' = mem_brk s + wsize /\
    changes_within (fun y => mem_start_brk s + mem_brk s - 8 <= y \/ free_region bs fl y)
      (bytes s) (bytes s') /\
    (forall c, live bs fl c <-> live bs' fl' c) /\
    (forall c, In c bs -> b_flag c = true -> In c bs').
Proof.
  intros H Hf Hw Hm Hmax.
  pose proof (hp_grow s bs fl wsize H Hw Hm Hmax) as Hg. cbv zeta in Hg.
  set (bp := mem_start_brk s + mem_brk s) in *.
  assert (Ebp : bp = mem_start_brk s + mem_brk s) by reflexivity.
  clearbody bp.
  set (nbk := mkBlk bp wsize false) in *.
  set (mg := store8 (store8 (store8 (bytes s) (bp - 8) wsize)
                       (bp + wsize - 16) wsize) (bp + wsize - 8) 1) in *.
  set (sg := set_bytes (set_brk s (mem_brk s + wsize)) mg) in *.
  unfold hp_open, stamp_epilogue in H.
  pose proof (chain_le _ _ _ (hp_chain _ _ _ H)) as Hle.
  pose proof (hp_lo _ _ _ H) as [Lo1 Lo2]. pose proof (hp_hi _ _ _ H) as [Hi1 Hi2].
  cbn [mem_start_brk mem_max mem_brk bytes seg_list set_bytes] in Hle, Lo1, Lo2, Hi1, Hi2.
  rewrite <- Ebp in Hle.
  assert (K : forall c, 0 <= search_seg_list (b_size c) < 14)
    by (intros c; pose proof (search_seg_list_range (b_size c)); lia).
  assert (Inb : In nbk (bs ++ [nbk])) by (apply in_or_app; right; left; reflexivity).
  assert (Hold : forall c, In c bs -> b_ptr c + 32 <= bp /\ mem_start_brk s + 32 <= b_ptr c).
  { intros c Ic. pose proof (hp_in _ _ _ H _ Ic) as Hc.
    cbn [mem_start_brk mem_max mem_brk bytes seg_list set_bytes] in Hc.
    lia. }
  assert (Hmemb : forall j x, 0 <= j < 14 -> In x (fl j) ->
            x + 32 <= bp /\ mem_start_brk s + 32 <= x /\
            exists c, In c bs /\ b_ptr c = x /\ search_seg_list (b_size c) = j).
  { intros j x Hj Hx. destruct (hp_member _ _ _ H j x Hj Hx) as (c & Ic & Ec & Cc).
    destruct (Hold c Ic). subst x. split; [lia|]. split; [lia|]. exists c; auto. }
  assert (Nl : ~ listed fl nbk).
  { unfold listed. intros Hx. apply Hmemb in Hx; [|apply K].
    unfold nbk in Hx; cbn [b_ptr] in Hx. lia. }
  set (k := search_seg_list wsize).
  assert (Hk : 0 <= k < 14) by apply (K nbk).
  set (h := hd NULL (fl k)).
  assert (Hh : h = NULL \/ In h (fl k)).
  { unfold h. destruct (fl k); [left|right; left]; reflexivity. }
  assert (Hhd : nth (Z.to_nat k) (seg_list s) NULL = h) by apply (hp_heads _ _ _ H k Hk).
  (* the block is linked in the list, in the heap that has its tags *)
  destruct (hp_add sg (bs ++ [nbk]) fl nbk wsize Hg Inb Nl eq_refl) as (_ & Ha & _).
  cbn [b_ptr b_size nbk] in Ha. fold nbk k h in Ha.
  set (fl1 := upd fl k (bp :: fl k)) in *.
  set (segs := list_set (seg_list s) (Z.to_nat k) bp).
  (* the run of the code *)
  set (m1 := link_head_store (bytes s) bp h).
  set (m2 := store8 m1 (bp - 8) wsize).
  set (m3 := store8 m2 (bp + wsize - 16) wsize).
  set (m4 := store8 m3 (bp + wsize - 8) 1).
  set (s1 := set_seg_list (set_brk s (mem_brk s + wsize)) segs).
  assert (Hp : p_to_header bp = bp - 8) by (apply p_to_header_eq; lia).
  assert (Rw : 0 <= wsize < wB) by lia.
  assert (Rd : forall m, load8 m (bp - 8) = wsize ->
            p_to_footer bp (set_bytes s1 m) = Some (bp + wsize - 16, set_bytes s1 m) /\
            next_bp bp (set_bytes s1 m) = Some (bp + wsize, set_bytes s1 m)).
  { intros m Hl.
    destruct (read_header (set_bytes s1 m) nbk) as (_ & _ & F & N);
      unfold s1, nbk;
      cbn [set_bytes set_seg_list set_brk mem_start_brk mem_brk bytes b_ptr b_size];
      try lia; try assumption.
    - unfold tagw; cbn [b_size b_flag Z.b2z]. rewrite Hl. lia.
    - unfold nbk in F, N. cbn [b_ptr b_size] in F, N.
      rewrite (wrap_small (bp + wsize - 16)) in F by lia.
      rewrite (wrap_small (bp + wsize)) in N by lia. auto. }
  assert (Run : extend_heap wsize s =
                coalesce bp (set_bytes s1 m4)).
  { unfold extend_heap. rewrite align_id by lia.
    assert (Sb : mem_sbrk wsize s = Some (bp, set_brk s (mem_brk s + wsize))).
    { unfold mem_sbrk. rewrite Ebp.
      destruct (Z.leb_spec 0 wsize); [|lia].
      destruct (Z.leb_spec (mem_brk s + wsize) (mem_max s)); [|lia]. reflexivity. }
    step_by ltac:(exact Sb).
    destruct (Z.eqb_spec bp MINUS_ONE) as [E|_]; [unfold MINUS_ONE in E; lia|].
    assert (Ad : add_list_block bp wsize (set_brk s (mem_brk s + wsize)) =
                 Some (tt, set_bytes s1 m1)).
    { unfold s1, m1, segs. rewrite <- Hhd. unfold k.
      apply (add_list_block_run bp wsize (set_brk s (mem_brk s + wsize)));
        cbn [set_brk seg_list mem_start_brk mem_brk]; try lia.
      - apply (hp_len _ _ _ H).
      - apply in_arena_intro; cbn [set_brk mem_start_brk mem_brk]; lia.
      - fold k. rewrite Hhd. intros Hne. destruct Hh as [|Hh]; [contradiction|].
        destruct (Hmemb k h Hk Hh) as (A1 & A2 & _).
        apply in_arena_intro; cbn [set_brk mem_start_brk mem_brk]; lia. }
    step_by ltac:(exact Ad).
    rewrite Hp, pack_free.
    step_by ltac:(apply put_run;
                  unfold s1;
                  cbn [set_bytes set_seg_list set_brk mem_start_brk mem_brk]; lia).
    cbn [bytes set_bytes]. fold m2.
    change (set_bytes (set_bytes s1 m1) m2) with (set_bytes s1 m2).
    destruct (Rd m2) as [F2 _];
      [unfold m2; apply load8_store8_same; exact Rw|].
    step_by ltac:(exact F2).
    step_by ltac:(apply put_run;
                  unfold s1;
                  cbn [set_bytes set_seg_list set_brk mem_start_brk mem_brk]; lia).
    cbn [bytes set_bytes]. fold m3.
    change (set_bytes (set_bytes s1 m2) m3) with (set_bytes s1 m3).
    destruct (Rd m3) as [_ N3].
    { unfold m3, m2. rewrite load8_store8_other by lia.
      apply load8_store8_same; exact Rw. }
    step_by ltac:(exact N3).
    rewrite (p_to_header_eq (bp + wsize)) by lia. rewrite pack_one.
    step_by ltac:(apply put_run;
                  unfold s1;
                  cbn [set_bytes set_seg_list set_brk mem_start_brk mem_brk]; lia).
    reflexivity. }
  set (s4 := set_bytes s1 m4) in *.
  (* the heap after the stores *)
  assert (H4 : hp s4 (bs ++ [nbk]) fl1).
  { eapply hp_ext; [exact Ha| | |].
    - repeat split.
    - reflexivity.
    - intros x. unfold s4, sg. cbn [bytes set_bytes]. unfold m4, m3, m2, m1, mg.
      assert (Dh : forall a, bp - 8 <= a -> h = NULL \/ a + 8 <= h \/ h + 8 <= a).
      { intros a Ha'. destruct Hh as [|Hh]; [left; assumption|right].
        destruct (Hmemb k h Hk Hh) as (A1 & A2 & _). lia. }
      set (m := bytes s).
      transitivity (store8 (store8 (link_head_store (store8 m (bp - 8) wsize) bp h)
                              (bp + wsize - 16) wsize) (bp + wsize - 8) 1 x).
      { apply store8_ext. intros x1. apply store8_ext. intros x2.
        apply link_head_store_comm; [lia|apply Dh; lia]. }
      transitivity (store8 (link_head_store
                              (store8 (store8 m (bp - 8) wsize) (bp + wsize - 16) wsize)
                              bp h) (bp + wsize - 8) 1 x).
      { apply store8_ext. intros x1.
        apply link_head_store_comm; [lia|apply Dh; lia]. }
      apply link_head_store_comm; [lia|apply Dh; lia]. }
  assert (M1 : forall j x, 0 <= j < 14 ->
            (In x (fl1 j) <-> In x (fl j) \/ (j = k /\ x = bp))).
  { intros j x Hj. unfold fl1. destruct (Z.eq_dec j k) as [->|Hne].
    - rewrite upd_same. simpl. intuition.
    - rewrite upd_other by exact Hne. intuition. }
  assert (L1 : listed fl1 nbk).
  { unfold listed. apply M1; [apply K|]. right. split; reflexivity. }
  assert (W4 : wf s4 (bs ++ [nbk]) fl1).
  { split; [exact H4|]. intros c Ic Fc. apply in_app_or in Ic.
    destruct Ic as [Ic|[<-|[]]]; [|exact L1].
    unfold listed. apply M1; [apply K|]. left. apply Hf; assumption. }
  destruct (wf_coalesce s4 fl1 bs [] nbk W4 L1)
    as (s' & bs' & fl' & b' & Rc & W' & A' & C' & Ib' & Lb' & Pb' & Sb' & Live & Keep & _).
  destruct (hp_prev _ _ _ H4 bs [] nbk eq_refl) as (_ & Sy & _).
  destruct A' as (A1 & A2 & A3).
  exists s', bs', fl', b'.
  split; [rewrite Run; exact Rc|]. split; [exact W'|]. split; [exact Ib'|].
  split; [exact Lb'|]. split.
  { rewrite Sb'. cbn [hd epilogue b_flag nbk b_size].
    destruct (b_flag (last bs (prologue s4))); lia. }
  split; [exact A1|]. split; [exact A2|]. split; [rewrite A3; reflexivity|].
  split; [|split].
  - apply (changes_within_trans _ _ m4).
    + unfold m4, m3, m2.
      apply (changes_within_trans _ _ m1).
      * apply (differ_on_changes _ _ _ _ (link_head_store_differ (bytes s) bp h)).
        intros w y0 Hw0 Hy. destruct Hw0 as [<-|[<-|Hw0]]; [left; lia|left; lia|].
        destruct (Z.eqb_spec h NULL) as [|Hne]; [contradiction|].
        destruct Hw0 as [<-|[]]. destruct Hh as [|Hh]; [contradiction|].
        destruct (Hmemb k h Hk Hh) as (A4 & A5 & c & Ic & Ec & Cc).
        right. exists c. split; [exact Ic|]. split.
        -- unfold listed. rewrite Cc, Ec. exact Hh.
        -- pose proof (hp_in _ _ _ H _ Ic). unfold in_block. lia.
      * repeat (eapply changes_within_trans;
                [|apply store8_changes; intros y0 Hy; left; lia]).
        apply changes_within_refl.
    + apply (changes_within_weaken _ _ _ _ C').
      intros y0 (c & Ic & Lc & Hy). apply in_app_or in Ic.
      destruct Ic as [Ic|[<-|[]]].
      * right. exists c. split; [exact Ic|]. split; [|exact Hy].
        unfold listed in *. apply M1 in Lc; [|apply K].
        destruct Lc as [Lc|[_ Lc]]; [exact Lc|]. destruct (Hold c Ic). lia.
      * left. unfold in_block, nbk in Hy; cbn [b_ptr] in Hy. lia.
  - intros c. rewrite <- Live. unfold live. split.
    + intros [Ic Nc]. split; [apply in_or_app; left; exact Ic|].
      intros Lc. unfold listed in *. apply M1 in Lc; [|apply K].
      destruct Lc as [Lc|[_ Lc]]; [contradiction|]. destruct (Hold c Ic). lia.
    + intros [Ic Nc]. apply in_app_or in Ic.
      destruct Ic as [Ic|[<-|[]]]; [|contradiction].
      split; [exact Ic|]. intros Lc. apply Nc. unfold listed in *.
      apply M1; [apply K|]. left. exact Lc.
  - intros c Ic Fc. apply Keep; [apply in_or_app; left; exact Ic|exact Fc|].
    intros ->. discriminate.
Qed.

(** ** Placement *)

(* the reads of the block at [p] in a store that holds its header *)
Lemma rd_raw (s : heap) (m : store) (p size : Z) (flag : bool) :
  0 < mem_start_brk s -> mem_start_brk s + mem_brk s < wB ->
  mem_start_brk s + 8 <= p -> p + size <= mem_start_brk s + mem_brk s ->
  16 <= size -> size mod 16 = 0 ->
  load8 m (p - 8) = size + Z.b2z flag ->
  get_size (p_to_header p) (set_bytes s m) = Some (size, set_bytes s m) /\
  get_alloc (p_to_header p) (set_bytes s m) = Some (Z.b2z flag, set_bytes s m) /\
  p_to_footer p (set_bytes s m) = Some (p + size - 16, set_bytes s m) /\
  next_bp p (set_bytes s m) = Some (p + size, set_bytes s m).
Proof.
  intros Hlo Hhi Hp1 Hp2 Hs Hm Hl.
  destruct (read_header (set_bytes s m) (mkBlk p size flag)) as (G & A & F & N);
    cbn [set_bytes mem_start_brk mem_brk bytes b_ptr b_size]; try lia; try assumption.
  cbn [b_ptr b_size b_flag] in G, A, F, N.
  rewrite (wrap_small (p + size - 16)) in F by lia.
  rewrite (wrap_small (p + size)) in N by lia. auto.
Qed.

(** Placing a request of [asize] bytes in a listed block that is large
    enough: the block leaves its list and is marked allocated, with what
    is over made a listed free block when that is 32 bytes at least. *)
Lemma wf_place_split (s : heap) (fl : lists) (pre post : list blk) (b : blk)
      (nb asize : Z) :
  let bs := pre ++ b :: post in
  wf s bs fl -> listed fl b -> settled s bs nb ->
  32 <= asize -> asize mod 16 = 0 -> asize <= b_size b ->
  exists s' bs' fl' b1,
    place nb (b_ptr b) asize s = Some (b_ptr b, s') /\
    wf s' bs' fl' /\ same_arena s s' /\
    changes_within (free_region bs fl) (bytes s) (bytes s') /\
    In b1 bs' /\ b_ptr b1 = b_ptr b /\ asize <= b_size b1 /\ b_size b1 <= b_size b /\
    b_flag b1 = true /\
    (forall c, live bs' fl' c <-> live bs fl c \/ c = b1) /\
    (forall c, In c bs -> b_flag c = true -> c <> b -> In c bs') /\
    (forall c, live bs fl c -> c <> b1) /\
    b_size b1 = (if b_size b - asize >=? MIN_BLOCK_SIZE then asize else b_size b) /\
    (32 <= b_size b - asize ->
     exists b2, In b2 bs' /\ listed fl' b2 /\ b_ptr b2 = b_ptr b + asize /\
                b_size b2 = b_size b - asize /\ b_flag b2 = false).
Proof.
  intros bs [H Hf] Lb Hnb Ha Hma Hfit.
  assert (K : forall c, 0 <= search_seg_list (b_size c) < 14)
    by (intros c; pose proof (search_seg_list_range (b_size c)); lia).
  assert (Ib : In b bs) by (apply in_or_app; right; left; reflexivity).
  pose proof (hp_arena _ _ _ H) as [Alo Ahi].
  pose proof (hp_in _ _ _ H _ Ib) as (B1 & B2 & B3 & B4 & B5).
  destruct (hp_delete_members _ _ _ _ H Ib Lb) as (s1 & fl1 & R1 & H1 & A1 & C1 & M1).
  destruct (rd_block _ _ _ H1 b Ib) as (GS & _).
  pose proof A1 as (E1lo & E1mx & E1brk).
  assert (Nb1 : ~ listed fl1 b).
  { unfold listed. intros Hx. apply M1 in Hx; [|apply K]. tauto. }
  assert (Sep : forall c, In c pre \/ In c post -> b_ptr c <> b_ptr b).
  { intros c Hc. apply (chain_mid_sep _ _ pre [b] post c b (hp_chain _ _ _ H) Hc).
    left; reflexivity. }
  assert (Out : forall c, In c bs -> c = b \/ In c pre \/ In c post).
  { intros c Hc. unfold bs in Hc. apply in_app_or in Hc.
    destruct Hc as [Hc|[Hc|Hc]]; auto. }
  assert (Mono : forall c, In c pre \/ In c post -> listed fl c <-> listed fl1 c).
  { intros c Hc. unfold listed. rewrite (M1 _ _ (K c)). pose proof (Sep c Hc). tauto. }
  assert (Hw : wrap (b_size b - asize) = b_size b - asize) by (apply wrap_small; lia).
  assert (Hsub : (b_size b - asize) mod 16 = 0).
  { rewrite Zminus_mod, B4, Hma. reflexivity. }
  assert (Hc0 : chain (mem_start_brk s1 + 32) pre (b_ptr b) /\
                chain (b_ptr b + b_size b) post (mem_start_brk s1 + mem_brk s1)).
  { pose proof (hp_chain _ _ _ H1) as Hc. unfold bs in Hc.
    apply chain_app in Hc. destruct Hc as (p0 & Hc1 & Hc2).
    simpl in Hc2. destruct Hc2 as (Ep0 & _ & _ & Hc3). subst p0. auto. }
  destruct Hc0 as [Hc1 Hc2].
  set (m1 := bytes s1) in *.
  set (bp := b_ptr b) in *.
  assert (Ebp : bp = b_ptr b) by reflexivity. clearbody bp.
  assert (Hp : p_to_header bp = bp - 8) by (apply p_to_header_eq; lia).
  assert (Start : place nb bp asize s =
    (if b_size b - asize >=? MIN_BLOCK_SIZE then
       put (bp - 8) (pack asize 1) ;;
       ft <- p_to_footer bp ;;
       put ft (pack asize 1) ;;
       _ <- next_bp bp ;;
       nb1 <- next_bp bp ;;
       put (p_to_header nb1) (pack (b_size b - asize) 0) ;;
       nb2 <- next_bp bp ;;
       nft <- p_to_footer nb2 ;;
       put nft (pack (b_size b - asize) 0) ;;
       nb3 <- next_bp bp ;;
       add_list_block nb3 (b_size b - asize) ;;
       ret bp
     else
       put (bp - 8) (pack (b_size b) 1) ;;
       ft <- p_to_footer bp ;;
       put ft (pack (b_size b) 1) ;;
       a <- get_alloc (p_to_header nb) ;;
       (if a =? 0 then
          nft <- p_to_footer nb ;;
          w <- get (p_to_header nb) ;;
          put nft w
        else ret tt) ;;
       ret bp) s1).
  { unfold place.
    step_by ltac:(exact R1). step_by ltac:(exact GS).
    rewrite Hw, Hp. reflexivity. }
  rewrite Start. clear Start.
  unfold MIN_BLOCK_SIZE.
  destruct (Z.geb_spec (b_size b - asize) 32) as [Hsplit|Hno].
  - (* the block is split *)
    set (rem := b_size b - asize) in *.
    assert (Erem : rem = b_size b - asize) by reflexivity. clearbody rem.
    rewrite (pack_add asize 1) by lia. rewrite (pack_free rem).
    set (m2 := store8 m1 (bp - 8) (asize + 1)).
    set (m3 := store8 m2 (bp + asize - 16) (asize + 1)).
    set (m4 := store8 m3 (bp + asize - 8) rem).
    set (m5 := store8 m4 (bp + b_size b - 16) rem).
    set (b1 := mkBlk bp asize true).
    set (b2 := mkBlk (bp + asize) rem false).
    assert (Ra : 0 <= asize + 1 < wB) by lia.
    assert (Rr : 0 <= rem < wB) by lia.
    assert (T2 : load8 m2 (bp - 8) = asize + 1)
      by (unfold m2; apply load8_store8_same; exact Ra).
    assert (T3 : load8 m3 (bp - 8) = asize + 1)
      by (unfold m3; rewrite load8_store8_other by lia; exact T2).
    assert (T3' : load8 m3 (bp + asize - 16) = asize + 1)
      by (unfold m3; apply load8_store8_same; exact Ra).
    assert (T4 : load8 m4 (bp - 8) = asize + 1)
      by (unfold m4; rewrite load8_store8_other by lia; exact T3).
    assert (T4' : load8 m4 (bp + asize - 16) = asize + 1)
      by (unfold m4; rewrite load8_store8_other by lia; exact T3').
    assert (T4h : load8 m4 (bp + asize - 8) = rem)
      by (unfold m4; apply load8_store8_same; exact Rr).
    assert (T5 : load8 m5 (bp - 8) = asize + 1)
      by (unfold m5; rewrite load8_store8_other by lia; exact T4).
    assert (T5' : load8 m5 (bp + asize - 16) = asize + 1)
      by (unfold m5; rewrite load8_store8_other by lia; exact T4').
    assert (T5h : load8 m5 (bp + asize - 8) = rem)
      by (unfold m5; rewrite load8_store8_other by lia; exact T4h).
    assert (T5f : load8 m5 (bp + b_size b - 16) = rem)
      by (unfold m5; apply load8_store8_same; exact Rr).
    assert (RD : forall m, load8 m (bp - 8) = asize + 1 ->
              p_to_footer bp (set_bytes s1 m) = Some (bp + asize - 16, set_bytes s1 m) /\
              next_bp bp (set_bytes s1 m) = Some (bp + asize, set_bytes s1 m)).
    { intros m Hl. destruct (rd_raw s1 m bp asize true) as (_ & _ & F & N);
        try lia; try assumption. auto. }
    assert (RD2 : forall m, load8 m (bp + asize - 8) = rem ->
              p_to_footer (bp + asize) (set_bytes s1 m) =
              Some (bp + b_size b - 16, set_bytes s1 m)).
    { intros m Hl. destruct (rd_raw s1 m (bp + asize) rem false) as (_ & _ & F & _);
        try lia; try assumption.
      - cbn [Z.b2z]. rewrite <- Hl. f_equal. lia.
      - rewrite F. f_equal. f_equal. lia. }
    (* the heap with the two blocks *)
    assert (H5 : hp (set_bytes s1 m5) (pre ++ [b1; b2] ++ post) fl1).
    { apply (hp_retag s1 pre [b] [b1; b2] post fl1 m5 bp (bp + b_size b)).
      - exact H1.
      - exact Hc1.
      - exact Hc2.
      - simpl. unfold b1, b2; cbn [b_ptr b_size]. repeat split; lia.
      - intros c [<-|[]]. exact Nb1.
      - fold m1. unfold m5, m4, m3, m2.
        repeat (eapply changes_within_trans;
                [|apply store8_changes; intros y0 Hy; lia]).
        apply changes_within_refl.
      - constructor; [|constructor; [|constructor]];
          unfold tagged, tagw, b1, b2; cbn [b_ptr b_size b_flag Z.b2z]; split.
        + exact T5.
        + exact T5'.
        + rewrite <- T5h. f_equal. lia.
        + rewrite Z.add_0_r, <- T5f. f_equal. lia. }
    assert (I2 : In b2 (pre ++ [b1; b2] ++ post))
      by (apply in_or_app; right; right; left; reflexivity).
    assert (I1 : In b1 (pre ++ [b1; b2] ++ post))
      by (apply in_or_app; right; left; reflexivity).
    assert (Sep2 : forall c, In c pre \/ In c post -> b_ptr c <> bp + asize).
    { intros c Hc. apply (chain_mid_sep _ _ pre [b1; b2] post c b2 (hp_chain _ _ _ H5) Hc).
      right; left; reflexivity. }
    assert (N2 : ~ listed fl1 b2).
    { unfold listed. intros Hx.
      destruct (hp_member _ _ _ H1 _ _ (K b2) Hx) as (c & Ic & Ec & _).
      destruct (Out c Ic) as [->|Hc]; [unfold b2 in Ec; cbn [b_ptr] in Ec; lia|].
      apply (Sep2 c Hc). exact Ec. }
    destruct (hp_add_members _ _ _ b2 rem H5 I2 N2 eq_refl)
      as (s' & fl' & Radd & H' & A' & C' & M').
    cbn [b_ptr b_size b2] in Radd.
    exists s', (pre ++ [b1; b2] ++ post), fl', b1.
    split.
    { step_by ltac:(apply put_run; rewrite ?E1lo, ?E1brk; lia).
      fold m1 m2.
      destruct (RD m2 T2) as [F2 _]. step_by ltac:(exact F2).
      step_by ltac:(apply put_run; cbn [set_bytes mem_start_brk mem_brk];
                    rewrite ?E1lo, ?E1brk; lia).
      cbn [bytes set_bytes]. fold m3.
      change (set_bytes (set_bytes s1 m2) m3) with (set_bytes s1 m3).
      destruct (RD m3 T3) as [_ N3]. step_by ltac:(exact N3).
      step_by ltac:(exact N3).
      rewrite (p_to_header_eq (bp + asize)) by lia.
      step_by ltac:(apply put_run; cbn [set_bytes mem_start_brk mem_brk];
                    rewrite ?E1lo, ?E1brk; lia).
      cbn [bytes set_bytes]. fold m4.
      change (set_bytes (set_bytes s1 m3) m4) with (set_bytes s1 m4).
      destruct (RD m4 T4) as [_ N4]. step_by ltac:(exact N4).
      step_by ltac:(exact (RD2 m4 T4h)).
      step_by ltac:(apply put_run; cbn [set_bytes mem_start_brk mem_brk];
                    rewrite ?E1lo, ?E1brk; lia).
      cbn [bytes set_bytes]. fold m5.
      change (set_bytes (set_bytes s1 m4) m5) with (set_bytes s1 m5).
      destruct (RD m5 T5) as [_ N5]. step_by ltac:(exact N5).
      step_by ltac:(exact Radd). reflexivity. }
    assert (Out' : forall c, In c (pre ++ [b1; b2] ++ post) ->
              c = b1 \/ c = b2 \/ In c pre \/ In c post).
    { intros c Hc. apply in_app_or in Hc.
      destruct Hc as [Hc|[Hc|[Hc|Hc]]]; auto. }
    assert (In' : forall c, In c pre \/ In c post -> In c (pre ++ [b1; b2] ++ post)).
    { intros c [Hc|Hc]; apply in_or_app; [left|right; right; right]; exact Hc. }
    assert (L' : forall c, In c pre \/ In c post -> listed fl1 c <-> listed fl' c).
    { intros c Hc. unfold listed. rewrite (M' _ _ (K c)).
      cbn [b_ptr b2]. pose proof (Sep2 c Hc). tauto. }
    assert (L2 : listed fl' b2) by (unfold listed; apply M'; [apply K|right; auto]).
    assert (NL1 : ~ listed fl' b1).
    { unfold listed. rewrite (M' _ _ (K b1)). cbn [b_ptr b1 b2].
      intros [Hx|[_ Hx]]; [|lia]. apply M1 in Hx; [|apply K]. lia. }
    split; [|split; [|split; [|split; [exact I1|]]]].
    + split; [exact H'|]. intros c Ic Fc.
      destruct (Out' c Ic) as [->|[->|Hc]]; [discriminate|exact L2|].
      apply L', Mono; auto. apply Hf; [|exact Fc].
      unfold bs. destruct Hc as [Hc|Hc]; apply in_or_app; [left|right; right]; exact Hc.
    + eapply same_arena_trans; [exact A1|]. exact A'.
    + assert (Fb : forall y0, bp - 8 <= y0 < bp + b_size b - 8 -> free_region bs fl y0).
      { intros y0 Hy. exists b. split; [exact Ib|]. split; [exact Lb|].
        unfold in_block. lia. }
      apply (changes_within_trans _ _ m1); [exact C1|].
      apply (changes_within_trans _ _ m5).
      * unfold m5, m4, m3, m2.
        repeat (eapply changes_within_trans;
                [|apply store8_changes; intros y0 Hy; apply Fb; lia]).
        apply changes_within_refl.
      * apply (changes_within_weaken _ _ _ _ C').
        intros y0 [Hy|(c & Ic & Lc & Hy)].
        -- apply Fb. unfold in_block, b2 in Hy; cbn [b_ptr b_size] in Hy. lia.
        -- destruct (Out' c Ic) as [->|[->|Hc]].
           ++ apply Fb. unfold in_block, b1 in Hy; cbn [b_ptr b_size] in Hy. lia.
           ++ contradiction.
           ++ exists c. split; [|split; [apply Mono; assumption|exact Hy]].
              unfold bs. destruct Hc as [Hc|Hc]; apply in_or_app;
                [left|right; right]; exact Hc.
    + split; [unfold b1; cbn [b_ptr]; lia|].
      split; [unfold b1; cbn [b_size]; lia|].
      split; [unfold b1; cbn [b_size]; lia|].
      split; [reflexivity|]. split.
      * intros c. unfold live. split.
        -- intros [Ic Nc]. destruct (Out' c Ic) as [->|[->|Hc]];
             [right; reflexivity|contradiction|left].
           split.
           ++ unfold bs. destruct Hc as [Hc|Hc]; apply in_or_app;
                [left|right; right]; exact Hc.
           ++ rewrite Mono, L'; assumption.
        -- intros [[Ic Nc]| ->]; [|split; assumption].
           destruct (Out c Ic) as [->|Hc]; [contradiction|].
           split; [apply In'; exact Hc|]. rewrite <- L', <- Mono; assumption.
      * split; [|split; [|split]].
        -- intros c Ic Fc Nc. destruct (Out c Ic) as [->|Hc]; [contradiction|].
           apply In'; exact Hc.
        -- intros c [Ic Nc] ->. apply Nc.
           assert (E : b1 = b).
           { apply (chain_ptr_inj _ _ _ _ _ (hp_chain _ _ _ H)); auto. }
           rewrite E. exact Lb.
        -- reflexivity.
        -- intros _. exists b2. split; [exact I2|]. split; [exact L2|].
           unfold b2; cbn [b_ptr b_size b_flag]. repeat split; lia.
  - (* the whole block is taken *)
    rewrite (pack_add (b_size b) 1) by lia.
    set (m2 := store8 m1 (bp - 8) (b_size b + 1)).
    set (m3 := store8 m2 (bp + b_size b - 16) (b_size b + 1)).
    set (b1 := mkBlk bp (b_size b) true).
    assert (Ra : 0 <= b_size b + 1 < wB) by lia.
    assert (T2 : load8 m2 (bp - 8) = b_size b + 1)
      by (unfold m2; apply load8_store8_same; exact Ra).
    assert (T3 : load8 m3 (bp - 8) = b_size b + 1)
      by (unfold m3; rewrite load8_store8_other by lia; exact T2).
    assert (T3' : load8 m3 (bp + b_size b - 16) = b_size b + 1)
      by (unfold m3; apply load8_store8_same; exact Ra).
    assert (F2 : p_to_footer bp (set_bytes s1 m2) = Some (bp + b_size b - 16, set_bytes s1 m2)).
    { destruct (rd_raw s1 m2 bp (b_size b) true) as (_ & _ & F & N);
        try lia; try assumption. }
    assert (H3 : hp (set_bytes s1 m3) (pre ++ [b1] ++ post) fl1).
    { apply (hp_retag s1 pre [b] [b1] post fl1 m3 bp (bp + b_size b)).
      - exact H1.
      - exact Hc1.
      - exact Hc2.
      - simpl. unfold b1; cbn [b_ptr b_size]. repeat split; lia.
      - intros c [<-|[]]. exact Nb1.
      - fold m1. unfold m3, m2.
        repeat (eapply changes_within_trans;
                [|apply store8_changes; intros y0 Hy; lia]).
        apply changes_within_refl.
      - constructor; [|constructor];
          unfold tagged, tagw, b1; cbn [b_ptr b_size b_flag Z.b2z]; split.
        + exact T3.
        + exact T3'. }
    assert (I1 : In b1 (pre ++ [b1] ++ post))
      by (apply in_or_app; right; left; reflexivity).
    assert (In' : forall c, In c pre \/ In c post -> In c (pre ++ [b1] ++ post)).
    { intros c [Hc|Hc]; apply in_or_app; [left|right; right]; exact Hc. }
    assert (Out' : forall c, In c (pre ++ [b1] ++ post) ->
              c = b1 \/ In c pre \/ In c post).
    { intros c Hc. apply in_app_or in Hc.
      destruct Hc as [Hc|[Hc|Hc]]; auto. }
    (* the read of next_block finds a flag that is 1 *)
    assert (GA : get_alloc (p_to_header nb) (set_bytes s1 m3) = Some (1, set_bytes s1 m3)).
    { destruct Hnb as [->|(c & Ic & Fc & <-)].
      - destruct (hp_prologue _ _ _ H3) as [P1 _].
        cbn [set_bytes mem_start_brk bytes] in P1.
        destruct (rd_raw s1 m3 (mem_start_brk s1 + 16) 16 true) as (_ & A & _);
          try lia.
        + reflexivity.
        + replace (mem_start_brk s1 + 16 - 8) with (mem_start_brk s1 + 8) by lia.
          exact P1.
        + rewrite <- E1lo. exact A.
      - assert (Ic' : exists c', In c' (pre ++ [b1] ++ post) /\ b_ptr c' = b_ptr c /\
                                 b_flag c' = true).
        { destruct (Out c Ic) as [->|Hc].
          - exists b1. split; [exact I1|]. split; [unfold b1; cbn [b_ptr]; lia|reflexivity].
          - exists c. split; [apply In'; exact Hc|]. auto. }
        destruct Ic' as (c' & Ic' & Ep & Fc').
        destruct (rd_block _ _ _ H3 c' Ic') as (_ & A & _).
        rewrite Fc', Ep in A. exact A. }
    exists (set_bytes s1 m3), (pre ++ [b1] ++ post), fl1, b1.
    assert (NL1 : ~ listed fl1 b1).
    { unfold listed. cbn [b_ptr b1]. intros Hx. apply M1 in Hx; [|apply K]. lia. }
    split.
    { step_by ltac:(apply put_run; rewrite ?E1lo, ?E1brk; lia).
      fold m1 m2.
      step_by ltac:(exact F2).
      step_by ltac:(apply put_run; cbn [set_bytes mem_start_brk mem_brk];
                    rewrite ?E1lo, ?E1brk; lia).
      cbn [bytes set_bytes]. fold m3.
      change (set_bytes (set_bytes s1 m2) m3) with (set_bytes s1 m3).
      step_by ltac:(exact GA).
      change (1 =? 0) with false. cbv iota.
      unfold bind, ret. reflexivity. }
    split; [|split; [|split; [|split; [exact I1|]]]].
    + split; [exact H3|]. intros c Ic Fc.
      destruct (Out' c Ic) as [->|Hc]; [discriminate|].
      apply Mono; auto. apply Hf; [|exact Fc].
      unfold bs. destruct Hc as [Hc|Hc]; apply in_or_app; [left|right; right]; exact Hc.
    + destruct A1 as (X1 & X2 & X3). repeat split; assumption.
    + assert (Fb : forall y0, bp - 8 <= y0 < bp + b_size b - 8 -> free_region bs fl y0).
      { intros y0 Hy. exists b. split; [exact Ib|]. split; [exact Lb|].
        unfold in_block. lia. }
      apply (changes_within_trans _ _ m1); [exact C1|].
      cbn [bytes set_bytes]. unfold m3, m2.
      repeat (eapply changes_within_trans;
              [|apply store8_changes; intros y0 Hy; apply Fb; lia]).
      apply changes_within_refl.
    + split; [unfold b1; cbn [b_ptr]; lia|].
      split; [unfold b1; cbn [b_size]; lia|].
      split; [unfold b1; cbn [b_size]; lia|].
      split; [reflexivity|]. split.
      * intros c. unfold live. split.
        -- intros [Ic Nc]. destruct (Out' c Ic) as [->|Hc]; [right; reflexivity|left].
           split.
           ++ unfold bs. destruct Hc as [Hc|Hc]; apply in_or_app;
                [left|right; right]; exact Hc.
           ++ rewrite Mono; assumption.
        -- intros [[Ic Nc]| ->]; [|split; assumption].
           destruct (Out c Ic) as [->|Hc]; [contradiction|].
           split; [apply In'; exact Hc|]. rewrite <- Mono; assumption.
      * split; [|split; [|split]].
        -- intros c Ic Fc Nc. destruct (Out c Ic) as [->|Hc]; [contradiction|].
           apply In'; exact Hc.
        -- intros c [Ic Nc] ->. apply Nc.
           assert (E : b1 = b).
           { apply (chain_ptr_inj _ _ _ _ _ (hp_chain _ _ _ H)); auto. }
           rewrite E. exact Lb.
        -- reflexivity.
        -- intros Hrem. lia.
Qed.

(* the same, without the sizes after the split *)
Lemma wf_place (s : heap) (fl : lists) (pre post : list blk) (b : blk) (nb asize : Z) :
  let bs := pre ++ b :: post in
  wf s bs fl -> listed fl b -> settled s bs nb ->
  32 <= asize -> asize mod 16 = 0 -> asize <= b_size b ->
  exists s' bs' fl' b1,
    place nb (b_ptr b) asize s = Some (b_ptr b, s') /\
    wf s' bs' fl' /\ same_arena s s' /\
    changes_within (free_region bs fl) (bytes s) (bytes s') /\
    In b1 bs' /\ b_ptr b1 = b_ptr b /\ asize <= b_size b1 /\ b_size b1 <= b_size b /\
    b_flag b1 = true /\
    (forall c, live bs' fl' c <-> live bs fl c \/ c = b1) /\
    (forall c, In c bs -> b_flag c = true -> c <> b -> In c bs') /\
    (forall c, live bs fl c -> c <> b1).
Proof.
  intros bs W Lb Hnb Ha Hma Hfit.
  destruct (wf_place_split s fl pre post b nb asize W Lb Hnb Ha Hma Hfit)
    as (s' & bs' & fl' & b1 & R & W' & A & C & I1 & P1 & S1 & S2 & F1
        & Live & Keep & Fresh & _).
  exists s', bs', fl', b1.
  repeat (split; [assumption|]). assumption.
Qed.

(** ** Deallocation *)

(** Freeing a live block of a well-formed heap: the block is listed,
    merged with the neighbours whose flag is 0; the heap stays well
    formed, and the other live blocks are live as before.  The merged
    block is the head of the list of its class. *)
Lemma wf_free_head (s : heap) (fl : lists) (pre post : list blk) (b : blk) :
  let bs := pre ++ b :: post in
  let y := last pre (prologue s) in
  let z := hd (epilogue s) post in
  wf s bs fl -> ~ listed fl b ->
  exists s' bs' fl' b',
    free (b_ptr b) s = Some (tt, s') /\
    wf s' bs' fl' /\ same_arena s s' /\
    changes_within (fun a => in_block b a \/ free_region bs fl a) (bytes s) (bytes s') /\
    In b' bs' /\ listed fl' b' /\
    b_ptr b' = (if b_flag y then b_ptr b else b_ptr y) /\
    b_size b' = (if b_flag y then 0 else b_size y) + b_size b +
                (if b_flag z then 0 else b_size z) /\
    (forall c, live bs' fl' c <-> live bs fl c /\ c <> b) /\
    (forall c, In c bs -> b_flag c = true -> c <> b -> In c bs') /\
    (b_flag y = false \/ b_flag z = false -> b_flag b' = false) /\
    nth (Z.to_nat (search_seg_list (b_size b'))) (seg_list s') NULL = b_ptr b'.
Proof.
  intros bs y z [H Hf] Nl.
  assert (K : forall c, 0 <= search_seg_list (b_size c) < 14)
    by (intros c; pose proof (search_seg_list_range (b_size c)); lia).
  assert (Ib : In b bs) by (apply in_or_app; right; left; reflexivity).
  pose proof (hp_arena _ _ _ H) as [Alo Ahi].
  pose proof (hp_in _ _ _ H _ Ib) as (B1 & B2 & B3 & B4 & B5).
  assert (Fb : b_flag b = true).
  { destruct (b_flag b) eqn:E; [reflexivity|]. destruct Nl. apply Hf; assumption. }
  destruct (hp_tagged _ _ _ H _ Ib) as [T1 T2].
  unfold tagw in T1, T2. rewrite Fb in T1, T2. cbn [Z.b2z] in T1, T2.
  assert (Hc0 : chain (mem_start_brk s + 32) pre (b_ptr b) /\
                chain (b_ptr b + b_size b) post (mem_start_brk s + mem_brk s)).
  { pose proof (hp_chain _ _ _ H) as Hc. unfold bs in Hc.
    apply chain_app in Hc. destruct Hc as (p0 & Hc1 & Hc2).
    simpl in Hc2. destruct Hc2 as (Ep0 & _ & _ & Hc3). subst p0. auto. }
  destruct Hc0 as [Hc1 Hc2].
  assert (Hp : p_to_header (b_ptr b) = b_ptr b - 8) by (apply p_to_header_eq; lia).
  set (w := b_size b + 1) in *.
  assert (Rw : 0 <= w < wB) by (unfold w; lia).
  set (m1 := store8 (bytes s) (b_ptr b - 8) w).
  set (m2 := store8 m1 (b_ptr b + b_size b - 16) w).
  assert (L1 : load8 m1 (b_ptr b - 8) = w)
    by (unfold m1; apply load8_store8_same; exact Rw).
  assert (F1 : p_to_footer (b_ptr b) (set_bytes s m1) =
               Some (b_ptr b + b_size b - 16, set_bytes s m1)).
  { destruct (rd_raw s m1 (b_ptr b) (b_size b) true) as (_ & _ & F & _);
      try lia; try assumption. }
  assert (H2 : hp (set_bytes s m2) (pre ++ [b] ++ post) fl).
  { apply (hp_retag s pre [b] [b] post fl m2 (b_ptr b) (b_ptr b + b_size b)).
    - exact H.
    - exact Hc1.
    - exact Hc2.
    - simpl. repeat split; lia.
    - intros c [<-|[]]. exact Nl.
    - unfold m2, m1.
      repeat (eapply changes_within_trans;
              [|apply store8_changes; intros y0 Hy; lia]).
      apply changes_within_refl.
    - constructor; [|constructor]. unfold tagged, tagw. rewrite Fb. cbn [Z.b2z]. split.
      + unfold m2. rewrite load8_store8_other by lia. exact L1.
      + unfold m2. apply load8_store8_same. exact Rw. }
  assert (Hcls : search_seg_list w = search_seg_list (b_size b)).
  { pose proof (search_seg_list_tagw b B4) as E. unfold tagw in E.
    rewrite Fb in E. exact E. }
  destruct (hp_add_members _ _ _ b w H2 Ib Nl Hcls) as (s3 & fl3 & Radd & H3 & A3 & C3 & M3).
  assert (L3 : listed fl3 b) by (unfold listed; apply M3; [apply K|right; auto]).
  assert (W3 : wf s3 bs fl3).
  { split; [exact H3|]. intros c Ic Fc. unfold listed. apply M3; [apply K|].
    left. apply Hf; assumption. }
  assert (Hd3 : nth (Z.to_nat (search_seg_list (b_size b))) (seg_list s3) NULL = b_ptr b).
  { destruct (hp_add _ _ _ b w H2 Ib Nl Hcls) as (R0 & H0 & _).
    pose proof (hp_heads _ _ _ H0 _ (K b)) as Hh. rewrite upd_same in Hh.
    rewrite Radd in R0. injection R0 as E0. rewrite E0. exact Hh. }
  destruct (wf_coalesce_head s3 fl3 pre post b W3 L3)
    as (s' & bs' & fl' & b' & Rc & W' & A' & C' & Ib' & Lb' & Pb' & Sb' & Live & Keep
        & Fl' & Hd').
  rewrite (prologue_same s s3) in Pb', Sb', Fl'
    by (eapply same_arena_trans; [|exact A3]; repeat split).
  rewrite (epilogue_same s s3) in Sb', Fl'
    by (eapply same_arena_trans; [|exact A3]; repeat split).
  exists s', bs', fl', b'.
  split.
  { unfold free.
    destruct (Z.eqb_spec (b_ptr b) NULL) as [E|_]; [unfold NULL in E; lia|].
    rewrite Hp.
    step_by ltac:(apply get_ok; apply in_arena_intro; lia).
    rewrite T1. fold w. rewrite pack_free.
    step_by ltac:(apply put_run; lia).
    fold m1.
    step_by ltac:(exact F1).
    step_by ltac:(apply put_run; cbn [set_bytes mem_start_brk mem_brk]; lia).
    cbn [bytes set_bytes]. fold m2.
    change (set_bytes (set_bytes s m1) m2) with (set_bytes s m2).
    step_by ltac:(exact Radd).
    step_by ltac:(exact Rc). reflexivity. }
  split; [exact W'|].
  split; [eapply same_arena_trans; [|exact A']; eapply same_arena_trans; [|exact A3];
          repeat split|].
  split; [|split; [exact Ib'|split; [exact Lb'|split; [exact Pb'|split; [exact Sb'|]]]]].
  - apply (changes_within_trans _ _ m2).
    { unfold m2, m1.
      repeat (eapply changes_within_trans;
              [|apply store8_changes; intros y0 Hy; left; unfold in_block; lia]).
      apply changes_within_refl. }
    apply (changes_within_trans _ _ (bytes s3)); [exact C3|].
    apply (changes_within_weaken _ _ _ _ C').
    intros a (c & Ic & Lc & Ha).
    unfold listed in Lc. apply M3 in Lc; [|apply K].
    destruct Lc as [Lc|[_ Lc]].
    + right. exists c. auto.
    + left. assert (c = b) by (apply (chain_ptr_inj _ _ _ _ _ (hp_chain _ _ _ H)); auto).
      subst c. exact Ha.
  - split.
    + intros c. rewrite <- Live. unfold live, listed. rewrite (M3 _ _ (K c)). split.
      * intros [Ic Nc]. split; [split; [exact Ic|tauto]|].
        intros ->. apply Nc. right. auto.
      * intros [[Ic Nc] Ne]. split; [exact Ic|].
        intros [Hx|[_ Hx]]; [contradiction|]. apply Ne.
        apply (chain_ptr_inj _ _ _ _ _ (hp_chain _ _ _ H)); auto.
    + split; [exact Keep|]. split; [exact Fl'|].
      destruct Hd' as [(_ & _ & -> & ->)|Hd']; [exact Hd3|exact Hd'].
Qed.

(* the same, without the head of the list *)
Lemma wf_free (s : heap) (fl : lists) (pre post : list blk) (b : blk) :
  let bs := pre ++ b :: post in
  let y := last pre (prologue s) in
  let z := hd (epilogue s) post in
  wf s bs fl -> ~ listed fl b ->
  exists s' bs' fl' b',
    free (b_ptr b) s = Some (tt, s') /\
    wf s' bs' fl' /\ same_arena s s' /\
    changes_within (fun a => in_block b a \/ free_region bs fl a) (bytes s) (bytes s') /\
    In b' bs' /\ listed fl' b' /\
    b_ptr b' = (if b_flag y then b_ptr b else b_ptr y) /\
    b_size b' = (if b_flag y then 0 else b_size y) + b_size b +
                (if b_flag z then 0 else b_size z) /\
    (forall c, live bs' fl' c <-> live bs fl c /\ c <> b) /\
    (forall c, In c bs -> b_flag c = true -> c <> b -> In c bs') /\
    (b_flag y = false \/ b_flag z = false -> b_flag b' = false).
Proof.
  intros bs y z W Nl.
  destruct (wf_free_head s fl pre post b W Nl)
    as (s' & bs' & fl' & b' & R & W' & A & C & Ib' & Lb' & Pb' & Sb' & Live & Keep
        & Fl' & _).
  exists s', bs', fl', b'.
  repeat (split; [assumption|]). assumption.
Qed.

(** ** Allocation *)

(* the scan of a list follows its links *)
Lemma candidates_dll (s : heap) (n : nat) (p : Z) (l : list Z) :
  dll (bytes s) p l NULL ->
  (forall x, In x l -> 0 < x /\ x + 8 < wB) ->
  candidates s n (hd NULL l) = firstn n l.
Proof.
  revert p l. induction n as [|n IH]; intros p l Hd Hr; [reflexivity|].
  destruct l as [|x r]; [reflexivity|].
  destruct (Hr x (or_introl eq_refl)) as [Hx0 Hx1].
  simpl hd. simpl candidates.
  destruct (Z.eqb_spec x NULL) as [E|_]; [unfold NULL in E; lia|].
  simpl in Hd. destruct Hd as (_ & Hn & Hd).
  unfold next_freebp. rewrite wrap_small by lia. rewrite Hn.
  simpl firstn. f_equal. apply (IH x r Hd).
  intros x' Hx'. apply Hr. right. exact Hx'.
Qed.

Lemma in_firstn (n : nat) (l : list Z) (x : Z) : In x (firstn n l) -> In x l.
Proof.
  revert l. induction n as [|n IH]; intros l H; [contradiction|].
  destruct l as [|y r]; [contradiction|].
  simpl in H. destruct H as [H|H]; [left; exact H|right; apply IH, H].
Qed.

Lemma in_skipn_nth (n : nat) (l : list Z) (x : Z) :
  In x (skipn n l) -> exists j, (n <= j < length l)%nat /\ nth j l NULL = x.
Proof.
  revert n. induction l as [|y r IH]; intros n H.
  - rewrite skipn_nil in H. contradiction.
  - destruct n as [|n].
    + simpl in H. destruct H as [->|H].
      * exists 0%nat. simpl. split; [lia|reflexivity].
      * destruct (IH 0%nat H) as (j & Hj & E). exists (S j). simpl. split; [lia|exact E].
    + simpl in H. destruct (IH n H) as (j & Hj & E).
      exists (S j). simpl. split; [lia|exact E].
Qed.

(* the class of a size, by its bounds *)
Lemma search_seg_list_bounds (a : Z) :
  let k := search_seg_list a in
  0 <= k <= 13 /\
  (k = 0 -> a < 32) /\ (0 < k -> 16 * 2 ^ k <= a) /\ (k < 13 -> a < 32 * 2 ^ k).
Proof.
  unfold search_seg_list, seg_size_class1, seg_size_class2, seg_size_class3,
    seg_size_class4, seg_size_class5, seg_size_class6, seg_size_class7,
    seg_size_class8, seg_size_class9, seg_size_class10, seg_size_class11,
    seg_size_class12, seg_size_class13.
  repeat match goal with
         | |- context [if ?x <? ?y then _ else _] =>
             destruct (Z.ltb_spec x y); [cbv zeta; repeat split; intros; lia|]
         | |- context [?x >=? ?y] => destruct (Z.geb_spec x y); [|lia]; cbn [andb]
         end.
  cbv zeta; repeat split; intros; lia.
Qed.

(* a larger size is not in a smaller class *)
Lemma search_seg_list_mono (a b : Z) :
  a <= b -> search_seg_list a <= search_seg_list b.
Proof.
  intros H.
  pose proof (search_seg_list_bounds a) as (Ka & A0 & A1 & A2).
  pose proof (search_seg_list_bounds b) as (Kb & B0 & B1 & B2).
  cbv zeta in *.
  set (i := search_seg_list a) in *. set (j := search_seg_list b) in *.
  destruct (Z_le_gt_dec i j) as [|Hgt]; [assumption|exfalso].
  assert (Hi : 0 < i) by lia. assert (Hj : j < 13) by lia.
  specialize (A1 Hi). specialize (B2 Hj).
  assert (2 ^ (j + 1) <= 2 ^ i) by (apply Z.pow_le_mono_r; lia).
  rewrite Z.pow_add_r in * by lia. lia.
Qed.

(* the rounded size of a request that does not wrap *)
Lemma adjusted_size_fit (size : Z) :
  0 < size -> size + 31 < wB ->
  32 <= adjusted_size size /\ adjusted_size size mod 16 = 0 /\
  size + 16 <= adjusted_size size /\ adjusted_size size < size + 32 /\
  adjusted_size size < wB.
Proof.
  intros H0 H1. unfold adjusted_size, HEADER_SIZE, MIN_BLOCK_SIZE.
  destruct (Z.leb_spec size (8 * 2)) as [Hs|Hs].
  - repeat split; try lia.
  - unfold align, ALIGNMENT.
    rewrite (wrap_small (size + 8 * 2)) by lia.
    rewrite (wrap_small (size + 8 * 2 + 16 - 1)) by lia.
    pose proof (Z.div_mod (size + 8 * 2 + 16 - 1) 16 ltac:(lia)) as Hq.
    pose proof (Z.mod_pos_bound (size + 8 * 2 + 16 - 1) 16 ltac:(lia)) as Hr.
    rewrite wrap_small by lia.
    repeat split; try lia.
    rewrite Z.mul_comm. apply Z.mod_mul. lia.
Qed.

Lemma wf_place_in (s : heap) (bs : list blk) (fl : lists) (b : blk) (nb asize : Z) :
  wf s bs fl -> In b bs -> listed fl b -> settled s bs nb ->
  32 <= asize -> asize mod 16 = 0 -> asize <= b_size b ->
  exists s' bs' fl' b1,
    place nb (b_ptr b) asize s = Some (b_ptr b, s') /\
    wf s' bs' fl' /\ same_arena s s' /\
    changes_within (free_region bs fl) (bytes s) (bytes s') /\
    In b1 bs' /\ b_ptr b1 = b_ptr b /\ asize <= b_size b1 /\ b_size b1 <= b_size b /\
    b_flag b1 = true /\
    (forall c, live bs' fl' c <-> live bs fl c \/ c = b1) /\
    (forall c, In c bs -> b_flag c = true -> c <> b -> In c bs') /\
    (forall c, live bs fl c -> c <> b1).
Proof.
  intros W Ib. destruct (in_split _ _ Ib) as (pre & post & ->).
  apply (wf_place s fl pre post b nb asize W).
Qed.

(* the same, with the sizes after the split *)
Lemma wf_place_in_split (s : heap) (bs : list blk) (fl : lists) (b : blk) (nb asize : Z) :
  wf s bs fl -> In b bs -> listed fl b -> settled s bs nb ->
  32 <= asize -> asize mod 16 = 0 -> asize <= b_size b ->
  exists s' bs' fl' b1,
    place nb (b_ptr b) asize s = Some (b_ptr b, s') /\
    wf s' bs' fl' /\ same_arena s s' /\
    changes_within (free_region bs fl) (bytes s) (bytes s') /\
    In b1 bs' /\ b_ptr b1 = b_ptr b /\ asize <= b_size b1 /\ b_size b1 <= b_size b /\
    b_flag b1 = true /\
    (forall c, live bs' fl' c <-> live bs fl c \/ c = b1) /\
    (forall c, In c bs -> b_flag c = true -> c <> b -> In c bs') /\
    (forall c, live bs fl c -> c <> b1) /\
    b_size b1 = (if b_size b - asize >=? MIN_BLOCK_SIZE then asize else b_size b) /\
    (32 <= b_size b - asize ->
     exists b2, In b2 bs' /\ listed fl' b2 /\ b_ptr b2 = b_ptr b + asize /\
                b_size b2 = b_size b - asize /\ b_flag b2 = false).
Proof.
  intros W Ib. destruct (in_split _ _ Ib) as (pre & post & ->).
  apply (wf_place_split s fl pre post b nb asize W).
Qed.

Lemma max_fit (a : Z) :
  32 <= a -> a mod 16 = 0 ->
  a <= max a EXTEND_SIZE /\ 32 <= max a EXTEND_SIZE /\ max a EXTEND_SIZE mod 16 = 0.
Proof.
  intros H Hm. unfold max, EXTEND_SIZE.
  destruct (Z.gtb_spec a 4096); repeat split; try lia; try assumption.
Qed.

(* what changes in the listed blocks and beyond the last block leaves the
   live blocks as they are *)
Lemma keeps_intro (s : heap) (bs : list blk) (fl : lists) (m m' : store) :
  hp s bs fl ->
  changes_within (fun a => mem_start_brk s + mem_brk s - 8 <= a \/ free_region bs fl a)
    m m' ->
  keeps bs fl m m'.
Proof.
  intros H C c a [Ic Nc] Ha. apply C. intros [Hge|(d & Id & Ld & Hd)].
  - pose proof (hp_in _ _ _ H _ Ic). unfold in_block in Ha. lia.
  - pose proof (hp_in _ _ _ H _ Ic). pose proof (hp_in _ _ _ H _ Id).
    destruct (chain_sep _ _ _ _ _ (hp_chain _ _ _ H) Ic Id) as [->|[Hs|Hs]];
      [contradiction| |]; unfold in_block in *; lia.
Qed.

Lemma keeps_trans (bs bs' : list blk) (fl fl' : lists) (m1 m2 m3 : store) :
  keeps bs fl m1 m2 -> keeps bs' fl' m2 m3 ->
  (forall c, live bs fl c -> live bs' fl' c) ->
  keeps bs fl m1 m3.
Proof.
  intros K1 K2 L c a Hc Ha. rewrite (K2 c a (L c Hc) Ha). apply (K1 c a Hc Ha).
Qed.

(** Allocation in a well-formed heap, for a request whose rounding does
    not wrap: either the search finds nothing and the provider refuses the
    growth, and the call faults; or the call returns the payload address
    of a block that was not live before, large enough for the request, in
    a well-formed heap whose live blocks are the former ones and the new
    one.  The block has the rounded size of the request and less than 32
    bytes more, and the break is where it was or has moved by the growth
    of one request; the call faults or moves the break only when the
    placement search decides for a growth. *)
Lemma wf_malloc_cases_tight (s : heap) (bs : list blk) (fl : lists) (nb size : Z) :
  wf s bs fl -> settled s bs nb ->
  0 < size -> size + 31 < wB ->
  (mem_max s < mem_brk s + max (adjusted_size size) EXTEND_SIZE /\
   malloc nb size s = None /\
   placement_search s (adjusted_size size) = Grow (max (adjusted_size size) EXTEND_SIZE)) \/
  exists p s', malloc nb size s = Some (p, s') /\ malloc_post s bs fl size p s' /\
               adjusted_size size <= block_size s' p < adjusted_size size + 32 /\
               (mem_brk s' = mem_brk s \/
                (placement_search s (adjusted_size size) =
                   Grow (max (adjusted_size size) EXTEND_SIZE) /\
                 mem_brk s' = mem_brk s + max (adjusted_size size) EXTEND_SIZE)).
Proof.
  intros W Hnb Hs0 Hs1.
  pose proof W as [H Hf].
  destruct (adjusted_size_fit size Hs0 Hs1) as (A1 & A2 & A3 & A4 & A5).
  set (asize := adjusted_size size) in *.
  destruct (max_fit asize A1 A2) as (X1 & X2 & X3).
  pose proof (hp_arena _ _ _ H) as [Alo Ahi].
  assert (K : forall c, 0 <= search_seg_list (b_size c) < 14)
    by (intros c; pose proof (search_seg_list_range (b_size c)); lia).
  pose proof (search_seg_list_range asize) as Hk.
  set (k := search_seg_list asize) in *.
  assert (Hk14 : 0 <= k < 14) by lia.
  assert (Hmem : forall j x, 0 <= j < 14 -> In x (fl j) ->
            exists c, In c bs /\ b_ptr c = x /\ search_seg_list (b_size c) = j /\
                      listed fl c /\ block_size s x = b_size c /\
                      0 < x /\ x + 8 < wB /\ scannable s x).
  { intros j x Hj Hx. destruct (hp_member _ _ _ H j x Hj Hx) as (c & Ic & Ec & Cc).
    pose proof (hp_in _ _ _ H _ Ic) as (C1 & C2 & C3 & C4 & C5).
    destruct (hp_tagged _ _ _ H _ Ic) as [T1 _].
    exists c. subst x. split; [exact Ic|]. split; [reflexivity|]. split; [exact Cc|].
    split; [unfold listed; rewrite Cc; exact Hx|].
    split.
    { unfold block_size. rewrite p_to_header_eq by lia. rewrite T1.
      apply tagw_size; lia. }
    split; [lia|]. split; [lia|]. split.
    - rewrite p_to_header_eq by lia. apply in_arena_intro; lia.
    - unfold next_freebp. rewrite wrap_small by lia. apply in_arena_intro; lia. }
  (* placing in a listed block that is large enough *)
  assert (Place : forall c, In c bs -> listed fl c -> asize <= b_size c ->
    exists s', place nb (b_ptr c) asize s = Some (b_ptr c, s') /\
               malloc_post s bs fl size (b_ptr c) s' /\
               asize <= block_size s' (b_ptr c) < asize + 32 /\ mem_brk s' = mem_brk s).
  { intros c Ic Lc Hfit.
    destruct (wf_place_in_split s bs fl c nb asize W Ic Lc Hnb A1 A2 Hfit)
      as (s' & bs' & fl' & b1 & R & W' & (E1 & E2 & E3) & C' & I1 & P1 & S1 & S2 & F1
          & Live & Keep & Fresh & Sz & _).
    exists s'. split; [exact R|].
    split;
      [|split; [|exact E3];
        rewrite <- P1; destruct W' as [H' _];
        rewrite (block_size_live s' bs' fl' b1 H' I1), Sz; unfold MIN_BLOCK_SIZE;
        destruct (Z.geb_spec (b_size c - asize) 32); lia].
    exists bs', fl', b1.
    split; [symmetry; exact P1|]. split; [exact W'|].
    split; [exact E1|]. split; [exact E2|]. split; [lia|].
    split; [apply (keeps_intro s _ _ _ _ H);
            apply (changes_within_weaken _ _ _ _ C'); intros a Ha; right; exact Ha|].
    split; [exact I1|]. split; [exact F1|]. split; [lia|].
    split; [exact Live|]. split; [exact Fresh|].
    intros x Ix Fx Nx. apply Keep; auto. intros ->. apply Nx. symmetry. exact P1. }
  assert (Hcand : candidates s 32 (nth (Z.to_nat k) (seg_list s) NULL) = firstn 32 (fl k)).
  { rewrite (hp_heads _ _ _ H k Hk14).
    apply (candidates_dll s 32 NULL (fl k) (hp_links _ _ _ H k Hk14)).
    intros x Hx. destruct (Hmem k x Hk14 Hx) as (c & _ & _ & _ & _ & _ & P & Q & _). auto. }
  rewrite (malloc_search_eq nb size s); fold asize; fold k.
  2: lia.
  2: apply (hp_len _ _ _ H).
  2: { rewrite Hcand. apply Forall_forall. intros x Hx. apply in_firstn in Hx.
       destruct (Hmem k x Hk14 Hx) as (c & _ & _ & _ & _ & _ & _ & _ & Sc). exact Sc. }
  unfold placement_search. fold k. rewrite Hcand.
  destruct (find (fun bp => asize <=? block_size s bp) (firstn 32 (fl k))) as [bp|] eqn:Efit.
  - (* a block of the class fits *)
    apply find_some in Efit. destruct Efit as [Hx Hfit]. apply in_firstn in Hx.
    destruct (Hmem k bp Hk14 Hx) as (c & Ic & Ec & _ & Lc & Bs & _).
    rewrite Bs in Hfit. apply Z.leb_le in Hfit.
    destruct (Place c Ic Lc Hfit) as (s' & R & Post & Tight & Br).
    right. exists (b_ptr c), s'.
    split; [|split; [exact Post|split; [exact Tight|left; exact Br]]].
    rewrite <- Ec. step_by ltac:(exact R). reflexivity.
  - destruct (find (fun h => negb (h =? NULL)) (skipn (S (Z.to_nat k)) (seg_list s)))
      as [h|] eqn:Eesc.
    + (* the head of a larger class *)
      apply find_some in Eesc. destruct Eesc as [Hx Hne].
      apply in_skipn_nth in Hx. destruct Hx as (j & Hj & Ej).
      rewrite (hp_len _ _ _ H) in Hj.
      pose proof (hp_heads _ _ _ H (Z.of_nat j) ltac:(lia)) as Hh.
      rewrite Nat2Z.id, Ej in Hh.
      assert (Hin : In h (fl (Z.of_nat j))).
      { destruct (fl (Z.of_nat j)) as [|x r]; simpl in Hh.
        - rewrite Hh in Hne. cbv in Hne. discriminate.
        - left. symmetry. exact Hh. }
      destruct (Hmem (Z.of_nat j) h ltac:(lia) Hin) as (c & Ic & Ec & Cc & Lc & _).
      assert (Hfit : asize <= b_size c).
      { destruct (Z_le_gt_dec asize (b_size c)) as [|Hgt]; [assumption|exfalso].
        pose proof (search_seg_list_mono (b_size c) asize ltac:(lia)). fold k in H0. lia. }
      destruct (Place c Ic Lc Hfit) as (s' & R & Post & Tight & Br).
      right. exists (b_ptr c), s'.
      split; [|split; [exact Post|split; [exact Tight|left; exact Br]]].
      rewrite <- Ec. exact R.
    + (* the arena grows, or cannot *)
      destruct (Z_le_gt_dec (mem_brk s + max asize EXTEND_SIZE) (mem_max s))
        as [Hroom|Hfull].
      2: { left. split; [lia|]. split; [|reflexivity].
           assert (Hal : align (max asize EXTEND_SIZE) = max asize EXTEND_SIZE).
           { apply align_id; [lia| |exact X3].
             unfold max, EXTEND_SIZE. pose proof (Z.div_mod asize 16 ltac:(lia)).
             destruct (Z.gtb_spec asize 4096); unfold wB in *; lia. }
           rewrite (bind_some _ _ _ _ _
                      (extend_heap_exhausted (max asize EXTEND_SIZE) s
                         ltac:(rewrite Hal; lia))).
           apply place_null_faults. lia. }
      destruct (wf_extend s bs fl (max asize EXTEND_SIZE) (hp_open_intro _ _ _ H) Hf X2 X3 Hroom)
        as (s1 & bs1 & fl1 & b' & Rx & W1 & Ib' & Lb' & Sb' & G1 & G2 & G3 & C1 & Live1 & Keep1).
      assert (Hnb1 : settled s1 bs1 nb).
      { destruct Hnb as [->|(c & Ic & Fc & Ec)]; [left; rewrite G1; reflexivity|].
        right. exists c. auto. }
      destruct (wf_place_in_split s1 bs1 fl1 b' nb asize W1 Ib' Lb' Hnb1 A1 A2 ltac:(lia))
        as (s' & bs' & fl' & b1 & R & W' & (E1 & E2 & E3) & C' & I1 & P1 & S1 & S2 & F1
            & Live & Keep & Fresh & Sz & _).
      right. exists (b_ptr b'), s'.
      split; [step_by ltac:(exact Rx); exact R|].
      split;
        [|split; [|right; split; [reflexivity|lia]];
          rewrite <- P1; destruct W' as [H' _];
          rewrite (block_size_live s' bs' fl' b1 H' I1), Sz; unfold MIN_BLOCK_SIZE;
          destruct (Z.geb_spec (b_size b' - asize) 32); lia].
      exists bs', fl', b1.
      split; [symmetry; exact P1|].
      split; [exact W'|]. split; [lia|]. split; [lia|]. split; [lia|].
      split.
      { apply (keeps_trans bs bs1 fl fl1 _ (bytes s1)).
        - apply (keeps_intro s _ _ _ _ H). exact C1.
        - destruct W1 as [H1 _]. apply (keeps_intro s1 _ _ _ _ H1).
          apply (changes_within_weaken _ _ _ _ C'). intros a Ha; right; exact Ha.
        - intros c Hc. apply Live1. exact Hc. }
      split; [exact I1|]. split; [exact F1|]. split; [lia|].
      split.
      { intros c. rewrite Live. rewrite <- Live1. reflexivity. }
      split.
      { intros c Hc. apply Fresh. apply Live1. exact Hc. }
      intros c Ic Fc Nc. apply Keep; [apply Keep1; assumption|exact Fc|].
      intros ->. apply Nc. symmetry. exact P1.
Qed.

(* the same, without the bounds on the size and on the break *)
Lemma wf_malloc_cases (s : heap) (bs : list blk) (fl : lists) (nb size : Z) :
  wf s bs fl -> settled s bs nb ->
  0 < size -> size + 31 < wB ->
  (mem_max s < mem_brk s + max (adjusted_size size) EXTEND_SIZE /\
   malloc nb size s = None) \/
  exists p s', malloc nb size s = Some (p, s') /\ malloc_post s bs fl size p s'.
Proof.
  intros W Hnb H0 H1.
  destruct (wf_malloc_cases_tight s bs fl nb size W Hnb H0 H1)
    as [(Hfull & E & _)|(p & s' & R & Post & _)]; [left; split; assumption|].
  right. exists p, s'. split; [exact R|exact Post].
Qed.

(* the call returns when the arena can grow *)
Lemma wf_malloc (s : heap) (bs : list blk) (fl : lists) (nb size : Z) :
  wf s bs fl -> settled s bs nb ->
  0 < size -> size + 31 < wB ->
  mem_brk s + max (adjusted_size size) EXTEND_SIZE <= mem_max s ->
  exists p s', malloc nb size s = Some (p, s') /\ malloc_post s bs fl size p s'.
Proof.
  intros W Hnb H0 H1 Hroom.
  destruct (wf_malloc_cases s bs fl nb size W Hnb H0 H1) as [[Hfull _]|Hok];
    [lia|exact Hok].
Qed.

(* what a call that returns has done *)
Lemma wf_malloc_ret (s : heap) (bs : list blk) (fl : lists) (nb size p : Z) (s' : heap) :
  wf s bs fl -> settled s bs nb ->
  0 < size -> size + 31 < wB ->
  malloc nb size s = Some (p, s') -> malloc_post s bs fl size p s'.
Proof.
  intros W Hnb H0 H1 R.
  destruct (wf_malloc_cases s bs fl nb size W Hnb H0 H1) as [[_ E]|(p' & s'' & E & Post)].
  - rewrite E in R. discriminate.
  - rewrite E in R. injection R as -> ->. exact Post.
Qed.

(** ** Initialisation *)

Lemma clear_seg_list_run (n : nat) (i : Z) (s : heap) :
  length (seg_list s) = 14%nat -> 0 <= i -> i + Z.of_nat n <= 14 ->
  exists l,
    clear_seg_list n i s = Some (tt, set_seg_list s l) /\ length l = 14%nat /\
    (forall j, i <= j < i + Z.of_nat n -> nth (Z.to_nat j) l NULL = NULL) /\
    (forall j, 0 <= j < i -> nth (Z.to_nat j) l NULL = nth (Z.to_nat j) (seg_list s) NULL).
Proof.
  revert i s. induction n as [|n IH]; intros i s Hlen Hi Hn.
  - exists (seg_list s). split; [destruct s; reflexivity|]. split; [exact Hlen|].
    split; [intros j Hj; lia|reflexivity].
  - simpl clear_seg_list.
    set (s1 := set_seg_list s (list_set (seg_list s) (Z.to_nat i) NULL)).
    assert (Hlen1 : length (seg_list s1) = 14%nat)
      by (unfold s1; cbn [seg_list set_seg_list]; rewrite list_set_length; exact Hlen).
    destruct (IH (i + 1) s1 Hlen1 ltac:(lia) ltac:(lia)) as (l & R & Ll & Z1 & Z2).
    exists l. split.
    { step_by ltac:(apply seg_set_ok; [lia|exact Hlen]). exact R. }
    split; [exact Ll|]. split.
    + intros j Hj. destruct (Z.eq_dec j i) as [->|Hne]; [|apply Z1; lia].
      rewrite Z2 by lia. unfold s1; cbn [seg_list set_seg_list].
      rewrite nth_list_set by lia. rewrite Nat.eqb_refl. reflexivity.
    + intros j Hj. rewrite Z2 by lia. unfold s1; cbn [seg_list set_seg_list].
      rewrite nth_list_set by lia.
      destruct (Nat.eqb_spec (Z.to_nat j) (Z.to_nat i)); [lia|reflexivity].
Qed.

(** mm_init on an arena that has granted nothing yet and can grant the
    prologue and the first block: it returns true and leaves a
    well-formed heap in which no block is live. *)
Lemma wf_mm_init (s : heap) :
  mem_brk s = 0 -> 0 < mem_start_brk s -> mem_start_brk s mod 16 = 0 ->
  mem_start_brk s + mem_max s < wB -> 32 + 4096 <= mem_max s ->
  length (seg_list s) = 14%nat ->
  exists s' bs fl,
    mm_init s = Some (true, s') /\ wf s' bs fl /\
    mem_start_brk s' = mem_start_brk s /\ mem_max s' = mem_max s /\
    (forall c, ~ live bs fl c).
Proof.
  intros Hbrk Hlo Hal Hmax Hcap Hlen.
  destruct (clear_seg_list_run 14 0 s Hlen ltac:(lia) ltac:(lia)) as (l & Rc & Ll & Z1 & _).
  set (lo := mem_start_brk s) in *.
  assert (Elo : lo = mem_start_brk s) by reflexivity. clearbody lo.
  set (m1 := store8 (bytes s) lo 0).
  set (m2 := store8 m1 (lo + 8) 17).
  set (m3 := store8 m2 (lo + 16) 17).
  set (s3 := mkHeap lo (mem_max s) 32 m3 l lo).
  assert (Run : mm_init s =
                (r <- extend_heap EXTEND_SIZE ;;
                 if r =? NULL then ret false else ret true) s3).
  { unfold mm_init. unfold SEG_LIST_SIZE. change (Z.to_nat 14) with 14%nat.
    step_by ltac:(exact Rc).
    assert (Sb : mem_sbrk MIN_BLOCK_SIZE (set_seg_list s l) =
                 Some (lo, set_brk (set_seg_list s l) 32)).
    { unfold mem_sbrk, MIN_BLOCK_SIZE. cbn [set_seg_list mem_brk mem_max mem_start_brk].
      rewrite Hbrk, <- Elo.
      destruct (Z.leb_spec (0 + 32) (mem_max s)); [|lia].
      replace (lo + 0) with lo by lia. reflexivity. }
    step_by ltac:(exact Sb).
    unfold bind at 1. cbv beta iota.
    destruct (Z.eqb_spec lo NULL) as [E|_]; [unfold NULL in E; lia|].
    unfold HEADER_SIZE, FOOTER_SIZE.
    rewrite (wrap_small (lo + 8)) by lia. rewrite (wrap_small (lo + 2 * 8)) by lia.
    step_by ltac:(apply put_run;
                  cbn [set_heap_list_ptr set_brk set_seg_list mem_start_brk mem_brk]; lia).
    step_by ltac:(apply put_run;
                  cbn [set_bytes set_heap_list_ptr set_brk set_seg_list
                         mem_start_brk mem_brk]; lia).
    step_by ltac:(apply put_run;
                  cbn [set_bytes set_heap_list_ptr set_brk set_seg_list
                         mem_start_brk mem_brk]; lia).
    change (pack (2 * 8) 1) with 17.
    unfold s3, m3, m2, m1, set_bytes, set_heap_list_ptr, set_brk, set_seg_list.
    cbn [mem_start_brk mem_max mem_brk bytes seg_list heap_list_ptr].
    rewrite <- Elo. reflexivity. }
  assert (H3 : hp_open s3 [] (fun _ => [])).
  { unfold hp_open, stamp_epilogue.
    constructor; unfold s3;
      cbn [set_bytes mem_start_brk mem_max mem_brk bytes seg_list].
    - split; assumption.
    - lia.
    - exact Ll.
    - unfold m3, m2. split.
      + rewrite !load8_store8_other by lia. apply load8_store8_same. unfold wB; lia.
      + rewrite load8_store8_other by lia. apply load8_store8_same. unfold wB; lia.
    - simpl. reflexivity.
    - apply load8_store8_same. unfold wB; lia.
    - constructor.
    - intros k Hk. simpl. apply Z1. lia.
    - intros k Hk. exact I.
    - intros k x Hk [].
    - intros k Hk. constructor. }
  destruct (wf_extend s3 [] (fun _ => []) EXTEND_SIZE H3) as
    (s' & bs & fl & b' & Rx & W & Ib & Lb & Sb & G1 & G2 & G3 & C & Live & Keep).
  { intros c []. }
  { unfold EXTEND_SIZE. lia. }
  { reflexivity. }
  { unfold s3, EXTEND_SIZE. cbn [mem_brk mem_max]. lia. }
  exists s', bs, fl.
  split.
  { rewrite Run. step_by ltac:(exact Rx).
    destruct W as [H _]. pose proof (hp_in _ _ _ H _ Ib) as Hb.
    rewrite G1 in Hb. unfold s3 in Hb. cbn [mem_start_brk] in Hb.
    destruct (Z.eqb_spec (b_ptr b') NULL) as [E|_]; [unfold NULL in E; lia|].
    reflexivity. }
  split; [exact W|].
  split; [rewrite G1; unfold s3; cbn [mem_start_brk]; reflexivity|].
  split; [rewrite G2; reflexivity|].
  intros c Hc. apply Live in Hc. destruct Hc as [[] _].
Qed.

(** ** Writes of the caller, zeroed allocation and reallocation *)

(* the payload of a block: what lies between its header and its footer *)
Lemma wf_write (s : heap) (bs : list blk) (fl : lists) (c : blk) (m' : store) :
  wf s bs fl -> live bs fl c ->
  changes_within (fun a => b_ptr c <= a < b_ptr c + b_size c - 16) (bytes s) m' ->
  wf (set_bytes s m') bs fl.
Proof.
  intros [H Hf] [Ic Nc] Hch. split; [|exact Hf].
  destruct (in_split _ _ Ic) as (pre & post & E). subst bs.
  pose proof (hp_in _ _ _ H _ Ic) as (C1 & C2 & C3 & C4 & C5).
  destruct (hp_tagged _ _ _ H _ Ic) as [T1 T2].
  pose proof (hp_chain _ _ _ H) as Hc.
  apply chain_app in Hc. destruct Hc as (p0 & Hc1 & Hc2).
  simpl in Hc2. destruct Hc2 as (Ep0 & _ & _ & Hc3). subst p0.
  apply (hp_retag s pre [c] [c] post fl m' (b_ptr c) (b_ptr c + b_size c)).
  - exact H.
  - exact Hc1.
  - exact Hc3.
  - simpl. repeat split; lia.
  - intros x [<-|[]]. exact Nc.
  - apply (changes_within_weaken _ _ _ _ Hch). intros a Ha. lia.
  - constructor; [|constructor]. split.
    + rewrite <- T1. apply (load8_changes _ _ _ _ Hch). intros a Ha. lia.
    + rewrite <- T2. apply (load8_changes _ _ _ _ Hch). intros a Ha. lia.
Qed.

(* what changes in a block and in the listed blocks leaves the other
   live blocks as they are *)
Lemma keeps_but (s : heap) (bs : list blk) (fl : lists) (b : blk) (m m' : store) :
  hp s bs fl -> In b bs ->
  changes_within (fun a => in_block b a \/ free_region bs fl a) m m' ->
  forall c a, live bs fl c -> c <> b -> in_block c a -> m' a = m a.
Proof.
  intros H Ib C c a [Ic Nc] Ne Ha. apply C.
  pose proof (hp_in _ _ _ H _ Ic).
  intros [Hb|(d & Id & Ld & Hd)].
  - pose proof (hp_in _ _ _ H _ Ib).
    destruct (chain_sep _ _ _ _ _ (hp_chain _ _ _ H) Ic Ib) as [->|[Hs|Hs]];
      [contradiction| |]; unfold in_block in *; lia.
  - pose proof (hp_in _ _ _ H _ Id).
    destruct (chain_sep _ _ _ _ _ (hp_chain _ _ _ H) Ic Id) as [->|[Hs|Hs]];
      [contradiction| |]; unfold in_block in *; lia.
Qed.

(** Zeroed allocation in a well-formed heap, for a product that does not
    wrap, when the allocation in it returns: the payload returned holds
    zeros. *)
Lemma wf_calloc (s : heap) (bs : list blk) (fl : lists) (nb nmemb size : Z)
      (p1 : Z) (s1 : heap) :
  wf s bs fl -> settled s bs nb ->
  0 < size * nmemb -> size * nmemb + 31 < wB ->
  malloc nb (size * nmemb) s = Some (p1, s1) ->
  exists s' bs' fl' b1,
    calloc nb nmemb size s = Some (b_ptr b1, s') /\
    wf s' bs' fl' /\
    mem_start_brk s' = mem_start_brk s /\ mem_max s' = mem_max s /\
    keeps bs fl (bytes s) (bytes s') /\
    In b1 bs' /\ b_ptr b1 <> NULL /\ size * nmemb + 16 <= b_size b1 /\
    (forall i, 0 <= i < size * nmemb -> byte_at (bytes s') (b_ptr b1 + i) = 0) /\
    (forall c, live bs' fl' c <-> live bs fl c \/ c = b1) /\
    (forall c, live bs fl c -> c <> b1).
Proof.
  intros W Hnb H0 H1 R.
  destruct (wf_malloc_ret s bs fl nb (size * nmemb) p1 s1 W Hnb H0 H1 R)
    as (bs1 & fl1 & b1 & -> & W1 & E1 & E2 & E3 & Kp & I1 & F1 & S1 & Live & Fresh & _).
  pose proof W1 as [Hh1 _].
  pose proof (hp_in _ _ _ Hh1 _ I1) as (C1 & C2 & C3 & C4 & C5).
  pose proof (hp_arena _ _ _ Hh1) as [Alo Ahi].
  set (n := size * nmemb) in *.
  set (m' := fill_bytes (bytes s1) (b_ptr b1) 0 n).
  assert (L1 : live bs1 fl1 b1) by (apply Live; right; reflexivity).
  assert (Hch : changes_within (fun a => b_ptr b1 <= a < b_ptr b1 + b_size b1 - 16)
                  (bytes s1) m').
  { intros a Ha. unfold m', fill_bytes.
    destruct (Z.leb_spec (b_ptr b1) a), (Z.ltb_spec a (b_ptr b1 + n));
      cbn [andb]; try reflexivity. lia. }
  exists (set_bytes s1 m'), bs1, fl1, b1.
  split.
  { unfold calloc. cbv zeta. fold n. rewrite (wrap_small n) by (unfold n; lia).
    step_by ltac:(exact R).
    destruct (Z.eqb_spec (b_ptr b1) NULL) as [E|_]; [unfold NULL in E; lia|].
    cbn [negb].
    assert (Ms : memset (b_ptr b1) 0 n s1 = Some (tt, set_bytes s1 m')).
    { unfold memset.
      replace (in_arena s1 (b_ptr b1) n) with true
        by (symmetry; apply in_arena_intro; lia).
      rewrite orb_true_r. reflexivity. }
    step_by ltac:(exact Ms). reflexivity. }
  split; [apply (wf_write s1 bs1 fl1 b1 m' W1 L1 Hch)|].
  split; [exact E1|]. split; [exact E2|].
  split.
  { intros c a Hc Ha. cbn [bytes set_bytes].
    rewrite <- (Kp c a Hc Ha).
    assert (Lc : live bs1 fl1 c) by (apply Live; left; exact Hc).
    refine (keeps_but s1 bs1 fl1 b1 (bytes s1) m' Hh1 I1 _ c a Lc _ Ha).
    - apply (changes_within_weaken _ _ _ _ Hch). intros x Hx. left.
      unfold in_block. lia.
    - intros ->. apply (Fresh b1 Hc). reflexivity. }
  split; [exact I1|]. split; [unfold NULL; lia|]. split; [exact S1|].
  split; [|split; [exact Live|exact Fresh]].
  intros i Hi. cbn [bytes set_bytes]. unfold byte_at, m', fill_bytes.
  destruct (Z.leb_spec (b_ptr b1) (b_ptr b1 + i)), (Z.ltb_spec (b_ptr b1 + i) (b_ptr b1 + n));
    cbn [andb]; try lia. reflexivity.
Qed.

(** Reallocation of a live block in a well-formed heap, for a request
    whose rounding does not wrap, when the allocation in it returns: the
    new block holds the first
    min(size, capacity) bytes of the old payload, the old block is freed,
    and the other live blocks are as they were. *)
Lemma wf_realloc (s : heap) (bs : list blk) (fl : lists) (b : blk) (nb size : Z)
      (p1 : Z) (s1 : heap) :
  wf s bs fl -> live bs fl b -> settled s bs nb ->
  0 < size -> size + 31 < wB ->
  malloc nb size s = Some (p1, s1) ->
  exists s' bs' fl' b1,
    realloc nb (b_ptr b) size s = Some (b_ptr b1, s') /\
    wf s' bs' fl' /\
    mem_start_brk s' = mem_start_brk s /\ mem_max s' = mem_max s /\
    In b1 bs' /\ b_ptr b1 <> NULL /\ size + 16 <= b_size b1 /\
    (forall i, 0 <= i < Z.min size (b_size b - 16) ->
       bytes s' (b_ptr b1 + i) = bytes s (b_ptr b + i)) /\
    (forall c, live bs' fl' c <-> (live bs fl c /\ c <> b) \/ c = b1) /\
    (forall c a, live bs fl c -> c <> b -> in_block c a -> bytes s' a = bytes s a) /\
    (forall c, live bs fl c -> c <> b1).
Proof.
  intros W Lb Hnb H0 H1 R.
  destruct (wf_malloc_ret s bs fl nb size p1 s1 W Hnb H0 H1 R)
    as (bs1 & fl1 & b1 & -> & W1 & E1 & E2 & E3 & Kp & I1 & F1 & S1 & Live & Fresh & _).
  pose proof W as [Hh _]. pose proof W1 as [Hh1 _].
  pose proof (hp_in _ _ _ Hh1 _ I1) as (C1 & C2 & C3 & C4 & C5).
  pose proof (hp_arena _ _ _ Hh1) as [Alo Ahi].
  assert (Lb1 : live bs1 fl1 b) by (apply Live; left; exact Lb).
  assert (L1 : live bs1 fl1 b1) by (apply Live; right; reflexivity).
  assert (Nbb : b <> b1) by (apply Fresh; exact Lb).
  destruct Lb1 as [Ib1 Nb1].
  pose proof (hp_in _ _ _ Hh1 _ Ib1) as (B1 & B2 & B3 & B4 & B5).
  destruct (rd_block _ _ _ Hh1 b Ib1) as (GS & _).
  set (n := min size (wrap (b_size b - HEADER_SIZE))).
  assert (Hn : 0 < n /\ n <= size /\ n <= b_size b - 8 /\ Z.min size (b_size b - 16) <= n).
  { unfold n, min, HEADER_SIZE. rewrite wrap_small by lia.
    destruct (Z.ltb_spec size (b_size b - 8)); lia. }
  set (m2 := copy_bytes (bytes s1) (b_ptr b1) (b_ptr b) n).
  assert (Hch : changes_within (fun a => b_ptr b1 <= a < b_ptr b1 + b_size b1 - 16)
                  (bytes s1) m2).
  { intros a Ha. unfold m2, copy_bytes.
    destruct (Z.leb_spec (b_ptr b1) a), (Z.ltb_spec a (b_ptr b1 + n));
      cbn [andb]; try reflexivity. lia. }
  pose proof (wf_write s1 bs1 fl1 b1 m2 W1 L1 Hch) as W2.
  destruct (in_split _ _ Ib1) as (pre & post & Ebs).
  rewrite Ebs in W2, Hh1, L1, Live, I1, Ib1.
  destruct (wf_free (set_bytes s1 m2) fl1 pre post b W2 Nb1)
    as (s' & bs' & fl' & b' & Rf & W' & (G1 & G2 & G3) & Cf & _ & _ & _ & _ & Live' & _).
  exists s', bs', fl', b1.
  assert (L1' : live bs' fl' b1).
  { apply Live'. split; [exact L1|]. intros E. apply Nbb. symmetry. exact E. }
  assert (Kf : forall c a, live (pre ++ b :: post) fl1 c -> c <> b -> in_block c a ->
                           bytes s' a = m2 a).
  { destruct W2 as [Hh2 _].
    apply (keeps_but (set_bytes s1 m2) _ fl1 b m2 (bytes s') Hh2 Ib1 Cf). }
  split.
  { unfold realloc.
    pose proof (hp_in _ _ _ Hh _ (proj1 Lb)) as Hb.
    destruct (Z.eqb_spec (b_ptr b) NULL) as [E|_];
      [pose proof (hp_arena _ _ _ Hh); unfold NULL in E; lia|].
    destruct (Z.eqb_spec size 0) as [E|_]; [lia|].
    step_by ltac:(exact R). step_by ltac:(exact GS). fold n.
    assert (Mv : memmove (b_ptr b1) (b_ptr b) n s1 = Some (tt, set_bytes s1 m2)).
    { unfold memmove.
      replace (in_arena s1 (b_ptr b1) n) with true
        by (symmetry; apply in_arena_intro; lia).
      replace (in_arena s1 (b_ptr b) n) with true
        by (symmetry; apply in_arena_intro; lia).
      rewrite orb_true_r. reflexivity. }
    step_by ltac:(exact Mv). step_by ltac:(exact Rf). reflexivity. }
  split; [exact W'|].
  split; [rewrite G1; exact E1|]. split; [rewrite G2; exact E2|].
  split; [apply L1'|]. split; [unfold NULL; lia|]. split; [exact S1|].
  split; [|split; [|split; [|exact Fresh]]].
  - intros i Hi.
    rewrite (Kf b1 (b_ptr b1 + i) L1); [| |unfold in_block; lia].
    2: { intros E. apply Nbb. symmetry. exact E. }
    unfold m2, copy_bytes.
    destruct (Z.leb_spec (b_ptr b1) (b_ptr b1 + i)),
      (Z.ltb_spec (b_ptr b1 + i) (b_ptr b1 + n)); cbn [andb]; try lia.
    replace (b_ptr b + (b_ptr b1 + i - b_ptr b1)) with (b_ptr b + i) by lia.
    apply (Kp b (b_ptr b + i) Lb). unfold in_block. lia.
  - intros c. rewrite Live'. rewrite Live. split.
    + intros [[Hc|Hc] Ne]; [left; auto|right; exact Hc].
    + intros [[Hc Ne]| ->]; [split; [left; exact Hc|exact Ne]|].
      split; [right; reflexivity|]. intros E. apply Nbb. symmetry. exact E.
  - intros c a Hc Ne Ha.
    assert (Lc : live (pre ++ b :: post) fl1 c) by (apply Live; left; exact Hc).
    rewrite (Kf c a Lc Ne Ha).
    rewrite <- (Kp c a Hc Ha).
    refine (keeps_but s1 _ fl1 b1 (bytes s1) m2 Hh1 I1 _ c a Lc _ Ha).
    + apply (changes_within_weaken _ _ _ _ Hch). intros x Hx. left.
      unfold in_block. lia.
    + intros ->. apply (Fresh b1 Hc). reflexivity.
Qed.

(** ** The heap of a session is well formed *)

Lemma live_flag (s : heap) (bs : list blk) (fl : lists) (c : blk) :
  wf s bs fl -> live bs fl c -> b_flag c = true.
Proof.
  intros [_ Hf] [Ic Nc]. destruct (b_flag c) eqn:E; [reflexivity|].
  destruct Nc. apply Hf; assumption.
Qed.

Lemma live_ptr_inj (s : heap) (bs : list blk) (fl : lists) (c d : blk) :
  wf s bs fl -> live bs fl c -> live bs fl d -> b_ptr c = b_ptr d -> c = d.
Proof.
  intros [H _] [Ic _] [Id _] E.
  apply (chain_ptr_inj _ _ _ _ _ (hp_chain _ _ _ H)); assumption.
Qed.

Lemma calm_settled (s : heap) (bs : list blk) (fl : lists) (L : list Z) (nb : Z) :
  wf s bs fl ->
  (forall p, In p L <-> exists c, live bs fl c /\ b_ptr c = p) ->
  calm s L nb -> settled s bs nb.
Proof.
  intros W HL [->|Hin]; [left; reflexivity|right].
  apply HL in Hin. destruct Hin as (c & Lc & Ec).
  exists c. split; [apply Lc|]. split; [apply (live_flag s bs fl c W Lc)|exact Ec].
Qed.

Lemma in_remove_iff (L : list Z) (p q : Z) :
  In q (remove Z.eq_dec p L) <-> In q L /\ q <> p.
Proof.
  split.
  - apply in_remove.
  - intros [H1 H2]. apply in_in_remove; assumption.
Qed.

Lemma session_owns (s : heap) (L : list Z) : session s L -> owns s L.
Proof.
  induction 1 as
    [s0 s Hbrk Hlo Hal Hmax Hcap Hlen Hrun
    |s L nb n p s' Hs IH Hnb Hn0 Hn1 Hrun
    |s L nb k n p s' Hs IH Hnb Hn0 Hn1 Hrun
    |s L nb p n q s' Hs IH Hp Hnb Hn0 Hn1 Hrun
    |s L p s' Hs IH Hp Hrun
    |s L p m' Hs IH Hp Hch].
  - (* mm_init *)
    destruct (wf_mm_init s0 Hbrk Hlo Hal Hmax Hcap Hlen)
      as (s' & bs & fl & R & W & _ & _ & Nl).
    rewrite R in Hrun. injection Hrun as <-.
    exists bs, fl. split; [exact W|].
    intros p. split; [intros []|]. intros (c & Lc & _). exact (Nl c Lc).
  - (* malloc *)
    destruct IH as (bs & fl & W & HL).
    pose proof (calm_settled s bs fl L nb W HL Hnb) as Hst.
    destruct (wf_malloc_ret s bs fl nb n p s' W Hst Hn0 Hn1 Hrun)
      as (bs' & fl' & b1 & -> & W' & _ & _ & _ & _ & _ & _ & _ & Live & _).
    exists bs', fl'. split; [exact W'|].
    intros q. simpl. rewrite HL. split.
    + intros [<-|(c & Lc & Ec)].
      * exists b1. split; [apply Live; right; reflexivity|reflexivity].
      * exists c. split; [apply Live; left; exact Lc|exact Ec].
    + intros (c & Lc & Ec). apply Live in Lc. destruct Lc as [Lc| ->].
      * right. exists c. auto.
      * left. exact Ec.
  - (* calloc *)
    destruct IH as (bs & fl & W & HL).
    pose proof (calm_settled s bs fl L nb W HL Hnb) as Hst.
    pose proof Hrun as Hrun'. unfold calloc in Hrun'. cbv zeta in Hrun'.
    rewrite (wrap_small (n * k)) in Hrun' by lia.
    apply bind_inv in Hrun'. destruct Hrun' as (p1 & s1 & R & _).
    destruct (wf_calloc s bs fl nb k n p1 s1 W Hst Hn0 Hn1 R)
      as (s'' & bs' & fl' & b1 & Rc & W' & _ & _ & _ & _ & _ & _ & _ & Live & _).
    rewrite Rc in Hrun. injection Hrun as <- <-.
    exists bs', fl'. split; [exact W'|].
    intros q. simpl. rewrite HL. split.
    + intros [<-|(c & Lc & Ec)].
      * exists b1. split; [apply Live; right; reflexivity|reflexivity].
      * exists c. split; [apply Live; left; exact Lc|exact Ec].
    + intros (c & Lc & Ec). apply Live in Lc. destruct Lc as [Lc| ->].
      * right. exists c. auto.
      * left. exact Ec.
  - (* realloc *)
    destruct IH as (bs & fl & W & HL).
    pose proof (calm_settled s bs fl L nb W HL Hnb) as Hst.
    apply HL in Hp. destruct Hp as (b & Lb & <-).
    pose proof W as [H _].
    pose proof (hp_in _ _ _ H _ (proj1 Lb)) as Hb.
    pose proof (hp_arena _ _ _ H) as [Alo Ahi].
    pose proof Hrun as Hrun'. unfold realloc in Hrun'.
    destruct (Z.eqb_spec (b_ptr b) NULL) as [E|_]; [unfold NULL in E; lia|].
    destruct (Z.eqb_spec n 0) as [E|_]; [lia|].
    apply bind_inv in Hrun'. destruct Hrun' as (p1 & s1 & R & _).
    destruct (wf_realloc s bs fl b nb n p1 s1 W Lb Hst Hn0 Hn1 R)
      as (s'' & bs' & fl' & b1 & Rr & W' & _ & _ & _ & _ & _ & _ & Live & _).
    rewrite Rr in Hrun. injection Hrun as <- <-.
    exists bs', fl'. split; [exact W'|].
    intros q. simpl. rewrite in_remove_iff, HL. split.
    + intros [<-|[(c & Lc & Ec) Ne]].
      * exists b1. split; [apply Live; right; reflexivity|reflexivity].
      * exists c. split; [|exact Ec]. apply Live. left. split; [exact Lc|].
        intros ->. apply Ne. symmetry. exact Ec.
    + intros (c & Lc & Ec). apply Live in Lc. destruct Lc as [[Lc Ne]| ->].
      * right. split; [exists c; auto|].
        intros E. apply Ne. apply (live_ptr_inj s bs fl c b W Lc Lb). congruence.
      * left. exact Ec.
  - (* free *)
    destruct IH as (bs & fl & W & HL).
    apply HL in Hp. destruct Hp as (b & Lb & <-).
    destruct (in_split _ _ (proj1 Lb)) as (pre & post & ->).
    destruct (wf_free s fl pre post b W (proj2 Lb))
      as (s'' & bs' & fl' & b' & Rf & W' & _ & _ & _ & _ & _ & _ & Live & _).
    rewrite Rf in Hrun. injection Hrun as <-.
    exists bs', fl'. split; [exact W'|].
    intros q. rewrite in_remove_iff, HL. split.
    + intros [(c & Lc & Ec) Ne].
      exists c. split; [|exact Ec]. apply Live. split; [exact Lc|].
      intros ->. apply Ne. symmetry. exact Ec.
    + intros (c & Lc & Ec). apply Live in Lc. destruct Lc as [Lc Ne].
      split; [exists c; auto|].
      intros E. apply Ne. apply (live_ptr_inj s _ fl c b W Lc Lb). congruence.
  - (* a write of the caller *)
    destruct IH as (bs & fl & W & HL).
    apply HL in Hp. destruct Hp as (c & Lc & <-).
    pose proof W as [H _].
    rewrite (block_size_live s bs fl c H (proj1 Lc)) in Hch.
    exists bs, fl. split; [|exact HL].
    apply (wf_write s bs fl c m' W Lc Hch).
Qed.

(* header and footer of a tagged block, read as the code reads them *)
Lemma tags_read (s : heap) (c : blk) :
  0 < mem_start_brk s -> mem_start_brk s + mem_brk s < wB ->
  mem_start_brk s + 16 <= b_ptr c ->
  b_ptr c + b_size c <= mem_start_brk s + mem_brk s ->
  16 <= b_size c -> b_size c mod 16 = 0 -> tagged (bytes s) c ->
  get_size (p_to_header (b_ptr c)) s = Some (b_size c, s) /\
  (ft <- p_to_footer (b_ptr c) ;; get_size ft) s = Some (b_size c, s) /\
  get_alloc (p_to_header (b_ptr c)) s = Some (Z.b2z (b_flag c), s) /\
  (ft <- p_to_footer (b_ptr c) ;; get_alloc ft) s = Some (Z.b2z (b_flag c), s).
Proof.
  intros Alo Ahi C1 C2 C3 C4 [T1 T2].
  destruct (read_header s c) as (G & A & F & _); try lia; try assumption.
  rewrite (wrap_small (b_ptr c + b_size c - 16)) in F by lia.
  assert (Hin : in_arena s (b_ptr c + b_size c - 16) 8 = true)
    by (apply in_arena_intro; lia).
  split; [exact G|]. split; [|split; [exact A|]].
  - rewrite (bind_some _ _ _ _ _ F).
    rewrite (get_size_val _ _ _ Hin T2). rewrite tagw_size by lia. reflexivity.
  - rewrite (bind_some _ _ _ _ _ F).
    rewrite (get_alloc_val _ _ _ Hin T2). rewrite tagw_alloc by assumption.
    reflexivity.
Qed.

(* the neighbours of a block of the heap, as the words of the store give
   them *)
Lemma merged_block (s : heap) (fl : lists) (pre post : list blk) (b : blk) :
  hp s (pre ++ b :: post) fl ->
  let y := last pre (prologue s) in
  let z := hd (epilogue s) post in
  merged_bp s (b_ptr b) = (if b_flag y then b_ptr b else b_ptr y) /\
  merged_size s (b_ptr b) =
    (if b_flag y then 0 else b_size y) + b_size b + (if b_flag z then 0 else b_size z) /\
  marked_free s (before_bp s (b_ptr b)) = negb (b_flag y) /\
  marked_free s (after_bp s (b_ptr b)) = negb (b_flag z).
Proof.
  intros H y z.
  assert (Ib : In b (pre ++ b :: post)) by (apply in_or_app; right; left; reflexivity).
  pose proof (hp_arena _ _ _ H) as [Alo Ahi].
  pose proof (hp_in _ _ _ H _ Ib) as (B1 & B2 & B3 & B4 & B5).
  destruct (hp_prev _ _ _ H pre post b eq_refl) as (Y1 & Y2 & Y3 & Y4 & Y5 & Y6 & _).
  destruct (hp_next _ _ _ H pre post b eq_refl) as (Z1 & Z2 & Z3 & Z4 & _).
  fold y in Y1, Y2, Y3, Y4, Y5, Y6. fold z in Z1, Z2, Z3, Z4.
  assert (Ps : prev_size s (b_ptr b) = b_size y).
  { unfold prev_size. rewrite wrap_small by lia. rewrite Y5. apply tagw_size; lia. }
  assert (Bs : block_size s (b_ptr b) = b_size b)
    by (apply (block_size_live s _ fl b H Ib)).
  assert (Pb : before_bp s (b_ptr b) = b_ptr y).
  { unfold before_bp. rewrite Ps. rewrite wrap_small by lia. lia. }
  assert (Nb : after_bp s (b_ptr b) = b_ptr z).
  { unfold after_bp. rewrite Bs. rewrite wrap_small by lia. lia. }
  assert (Fy : marked_free s (b_ptr y) = negb (b_flag y)).
  { unfold marked_free. rewrite p_to_header_eq by lia. rewrite Y6.
    rewrite tagw_alloc by assumption. destruct (b_flag y); reflexivity. }
  assert (Fz : marked_free s (b_ptr z) = negb (b_flag z)).
  { unfold marked_free. rewrite p_to_header_eq by lia. rewrite Z4.
    rewrite tagw_alloc by assumption. destruct (b_flag z); reflexivity. }
  assert (Zs : block_size s (b_ptr z) = b_size z).
  { unfold block_size. rewrite p_to_header_eq by lia. rewrite Z4.
    apply tagw_size; [|assumption].
    destruct post as [|z' post'].
    - subst z. simpl. unfold wB. lia.
    - assert (Iz : In z (pre ++ b :: z' :: post'))
        by (apply in_or_app; right; right; left; reflexivity).
      pose proof (hp_in _ _ _ H _ Iz). lia. }
  unfold merged_bp, merged_size. rewrite Pb, Nb, Fy, Fz, Ps, Bs, Zs.
  destruct (b_flag y), (b_flag z); cbn [negb]; repeat split; reflexivity.
Qed.

(** ** Calls that return *)

(* when the provider can grant the growth that a request may ask for, the
   call returns and the session goes on *)
Lemma session_malloc_returns (s : heap) (L : list Z) (nb n : Z) :
  session s L -> calm s L nb -> 0 < n -> n + 31 < wB ->
  mem_brk s + max (adjusted_size n) EXTEND_SIZE <= mem_max s ->
  exists p s', malloc nb n s = Some (p, s') /\ session s' (p :: L).
Proof.
  intros Hs Hnb Hn0 Hn1 Hroom.
  destruct (session_owns s L Hs) as (bs & fl & W & HL).
  pose proof (calm_settled s bs fl L nb W HL Hnb) as Hst.
  destruct (wf_malloc s bs fl nb n W Hst Hn0 Hn1 Hroom) as (p & s' & R & _).
  exists p, s'. split; [exact R|].
  apply (session_malloc s L nb n p s' Hs Hnb Hn0 Hn1 R).
Qed.

Lemma session_realloc_returns (s : heap) (L : list Z) (nb p n : Z) :
  session s L -> In p L -> calm s L nb -> 0 < n -> n + 31 < wB ->
  mem_brk s + max (adjusted_size n) EXTEND_SIZE <= mem_max s ->
  exists q s', realloc nb p n s = Some (q, s') /\
               session s' (q :: remove Z.eq_dec p L).
Proof.
  intros Hs Hp Hnb Hn0 Hn1 Hroom.
  destruct (session_owns s L Hs) as (bs & fl & W & HL).
  pose proof (calm_settled s bs fl L nb W HL Hnb) as Hst.
  pose proof Hp as Hp'. apply HL in Hp'. destruct Hp' as (b & Lb & Eb).
  destruct (wf_malloc s bs fl nb n W Hst Hn0 Hn1 Hroom) as (p1 & s1 & R & _).
  destruct (wf_realloc s bs fl b nb n p1 s1 W Lb Hst Hn0 Hn1 R)
    as (s' & bs' & fl' & b1 & Rr & _).
  rewrite Eb in Rr.
  exists (b_ptr b1), s'. split; [exact Rr|].
  apply (session_realloc s L nb p n (b_ptr b1) s' Hs Hp Hnb Hn0 Hn1 Rr).
Qed.

Lemma session_free_returns (s : heap) (L : list Z) (p : Z) :
  session s L -> In p L ->
  exists s', free p s = Some (tt, s') /\ session s' (remove Z.eq_dec p L).
Proof.
  intros Hs Hp.
  destruct (session_owns s L Hs) as (bs & fl & W & HL).
  pose proof Hp as Hp'. apply HL in Hp'. destruct Hp' as (b & Lb & Eb).
  destruct (in_split _ _ (proj1 Lb)) as (pre & post & ->).
  destruct (wf_free s fl pre post b W (proj2 Lb)) as (s' & bs' & fl' & b' & Rf & _).
  rewrite Eb in Rf.
  exists s'. split; [exact Rf|].
  apply (session_free s L p s' Hs Hp Rf).
Qed.

(** ** Deallocation of a block between two allocated neighbours *)

(** The release of a block whose two physical neighbours are marked
    allocated, whatever the rest of the arena holds: free returns, and
    header and footer of the block hold the same word, whose size field
    is the size of the block before the call. *)
Lemma free_keeps_size (s : heap) (ptr : Z) :
  ptr <> NULL ->
  lone_block s ptr ->
  exists s',
    free ptr s = Some (tt, s') /\
    block_size s' ptr = block_size s ptr /\
    size_bits (peek (footer_addr s ptr) s') = block_size s ptr /\
    peek (footer_addr s ptr) s' = peek (p_to_header ptr) s'.
Proof.
  intros Hnz [[Hlo Hhi] Hlen Hsz [Hpsz Hplo] Hend Hpa Hna Hhead].
  unfold footer_addr, prev_size, block_size, peek in *.
  destruct s as [lo mx brk m segs hlp].
  cbn [mem_start_brk mem_max mem_brk bytes seg_list heap_list_ptr] in *.
  assert (Hptr : lo + 24 <= ptr) by lia.
  assert (Hh : p_to_header ptr = ptr - 8).
  { unfold p_to_header. apply wrap_small. unfold wB in *.
    pose proof (size_bits_load m (p_to_header ptr)). lia. }
  assert (Hp16 : wrap (ptr - 16) = ptr - 16).
  { apply wrap_small. unfold wB in *.
    pose proof (size_bits_load m (p_to_header ptr)). lia. }
  rewrite Hh, Hp16 in *.
  pose proof (size_bits_load m (ptr - 16)) as [Hpr _].
  set (psz := size_bits (load8 m (ptr - 16))) in *.
  pose proof (load8_range m (ptr - 8)) as Hw.
  pose proof (size_bits_le _ Hw) as [Hszr _].
  set (w := load8 m (ptr - 8)) in *.
  set (sz := size_bits w) in *.
  assert (Hf : wrap (ptr + sz - 16) = ptr + sz - 16).
  { apply wrap_small. unfold wB in *. lia. }
  rewrite Hf in *.
  pose proof (search_seg_list_range w) as Hk.
  set (k := search_seg_list w) in *.
  set (h := nth (Z.to_nat k) segs NULL) in *.
  assert (Hnf : next_freebp ptr = ptr + 8).
  { unfold next_freebp. apply wrap_small. unfold wB in *. lia. }
  assert (Hpb : p_to_header (wrap (ptr - psz)) = ptr - psz - 8).
  { unfold p_to_header. rewrite (wrap_small (ptr - psz)) by (unfold wB in *; lia).
    apply wrap_small. unfold wB in *. lia. }
  assert (Hnb : p_to_header (wrap (ptr + sz)) = ptr + sz - 8).
  { unfold p_to_header. rewrite (wrap_small (ptr + sz)) by (unfold wB in *; lia).
    apply wrap_small. unfold wB in *. lia. }
  assert (A0 : forall a mm ss, lo <= a -> a + 8 <= lo + brk ->
             in_arena (mkHeap lo mx brk mm ss hlp) a 8 = true).
  { intros. apply in_arena_intro; cbn [mem_start_brk mem_brk]; lia. }
  set (segs' := list_set segs (Z.to_nat k) ptr).
  (* the store once the block is stamped and linked *)
  set (m1 := store8 m (ptr - 8) w).
  set (m2 := store8 m1 (ptr + sz - 16) w).
  set (m3 := if h =? NULL
             then store8 (store8 m2 ptr NULL) (ptr + 8) NULL
             else store8 (store8 (store8 m2 ptr NULL) (ptr + 8) h) h ptr).
  assert (L : load8 m3 (ptr - 8) = w /\ load8 m3 (ptr + sz - 16) = w /\
              load8 m3 (ptr - 16) = load8 m (ptr - 16) /\
              load8 m3 (ptr - psz - 8) = load8 m (ptr - psz - 8) /\
              load8 m3 (ptr + sz - 8) = load8 m (ptr + sz - 8)).
  { assert (B1 : load8 m2 (ptr - 8) = w).
    { unfold m2, m1. rewrite load8_store8_other by lia.
      apply load8_store8_same. exact Hw. }
    assert (B2 : load8 m2 (ptr + sz - 16) = w).
    { unfold m2. apply load8_store8_same. exact Hw. }
    unfold m3. destruct (Z.eqb_spec h NULL) as [Hh0|Hh0].
    - rewrite !load8_store8_other by lia. rewrite B1, B2.
      unfold m2, m1. rewrite !load8_store8_other by lia. auto.
    - destruct Hhead as [Hhead|(Hh1 & Hh2 & Hh3)]; [contradiction|].
      rewrite !load8_store8_other by lia. rewrite B1, B2.
      unfold m2, m1. rewrite !load8_store8_other by lia. auto. }
  destruct L as (L1 & L2 & L3 & L4 & L5).
  exists (mkHeap lo mx brk m3 segs' hlp).
  cbn [bytes]. rewrite L1, L2. fold sz. split; [|auto].
  (* the run of free *)
  unfold free. destruct (Z.eqb_spec ptr NULL) as [|_]; [contradiction|].
  rewrite Hh.
  step_by ltac:(apply get_ok; apply A0; lia).
  cbn [bytes]. fold w. unfold pack. rewrite Z.lor_0_r.
  step_by ltac:(apply put_ok; apply A0; lia).
  unfold set_bytes; cbn [mem_start_brk mem_max mem_brk bytes seg_list heap_list_ptr].
  fold m1.
  step_by ltac:(apply p_to_footer_ok; rewrite Hh; apply A0; lia).
  cbn [bytes]. rewrite Hh. unfold m1 at 1. rewrite load8_store8_same by exact Hw.
  fold sz. rewrite Hf.
  step_by ltac:(apply put_ok; apply A0; lia).
  unfold set_bytes; cbn [mem_start_brk mem_max mem_brk bytes seg_list heap_list_ptr].
  fold m2.
  (* add_list_block *)
  assert (Hadd : add_list_block ptr w (mkHeap lo mx brk m2 segs hlp)
                 = Some (tt, mkHeap lo mx brk m3 segs' hlp)).
  { unfold add_list_block. fold k.
    step_by ltac:(apply seg_get_ok; [lia|exact Hlen]).
    cbn [seg_list]. fold h. unfold prev_freebp, putptr. rewrite Hnf.
    unfold m3. destruct (Z.eqb_spec h NULL) as [Hh0|Hh0]; cbn [negb].
    - step_by ltac:(apply seg_set_ok; [lia|exact Hlen]).
      unfold set_seg_list; cbn [mem_start_brk mem_max mem_brk bytes seg_list heap_list_ptr].
      fold segs'.
      step_by ltac:(apply put_ok; apply A0; lia).
      unfold set_bytes; cbn [mem_start_brk mem_max mem_brk bytes seg_list heap_list_ptr].
      rewrite put_ok by (apply A0; lia). reflexivity.
    - destruct Hhead as [Hhead|(Hh1 & Hh2 & Hh3)]; [contradiction|].
      step_by ltac:(apply seg_set_ok; [lia|exact Hlen]).
      unfold set_seg_list; cbn [mem_start_brk mem_max mem_brk bytes seg_list heap_list_ptr].
      fold segs'.
      step_by ltac:(apply put_ok; apply A0; lia).
      unfold set_bytes; cbn [mem_start_brk mem_max mem_brk bytes seg_list heap_list_ptr].
      step_by ltac:(apply put_ok; apply A0; lia).
      unfold set_bytes; cbn [mem_start_brk mem_max mem_brk bytes seg_list heap_list_ptr].
      rewrite put_ok by (apply A0; lia). reflexivity. }
  step_by ltac:(exact Hadd).
  (* coalesce: both neighbours are marked allocated *)
  set (s3 := mkHeap lo mx brk m3 segs' hlp).
  assert (A3 : forall a, lo <= a -> a + 8 <= lo + brk -> in_arena s3 a 8 = true).
  { intros. apply A0; lia. }
  assert (Hco : coalesce ptr s3 = Some (ptr, s3)).
  { unfold coalesce.
    step_by ltac:(apply prev_bp_ok; rewrite Hp16; apply A3; lia).
    rewrite Hp16. cbn [bytes s3]. rewrite L3. fold psz. rewrite Hpb.
    step_by ltac:(apply get_alloc_ok; apply A3; lia).
    cbn [bytes s3]. rewrite L4, Hpa.
    step_by ltac:(apply next_bp_ok; rewrite Hh; apply A3; lia).
    rewrite Hh. cbn [bytes s3]. rewrite L1. fold sz. rewrite Hnb.
    step_by ltac:(apply get_alloc_ok; apply A3; lia).
    cbn [bytes s3]. rewrite L5, Hna.
    step_by ltac:(apply get_size_ok; apply A3; lia).
    reflexivity. }
  step_by ltac:(exact Hco).
  reflexivity.
Qed.

(** ** A release that merges *)

(** C1 as stated fails: the block released in [Scenario.free_first] is
    followed by a free block, the coalescer merges the two, and the size
    that the header of the released block gives goes from 32 to 4096. *)
Lemma free_merge_changes_size :
  after (Scenario.free_first 0) arena0
    (fun r _ => fst (fst r) <> NULL /\ snd (fst r) = 32 /\ snd r = 4096 /\
                snd r <> snd (fst r)).
Proof. vm_compute. repeat split; discriminate. Qed.

(* the release of b in [Scenario.three_blocks], which stands between the
   allocated blocks a and c *)
Example free_keeps_size_three_blocks :
  let s := state_after (Scenario.three_blocks 0) arena0 in
  exists s',
    free 65600 s = Some (tt, s') /\
    block_size s' 65600 = block_size s 65600 /\
    size_bits (peek (footer_addr s 65600) s') = block_size s 65600 /\
    peek (footer_addr s 65600) s' = peek (p_to_header 65600) s'.
Proof.
  intros s.
  apply (free_keeps_size s 65600).
  - discriminate.
  - constructor.
    + vm_compute. split; [discriminate|reflexivity].
    + vm_compute. reflexivity.
    + vm_compute. discriminate.
    + vm_compute. split; discriminate.
    + vm_compute. discriminate.
    + vm_compute. reflexivity.
    + vm_compute. reflexivity.
    + vm_compute. left. reflexivity.
Qed.

(* what the release of that block leaves in its header and footer *)
Example free_between_allocated_words :
  after (_ <- Scenario.three_blocks 0 ;; free 65600) arena0
    (fun _ s => peek 65592 s = 33 /\ peek 65616 s = 33).
Proof. vm_compute. split; reflexivity. Qed.

(** ** Exhaustion of the arena *)

(** C2.  The code does not do what the claim says.  When the placement
    search finds no block in any class and the growth provider cannot
    grant the bytes asked for, extend_heap returns NULL and malloc hands
    that NULL to place, which reads the header at NULL - 8, an address
    outside the arena: malloc does not return at all (a fault), where the
    claim has it return null with the state unchanged. *)
Theorem malloc_exhaustion_faults (nb size nbytes : Z) (s : heap) :
  size <> 0 ->
  length (seg_list s) = 14%nat ->
  Forall (scannable s)
    (candidates s 32 (nth (Z.to_nat (search_seg_list (adjusted_size size))) (seg_list s) NULL)) ->
  placement_search s (adjusted_size size) = Grow nbytes ->
  mem_max s < mem_brk s + align nbytes ->
  mem_start_brk s + mem_brk s < wB ->
  malloc nb size s = None.
Proof.
  intros Hsize Hlen Hsc Hsearch Hfull Hwb.
  rewrite (malloc_search_eq nb size s Hsize Hlen Hsc), Hsearch.
  rewrite (bind_some _ _ _ _ _ (extend_heap_exhausted nbytes s Hfull)).
  apply place_null_faults. exact Hwb.
Qed.

Lemma malloc_exhaustion_faults_witness :
  malloc 0 5000 (state_after mm_init (boot 65536 4128)) = None.
Proof.
  apply (malloc_exhaustion_faults 0 5000 5024 (state_after mm_init (boot 65536 4128))).
  - discriminate.
  - vm_compute. reflexivity.
  - assert (E : candidates (state_after mm_init (boot 65536 4128)) 32
                  (nth (Z.to_nat (search_seg_list (adjusted_size 5000)))
                       (seg_list (state_after mm_init (boot 65536 4128))) NULL)
                = [65568]) by (vm_compute; reflexivity).
    rewrite E. repeat constructor; vm_compute; reflexivity.
  - vm_compute. reflexivity.
  - vm_compute. reflexivity.
  - vm_compute. reflexivity.
Defined.

(* the same run from mm_init on, whatever next_block holds *)
Example exhaust_faults (nb : Z) : Scenario.exhaust nb (boot 65536 4128) = None.
Proof. vm_compute. reflexivity. Qed.

(** ** Runs in which the allocator breaks what the specification says *)

(** C4.  The code does not do what the claim says.  In
    [Scenario.free_neighbours] the blocks a and b are released one after
    the other while their other neighbours are allocated: b follows a
    physically, both are in the list of class 1, and neither was merged
    (both headers still hold 33).  In [Scenario.free_split_free], whose
    last operation is a release, the block at a (128 bytes) and the block
    after it (3968 bytes) are physically adjacent, both have the allocated
    flag 0 in their headers, and both are heads of free lists. *)
Theorem free_leaves_adjacent_free_blocks (nb : Z) :
  after (Scenario.free_neighbours nb) arena0
    (fun r s => let (a, b) := r in
       result (next_bp a) s = Some b /\
       nth 1 (seg_list s) NULL = b /\
       result (next_listbp b) s = Some a /\
       result (get (p_to_header a)) s = Some 33 /\
       result (get (p_to_header b)) s = Some 33) /\
  after (Scenario.free_split_free nb) arena0
    (fun r s => let (a, b) := r in
       result (next_bp a) s = Some b /\
       result (get (p_to_header a)) s = Some (pack 128 0) /\
       result (get (p_to_header b)) s = Some (pack 3968 0) /\
       nth 3 (seg_list s) NULL = a /\
       nth 7 (seg_list s) NULL = b).
Proof. vm_compute. repeat split; reflexivity. Qed.

(** C5 as stated fails.  In [Scenario.huge_request] the request of
    SIZE_MAX - 19 bytes is rounded to a block size of 0 (the additions
    wrap) and malloc returns the block a all the same; when it has
    returned, the header of the prologue gives size 16 and its footer size
    0, and the allocated block b has the flag 1 in its header and the flag
    0 in its footer. *)
Lemma malloc_huge_breaks_tags :
  adjusted_size (SIZE_MAX - 19) = 0 /\
  after (Scenario.huge_request 65552) arena0
    (fun r s => let '(a, b, x) := r in
       x = a /\ x <> NULL /\
       result (get_size (p_to_header (mem_heap_lo s + 16))) s = Some 16 /\
       result (ft <- p_to_footer (mem_heap_lo s + 16) ;; get_size ft) s = Some 0 /\
       result (get_alloc (p_to_header b)) s = Some 1 /\
       result (ft <- p_to_footer b ;; get_alloc ft) s = Some 0).
Proof. vm_compute. repeat split; try reflexivity; discriminate. Qed.

(** C6 as stated fails.  In [Scenario.forged_link] the caller stores in
    its block p an address inside its block u and resizes p to SIZE_MAX
    bytes; the rounded size wraps to 16, realloc copies 56 bytes of p over
    the header and the links of a free block and over the header of u, and
    the next malloc follows the forged link and returns u + 8, which is
    not a multiple of 16 (and lies inside the allocated block u). *)
Lemma malloc_returns_misaligned :
  adjusted_size SIZE_MAX = 16 /\
  after (Scenario.forged_link 65552) arena0
    (fun r s => let (u, v) := r in
       v <> NULL /\ v = u + 8 /\ v mod 16 = 8 /\ aligned v = false).
Proof. vm_compute. repeat split; try reflexivity; discriminate. Qed.

(** C7 as stated fails.  In [Scenario.huge_realloc] the block p has a
    payload of 32 bytes and holds the word 12345 at offset 16;
    realloc(p, SIZE_MAX), whose rounded size wraps to 16, returns a
    non-null block whose word at offset 16, among the first
    min(SIZE_MAX, 32) bytes, is 65568 (the link that the release of p
    wrote there). *)
Lemma realloc_huge_loses_content :
  min SIZE_MAX (48 - 16) = 32 /\
  after (Scenario.huge_realloc 65552) arena0
    (fun r s => let '(newptr, old, new) := r in
       newptr <> NULL /\ old = 12345 /\ new = 65568 /\ new <> old).
Proof. vm_compute. repeat split; try reflexivity; discriminate. Qed.

(** C9.  The code does not do what the claim says.  In
    [Scenario.exact_fit] the placement does not split; its branch reads
    the local next_block, which nothing has assigned.  When that local
    holds 65576 (the address a + 8, the next link of the first block),
    place finds a word with the allocated flag 0 before it and stores that
    word at next_block - 16: the header of the allocated block a, another
    block than the chosen one, goes from 33 to 0. *)
Theorem place_nosplit_clobbers_other_block :
  result (Scenario.exact_fit 65576) arena0 = Some (65568, 33, 0).
Proof. vm_compute. reflexivity. Qed.

(* with another value in next_block the same placement leaves a alone *)
Example place_nosplit_benign :
  result (Scenario.exact_fit 65552) arena0 = Some (65568, 33, 33).
Proof. vm_compute. reflexivity. Qed.

(** ** What holds in every session *)

Lemma run_eq {A : Type} (c : M A) (s : heap) (a : A) :
  result c s = Some a -> c s = Some (a, state_after c s).
Proof.
  unfold result, state_after. destruct (c s) as [[a' s']|]; [|discriminate].
  intros E. injection E as ->. reflexivity.
Qed.

(** C1, amended.  In every session the release of an owned pointer p
    returns.  Afterwards the block that the coalescer has made of the
    released block (the block itself when both physical neighbours are
    marked allocated, its merge with the neighbours marked free otherwise)
    has a header and a footer that give the same size, the sum of the
    sizes of the blocks merged, and the same allocated flag, which is 0
    when a neighbour was merged. *)
Theorem session_free_merges (s : heap) (L : list Z) (p : Z) :
  session s L -> In p L ->
  exists s',
    free p s = Some (tt, s') /\
    get_size (p_to_header (merged_bp s p)) s' = Some (merged_size s p, s') /\
    (ft <- p_to_footer (merged_bp s p) ;; get_size ft) s' = Some (merged_size s p, s') /\
    exists a,
      get_alloc (p_to_header (merged_bp s p)) s' = Some (a, s') /\
      (ft <- p_to_footer (merged_bp s p) ;; get_alloc ft) s' = Some (a, s') /\
      (marked_free s (before_bp s p) || marked_free s (after_bp s p) = true -> a = 0).
Proof.
  intros Hs Hp. destruct (session_owns s L Hs) as (bs & fl & W & HL).
  apply HL in Hp. destruct Hp as (b & Lb & <-).
  destruct (in_split _ _ (proj1 Lb)) as (pre & post & ->).
  pose proof W as [H _].
  destruct (merged_block s fl pre post b H) as (Mp & Ms & Fy & Fz).
  destruct (wf_free s fl pre post b W (proj2 Lb))
    as (s' & bs' & fl' & b' & Rf & [H' _] & _ & _ & Ib' & _ & Pb' & Sb' & _ & _ & Fl').
  exists s'. split; [exact Rf|].
  rewrite Mp, Ms, <- Pb', <- Sb'.
  pose proof (hp_in _ _ _ H' _ Ib') as (C1 & C2 & C3 & C4 & C5).
  pose proof (hp_arena _ _ _ H') as [Alo Ahi].
  destruct (tags_read s' b') as (G1 & G2 & G3 & G4); try lia; try assumption.
  { apply (hp_tagged _ _ _ H' _ Ib'). }
  split; [exact G1|]. split; [exact G2|].
  exists (Z.b2z (b_flag b')). split; [exact G3|]. split; [exact G4|].
  rewrite Fy, Fz. intros Hm. rewrite Fl'; [reflexivity|].
  destruct (b_flag (last pre (prologue s))), (b_flag (hd (epilogue s) post));
    cbn [negb orb] in Hm; auto; discriminate.
Qed.

Lemma session_free_merges_witness :
  exists s',
    free 65568 served = Some (tt, s') /\
    get_size (p_to_header (merged_bp served 65568)) s' =
      Some (merged_size served 65568, s') /\
    (ft <- p_to_footer (merged_bp served 65568) ;; get_size ft) s' =
      Some (merged_size served 65568, s') /\
    exists a,
      get_alloc (p_to_header (merged_bp served 65568)) s' = Some (a, s') /\
      (ft <- p_to_footer (merged_bp served 65568) ;; get_alloc ft) s' = Some (a, s') /\
      (marked_free served (before_bp served 65568)
       || marked_free served (after_bp served 65568) = true -> a = 0).
Proof.
  apply (session_free_merges served [65568] 65568).
  - apply (session_malloc started [] 65552 16 65568 served).
    + apply (session_init arena0 started).
      * reflexivity.
      * reflexivity.
      * reflexivity.
      * reflexivity.
      * vm_compute. discriminate.
      * reflexivity.
      * apply (run_eq mm_init arena0 true). vm_compute. reflexivity.
    + left. vm_compute. reflexivity.
    + lia.
    + vm_compute. reflexivity.
    + apply (run_eq (malloc 65552 16) started 65568). vm_compute. reflexivity.
  - left. reflexivity.
Defined.

(* the block released there is merged with the free block after it *)
Example served_merge :
  merged_bp served 65568 = 65568 /\ merged_size served 65568 = 4096 /\
  block_size served 65568 = 32.
Proof. vm_compute. repeat split; reflexivity. Qed.

(** C5, amended.  In every session (requests whose rounding does not
    wrap, calls that return, the local next_block of place calm) the
    blocks tile the arena from the first payload address to the break, and
    the prologue and every block have a header and a footer that give the
    same size, the size of the block, and the same allocated flag. *)
Theorem session_tags_agree (s : heap) (L : list Z) :
  session s L ->
  exists bs,
    chain (mem_start_brk s + 32) bs (mem_start_brk s + mem_brk s) /\
    forall c, c = prologue s \/ In c bs ->
      get_size (p_to_header (b_ptr c)) s = Some (b_size c, s) /\
      (ft <- p_to_footer (b_ptr c) ;; get_size ft) s = Some (b_size c, s) /\
      exists a,
        get_alloc (p_to_header (b_ptr c)) s = Some (a, s) /\
        (ft <- p_to_footer (b_ptr c) ;; get_alloc ft) s = Some (a, s).
Proof.
  intros Hs. destruct (session_owns s L Hs) as (bs & fl & [H _] & _).
  exists bs. split; [apply (hp_chain _ _ _ H)|].
  pose proof (hp_arena _ _ _ H) as [Alo Ahi].
  pose proof (chain_le _ _ _ (hp_chain _ _ _ H)) as Hle.
  assert (Rd : forall c,
            mem_start_brk s + 16 <= b_ptr c ->
            b_ptr c + b_size c <= mem_start_brk s + mem_brk s ->
            16 <= b_size c -> b_size c mod 16 = 0 -> tagged (bytes s) c ->
            get_size (p_to_header (b_ptr c)) s = Some (b_size c, s) /\
            (ft <- p_to_footer (b_ptr c) ;; get_size ft) s = Some (b_size c, s) /\
            exists a,
              get_alloc (p_to_header (b_ptr c)) s = Some (a, s) /\
              (ft <- p_to_footer (b_ptr c) ;; get_alloc ft) s = Some (a, s)).
  { intros c C1 C2 C3 C4 T.
    destruct (tags_read s c Alo Ahi C1 C2 C3 C4 T) as (G1 & G2 & G3 & G4).
    split; [exact G1|]. split; [exact G2|].
    exists (Z.b2z (b_flag c)). split; assumption. }
  intros c [->|Ic].
  - destruct (hp_prologue _ _ _ H) as [P1 P2].
    apply Rd; unfold prologue, tagged, tagw; cbn [b_ptr b_size b_flag Z.b2z]; try lia.
    + reflexivity.
    + split.
      * replace (mem_start_brk s + 16 - 8) with (mem_start_brk s + 8) by lia. exact P1.
      * replace (mem_start_brk s + 16 + 16 - 16) with (mem_start_brk s + 16) by lia.
        exact P2.
  - pose proof (hp_in _ _ _ H _ Ic) as (C1 & C2 & C3 & C4 & C5).
    apply Rd; try lia; try assumption. apply (hp_tagged _ _ _ H _ Ic).
Qed.

Lemma session_tags_agree_witness :
  exists bs,
    chain (mem_start_brk served + 32) bs (mem_start_brk served + mem_brk served) /\
    forall c, c = prologue served \/ In c bs ->
      get_size (p_to_header (b_ptr c)) served = Some (b_size c, served) /\
      (ft <- p_to_footer (b_ptr c) ;; get_size ft) served = Some (b_size c, served) /\
      exists a,
        get_alloc (p_to_header (b_ptr c)) served = Some (a, served) /\
        (ft <- p_to_footer (b_ptr c) ;; get_alloc ft) served = Some (a, served).
Proof.
  apply (session_tags_agree served [65568]).
  apply (session_malloc started [] 65552 16 65568 served).
  - apply (session_init arena0 started).
    + reflexivity.
    + reflexivity.
    + reflexivity.
    + reflexivity.
    + vm_compute. discriminate.
    + reflexivity.
    + apply (run_eq mm_init arena0 true). vm_compute. reflexivity.
  - left. vm_compute. reflexivity.
  - lia.
  - vm_compute. reflexivity.
  - apply (run_eq (malloc 65552 16) started 65568). vm_compute. reflexivity.
Defined.

(** C6, amended.  In every session the pointers that the caller owns,
    which are those that malloc, calloc and realloc have returned and
    that were not released since, are not null, multiples of 16, and
    inside the bounds of the arena. *)
Theorem session_pointers_aligned (s : heap) (L : list Z) (p : Z) :
  session s L -> In p L ->
  p <> NULL /\ p mod 16 = 0 /\ aligned p = true /\ in_heap p s = true.
Proof.
  intros Hs Hp. destruct (session_owns s L Hs) as (bs & fl & [H _] & HL).
  apply HL in Hp. destruct Hp as (c & [Ic _] & <-).
  pose proof (hp_in _ _ _ H _ Ic) as (C1 & C2 & C3 & C4 & C5).
  pose proof (hp_arena _ _ _ H) as [Alo Ahi].
  split; [unfold NULL; lia|]. split; [exact C5|]. split.
  - unfold aligned. rewrite align_id by lia. apply Z.eqb_refl.
  - unfold in_heap, mem_heap_hi, mem_heap_lo.
    destruct (Z.leb_spec (b_ptr c) (mem_start_brk s + mem_brk s - 1)); [|lia].
    destruct (Z.geb_spec (b_ptr c) (mem_start_brk s)); [reflexivity|lia].
Qed.

Lemma session_pointers_aligned_witness :
  65568 <> NULL /\ 65568 mod 16 = 0 /\ aligned 65568 = true /\
  in_heap 65568 served = true.
Proof.
  apply (session_pointers_aligned served [65568] 65568).
  - apply (session_malloc started [] 65552 16 65568 served).
    + apply (session_init arena0 started).
      * reflexivity.
      * reflexivity.
      * reflexivity.
      * reflexivity.
      * vm_compute. discriminate.
      * reflexivity.
      * apply (run_eq mm_init arena0 true). vm_compute. reflexivity.
    + left. vm_compute. reflexivity.
    + lia.
    + vm_compute. reflexivity.
    + apply (run_eq (malloc 65552 16) started 65568). vm_compute. reflexivity.
  - left. reflexivity.
Defined.

(** C7, amended.  In every session, a realloc of an owned pointer to
    [n] > 0 bytes, [n] small enough for its rounding not to wrap, that
    returns, returns a pointer that is not null and whose first
    min(n, capacity) bytes are those of the old payload before the call,
    the capacity being the size of the old block less the 16 bytes of
    header and footer. *)
Theorem session_realloc_content (s : heap) (L : list Z) (nb p n q : Z) (s' : heap) :
  session s L -> In p L -> calm s L nb ->
  0 < n -> n + 31 < wB ->
  realloc nb p n s = Some (q, s') ->
  q <> NULL /\
  forall i, 0 <= i < min n (block_size s p - 16) ->
    byte_at (bytes s') (q + i) = byte_at (bytes s) (p + i).
Proof.
  intros Hs Hp Hnb Hn0 Hn1 Hrun.
  destruct (session_owns s L Hs) as (bs & fl & W & HL).
  pose proof (calm_settled s bs fl L nb W HL Hnb) as Hst.
  apply HL in Hp. destruct Hp as (b & Lb & <-).
  pose proof W as [H _].
  pose proof (hp_in _ _ _ H _ (proj1 Lb)) as Hb.
  pose proof (hp_arena _ _ _ H) as [Alo Ahi].
  pose proof Hrun as Hrun'. unfold realloc in Hrun'.
  destruct (Z.eqb_spec (b_ptr b) NULL) as [E|_]; [unfold NULL in E; lia|].
  destruct (Z.eqb_spec n 0) as [E|_]; [lia|].
  apply bind_inv in Hrun'. destruct Hrun' as (p1 & s1 & R & _).
  destruct (wf_realloc s bs fl b nb n p1 s1 W Lb Hst Hn0 Hn1 R)
    as (s'' & bs' & fl' & b1 & Rr & _ & _ & _ & _ & Nn & _ & Cont & _).
  rewrite Rr in Hrun. injection Hrun as <- <-.
  split; [exact Nn|].
  intros i Hi. unfold byte_at. rewrite Cont; [reflexivity|].
  rewrite (block_size_live s bs fl b H (proj1 Lb)) in Hi.
  unfold min in Hi. destruct (Z.ltb_spec n (b_size b - 16)); lia.
Qed.

Lemma session_realloc_content_witness :
  65600 <> NULL /\
  forall i, 0 <= i < min 40 (block_size served 65568 - 16) ->
    byte_at (bytes (state_after (realloc 65552 65568 40) served)) (65600 + i) =
    byte_at (bytes served) (65568 + i).
Proof.
  apply (session_realloc_content served [65568] 65552 65568 40 65600
           (state_after (realloc 65552 65568 40) served)).
  - apply (session_malloc started [] 65552 16 65568 served).
    + apply (session_init arena0 started).
      * reflexivity.
      * reflexivity.
      * reflexivity.
      * reflexivity.
      * vm_compute. discriminate.
      * reflexivity.
      * apply (run_eq mm_init arena0 true). vm_compute. reflexivity.
    + left. vm_compute. reflexivity.
    + lia.
    + vm_compute. reflexivity.
    + apply (run_eq (malloc 65552 16) started 65568). vm_compute. reflexivity.
  - left. reflexivity.
  - left. vm_compute. reflexivity.
  - lia.
  - vm_compute. reflexivity.
  - apply (run_eq (realloc 65552 65568 40) served 65600). vm_compute. reflexivity.
Defined.

(** * Further properties of the code *)

(** ** Rounding and alignment *)

(* the value of align: the rounding when x + 15 does not wrap, 0 when it
   does *)
Lemma align_val (x : Z) :
  0 <= x < wB ->
  align x = if x + 15 <? wB then 16 * ((x + 15) / 16) else 0.
Proof.
  intros H. unfold align, ALIGNMENT.
  replace (x + 16 - 1) with (x + 15) by lia.
  destruct (Z.ltb_spec (x + 15) wB) as [Hs|Hl].
  - rewrite (wrap_small (x + 15)) by lia.
    pose proof (Z.div_mod (x + 15) 16 ltac:(lia)) as D.
    pose proof (Z.mod_pos_bound (x + 15) 16 ltac:(lia)) as R.
    apply wrap_small. lia.
  - assert (E : wrap (x + 15) = x + 15 - wB).
    { unfold wrap. symmetry. apply (Z.mod_unique (x + 15) wB 1); unfold wB in *; lia. }
    rewrite E. rewrite Z.div_small by lia. reflexivity.
Qed.

(** X1.  When x + 15 does not wrap, align x is the least multiple of 16
    that is not below x. *)
Theorem align_rounds_up (x : Z) :
  0 <= x -> x + 15 < wB ->
  align x mod 16 = 0 /\ x <= align x < x + 16 /\
  forall y, y mod 16 = 0 -> x <= y -> align x <= y.
Proof.
  intros H0 H1. rewrite align_val by lia.
  destruct (Z.ltb_spec (x + 15) wB) as [_|Hl]; [|lia].
  pose proof (Z.div_mod (x + 15) 16 ltac:(lia)) as D.
  pose proof (Z.mod_pos_bound (x + 15) 16 ltac:(lia)) as R.
  split; [|split; [lia|]].
  - rewrite Z.mul_comm. apply Z.mod_mul. lia.
  - intros y Hy Hxy.
    pose proof (Z.div_mod y 16 ltac:(lia)) as Dy. rewrite Hy in Dy.
    assert ((x + 15) / 16 <= y / 16); [|lia].
    apply Z.lt_succ_r. apply (Z.mul_lt_mono_pos_l 16); lia.
Qed.

Lemma align_rounds_up_witness :
  align 17 mod 16 = 0 /\ 17 <= align 17 < 17 + 16 /\
  forall y, y mod 16 = 0 -> 17 <= y -> align 17 <= y.
Proof. apply (align_rounds_up 17); [lia|reflexivity]. Defined.

(** X2.  For every pointer value, aligned holds exactly of the multiples
    of 16: also of the fifteen largest values, for which the sum in align
    wraps and gives 0. *)
Theorem aligned_iff_multiple (p : Z) :
  0 <= p < wB -> (aligned p = true <-> p mod 16 = 0).
Proof.
  intros H. unfold aligned. rewrite Z.eqb_eq. rewrite align_val by lia.
  pose proof (Z.div_mod p 16 ltac:(lia)) as D.
  pose proof (Z.mod_pos_bound p 16 ltac:(lia)) as R.
  destruct (Z.ltb_spec (p + 15) wB) as [Hs|Hl].
  - pose proof (Z.div_mod (p + 15) 16 ltac:(lia)) as D1.
    pose proof (Z.mod_pos_bound (p + 15) 16 ltac:(lia)) as R1.
    split.
    + intros E. rewrite <- E. rewrite Z.mul_comm. apply Z.mod_mul. lia.
    + intros E. rewrite E in D.
      assert ((p + 15) / 16 = p / 16); [|lia].
      symmetry. apply (Z.div_unique (p + 15) 16 (p / 16) 15); lia.
  - split.
    + intros <-. reflexivity.
    + intros E. exfalso. rewrite E in D. unfold wB in *. lia.
Qed.

Lemma aligned_iff_multiple_witness : aligned 65568 = true <-> 65568 mod 16 = 0.
Proof. apply (aligned_iff_multiple 65568). unfold wB. lia. Defined.

(** ** The size classes *)

(** X3.  The class index grows with the size: of two sizes the larger one
    is in the same class or in a later one, and every index is one of the
    fourteen lists. *)
Theorem search_seg_list_monotone (a b : Z) :
  a <= b -> 0 <= search_seg_list a <= search_seg_list b /\ search_seg_list b <= 13.
Proof.
  intros H. pose proof (search_seg_list_range a). pose proof (search_seg_list_range b).
  pose proof (search_seg_list_mono a b H). lia.
Qed.

Lemma search_seg_list_monotone_witness :
  0 <= search_seg_list 48 <= search_seg_list 4096 /\ search_seg_list 4096 <= 13.
Proof. apply (search_seg_list_monotone 48 4096). lia. Defined.

(** ** Words of the arena *)

(** X4.  A word written with put at an address of the arena is the word
    that get reads there afterwards, and the words that do not overlap it
    read as before. *)
Theorem put_then_get (a v : Z) (s : heap) :
  in_arena s a 8 = true -> 0 <= v < wB ->
  exists s',
    put a v s = Some (tt, s') /\ get a s' = Some (v, s') /\
    forall b, b + 8 <= a \/ a + 8 <= b -> result (get b) s' = result (get b) s.
Proof.
  intros Hin Hv. exists (set_bytes s (store8 (bytes s) a v)).
  split; [apply put_ok; exact Hin|]. split.
  - unfold get. rewrite in_arena_set_bytes, Hin. cbn [bytes set_bytes].
    rewrite load8_store8_same by exact Hv. reflexivity.
  - intros b Hb. unfold result, get. rewrite in_arena_set_bytes.
    destruct (in_arena s b 8); [|reflexivity].
    cbn [bytes set_bytes]. rewrite load8_store8_other by exact Hb. reflexivity.
Qed.

Lemma put_then_get_witness :
  exists s',
    put 65568 7 started = Some (tt, s') /\ get 65568 s' = Some (7, s') /\
    forall b, b + 8 <= 65568 \/ 65568 + 8 <= b ->
              result (get b) s' = result (get b) started.
Proof. apply (put_then_get 65568 7 started); [vm_compute; reflexivity|unfold wB; lia]. Defined.

(** ** Initialisation, whatever the provider grants *)

(* mm_init up to the growth of the arena, when the provider grants the 32
   bytes of the prologue *)
Lemma mm_init_prologue (s : heap) :
  mem_brk s = 0 -> 0 < mem_start_brk s -> mem_start_brk s + mem_max s < wB ->
  32 <= mem_max s -> length (seg_list s) = 14%nat ->
  exists s3,
    mm_init s = (r <- extend_heap EXTEND_SIZE ;;
                 if r =? NULL then ret false else ret true) s3 /\
    mem_brk s3 = 32 /\ mem_max s3 = mem_max s.
Proof.
  intros Hbrk Hlo Hmax Hcap Hlen.
  destruct (clear_seg_list_run 14 0 s Hlen ltac:(lia) ltac:(lia)) as (l & Rc & _).
  set (lo := mem_start_brk s) in *.
  assert (Elo : lo = mem_start_brk s) by reflexivity. clearbody lo.
  exists (mkHeap lo (mem_max s) 32
            (store8 (store8 (store8 (bytes s) lo 0) (lo + 8) 17) (lo + 16) 17) l lo).
  split; [|split; reflexivity].
  unfold mm_init. unfold SEG_LIST_SIZE. change (Z.to_nat 14) with 14%nat.
  step_by ltac:(exact Rc).
  assert (Sb : mem_sbrk MIN_BLOCK_SIZE (set_seg_list s l) =
               Some (lo, set_brk (set_seg_list s l) 32)).
  { unfold mem_sbrk, MIN_BLOCK_SIZE. cbn [set_seg_list mem_brk mem_max mem_start_brk].
    rewrite Hbrk, <- Elo.
    destruct (Z.leb_spec (0 + 32) (mem_max s)); [|lia].
    replace (lo + 0) with lo by lia. reflexivity. }
  step_by ltac:(exact Sb).
  unfold bind at 1. cbv beta iota.
  destruct (Z.eqb_spec lo NULL) as [E|_]; [unfold NULL in E; lia|].
  unfold HEADER_SIZE, FOOTER_SIZE.
  rewrite (wrap_small (lo + 8)) by lia. rewrite (wrap_small (lo + 2 * 8)) by lia.
  step_by ltac:(apply put_run;
                cbn [set_heap_list_ptr set_brk set_seg_list mem_start_brk mem_brk]; lia).
  step_by ltac:(apply put_run;
                cbn [set_bytes set_heap_list_ptr set_brk set_seg_list
                       mem_start_brk mem_brk]; lia).
  step_by ltac:(apply put_run;
                cbn [set_bytes set_heap_list_ptr set_brk set_seg_list
                       mem_start_brk mem_brk]; lia).
  change (pack (2 * 8) 1) with 17.
  unfold set_bytes, set_heap_list_ptr, set_brk, set_seg_list.
  cbn [mem_start_brk mem_max mem_brk bytes seg_list heap_list_ptr].
  rewrite <- Elo. reflexivity.
Qed.

(** X5.  mm_init on an arena that has granted nothing has three outcomes.
    When the provider can grant the prologue and the first block of 4096
    bytes, it returns true and a session starts.  When the provider can
    grant the prologue only, it returns false.  When the provider cannot
    grant the prologue, it does not return false: the result of mem_sbrk
    is tested against NULL, the failure value is (void * )-1, and the
    first store goes to that address. *)
Theorem mm_init_outcomes (s : heap) :
  mem_brk s = 0 -> 0 < mem_start_brk s -> mem_start_brk s mod 16 = 0 ->
  0 <= mem_max s -> mem_start_brk s + mem_max s < wB ->
  length (seg_list s) = 14%nat ->
  (32 + 4096 <= mem_max s ->
     exists s', mm_init s = Some (true, s') /\ session s' []) /\
  (32 <= mem_max s < 32 + 4096 ->
     exists s', mm_init s = Some (false, s') /\ mem_brk s' = 32) /\
  (mem_max s < 32 -> mm_init s = None).
Proof.
  intros Hbrk Hlo Hal Hpos Hmax Hlen. split; [|split].
  - intros Hcap.
    destruct (wf_mm_init s Hbrk Hlo Hal Hmax Hcap Hlen) as (s' & bs & fl & R & _).
    exists s'. split; [exact R|].
    apply (session_init s s' Hbrk Hlo Hal Hmax Hcap Hlen R).
  - intros Hcap.
    destruct (mm_init_prologue s Hbrk Hlo Hmax ltac:(lia) Hlen) as (s3 & R & B3 & M3).
    exists s3. split; [|exact B3].
    rewrite R.
    step_by ltac:(apply extend_heap_exhausted; rewrite B3, M3;
                  change (align EXTEND_SIZE) with 4096; lia).
    reflexivity.
  - intros Hcap.
    destruct (clear_seg_list_run 14 0 s Hlen ltac:(lia) ltac:(lia)) as (l & Rc & _).
    unfold mm_init. unfold SEG_LIST_SIZE. change (Z.to_nat 14) with 14%nat.
    step_by ltac:(exact Rc).
    assert (Sb : mem_sbrk MIN_BLOCK_SIZE (set_seg_list s l) =
                 Some (MINUS_ONE, set_seg_list s l)).
    { unfold mem_sbrk, MIN_BLOCK_SIZE. cbn [set_seg_list mem_brk mem_max mem_start_brk].
      rewrite Hbrk.
      destruct (Z.leb_spec (0 + 32) (mem_max s)); [lia|]. reflexivity. }
    step_by ltac:(exact Sb).
    unfold bind at 1. cbv beta iota.
    change (MINUS_ONE =? NULL) with false. cbv iota.
    apply bind_none. unfold put, in_arena.
    cbn [set_heap_list_ptr set_seg_list mem_start_brk mem_brk].
    rewrite Hbrk.
    destruct (Z.leb_spec (MINUS_ONE + 8) (mem_start_brk s + 0)) as [Hle|_].
    + unfold MINUS_ONE in Hle. unfold wB in *. lia.
    + now rewrite andb_false_r.
Qed.

Lemma mm_init_outcomes_witness :
  (32 + 4096 <= mem_max arena0 ->
     exists s', mm_init arena0 = Some (true, s') /\ session s' []) /\
  (32 <= mem_max arena0 < 32 + 4096 ->
     exists s', mm_init arena0 = Some (false, s') /\ mem_brk s' = 32) /\
  (mem_max arena0 < 32 -> mm_init arena0 = None).
Proof.
  apply (mm_init_outcomes arena0).
  - reflexivity.
  - reflexivity.
  - reflexivity.
  - vm_compute. discriminate.
  - reflexivity.
  - reflexivity.
Defined.

(** ** What the calls of a session leave alone *)

(* a session on the arena of the scenarios: mm_init, then a request of 16
   bytes *)
Ltac served_session :=
  apply (session_malloc started [] 65552 16 65568 served);
  [ apply (session_init arena0 started);
    [ reflexivity | reflexivity | reflexivity | reflexivity
    | vm_compute; discriminate | reflexivity
    | apply (run_eq mm_init arena0 true); vm_compute; reflexivity ]
  | left; vm_compute; reflexivity
  | lia
  | vm_compute; reflexivity
  | apply (run_eq (malloc 65552 16) started 65568); vm_compute; reflexivity ].

(* a block of two heaps whose bytes are the same in both *)
Lemma block_untouched (s s' : heap) (bs bs' : list blk) (fl fl' : lists) (c : blk) :
  hp s bs fl -> hp s' bs' fl' -> In c bs -> In c bs' ->
  (forall a, in_block c a -> bytes s' a = bytes s a) ->
  untouched s s' (b_ptr c).
Proof.
  intros H H' Ic Ic' K. split.
  - rewrite (block_size_live s bs fl c H Ic), (block_size_live s' bs' fl' c H' Ic').
    reflexivity.
  - intros a Ha. unfold payload in Ha.
    rewrite (block_size_live s bs fl c H Ic) in Ha.
    apply K. unfold in_block. lia.
Qed.







(** X9.  In a session the release of an owned pointer returns, leaves the
    bounds of the arena as they are (the arena never shrinks), and every
    other owned block keeps its size and its payload bytes. *)
Theorem session_free_isolated (s : heap) (L : list Z) (p : Z) :
  session s L -> In p L ->
  exists s',
    free p s = Some (tt, s') /\ same_arena s s' /\
    forall q, In q L -> q <> p -> untouched s s' q.
Proof.
  intros Hs Hp.
  destruct (session_owns s L Hs) as (bs & fl & W & HL).
  pose proof Hp as Hp'. apply HL in Hp'. destruct Hp' as (b & Lb & <-).
  destruct (in_split _ _ (proj1 Lb)) as (pre & post & E).
  pose proof W as [H _].
  revert W Lb HL H. rewrite E. intros W Lb HL H.
  destruct (wf_free s fl pre post b W (proj2 Lb))
    as (s' & bs' & fl' & b' & Rf & W' & Ar & Ch & _ & _ & _ & _ & Live & _).
  pose proof W' as [H' _].
  exists s'. split; [exact Rf|]. split; [exact Ar|].
  intros q Hq Hne. apply HL in Hq. destruct Hq as (c & Lc & <-).
  assert (Ncb : c <> b) by (intros ->; apply Hne; reflexivity).
  apply (block_untouched s s' _ bs' fl fl' c H H' (proj1 Lc)).
  - apply Live. split; assumption.
  - intros a Ha.
    apply (keeps_but s _ fl b (bytes s) (bytes s') H (proj1 Lb) Ch c a Lc Ncb Ha).
Qed.

Lemma session_free_isolated_witness :
  exists s',
    free 65568 served_twice = Some (tt, s') /\
    same_arena served_twice s' /\
    forall q, In q [65600; 65568] -> q <> 65568 ->
              untouched served_twice s' q.
Proof.
  apply (session_free_isolated served_twice
           [65600; 65568] 65568).
  - apply (session_malloc served [65568] 65552 16 65600
             served_twice).
    + served_session.
    + left. vm_compute. reflexivity.
    + lia.
    + vm_compute. reflexivity.
    + apply (run_eq (malloc 65552 16) served 65600). vm_compute. reflexivity.
  - right. left. reflexivity.
Defined.



(** ** The free lists of a session *)

(* the walk of the list of a class meets the members of the list, in
   their order *)
Lemma hp_candidates (s : heap) (bs : list blk) (fl : lists) (k : Z) (n : nat) :
  hp s bs fl -> 0 <= k < 14 ->
  candidates s n (nth (Z.to_nat k) (seg_list s) NULL) = firstn n (fl k).
Proof.
  intros H Hk. rewrite (hp_heads _ _ _ H k Hk).
  apply (candidates_dll s n NULL (fl k) (hp_links _ _ _ H k Hk)).
  intros x Hx. destruct (hp_listed _ _ _ H k x Hk Hx) as (b & Ib & <- & _).
  pose proof (hp_in _ _ _ H _ Ib). pose proof (hp_arena _ _ _ H). lia.
Qed.

(* in a list every next link that is not null leads to a member whose
   previous link leads back *)
Lemma dll_next_prev (m : store) (p : Z) (l : list Z) (x : Z) :
  dll m p l NULL -> In x l -> load8 m (x + 8) <> NULL ->
  In (load8 m (x + 8)) l /\ load8 m (load8 m (x + 8)) = x.
Proof.
  revert p. induction l as [|a r IH]; intros p Hd Hx Hn; [destruct Hx|].
  cbn [dll] in Hd. destruct Hd as (_ & Hnx & Hr).
  destruct Hx as [->|Hx].
  - rewrite Hnx in *. destruct r as [|y r']; [destruct Hn; reflexivity|].
    cbn [hd] in *. cbn [dll] in Hr. destruct Hr as (Hp & _).
    split; [right; left; reflexivity|exact Hp].
  - destruct (IH a Hr Hx Hn) as [I1 I2]. split; [right; exact I1|exact I2].
Qed.

(** X11.  In every session the walk of the list of class k, from the head
    seg_list[k] along the next links, meets only blocks of the arena whose
    size is of class k and that the caller does not own, aligned on 16
    bytes; it meets no block twice. *)
Theorem session_free_lists (s : heap) (L : list Z) (k : Z) (n : nat) :
  session s L -> 0 <= k < 14 ->
  NoDup (candidates s n (nth (Z.to_nat k) (seg_list s) NULL)) /\
  forall x, In x (candidates s n (nth (Z.to_nat k) (seg_list s) NULL)) ->
    search_seg_list (block_size s x) = k /\ ~ In x L /\ x mod 16 = 0 /\
    mem_start_brk s + 32 <= x /\ x + block_size s x <= mem_start_brk s + mem_brk s.
Proof.
  intros Hs Hk. destruct (session_owns s L Hs) as (bs & fl & W & HL).
  pose proof W as [H _].
  rewrite (hp_candidates s bs fl k n H Hk). split.
  - pose proof (hp_nodup _ _ _ H k Hk) as Nd.
    rewrite <- (firstn_skipn n (fl k)) in Nd. apply NoDup_app_remove_r in Nd. exact Nd.
  - intros x Hx. apply in_firstn in Hx.
    destruct (hp_listed _ _ _ H k x Hk Hx) as (b & Ib & <- & Cb).
    rewrite (block_size_live s bs fl b H Ib).
    pose proof (hp_in _ _ _ H _ Ib) as (B1 & B2 & B3 & B4 & B5).
    split; [exact Cb|]. split; [|split; [exact B5|split; assumption]].
    intros Hin. apply HL in Hin. destruct Hin as (c & [Ic Nc] & Ec).
    apply Nc. unfold listed.
    rewrite (chain_ptr_inj _ _ _ c b (hp_chain _ _ _ H) Ic Ib Ec).
    rewrite Cb. exact Hx.
Qed.

Lemma session_free_lists_witness :
  NoDup (candidates served 32 (nth (Z.to_nat 7) (seg_list served) NULL)) /\
  forall x, In x (candidates served 32 (nth (Z.to_nat 7) (seg_list served) NULL)) ->
    search_seg_list (block_size served x) = 7 /\ ~ In x [65568] /\ x mod 16 = 0 /\
    mem_start_brk served + 32 <= x /\
    x + block_size served x <= mem_start_brk served + mem_brk served.
Proof.
  apply (session_free_lists served [65568] 7 32).
  - served_session.
  - lia.
Defined.

(** X12.  In every session the lists are doubly linked: the previous link
    of the head seg_list[k] is NULL, and when the next link of a block met
    on the walk of a list is not NULL, the previous link of the block it
    leads to leads back. *)
Theorem session_lists_doubly_linked (s : heap) (L : list Z) (k : Z) (n : nat) :
  session s L -> 0 <= k < 14 ->
  (nth (Z.to_nat k) (seg_list s) NULL <> NULL ->
   prev_listbp (nth (Z.to_nat k) (seg_list s) NULL) s = Some (NULL, s)) /\
  forall x, In x (candidates s n (nth (Z.to_nat k) (seg_list s) NULL)) ->
    exists y, next_listbp x s = Some (y, s) /\
              (y <> NULL -> prev_listbp y s = Some (x, s)).
Proof.
  intros Hs Hk. destruct (session_owns s L Hs) as (bs & fl & [H _] & _).
  pose proof (hp_arena _ _ _ H) as [Alo Ahi].
  assert (Rd : forall x, In x (fl k) ->
                 in_arena s x 8 = true /\ in_arena s (x + 8) 8 = true /\
                 0 < x /\ x + 16 <= wB).
  { intros x Hx. destruct (hp_listed _ _ _ H k x Hk Hx) as (b & Ib & <- & _).
    pose proof (hp_in _ _ _ H _ Ib).
    split; [|split]; [apply in_arena_intro; lia|apply in_arena_intro; lia|lia]. }
  pose proof (hp_links _ _ _ H k Hk) as Hd.
  split.
  - rewrite (hp_heads _ _ _ H k Hk). intros Hn.
    destruct (fl k) as [|h r] eqn:E; [destruct Hn; reflexivity|].
    cbn [hd] in *. cbn [dll] in Hd. destruct Hd as (Hp & _).
    destruct (Rd h (or_introl eq_refl)) as (A1 & _).
    unfold prev_listbp, get. rewrite A1, Hp. reflexivity.
  - rewrite (hp_candidates s bs fl k n H Hk). intros x Hx. apply in_firstn in Hx.
    destruct (Rd x Hx) as (A1 & A2 & A3 & A4).
    exists (load8 (bytes s) (x + 8)). split.
    + unfold next_listbp, next_freebp, get.
      rewrite wrap_small by lia. rewrite A2. reflexivity.
    + intros Hn. destruct (dll_next_prev _ _ _ x Hd Hx Hn) as [Iy Ey].
      destruct (Rd _ Iy) as (B1 & _).
      unfold prev_listbp, get. rewrite B1, Ey. reflexivity.
Qed.

Lemma session_lists_doubly_linked_witness :
  (nth (Z.to_nat 7) (seg_list served) NULL <> NULL ->
   prev_listbp (nth (Z.to_nat 7) (seg_list served) NULL) served = Some (NULL, served)) /\
  forall x, In x (candidates served 32 (nth (Z.to_nat 7) (seg_list served) NULL)) ->
    exists y, next_listbp x served = Some (y, served) /\
              (y <> NULL -> prev_listbp y served = Some (x, served)).
Proof.
  apply (session_lists_doubly_linked served [65568] 7 32).
  - served_session.
  - lia.
Defined.

(** ** Insertion into a list and removal from it *)

(* the first m members of a list without one of its members *)
Lemma firstn_remove_mid (x : Z) (l1 l2 : list Z) (m : nat) :
  ~ In x l1 -> ~ In x l2 ->
  firstn m (remove Z.eq_dec x (firstn (S m) (l1 ++ x :: l2))) = firstn m (l1 ++ l2).
Proof.
  revert m. induction l1 as [|a r IH]; intros m N1 N2.
  - cbn [app firstn remove]. destruct (Z.eq_dec x x) as [_|N]; [|destruct N; reflexivity].
    rewrite notin_remove by (intros Hx; apply N2; apply (in_firstn m l2 x Hx)).
    rewrite firstn_firstn. rewrite Nat.min_id. reflexivity.
  - cbn [app firstn remove].
    destruct (Z.eq_dec x a) as [E|_]; [destruct N1; left; symmetry; exact E|].
    destruct m as [|m]; [reflexivity|].
    cbn [firstn]. f_equal. apply IH; [|exact N2].
    intros Hx. apply N1. right. exact Hx.
Qed.

Lemma firstn_remove_out (x : Z) (l : list Z) (m : nat) :
  ~ In x l -> firstn m (remove Z.eq_dec x (firstn (S m) l)) = firstn m l.
Proof.
  intros N.
  rewrite notin_remove by (intros Hx; apply N; apply (in_firstn (S m) l x Hx)).
  rewrite firstn_firstn. f_equal. lia.
Qed.

(* what changes in the listed blocks only leaves the owned blocks alone *)
Lemma owned_untouched (s s' : heap) (bs : list blk) (fl fl' : lists) (L : list Z) :
  hp s bs fl -> hp s' bs fl' ->
  (forall p, In p L <-> exists c, live bs fl c /\ b_ptr c = p) ->
  changes_within (free_region bs fl) (bytes s) (bytes s') ->
  forall q, In q L -> untouched s s' q.
Proof.
  intros H H' HL Ch q Hq. apply HL in Hq. destruct Hq as (c & Lc & <-).
  apply (block_untouched s s' bs bs fl fl' c H H' (proj1 Lc) (proj1 Lc)).
  intros a Ha.
  refine (keeps_intro s bs fl (bytes s) (bytes s') H _ c a Lc Ha).
  apply (changes_within_weaken _ _ _ _ Ch). intros y Hy. right. exact Hy.
Qed.

(** X13.  In a session add_list_block of an owned block, with the size
    its header gives, makes the block the head of the list of its class:
    the walk of that list is the block followed by the former walk, the
    previous link of the block is NULL, and the walks of the other lists
    are as before. *)
Theorem add_list_block_head (s : heap) (L : list Z) (p : Z) :
  session s L -> In p L ->
  let k := search_seg_list (block_size s p) in
  exists s',
    add_list_block p (block_size s p) s = Some (tt, s') /\
    nth (Z.to_nat k) (seg_list s') NULL = p /\
    prev_listbp p s' = Some (NULL, s') /\
    (forall n, candidates s' (S n) p =
               p :: candidates s n (nth (Z.to_nat k) (seg_list s) NULL)) /\
    (forall j n, 0 <= j < 14 -> j <> k ->
       candidates s' n (nth (Z.to_nat j) (seg_list s') NULL) =
       candidates s n (nth (Z.to_nat j) (seg_list s) NULL)).
Proof.
  intros Hs Hp k. destruct (session_owns s L Hs) as (bs & fl & [H _] & HL).
  apply HL in Hp. destruct Hp as (b & [Ib Nb] & <-).
  unfold k. rewrite (block_size_live s bs fl b H Ib). clear k.
  set (k := search_seg_list (b_size b)).
  assert (Hk : 0 <= k < 14) by (pose proof (search_seg_list_range (b_size b)); unfold k; lia).
  destruct (hp_add s bs fl b (b_size b) H Ib Nb eq_refl) as (R & H' & _). fold k in R, H'.
  set (s' := set_bytes (set_seg_list s (list_set (seg_list s) (Z.to_nat k) (b_ptr b)))
               (link_head_store (bytes s) (b_ptr b) (hd NULL (fl k)))) in *.
  clearbody s'.
  pose proof (hp_in _ _ _ H' _ Ib) as (B1 & B2 & B3 & _).
  exists s'. split; [exact R|].
  assert (Hd : nth (Z.to_nat k) (seg_list s') NULL = b_ptr b)
    by (rewrite (hp_heads _ _ _ H' k Hk), upd_same; reflexivity).
  split; [exact Hd|]. split; [|split].
  - pose proof (hp_links _ _ _ H' k Hk) as D. rewrite upd_same in D.
    cbn [dll] in D. destruct D as (Dp & _).
    unfold prev_listbp, get.
    replace (in_arena s' (b_ptr b) 8) with true by (symmetry; apply in_arena_intro; lia).
    rewrite Dp. reflexivity.
  - intros n. rewrite <- Hd at 1.
    rewrite (hp_candidates s' bs _ k (S n) H' Hk), upd_same.
    rewrite (hp_candidates s bs fl k n H Hk). reflexivity.
  - intros j n Hj Hne.
    rewrite (hp_candidates s' bs _ j n H' Hj), (upd_other _ _ _ _ Hne).
    rewrite (hp_candidates s bs fl j n H Hj). reflexivity.
Qed.

Lemma add_list_block_head_witness :
  let k := search_seg_list (block_size served 65568) in
  exists s',
    add_list_block 65568 (block_size served 65568) served = Some (tt, s') /\
    nth (Z.to_nat k) (seg_list s') NULL = 65568 /\
    prev_listbp 65568 s' = Some (NULL, s') /\
    (forall n, candidates s' (S n) 65568 =
               65568 :: candidates served n (nth (Z.to_nat k) (seg_list served) NULL)) /\
    (forall j n, 0 <= j < 14 -> j <> k ->
       candidates s' n (nth (Z.to_nat j) (seg_list s') NULL) =
       candidates served n (nth (Z.to_nat j) (seg_list served) NULL)).
Proof.
  apply (add_list_block_head served [65568] 65568).
  - served_session.
  - left. reflexivity.
Defined.

(** X14.  In a session delete_list_blcok of a block met on the walk of a
    list returns and unlinks that block only: afterwards the walk of
    every list is the former walk without the block, in the same order.
    The arena keeps its bounds and every owned block its size and its
    payload bytes. *)
Theorem delete_list_blcok_unlinks (s : heap) (L : list Z) (k : Z) (n : nat) (x : Z) :
  session s L -> 0 <= k < 14 ->
  In x (candidates s n (nth (Z.to_nat k) (seg_list s) NULL)) ->
  exists s',
    delete_list_blcok x s = Some (tt, s') /\ same_arena s s' /\
    (forall j m, 0 <= j < 14 ->
       candidates s' m (nth (Z.to_nat j) (seg_list s') NULL) =
       firstn m (remove Z.eq_dec x
                   (candidates s (S m) (nth (Z.to_nat j) (seg_list s) NULL)))) /\
    forall q, In q L -> untouched s s' q.
Proof.
  intros Hs Hk Hx. destruct (session_owns s L Hs) as (bs & fl & [H _] & HL).
  rewrite (hp_candidates s bs fl k n H Hk) in Hx. apply in_firstn in Hx.
  destruct (hp_listed _ _ _ H k x Hk Hx) as (b & Ib & <- & Cb).
  assert (Lb : listed fl b) by (unfold listed; rewrite Cb; exact Hx).
  destruct (hp_delete s bs fl b H Ib Lb) as (l1 & l2 & s' & E & R & H' & Ar & Ch).
  rewrite Cb in E, H'.
  pose proof (hp_nodup _ _ _ H k Hk) as Nd. rewrite E in Nd.
  apply NoDup_remove_2 in Nd.
  exists s'. split; [exact R|]. split; [exact Ar|]. split.
  - intros j m Hj.
    rewrite (hp_candidates s' bs _ j m H' Hj), (hp_candidates s bs fl j (S m) H Hj).
    destruct (Z.eq_dec j k) as [->|Hne].
    + rewrite upd_same, E. symmetry. apply firstn_remove_mid.
      * intros I1. apply Nd. apply in_or_app. left. exact I1.
      * intros I2. apply Nd. apply in_or_app. right. exact I2.
    + rewrite (upd_other _ _ _ _ Hne). symmetry. apply firstn_remove_out.
      intros Ij. apply Hne. apply (hp_member_class _ _ _ H j k (b_ptr b) Hj Hk Ij Hx).
  - apply (owned_untouched s s' bs fl _ L H H' HL Ch).
Qed.

Lemma delete_list_blcok_unlinks_witness :
  exists s',
    delete_list_blcok 65600 served = Some (tt, s') /\ same_arena served s' /\
    (forall j m, 0 <= j < 14 ->
       candidates s' m (nth (Z.to_nat j) (seg_list s') NULL) =
       firstn m (remove Z.eq_dec 65600
                   (candidates served (S m) (nth (Z.to_nat j) (seg_list served) NULL)))) /\
    forall q, In q [65568] -> untouched served s' q.
Proof.
  apply (delete_list_blcok_unlinks served [65568] 7 32 65600).
  - served_session.
  - lia.
  - vm_compute. left. reflexivity.
Defined.

(** X15.  In a session add_list_block of an owned block followed by
    delete_list_blcok of the same block returns and gives back the
    fourteen heads and the walk of every list. *)
Theorem add_then_delete_restores (s : heap) (L : list Z) (p : Z) :
  session s L -> In p L ->
  exists s',
    (add_list_block p (block_size s p) ;; delete_list_blcok p) s = Some (tt, s') /\
    seg_list s' = seg_list s /\
    forall j n, 0 <= j < 14 ->
      candidates s' n (nth (Z.to_nat j) (seg_list s') NULL) =
      candidates s n (nth (Z.to_nat j) (seg_list s) NULL).
Proof.
  intros Hs Hp. destruct (session_owns s L Hs) as (bs & fl & [H _] & HL).
  apply HL in Hp. destruct Hp as (b & [Ib Nb] & <-).
  rewrite (block_size_live s bs fl b H Ib).
  set (k := search_seg_list (b_size b)).
  assert (Hk : 0 <= k < 14) by (pose proof (search_seg_list_range (b_size b)); unfold k; lia).
  destruct (hp_add s bs fl b (b_size b) H Ib Nb eq_refl) as (R1 & H1 & _).
  fold k in R1, H1.
  set (s1 := set_bytes (set_seg_list s (list_set (seg_list s) (Z.to_nat k) (b_ptr b)))
               (link_head_store (bytes s) (b_ptr b) (hd NULL (fl k)))) in *.
  clearbody s1.
  assert (Lb1 : listed (upd fl k (b_ptr b :: fl k)) b).
  { unfold listed. fold k. rewrite upd_same. left. reflexivity. }
  destruct (hp_delete s1 bs _ b H1 Ib Lb1) as (l1 & l2 & s2 & E & R2 & H2 & _).
  fold k in E, R2, H2. rewrite upd_same in E.
  assert (E1 : l1 = [] /\ l2 = fl k).
  { pose proof (hp_nodup _ _ _ H1 k Hk) as Nd. rewrite upd_same in Nd.
    destruct l1 as [|a r].
    - injection E as E. split; [reflexivity|symmetry; exact E].
    - injection E as Ea Er. subst a. apply NoDup_cons_iff in Nd.
      destruct Nd as [Nd _]. destruct Nd. rewrite Er.
      apply in_or_app. right. left. reflexivity. }
  destruct E1 as [-> ->]. cbn [app] in H2.
  assert (Hh : forall j, 0 <= j < 14 ->
                 nth (Z.to_nat j) (seg_list s2) NULL = nth (Z.to_nat j) (seg_list s) NULL).
  { intros j Hj. rewrite (hp_heads _ _ _ H2 j Hj), (hp_heads _ _ _ H j Hj).
    unfold upd. destruct (Z.eqb_spec j k) as [->|_]; reflexivity. }
  exists s2. split; [|split].
  - step_by ltac:(exact R1). exact R2.
  - apply (nth_ext _ _ NULL NULL).
    + rewrite (hp_len _ _ _ H2), (hp_len _ _ _ H). reflexivity.
    + intros i Hi. rewrite (hp_len _ _ _ H2) in Hi.
      pose proof (Hh (Z.of_nat i) ltac:(lia)) as Hi'.
      rewrite Nat2Z.id in Hi'. exact Hi'.
  - intros j n Hj.
    rewrite (hp_candidates s2 bs _ j n H2 Hj), (hp_candidates s bs fl j n H Hj).
    unfold upd. destruct (Z.eqb_spec j k) as [->|_]; reflexivity.
Qed.

Lemma add_then_delete_restores_witness :
  exists s',
    (add_list_block 65568 (block_size served 65568) ;; delete_list_blcok 65568) served =
      Some (tt, s') /\
    seg_list s' = seg_list served /\
    forall j n, 0 <= j < 14 ->
      candidates s' n (nth (Z.to_nat j) (seg_list s') NULL) =
      candidates served n (nth (Z.to_nat j) (seg_list served) NULL).
Proof.
  apply (add_then_delete_restores served [65568] 65568).
  - served_session.
  - left. reflexivity.
Defined.

(** ** Neighbours in the arena *)

(** X16.  In a session next_bp of an owned pointer p is the address
    after its block, prev_bp leads from there back to p, and prev_bp of p
    is a lower address from which next_bp leads back to p: the two
    navigations are inverse of each other around an owned block. *)
Theorem session_neighbours (s : heap) (L : list Z) (p : Z) :
  session s L -> In p L ->
  next_bp p s = Some (p + block_size s p, s) /\
  prev_bp (p + block_size s p) s = Some (p, s) /\
  exists r, prev_bp p s = Some (r, s) /\ r < p /\ next_bp r s = Some (p, s).
Proof.
  intros Hs Hp. destruct (session_owns s L Hs) as (bs & fl & [H _] & HL).
  apply HL in Hp. destruct Hp as (b & [Ib _] & <-).
  rewrite (block_size_live s bs fl b H Ib).
  pose proof (hp_arena _ _ _ H) as [Alo Ahi].
  pose proof (hp_in _ _ _ H _ Ib) as (B1 & B2 & B3 & B4 & B5).
  destruct (rd_block _ _ _ H b Ib) as (_ & _ & _ & N).
  destruct (hp_tagged _ _ _ H _ Ib) as [_ T2].
  destruct (in_split _ _ Ib) as (pre & post & E).
  revert H. rewrite E. intros H.
  destruct (rd_prev s fl pre post b H) as (P & _).
  destruct (hp_prev _ _ _ H pre post b eq_refl) as (Y1 & Y2 & Y3 & Y4 & _ & Y6 & _).
  split; [exact N|]. split.
  - assert (Hw : wrap (b_ptr b + b_size b - 16) = b_ptr b + b_size b - 16)
      by (apply wrap_small; lia).
    rewrite (prev_bp_val (b_ptr b + b_size b) (tagw b)).
    + rewrite tagw_size by lia. rewrite wrap_small by lia. f_equal. f_equal. lia.
    + rewrite Hw. apply in_arena_intro; lia.
    + rewrite Hw. exact T2.
  - exists (b_ptr (last pre (prologue s))). split; [exact P|]. split; [lia|].
    destruct (read_header s (last pre (prologue s))) as (_ & _ & _ & Ny);
      try lia; try assumption.
    rewrite Ny. rewrite wrap_small by lia. rewrite Y1. reflexivity.
Qed.

Lemma session_neighbours_witness :
  next_bp 65568 served = Some (65568 + block_size served 65568, served) /\
  prev_bp (65568 + block_size served 65568) served = Some (65568, served) /\
  exists r, prev_bp 65568 served = Some (r, served) /\ r < 65568 /\
            next_bp r served = Some (65568, served).
Proof.
  apply (session_neighbours served [65568] 65568).
  - served_session.
  - left. reflexivity.
Defined.

(** X17.  In a session every owned pointer passes the two checks that the
    source keeps for debugging: in_heap and aligned. *)
Theorem session_pointers_pass_checks (s : heap) (L : list Z) (p : Z) :
  session s L -> In p L -> in_heap p s = true /\ aligned p = true.
Proof.
  intros Hs Hp. destruct (session_owns s L Hs) as (bs & fl & [H _] & HL).
  apply HL in Hp. destruct Hp as (b & [Ib _] & <-).
  pose proof (hp_arena _ _ _ H) as [Alo Ahi].
  pose proof (hp_in _ _ _ H _ Ib) as (B1 & B2 & B3 & B4 & B5).
  split.
  - unfold in_heap, mem_heap_hi, mem_heap_lo.
    apply andb_true_iff. split; [apply Z.leb_le; lia|apply Z.geb_le; lia].
  - unfold aligned. apply Z.eqb_eq. apply align_id; [lia|lia|exact B5].
Qed.

Lemma session_pointers_pass_checks_witness :
  in_heap 65568 served = true /\ aligned 65568 = true.
Proof.
  apply (session_pointers_pass_checks served [65568] 65568).
  - served_session.
  - left. reflexivity.
Defined.

(** ** Growth, merging and placement inside a session *)

(* the pointers owned after a step that keeps the live blocks *)
Lemma owns_same (s' : heap) (bs bs' : list blk) (fl fl' : lists) (L : list Z) :
  wf s' bs' fl' ->
  (forall p, In p L <-> exists c, live bs fl c /\ b_ptr c = p) ->
  (forall c, live bs fl c <-> live bs' fl' c) ->
  owns s' L.
Proof.
  intros W' HL Live. exists bs', fl'. split; [exact W'|].
  intros p. rewrite HL. split; intros (c & Lc & Ec); exists c; split;
    try exact Ec; apply Live; exact Lc.
Qed.

(** X18.  In a session extend_heap for a size that is a multiple of 16,
    32 at least, has two outcomes.  When the provider grants the bytes it
    returns a pointer that is not NULL to a block of that size at least,
    the break has moved by that size, the heap is well formed with the
    same owned pointers, and every owned block keeps its size and its
    payload bytes.  When the provider refuses it returns NULL and the
    state is as before. *)
Theorem session_extend_heap (s : heap) (L : list Z) (n : Z) :
  session s L -> 32 <= n < wB -> n mod 16 = 0 ->
  (mem_brk s + n <= mem_max s ->
   exists p s',
     extend_heap n s = Some (p, s') /\ p <> NULL /\
     mem_brk s' = mem_brk s + n /\ n <= block_size s' p /\
     owns s' L /\ forall q, In q L -> untouched s s' q) /\
  (mem_max s < mem_brk s + n -> extend_heap n s = Some (NULL, s)).
Proof.
  intros Hs Hn Hm. destruct (session_owns s L Hs) as (bs & fl & [H Hf] & HL).
  split.
  - intros Hroom.
    destruct (wf_extend s bs fl n (hp_open_intro _ _ _ H) Hf ltac:(lia) Hm Hroom)
      as (s' & bs' & fl' & b' & R & W' & Ib' & _ & Sb' & G1 & G2 & G3 & C & Live & _).
    pose proof W' as [H' _].
    pose proof (hp_in _ _ _ H' _ Ib') as (B1 & _).
    pose proof (hp_arena _ _ _ H') as [Alo _].
    exists (b_ptr b'), s'. split; [exact R|]. split; [unfold NULL; lia|].
    split; [exact G3|].
    split; [rewrite (block_size_live s' bs' fl' b' H' Ib'); exact Sb'|].
    split; [apply (owns_same s' bs bs' fl fl' L W' HL Live)|].
    intros q Hq. apply HL in Hq. destruct Hq as (c & Lc & <-).
    apply (block_untouched s s' bs bs' fl fl' c H H' (proj1 Lc)).
    + apply Live. exact Lc.
    + intros a Ha. apply (keeps_intro s bs fl (bytes s) (bytes s') H C c a Lc Ha).
  - intros Hfull. apply extend_heap_exhausted.
    rewrite align_id; [lia|lia| |exact Hm].
    pose proof (Z.div_mod n 16 ltac:(lia)) as D. rewrite Hm in D.
    unfold wB in *. lia.
Qed.

Lemma session_extend_heap_witness :
  (mem_brk served + 4096 <= mem_max served ->
   exists p s',
     extend_heap 4096 served = Some (p, s') /\ p <> NULL /\
     mem_brk s' = mem_brk served + 4096 /\ 4096 <= block_size s' p /\
     owns s' [65568] /\ forall q, In q [65568] -> untouched served s' q) /\
  (mem_max served < mem_brk served + 4096 -> extend_heap 4096 served = Some (NULL, served)).
Proof.
  apply (session_extend_heap served [65568] 4096).
  - served_session.
  - unfold wB. lia.
  - reflexivity.
Defined.

(** X19.  In a session coalesce of a block met on the walk of a list
    returns the address of the merged block: the block itself, or the
    previous block when that one is marked free.  The size of the merged
    block adds the sizes of the neighbours marked free.  The arena keeps
    its bounds, the heap is well formed with the same owned pointers, and
    every owned block keeps its size and its payload bytes. *)
Theorem session_coalesce_merges (s : heap) (L : list Z) (k : Z) (n : nat) (x : Z) :
  session s L -> 0 <= k < 14 ->
  In x (candidates s n (nth (Z.to_nat k) (seg_list s) NULL)) ->
  exists s',
    coalesce x s = Some (merged_bp s x, s') /\
    block_size s' (merged_bp s x) = merged_size s x /\
    same_arena s s' /\ owns s' L /\
    forall q, In q L -> untouched s s' q.
Proof.
  intros Hs Hk Hx. destruct (session_owns s L Hs) as (bs & fl & W & HL).
  pose proof W as [H _].
  rewrite (hp_candidates s bs fl k n H Hk) in Hx. apply in_firstn in Hx.
  destruct (hp_listed _ _ _ H k x Hk Hx) as (b & Ib & <- & Cb).
  assert (Lb : listed fl b) by (unfold listed; rewrite Cb; exact Hx).
  destruct (in_split _ _ Ib) as (pre & post & E).
  revert W H HL Ib Lb. rewrite E. intros W H HL Ib Lb.
  destruct (merged_block s fl pre post b H) as (Mp & Ms & _).
  destruct (wf_coalesce s fl pre post b W Lb)
    as (s' & bs' & fl' & b' & R & W' & Ar & Ch & Ib' & _ & Pb' & Sb' & Live & _).
  pose proof W' as [H' _].
  exists s'. rewrite Mp, Ms, <- Pb', <- Sb'.
  split; [exact R|].
  split; [apply (block_size_live s' bs' fl' b' H' Ib')|].
  split; [exact Ar|].
  split; [apply (owns_same s' _ bs' fl fl' L W' HL Live)|].
  intros q Hq. apply HL in Hq. destruct Hq as (c & Lc & <-).
  apply (block_untouched s s' _ bs' fl fl' c H H' (proj1 Lc)).
  - apply Live. exact Lc.
  - intros a Ha.
    refine (keeps_intro s _ fl (bytes s) (bytes s') H _ c a Lc Ha).
    apply (changes_within_weaken _ _ _ _ Ch). intros y Hy. right. exact Hy.
Qed.

Lemma session_coalesce_merges_witness :
  exists s',
    coalesce 65600 served = Some (merged_bp served 65600, s') /\
    block_size s' (merged_bp served 65600) = merged_size served 65600 /\
    same_arena served s' /\ owns s' [65568] /\
    forall q, In q [65568] -> untouched served s' q.
Proof.
  apply (session_coalesce_merges served [65568] 7 32 65600).
  - served_session.
  - lia.
  - vm_compute. left. reflexivity.
Defined.

(** X20.  In a session place of a request of asize bytes (a multiple of
    16, 32 at least) in a block met on the walk of a list and large
    enough, when the local next_block is calm, returns the block, now
    owned.  The block is split exactly when 32 bytes or more are over: it
    then has asize bytes and the rest is a block marked free right after
    it; otherwise the block keeps its size.  Every block owned before
    keeps its size and its payload bytes. *)
Theorem session_place_splits (s : heap) (L : list Z) (k : Z) (n : nat) (x nb asize : Z) :
  session s L -> 0 <= k < 14 ->
  In x (candidates s n (nth (Z.to_nat k) (seg_list s) NULL)) ->
  calm s L nb -> 32 <= asize -> asize mod 16 = 0 -> asize <= block_size s x ->
  exists s',
    place nb x asize s = Some (x, s') /\ owns s' (x :: L) /\
    block_size s' x =
      (if block_size s x - asize >=? MIN_BLOCK_SIZE then asize else block_size s x) /\
    (32 <= block_size s x - asize ->
     block_size s' (x + asize) = block_size s x - asize /\
     marked_free s' (x + asize) = true) /\
    forall q, In q L -> untouched s s' q.
Proof.
  intros Hs Hk Hx Hnb Ha Hma Hfit.
  destruct (session_owns s L Hs) as (bs & fl & W & HL).
  pose proof (calm_settled s bs fl L nb W HL Hnb) as Hst.
  pose proof W as [H _].
  rewrite (hp_candidates s bs fl k n H Hk) in Hx. apply in_firstn in Hx.
  destruct (hp_listed _ _ _ H k x Hk Hx) as (b & Ib & <- & Cb).
  assert (Lb : listed fl b) by (unfold listed; rewrite Cb; exact Hx).
  rewrite (block_size_live s bs fl b H Ib) in *.
  destruct (in_split _ _ Ib) as (pre & post & E).
  revert W H HL Ib Lb Hst. rewrite E. intros W H HL Ib Lb Hst.
  destruct (wf_place_split s fl pre post b nb asize W Lb Hst Ha Hma Hfit)
    as (s' & bs' & fl' & b1 & R & W' & Ar & Ch & I1 & P1 & _ & _ & F1 & Live & _ & Fresh
        & Sz & Rem).
  pose proof W' as [H' _].
  pose proof (hp_arena _ _ _ H') as [Alo Ahi].
  exists s'. split; [exact R|]. split; [|split; [|split]].
  - exists bs', fl'. split; [exact W'|].
    intros q. simpl. rewrite HL. split.
    + intros [<-|(c & Lc & Ec)].
      * exists b1. split; [apply Live; right; reflexivity|exact P1].
      * exists c. split; [apply Live; left; exact Lc|exact Ec].
    + intros (c & Lc & Ec). apply Live in Lc. destruct Lc as [Lc| ->].
      * right. exists c. auto.
      * left. symmetry. rewrite <- Ec. exact P1.
  - rewrite <- P1. rewrite (block_size_live s' bs' fl' b1 H' I1). exact Sz.
  - intros Hrem. destruct (Rem Hrem) as (b2 & I2 & _ & P2 & S2 & F2).
    rewrite <- P2, <- S2.
    split; [apply (block_size_live s' bs' fl' b2 H' I2)|].
    pose proof (hp_in _ _ _ H' _ I2) as (C1 & C2 & C3 & C4 & C5).
    destruct (hp_tagged _ _ _ H' _ I2) as [T1 _].
    unfold marked_free. rewrite p_to_header_eq by lia. rewrite T1.
    rewrite tagw_alloc by assumption. rewrite F2. reflexivity.
  - intros q Hq. apply HL in Hq. destruct Hq as (c & Lc & <-).
    apply (block_untouched s s' _ bs' fl fl' c H H' (proj1 Lc)).
    + apply Live. left. exact Lc.
    + intros a Hin.
      refine (keeps_intro s _ fl (bytes s) (bytes s') H _ c a Lc Hin).
      apply (changes_within_weaken _ _ _ _ Ch). intros y Hy. right. exact Hy.
Qed.

Lemma session_place_splits_witness :
  exists s',
    place 65552 65600 48 served = Some (65600, s') /\ owns s' (65600 :: [65568]) /\
    block_size s' 65600 =
      (if block_size served 65600 - 48 >=? MIN_BLOCK_SIZE
       then 48 else block_size served 65600) /\
    (32 <= block_size served 65600 - 48 ->
     block_size s' (65600 + 48) = block_size served 65600 - 48 /\
     marked_free s' (65600 + 48) = true) /\
    forall q, In q [65568] -> untouched served s' q.
Proof.
  apply (session_place_splits served [65568] 7 32 65600 65552 48).
  - served_session.
  - lia.
  - vm_compute. left. reflexivity.
  - left. vm_compute. reflexivity.
  - lia.
  - reflexivity.
  - vm_compute. discriminate.
Defined.

(** ** Requests that return, requests that fault *)





(** ** Released memory is found again *)



(** X23.  In a session the release of an owned pointer puts the merged
    block at the head of the list of its size class: the head of that
    list is then the address of the merged block, and the walk of the
    list begins with it. *)
Theorem session_free_inserts_at_head (s : heap) (L : list Z) (p : Z) :
  session s L -> In p L ->
  exists s',
    free p s = Some (tt, s') /\
    nth (Z.to_nat (search_seg_list (merged_size s p))) (seg_list s') NULL = merged_bp s p /\
    forall n, hd NULL (candidates s' (S n) (merged_bp s p)) = merged_bp s p.
Proof.
  intros Hs Hp. destruct (session_owns s L Hs) as (bs & fl & W & HL).
  apply HL in Hp. destruct Hp as (b & Lb & <-).
  destruct (in_split _ _ (proj1 Lb)) as (pre & post & E).
  revert W Lb HL. rewrite E. intros W Lb HL.
  pose proof W as [H _].
  destruct (merged_block s fl pre post b H) as (Mp & Ms & _).
  destruct (wf_free_head s fl pre post b W (proj2 Lb))
    as (s' & bs' & fl' & b' & Rf & [H' _] & _ & _ & Ib' & _ & Pb' & Sb' & _ & _ & _ & Hd).
  exists s'. rewrite Mp, Ms, <- Pb', <- Sb'.
  split; [exact Rf|]. split; [exact Hd|].
  intros n.
  pose proof (hp_in _ _ _ H' _ Ib') as (C1 & _).
  pose proof (hp_arena _ _ _ H') as [Alo _].
  change (candidates s' (S n) (b_ptr b')) with
    (if b_ptr b' =? NULL then []
     else b_ptr b' :: candidates s' n (load8 (bytes s') (next_freebp (b_ptr b')))).
  destruct (Z.eqb_spec (b_ptr b') NULL) as [E0|_]; [unfold NULL in E0; lia|reflexivity].
Qed.

Lemma session_free_inserts_at_head_witness :
  exists s',
    free 65568 served_twice = Some (tt, s') /\
    nth (Z.to_nat (search_seg_list (merged_size served_twice 65568))) (seg_list s') NULL =
      merged_bp served_twice 65568 /\
    forall n, hd NULL (candidates s' (S n) (merged_bp served_twice 65568)) =
              merged_bp served_twice 65568.
Proof.
  apply (session_free_inserts_at_head served_twice [65600; 65568] 65568).
  - apply (session_malloc served [65568] 65552 16 65600 served_twice).
    + served_session.
    + left. vm_compute. reflexivity.
    + lia.
    + vm_compute. reflexivity.
    + apply (run_eq (malloc 65552 16) served 65600). vm_compute. reflexivity.
  - right. left. reflexivity.
Defined.



(** ** Null pointers and empty requests *)

(** X25.  The calls with a null pointer or an empty request, which a
    session leaves out, are these: malloc(0) returns NULL and free(NULL)
    returns, both without a change of the state; calloc with a count or
    an element size of 0 returns NULL without a change; realloc(NULL, n)
    is malloc(n); and realloc(p, 0) of an owned pointer p returns NULL
    after the release of p, so that the session goes on without p. *)
Theorem session_null_and_zero (s : heap) (L : list Z) (nb p n : Z) :
  session s L -> In p L ->
  malloc nb 0 s = Some (NULL, s) /\
  free NULL s = Some (tt, s) /\
  calloc nb 0 n s = Some (NULL, s) /\
  calloc nb n 0 s = Some (NULL, s) /\
  realloc nb NULL n s = malloc nb n s /\
  exists s', realloc nb p 0 s = Some (NULL, s') /\ free p s = Some (tt, s') /\
             session s' (remove Z.eq_dec p L).
Proof.
  intros Hs Hp.
  split; [reflexivity|]. split; [reflexivity|].
  split; [unfold calloc; rewrite Z.mul_0_r; reflexivity|].
  split; [unfold calloc; rewrite Z.mul_0_l; reflexivity|].
  split; [reflexivity|].
  destruct (session_free_returns s L p Hs Hp) as (s' & Rf & Hs').
  exists s'. split; [|split; [exact Rf|exact Hs']].
  destruct (session_owns s L Hs) as (bs & fl & [H _] & HL).
  apply HL in Hp. destruct Hp as (b & [Ib _] & <-).
  pose proof (hp_in _ _ _ H _ Ib) as (B1 & _).
  pose proof (hp_arena _ _ _ H) as [Alo _].
  unfold realloc.
  destruct (Z.eqb_spec (b_ptr b) NULL) as [E|_]; [unfold NULL in E; lia|].
  change (0 =? 0) with true. cbv iota.
  step_by ltac:(exact Rf). reflexivity.
Qed.

Lemma session_null_and_zero_witness :
  malloc 65552 0 served = Some (NULL, served) /\
  free NULL served = Some (tt, served) /\
  calloc 65552 0 8 served = Some (NULL, served) /\
  calloc 65552 8 0 served = Some (NULL, served) /\
  realloc 65552 NULL 8 served = malloc 65552 8 served /\
  exists s', realloc 65552 65568 0 served = Some (NULL, s') /\
             free 65568 served = Some (tt, s') /\
             session s' (remove Z.eq_dec 65568 [65568]).
Proof.
  apply (session_null_and_zero served [65568] 65552 65568 8).
  - served_session.
  - left. reflexivity.
Defined.
